(* ===== verification/_CoqProject ===== *)
-Q . S2P
Prelude.v
GoStrings.v
GoTime.v
GoNet.v
GoUrl.v
TimeLaws.v
GoHttp.v
Json.v
Utf8.v
JsonEncode.v
Iam.v
Errors.v
Cache.v
Flight.v
FloatLaws.v
Client.v
ClientInv.v
ClientHistory.v
ClientCoherence.v
ClientHosts.v
Watch.v
Jitter.v
WatchSpec.v
Config.v
Readiness.v
Process.v
Names.v
CopySource.v
Operation.v
S3Authz.v
OperationSpec.v
PlanSpec.v
Outbound.v
Crypto.v
Base64.v
Token.v
ListRewrite.v
GoURLs.v
GoURLLaws.v
Mapping.v
Lookup.v
LookupSpec.v
Auth.v
AuthSpec.v
CanonicalRequest.v
SignVerify.v
Xml.v
Response.v
ResponseSpec.v
Middleware.v
Sharing.v
SharingSpec.v
MiddlewareSpec.v
Proxy.v
ProxySpec.v
ServeSpec.v
AvailabilitySpec.v
