(* ===== verification/Prelude.v ===== *)
(** * vbuckets: a verification of the multi-tenant S3 proxy

    ** The program

    vbuckets is an HTTP proxy that gives tenants virtual S3 buckets.  A client signs a
    request with virtual credentials (AWS Signature Version 4); the proxy authenticates
    it, finds the virtual bucket in its host or path, classifies it as one S3 operation,
    authorizes that operation with the IAM policy of the credentials, and sends one newly
    signed request to the real bucket of the mapping, under the mapping's key prefix.
    What the backend answers is virtualized: keys lose the prefix, bucket names and
    tokens are replaced, headers and error documents that could name the backend are
    dropped.  Credentials, mappings and base domains come from a control plane over gRPC:
    a revisioned watch keeps a client synchronized, lookups are cached until a delta
    revokes them, and every request must have been resolved at one revision.

    Its parts and how they call each other:
    - [http_server/s3_middleware.go] (authentication middleware) calls the signature
      verifier ([s3_auth.go]), the resolver, the planner ([s3_operation.go],
      [s3_copy.go]) and the authorizer ([iam.go] over [iam/policy.go]);
    - [http_server/s3_proxy.go] (handlers) calls the mapping ([vbucket.go]), the query
      rewriter ([s3_list_rewrite.go]), the tokens ([s3_token.go]), the signer, and
      [s3_response.go] on the way back;
    - [controlplane/lookup.go] implements the resolver with the caches and the shared
      loads of [cache.go], over the state machine of [watch.go] and [client.go];
    - [controlplane/errors.go] and [http_server/resolver_errors.go] are the errors of the
      boundary between the two.

    ** Files

    What is used of Go's language and standard library, executable and from its
    documentation and sources: [GoStrings] (strings, strconv, unicode, utf8), [GoTime]
    (time, parsing of floats), [GoNet] (net), [GoUrl] and [GoURLs] (net/url), [GoHttp]
    (net/http headers and requests), [Json] and [JsonEncode] (encoding/json), [Crypto] (SHA-256, HMAC,
    AES-256-GCM, hex), [Base64], [Xml] (tokens of encoding/xml).  [TimeLaws],
    [Utf8], [JsonEncode] and [GoURLLaws] prove their round trips.

    The program:
    - [Iam]: [iam/policy.go], parsing, compilation, evaluation of policies;
    - [Errors]: error values, wrapping, [errors.Is], and the resolver boundary;
    - [Cache]: [localCache] of [controlplane/cache.go] with element identities, and the
      class [TimedStore] that states what the client needs of a cache; [Flight]:
      [loadGroup] and [missAdmission] of the same file as shared-memory steps;
    - [Client]: the fields and critical sections of [client.go] and [watch.go], and
      histories as interleavings of them; [ClientInv], [ClientHistory],
      [ClientCoherence], [ClientHosts] hold the invariant and the theorems on histories;
      [Watch] and [WatchSpec]: the goroutine that runs [Run] and [connect], its timers,
      its reconnections and its backoff; [FloatLaws] and [Jitter]: the rounding errors of
      the floats it computes a pause with;
    - [Lookup]: the resolver calls of [lookup.go] as programs of critical sections, waits
      and RPCs; [LookupSpec]: a rely-guarantee logic for them and linearizability;
    - [Names], [CopySource], [Operation]: syntax of names, copy sources, object keys, and
      the planner; [S3Authz]: [iam.go]; [OperationSpec], [PlanSpec]: the planner against
      a table of operations;
    - [Token], [ListRewrite], [Mapping], [Outbound]: [s3_token.go],
      [s3_list_rewrite.go], [vbucket.go], the outbound header of [s3_proxy.go];
    - [Auth]: [s3_auth.go]; [AuthSpec], [CanonicalRequest], [SignVerify]: its theorems;
    - [Response], [ResponseSpec]: [s3_response.go];
    - [Middleware], [MiddlewareSpec]: [s3_middleware.go] over the resolver's programs;
    - [Sharing], [SharingSpec]: the plan as Go keeps it, a record of pointers to maps and
      slices on a heap, with the clones of [s3_operation.go] and [iam.go];
    - [Proxy], [ProxySpec]: [s3_proxy.go]; [ServeSpec]: the composition of all of it, and
      [AvailabilitySpec] its converse;
    - [Config]: [env/env.go], the options of [client.go], the transport choices of
      [transport.go]; [Readiness]: the status and counters of [client.go] and the readiness
      and health answers of [server.go], to their bytes; [Process]: the servers of
      [server.go], the logger's settings of [gologger] and [main.go], the life of the
      process as a machine of its listeners, the signal and the shutdowns.

    ** What the theorems show

    - End to end ([ServeSpec], [MiddlewareSpec], [ProxySpec]): on every schedule of the
      request, the watch, other requests and shared loads, a backend's answer reaches a
      client only if the request was authentic under credentials, and authorized by a
      policy, for a mapping that all belong to one revision accepted during the request;
      the request the backend gets is for the mapping's origin, bucket and prefix; the
      answer is the virtualized one.
    - Availability ([AvailabilitySpec]): a request that meets every check, that a ready
      client can resolve from its caches and that runs alone is sent and answered; no
      check turns it away.
    - Confinement ([ResponseSpec], [ListRewrite], [Token], [CopySource], [ProxySpec]):
      which headers and which fields of a document a client can see and a backend is
      sent, that keys, prefixes, tokens and copy sources are translated without loss and
      stay below the prefix, that a listing repeats the client's own request, and that a
      root with the S3 namespace leaves with that declaration twice.
    - Authentication ([AuthSpec], [CanonicalRequest], [SignVerify]): verification against
      a declarative list of conditions with the clock in exact nanoseconds, the overflow
      that lets dates of the far future pass it, what a signature covers, and that the
      proxy's own signatures verify.
    - Authorization ([Iam], [S3Authz], [OperationSpec], [PlanSpec]): evaluation against
      the matching statements, what a pattern's characters stand for, the meaning of
      conditions, which checks each operation makes and in which context.
    - Memory ([SharingSpec]): the plan that is authorized and dispatched is made of new,
      distinct cells, so values are a faithful model of it everywhere else.
    - Operation ([Config], [Process], [Readiness]): a configuration that loads is valid
      and is the environment's, and the connection's credentials are those it names; the
      process listens only with one, on two servers with separate routes, and ends as its
      signal and its listeners say; what a probe decodes from the readiness answer is the
      client's state.
    - Control plane ([ClientInv] to [ClientHosts], [Watch], [LookupSpec], [Cache],
      [Flight]): readiness means synchronized, revisions never go back, caches agree with
      the control plane at the accepted revision, lookups are linearizable and return,
      loads are shared, the cache refines an abstract LRU store, the connection loop
      keeps the history assumptions of those theorems and backs off within its bounds.

    ** Modelling choices

    - A Go function with an error result returns a [result]; error values keep their
      identity and the fixed part of their message, formatted arguments are dropped.  A
      panic the code can reach is an error of its own.
    - A Go string or byte slice is a [string] of bytes.  Integers are [Z] with their
      width written out where it can matter ([u64] epochs, int64 durations); floats are
      IEEE binary64 ([Flight]), multiply and add not fused.
    - A loop over a Go map visits [map_to_list]; where an answer could depend on that
      order the definition's comment says so.
    - Concurrency: a critical section is one step with one reading of the clock; a
      history is a list of steps.  A call in progress is a [prog]; [play] interleaves it
      with any moves of the rest of the system.  [loadCredentials] and [loadVBucket] are
      the two sections at the end of a load made one; the section between them only
      reads, so every interleaving of the parts is one of the whole.
    - Outside code is a parameter: [Platform] (protobuf durations, the public-suffix
      list), [Timestamps], [GrpcStatus] (status codes of errors), [XmlLexer] (how bytes
      lex into XML tokens), the control plane's replies, the backend ([upstream]), the
      clock, randomness and the end of contexts.
    - The URL parser is that of Go 1.26.

    ** Fuel

    Recursion that is not structural takes fuel computed from its input: [json_fuel] and
    the splitting, space-collapsing and unmarshalling functions take the length of what
    they consume, and each round consumes at least one byte or token; the IPv6 parser
    makes at most nine rounds, one per group; SHA-256, GHASH and counter mode take their
    number of blocks.  [rewrite_loop_fuel] proves that the rewriter's fuel, one more than
    the number of tokens, is enough, and [ParsePolicyJSON_total] that parsing a policy
    never stops for lack of fuel.

    ** Not modelled

    Routing, listening and graceful shutdown (chi, net/http), the writing of log lines
    (zerolog), the calls into gRPC and TLS in [transport.go] (dialing, certificates,
    interceptors), the generated [api/v1] code (its messages are records here),
    [internal/s3test] (used by tests only).  The counters are a value of their own, which
    the status copies: the code and latency of an RPC are modelled, the increments inside
    the lookups, the caches and the loads are not; no decision reads them. *)

(** ** This file: errors, tactics and the lemmas every component shares *)
From Stdlib Require Export ZArith Lia Ascii.
From stdpp Require Export gmap strings fin_maps numbers list prelude.

(** Fallible Go functions return [(T, error)]; here they return a [result]
    whose error side is the component's own error type. *)
Inductive result (E A : Type) : Type :=
| Ok (a : A)
| Err (e : E).
Global Arguments Ok {E A} a.
Global Arguments Err {E A} e.

Global Open Scope Z_scope.

Declare Scope go_scope.
Delimit Scope go_scope with go.
Open Scope go_scope.

(** [v, err := c; if err != nil { return err }; k] *)
Notation "'let?' x ':=' c 'in' k" :=
  (match c with Ok x => k | Err e => Err e end)
  (at level 10, x pattern, c at level 100, k at level 200) : go_scope.

(** [if b { return err }; k] *)
Notation "'reject' b 'with' e ';;' k" :=
  (if b then Err e else k)
  (at level 10, b at level 99, e at level 99, k at level 200) : go_scope.

Definition is_ok {E A} (r : result E A) : bool :=
  match r with Ok _ => true | Err _ => false end.

Definition res_map {E A B} (f : A -> B) (r : result E A) : result E B :=
  match r with Ok a => Ok (f a) | Err e => Err e end.

Definition res_map_err {E F A} (f : E -> F) (r : result E A) : result F A :=
  match r with Ok a => Ok a | Err e => Err (f e) end.

(** The loop [for _, x := range l { y, err := f(x); if err != nil { return err };
    out = append(out, y) }]. *)
Fixpoint res_mapM {E A B} (f : A -> result E B) (l : list A) : result E (list B) :=
  match l with
  | [] => Ok []
  | x :: l =>
      let? y := f x in
      let? ys := res_mapM f l in
      Ok (y :: ys)
  end.

(** The loop [for _, x := range l { if err := f(x); err != nil { return err } }]. *)
Fixpoint res_iter {E A} (f : A -> result E unit) (l : list A) : result E unit :=
  match l with
  | [] => Ok tt
  | x :: l => let? _ := f x in res_iter f l
  end.

(** Machine integers are [Z]s kept in range by writing out the wrap-around. *)
Definition u64 (z : Z) : Z := z mod 2 ^ 64.
Definition i64 (z : Z) : Z := (z + 2 ^ 63) mod 2 ^ 64 - 2 ^ 63.
Definition max_int64 : Z := 2 ^ 63 - 1.
Definition min_int64 : Z := - 2 ^ 63.

(** ** Tactics *)

Create HintDb vb.

(** Case analysis on every [match] of the goal or of one hypothesis, with the
    impossible branches closed. *)
Ltac split_matches :=
  repeat (case_match; simplify_eq/=; try done).

Ltac split_matches_in H :=
  repeat (match type of H with
          | context [match ?x with _ => _ end] =>
              let E := fresh "E" in destruct x eqn:E
          end; simplify_eq/=; try done).

(** Turn boolean tests into the propositions they decide. *)
Ltac bool_to_prop :=
  repeat match goal with
  | H : _ && _ = true |- _ => apply andb_true_iff in H as [? ?]
  | H : _ || _ = false |- _ => apply orb_false_iff in H as [? ?]
  | H : _ || _ = true |- _ => apply orb_true_iff in H
  | H : _ && _ = false |- _ => apply andb_false_iff in H
  | H : negb _ = true |- _ => apply negb_true_iff in H
  | H : negb _ = false |- _ => apply negb_false_iff in H
  | H : String.eqb _ _ = true |- _ => apply String.eqb_eq in H
  | H : String.eqb _ _ = false |- _ => apply String.eqb_neq in H
  | H : Z.eqb _ _ = true |- _ => apply Z.eqb_eq in H
  | H : Z.eqb _ _ = false |- _ => apply Z.eqb_neq in H
  | H : Z.leb _ _ = true |- _ => apply Z.leb_le in H
  | H : Z.leb _ _ = false |- _ => apply Z.leb_gt in H
  | H : Z.ltb _ _ = true |- _ => apply Z.ltb_lt in H
  | H : Z.ltb _ _ = false |- _ => apply Z.ltb_ge in H
  | H : bool_decide _ = true |- _ => apply bool_decide_eq_true in H
  | H : bool_decide _ = false |- _ => apply bool_decide_eq_false in H
  end.

(** ** Results *)

Lemma Ok_inj {E A} (a b : A) : (Ok a : result E A) = Ok b -> a = b.
Proof. congruence. Qed.

Lemma is_ok_true {E A} (r : result E A) : is_ok r = true <-> exists a, r = Ok a.
Proof. destruct r; simpl; split; [eauto|done|done|by intros [? ?]]. Qed.

Lemma res_mapM_Ok {E A B} (f : A -> result E B) l ys :
  res_mapM f l = Ok ys <-> Forall2 (fun x y => f x = Ok y) l ys.
Proof.
  split.
  - revert ys; induction l as [|x l IH]; simpl; intros ys H; simplify_eq/=; auto.
    split_matches_in H. eauto.
  - induction 1 as [|x y l ys Hx _ IH]; simpl; [done|]. by rewrite Hx, IH.
Qed.

Lemma res_mapM_length {E A B} (f : A -> result E B) l ys :
  res_mapM f l = Ok ys -> length ys = length l.
Proof. intros H%res_mapM_Ok. symmetry. by eapply Forall2_length. Qed.

Lemma res_iter_Ok {E A} (f : A -> result E unit) l :
  res_iter f l = Ok tt <-> Forall (fun x => f x = Ok tt) l.
Proof.
  induction l as [|x l IH]; simpl; [by split|].
  rewrite Forall_cons, <-IH. destruct (f x) as [[]|]; intuition congruence.
Qed.

(** ** Integers *)

Lemma u64_range z : 0 <= u64 z < 2 ^ 64.
Proof. apply Z.mod_pos_bound. lia. Qed.

Lemma u64_small z : 0 <= z < 2 ^ 64 -> u64 z = z.
Proof. apply Z.mod_small. Qed.

Lemma i64_range z : min_int64 <= i64 z <= max_int64.
Proof.
  unfold i64, min_int64, max_int64.
  pose proof (Z.mod_pos_bound (z + 2 ^ 63) (2 ^ 64) ltac:(lia)). lia.
Qed.

Lemma i64_small z : min_int64 <= z <= max_int64 -> i64 z = z.
Proof.
  unfold i64, min_int64, max_int64. intros ?.
  rewrite Z.mod_small; lia.
Qed.

#[export] Hint Resolve u64_range i64_range : vb.

(** ** Lists and maps *)

Lemma forallb_elem_of {A} (f : A -> bool) l :
  forallb f l = true <-> (forall x, x ∈ l -> f x = true).
Proof.
  rewrite forallb_forall. setoid_rewrite list_elem_of_In. done.
Qed.

Lemma existsb_elem_of {A} (f : A -> bool) l :
  existsb f l = true <-> (exists x, x ∈ l /\ f x = true).
Proof.
  rewrite existsb_exists. setoid_rewrite list_elem_of_In. done.
Qed.

(** [list_filter_iff] relative to the elements of the list. *)
Lemma list_filter_iff_Forall {A} (P Q : A -> Prop)
    `{!forall x, Decision (P x), !forall x, Decision (Q x)} (l : list A) :
  Forall (fun x => P x <-> Q x) l -> filter P l = filter Q l.
Proof.
  induction 1 as [|x l Hx _ IH]; [done|].
  rewrite !filter_cons, IH. by apply decide_ext.
Qed.

Section filters.
Context {A : Type} (P : A -> Prop) `{!forall x, Decision (P x)}.

Lemma list_filter_nil (l : list A) :
  (forall x, x ∈ l -> ~ P x) -> filter P l = [].
Proof.
  intros HP. destruct (filter P l) as [|x l'] eqn:E; [done|].
  assert (x ∈ filter P l) as [Hx Hin]%list_elem_of_filter by (rewrite E; set_solver).
  exfalso. by apply (HP x).
Qed.

Lemma list_filter_all (l : list A) :
  (forall x, x ∈ l -> P x) -> filter P l = l.
Proof.
  induction l as [|x l IH]; intros HP; [done|].
  rewrite filter_cons_True by (apply HP; set_solver). f_equal. apply IH. set_solver.
Qed.

Lemma NoDup_fmap_filter {B} (f : A -> B) (l : list A) :
  NoDup (f <$> l) -> NoDup (f <$> filter P l).
Proof.
  induction l as [|x l IH]; [done|]. rewrite fmap_cons, NoDup_cons. intros [Hni Hnd].
  rewrite filter_cons. case_decide; [|auto].
  rewrite fmap_cons, NoDup_cons. split; [|auto].
  intros (y & Hy & [_ ?]%list_elem_of_filter)%list_elem_of_fmap.
  apply Hni. rewrite Hy. by apply list_elem_of_fmap_2.
Qed.
End filters.

Section maps.
Context `{Countable K} {V : Type}.

(** [for k, v := range m { if !f(k, v) { return false } }; return true] *)
Definition map_forallb (f : K -> V -> bool) (m : gmap K V) : bool :=
  forallb (fun kv => f kv.1 kv.2) (map_to_list m).

(** [for k, v := range m { if f(k, v) { return true } }; return false] *)
Definition map_existsb (f : K -> V -> bool) (m : gmap K V) : bool :=
  existsb (fun kv => f kv.1 kv.2) (map_to_list m).

Lemma map_forallb_true (f : K -> V -> bool) (m : gmap K V) :
  map_forallb f m = true <-> (forall k v, m !! k = Some v -> f k v = true).
Proof.
  unfold map_forallb. rewrite forallb_elem_of. split.
  - intros Hf k v Hk. by apply (Hf (k, v)), elem_of_map_to_list.
  - intros Hf [k v] Hk%elem_of_map_to_list. by apply Hf.
Qed.

Lemma map_existsb_true (f : K -> V -> bool) (m : gmap K V) :
  map_existsb f m = true <-> (exists k v, m !! k = Some v /\ f k v = true).
Proof.
  unfold map_existsb. rewrite existsb_elem_of. split.
  - intros ([k v] & Hk%elem_of_map_to_list & Hf). eauto.
  - intros (k & v & Hk & Hf). exists (k, v). by rewrite elem_of_map_to_list.
Qed.
End maps.
