(* ===== verification/GoStrings.v ===== *)
(** * GoStrings: the parts of [strings], [strconv], [unicode] and [unicode/utf8]
    that the program uses

    A Go string is a sequence of bytes: here a [string], whose characters are the
    bytes.  Functions that work on code points decode UTF-8 first, with Go's rule
    that a byte that starts no valid encoding stands for U+FFFD.  Case mapping is
    table driven as in the Go package: [lower_ranges] is the simple lower-case
    mapping of Unicode. *)
From stdpp Require Import pretty.
From S2P Require Import Prelude.

(** ** Bytes *)

Definition byte_val (c : ascii) : Z := Z.of_N (N_of_ascii c).
Definition byte_chr (z : Z) : ascii := ascii_of_N (Z.to_N z).
Definition chr (z : Z) : string := String (byte_chr z) "".

Definition str_len (s : string) : Z := Z.of_nat (String.length s).

Fixpoint str_drop (n : nat) (s : string) : string :=
  match n, s with
  | O, _ => s
  | S n, String _ s => str_drop n s
  | S _, "" => ""
  end.

Fixpoint str_take (n : nat) (s : string) : string :=
  match n, s with
  | S n, String c s => String c (str_take n s)
  | _, _ => ""
  end.

Fixpoint str_concat (l : list string) : string :=
  match l with [] => "" | s :: l => s +:+ str_concat l end.

Fixpoint str_forallb (f : ascii -> bool) (s : string) : bool :=
  match s with "" => true | String c s => f c && str_forallb f s end.

(** Go's [<] on strings: byte-wise lexicographic order. *)
Fixpoint str_ltb (s t : string) : bool :=
  match s, t with
  | _, "" => false
  | "", String _ _ => true
  | String a s, String b t =>
      if Ascii.eqb a b then str_ltb s t else byte_val a <? byte_val b
  end.

(** ** Package strings *)

Fixpoint HasPrefix (s p : string) {struct p} : bool :=
  match p, s with
  | "", _ => true
  | String a p, String b s => Ascii.eqb a b && HasPrefix s p
  | String _ _, "" => false
  end.

Definition HasSuffix (s p : string) : bool :=
  (String.length p <=? String.length s)%nat
  && String.eqb (str_drop (String.length s - String.length p) s) p.

Definition TrimPrefix (s p : string) : string :=
  if HasPrefix s p then str_drop (String.length p) s else s.

Definition TrimSuffix (s p : string) : string :=
  if HasSuffix s p then str_take (String.length s - String.length p) s else s.

Fixpoint Contains (s sub : string) : bool :=
  HasPrefix s sub || match s with "" => false | String _ s => Contains s sub end.

(** [strings.Cut]: [None] when the separator does not occur. *)
Fixpoint Cut (s sep : string) : option (string * string) :=
  if HasPrefix s sep then Some ("", str_drop (String.length sep) s)
  else match s with
       | "" => None
       | String c s =>
           match Cut s sep with
           | Some (before, after) => Some (String c before, after)
           | None => None
           end
       end.

(** [strings.Split] for a nonempty separator; the fuel is the number of bytes
    left, and every cut consumes at least one of them. *)
Fixpoint split_fuel (fuel : nat) (s sep : string) : list string :=
  match fuel with
  | O => [s]
  | S fuel =>
      match Cut s sep with
      | None => [s]
      | Some (before, after) => before :: split_fuel fuel after sep
      end
  end.

Definition Split (s sep : string) : list string := split_fuel (String.length s) s sep.

(** [strings.SplitN] with [n > 0]: at most [n] pieces. *)
Fixpoint SplitN (s sep : string) (n : nat) : list string :=
  match n with
  | O => []
  | S O => [s]
  | S n =>
      match Cut s sep with
      | None => [s]
      | Some (before, after) => before :: SplitN after sep n
      end
  end.

Fixpoint Join (l : list string) (sep : string) : string :=
  match l with
  | [] => ""
  | [s] => s
  | s :: l => s +:+ sep +:+ Join l sep
  end.

(** [strings.Trim] with an ASCII cut set. *)
Definition in_cutset (cutset : string) (c : ascii) : bool :=
  existsb (Ascii.eqb c) (String.list_ascii_of_string cutset).

Fixpoint TrimLeft (s cutset : string) : string :=
  match s with
  | "" => ""
  | String c s' => if in_cutset cutset c then TrimLeft s' cutset else s
  end.

Fixpoint TrimRight (s cutset : string) : string :=
  match s with
  | "" => ""
  | String c s' =>
      match TrimRight s' cutset with
      | "" => if in_cutset cutset c then "" else String c ""
      | t => String c t
      end
  end.

Definition Trim (s cutset : string) : string := TrimRight (TrimLeft s cutset) cutset.

(** [strings.ReplaceAll(s, "  ", " ")]: non-overlapping, left to right. *)
Fixpoint replace_double_space (s : string) : string :=
  match s with
  | "" => ""
  | String a s0 =>
      match s0 with
      | "" => s
      | String b s1 =>
          if Ascii.eqb a " " && Ascii.eqb b " " then String " " (replace_double_space s1)
          else String a (replace_double_space s0)
      end
  end.

(** ** Package unicode/utf8 *)

Definition RuneError : Z := 65533.

Definition is_cont (c : ascii) : bool := (128 <=? byte_val c) && (byte_val c <=? 191).

Definition in_range (lo hi z : Z) : bool := (lo <=? z) && (z <=? hi).

(** The code points of a string with the bytes of each: [range] over a string.
    The admissible ranges of the second byte are those of the Go tables. *)
Fixpoint runes (s : string) : list (Z * string) :=
  match s with
  | "" => []
  | String c0 s0 =>
      let b0 := byte_val c0 in
      let bad (_ : unit) := (RuneError, String c0 "") :: runes s0 in
      if b0 <? 128 then (b0, String c0 "") :: runes s0
      else if in_range 194 223 b0 then
        match s0 with
        | String c1 s1 =>
            if is_cont c1 then
              ((b0 - 192) * 64 + (byte_val c1 - 128), String c0 (String c1 "")) :: runes s1
            else bad tt
        | _ => bad tt
        end
      else if in_range 224 239 b0 then
        match s0 with
        | String c1 (String c2 s2) =>
            if in_range (if b0 =? 224 then 160 else 128) (if b0 =? 237 then 159 else 191)
                 (byte_val c1) && is_cont c2 then
              ((b0 - 224) * 4096 + (byte_val c1 - 128) * 64 + (byte_val c2 - 128),
               String c0 (String c1 (String c2 ""))) :: runes s2
            else bad tt
        | _ => bad tt
        end
      else if in_range 240 244 b0 then
        match s0 with
        | String c1 (String c2 (String c3 s3)) =>
            if in_range (if b0 =? 240 then 144 else 128) (if b0 =? 244 then 143 else 191)
                 (byte_val c1) && is_cont c2 && is_cont c3 then
              ((b0 - 240) * 262144 + (byte_val c1 - 128) * 4096 + (byte_val c2 - 128) * 64
                 + (byte_val c3 - 128),
               String c0 (String c1 (String c2 (String c3 "")))) :: runes s3
            else bad tt
        | _ => bad tt
        end
      else bad tt
  end.

Definition rune_values (s : string) : list Z := (runes s).*1.

(** [utf8.ValidString]: no byte was decoded as an error. *)
Definition ValidString (s : string) : bool :=
  forallb (fun r => negb ((r.1 =? RuneError) && (String.length r.2 =? 1)%nat)) (runes s).

(** [utf8.AppendRune]; surrogates and out-of-range values encode U+FFFD. *)
Definition encode_rune (r : Z) : string :=
  let r := if (r <? 0) || (1114111 <? r) || in_range 55296 57343 r then RuneError else r in
  if r <? 128 then chr r
  else if r <? 2048 then chr (192 + r / 64) +:+ chr (128 + r mod 64)
  else if r <? 65536 then
    chr (224 + r / 4096) +:+ chr (128 + r / 64 mod 64) +:+ chr (128 + r mod 64)
  else
    chr (240 + r / 262144) +:+ chr (128 + r / 4096 mod 64) +:+ chr (128 + r / 64 mod 64)
      +:+ chr (128 + r mod 64).

(** ** Package unicode *)

(** [unicode.IsControl]: category Cc. *)
Definition IsControl (r : Z) : bool := in_range 0 31 r || in_range 127 159 r.

(** [unicode.IsSpace]: the White_Space property. *)
Definition IsSpace (r : Z) : bool :=
  in_range 9 13 r || (r =? 32) || (r =? 133) || (r =? 160) || (r =? 5760)
  || in_range 8192 8202 r || (r =? 8232) || (r =? 8233) || (r =? 8239)
  || (r =? 8287) || (r =? 12288).

(** Runs [(lo, hi, stride, delta)] of the simple lower-case mapping outside ASCII. *)
Definition lower_ranges : list (Z * Z * Z * Z) :=
  [
   (192, 214, 1, 32); (216, 222, 1, 32); (256, 302, 2, 1); (304, 304, 1, -199); (306,
   310, 2, 1); (313, 327, 2, 1); (330, 374, 2, 1); (376, 376, 1, -121); (377, 381, 2,
   1); (385, 385, 1, 210); (386, 388, 2, 1); (390, 390, 1, 206); (391, 391, 1, 1); (393,
   394, 1, 205); (395, 395, 1, 1); (398, 398, 1, 79); (399, 399, 1, 202); (400, 400, 1,
   203); (401, 401, 1, 1); (403, 403, 1, 205); (404, 404, 1, 207); (406, 406, 1, 211);
   (407, 407, 1, 209); (408, 408, 1, 1); (412, 412, 1, 211); (413, 413, 1, 213); (415,
   415, 1, 214); (416, 420, 2, 1); (422, 422, 1, 218); (423, 423, 1, 1); (425, 425, 1,
   218); (428, 428, 1, 1); (430, 430, 1, 218); (431, 431, 1, 1); (433, 434, 1, 217);
   (435, 437, 2, 1); (439, 439, 1, 219); (440, 440, 1, 1); (444, 444, 1, 1); (452, 452,
   1, 2); (453, 453, 1, 1); (455, 455, 1, 2); (456, 456, 1, 1); (458, 458, 1, 2); (459,
   475, 2, 1); (478, 494, 2, 1); (497, 497, 1, 2); (498, 500, 2, 1); (502, 502, 1, -97);
   (503, 503, 1, -56); (504, 542, 2, 1); (544, 544, 1, -130); (546, 562, 2, 1); (570,
   570, 1, 10795); (571, 571, 1, 1); (573, 573, 1, -163); (574, 574, 1, 10792); (577,
   577, 1, 1); (579, 579, 1, -195); (580, 580, 1, 69); (581, 581, 1, 71); (582, 590, 2,
   1); (880, 882, 2, 1); (886, 886, 1, 1); (895, 895, 1, 116); (902, 902, 1, 38); (904,
   906, 1, 37); (908, 908, 1, 64); (910, 911, 1, 63); (913, 929, 1, 32); (931, 939, 1,
   32); (975, 975, 1, 8); (984, 1006, 2, 1); (1012, 1012, 1, -60); (1015, 1015, 1, 1);
   (1017, 1017, 1, -7); (1018, 1018, 1, 1); (1021, 1023, 1, -130); (1024, 1039, 1, 80);
   (1040, 1071, 1, 32); (1120, 1152, 2, 1); (1162, 1214, 2, 1); (1216, 1216, 1, 15);
   (1217, 1229, 2, 1); (1232, 1326, 2, 1); (1329, 1366, 1, 48); (4256, 4293, 1, 7264);
   (4295, 4295, 1, 7264); (4301, 4301, 1, 7264); (5024, 5103, 1, 38864); (5104, 5109, 1,
   8); (7312, 7354, 1, -3008); (7357, 7359, 1, -3008); (7680, 7828, 2, 1); (7838, 7838,
   1, -7615); (7840, 7934, 2, 1); (7944, 7951, 1, -8); (7960, 7965, 1, -8); (7976, 7983,
   1, -8); (7992, 7999, 1, -8); (8008, 8013, 1, -8); (8025, 8031, 2, -8); (8040, 8047,
   1, -8); (8072, 8079, 1, -8); (8088, 8095, 1, -8); (8104, 8111, 1, -8); (8120, 8121,
   1, -8); (8122, 8123, 1, -74); (8124, 8124, 1, -9); (8136, 8139, 1, -86); (8140, 8140,
   1, -9); (8152, 8153, 1, -8); (8154, 8155, 1, -100); (8168, 8169, 1, -8); (8170, 8171,
   1, -112); (8172, 8172, 1, -7); (8184, 8185, 1, -128); (8186, 8187, 1, -126); (8188,
   8188, 1, -9); (8486, 8486, 1, -7517); (8490, 8490, 1, -8383); (8491, 8491, 1, -8262);
   (8498, 8498, 1, 28); (8544, 8559, 1, 16); (8579, 8579, 1, 1); (9398, 9423, 1, 26);
   (11264, 11311, 1, 48); (11360, 11360, 1, 1); (11362, 11362, 1, -10743); (11363,
   11363, 1, -3814); (11364, 11364, 1, -10727); (11367, 11371, 2, 1); (11373, 11373, 1,
   -10780); (11374, 11374, 1, -10749); (11375, 11375, 1, -10783); (11376, 11376, 1,
   -10782); (11378, 11378, 1, 1); (11381, 11381, 1, 1); (11390, 11391, 1, -10815);
   (11392, 11490, 2, 1); (11499, 11501, 2, 1); (11506, 11506, 1, 1); (42560, 42604, 2,
   1); (42624, 42650, 2, 1); (42786, 42798, 2, 1); (42802, 42862, 2, 1); (42873, 42875,
   2, 1); (42877, 42877, 1, -35332); (42878, 42886, 2, 1); (42891, 42891, 1, 1); (42893,
   42893, 1, -42280); (42896, 42898, 2, 1); (42902, 42920, 2, 1); (42922, 42922, 1,
   -42308); (42923, 42923, 1, -42319); (42924, 42924, 1, -42315); (42925, 42925, 1,
   -42305); (42926, 42926, 1, -42308); (42928, 42928, 1, -42258); (42929, 42929, 1,
   -42282); (42930, 42930, 1, -42261); (42931, 42931, 1, 928); (42932, 42946, 2, 1);
   (42948, 42948, 1, -48); (42949, 42949, 1, -42307); (42950, 42950, 1, -35384); (42951,
   42953, 2, 1); (42960, 42960, 1, 1); (42966, 42968, 2, 1); (42997, 42997, 1, 1);
   (65313, 65338, 1, 32); (66560, 66599, 1, 40); (66736, 66771, 1, 40); (66928, 66938,
   1, 39); (66940, 66954, 1, 39); (66956, 66962, 1, 39); (66964, 66965, 1, 39); (68736,
   68786, 1, 64); (71840, 71871, 1, 32); (93760, 93791, 1, 32); (125184, 125217, 1, 34) ].

Definition ToLowerRune (r : Z) : Z :=
  if in_range 65 90 r then r + 32
  else if r <? 128 then r
  else match find (fun '(lo, hi, stride, _) => in_range lo hi r && ((r - lo) mod stride =? 0))
               lower_ranges with
       | Some (_, _, _, delta) => r + delta
       | None => r
       end.

(** [strings.ToLower] *)
Definition ToLower (s : string) : string :=
  str_concat (encode_rune ∘ ToLowerRune <$> rune_values s).

Fixpoint drop_spaces (l : list (Z * string)) : list (Z * string) :=
  match l with
  | [] => []
  | r :: l' => if IsSpace r.1 then drop_spaces l' else l
  end.

(** [strings.TrimSpace] and [bytes.TrimSpace] *)
Definition TrimSpace (s : string) : string :=
  str_concat ((reverse (drop_spaces (reverse (drop_spaces (runes s))))).*2).

(** [strings.EqualFold] against an ASCII name: besides the two cases of a letter,
    U+017F folds to [s] and U+212A to [k]. *)
Definition fold_rune (r : Z) : Z :=
  if in_range 65 90 r then r + 32
  else if r =? 383 then 115
  else if r =? 8490 then 107
  else r.

Definition EqualFold (s t : string) : bool :=
  bool_decide (fold_rune <$> rune_values s = fold_rune <$> rune_values t).

(** ** Package strconv *)

Definition digit_val (c : ascii) : option Z :=
  if in_range 48 57 (byte_val c) then Some (byte_val c - 48) else None.

Fixpoint decimal_acc (acc : Z) (s : string) : option Z :=
  match s with
  | "" => Some acc
  | String c s =>
      match digit_val c with
      | Some d => decimal_acc (10 * acc + d) s
      | None => None
      end
  end.

Definition decimal (s : string) : option Z :=
  match s with "" => None | String _ _ => decimal_acc 0 s end.

(** [strconv.ParseInt(s, 10, 64)]; [None] is an error (syntax or range). *)
Definition ParseInt (s : string) : option Z :=
  let v := match s with
           | String "-" s => Z.opp <$> decimal s
           | String "+" s => decimal s
           | s => decimal s
           end in
  match v with
  | Some z => if in_range min_int64 max_int64 z then Some z else None
  | None => None
  end.

(** [strconv.Atoi], with a 64-bit [int]. *)
Definition Atoi (s : string) : option Z := ParseInt s.

(** [strconv.FormatInt(z, 10)] *)
Definition FormatInt (z : Z) : string := pretty z.

Definition ParseBool (s : string) : option bool :=
  if bool_decide (s ∈ ["1"; "t"; "T"; "TRUE"; "true"; "True"]) then Some true
  else if bool_decide (s ∈ ["0"; "f"; "F"; "FALSE"; "false"; "False"]) then Some false
  else None.

Definition FormatBool (b : bool) : string := if b then "true" else "false".

(** ** Lemmas *)

(** Bytes and their values *)

Lemma byte_val_range c : 0 <= byte_val c < 256.
Proof. unfold byte_val. pose proof (N_ascii_bounded c). lia. Qed.

Lemma byte_val_chr z : 0 <= z < 256 -> byte_val (byte_chr z) = z.
Proof.
  intros Hz. unfold byte_val, byte_chr. rewrite N_ascii_embedding by lia. lia.
Qed.

Lemma byte_chr_val c : byte_chr (byte_val c) = c.
Proof. unfold byte_chr, byte_val. by rewrite N2Z.id, ascii_N_embedding. Qed.

Lemma app_nil_l_str (s : string) : "" +:+ s = s.
Proof. done. Qed.

Lemma app_cons_str c (s t : string) : String c s +:+ t = String c (s +:+ t).
Proof. done. Qed.

Lemma app_nil_r_str (s : string) : s +:+ "" = s.
Proof. induction s as [|c s IH]; [done|]. by rewrite app_cons_str, IH. Qed.

Lemma app_assoc_str (s t u : string) : (s +:+ t) +:+ u = s +:+ t +:+ u.
Proof. induction s as [|c s IH]; [done|]. by rewrite !app_cons_str, IH. Qed.

Lemma length_app_str (s t : string) :
  String.length (s +:+ t) = (String.length s + String.length t)%nat.
Proof. induction s as [|c s IH]; [done|]. rewrite app_cons_str; simpl. by rewrite IH. Qed.

Lemma app_inj_l_str (s t u : string) : s +:+ t = s +:+ u -> t = u.
Proof.
  induction s as [|c s IH]; [done|]. rewrite !app_cons_str. intros [=]. auto.
Qed.

Lemma app_inj_len_str (s s' t t' : string) :
  String.length s = String.length s' -> s +:+ t = s' +:+ t' -> s = s' /\ t = t'.
Proof.
  revert s'. induction s as [|c s IH]; intros [|c' s'] Hlen Heq; try done.
  rewrite !app_cons_str in Heq. injection Heq as -> Heq. injection Hlen as Hlen.
  by destruct (IH s' Hlen Heq) as [-> ->].
Qed.

Lemma app_inj_r_str (s s' t : string) : s +:+ t = s' +:+ t -> s = s'.
Proof.
  intros Heq. assert (String.length s = String.length s').
  { apply (f_equal String.length) in Heq. rewrite !length_app_str in Heq. lia. }
  by apply app_inj_len_str in Heq as [-> _].
Qed.

Lemma str_drop_app s t : str_drop (String.length s) (s +:+ t) = t.
Proof. induction s as [|c s IH]; [done|]. by rewrite app_cons_str. Qed.

Lemma str_take_app s t : str_take (String.length s) (s +:+ t) = s.
Proof. induction s as [|c s IH]; [by destruct t|]. rewrite app_cons_str; simpl. by rewrite IH. Qed.

Lemma str_take_drop n s : str_take n s +:+ str_drop n s = s.
Proof.
  revert s. induction n as [|n IH]; intros [|c s]; [done..|].
  simpl. by rewrite app_cons_str, IH.
Qed.

Lemma length_str_drop n s : String.length (str_drop n s) = (String.length s - n)%nat.
Proof. revert s. induction n as [|n IH]; intros [|c s]; simpl; auto. Qed.

Lemma HasPrefix_true s p : HasPrefix s p = true <-> exists t, s = p +:+ t.
Proof.
  revert s. induction p as [|a p IH]; intros s; simpl.
  { split; [by exists s|done]. }
  destruct s as [|b s].
  { split; [done|]. intros [t Ht]. by rewrite app_cons_str in Ht. }
  setoid_rewrite app_cons_str. rewrite andb_true_iff, Ascii.eqb_eq, IH. split.
  - intros (-> & t & ->). eauto.
  - intros (t & [= -> ->]). eauto.
Qed.

Lemma HasPrefix_app p s : HasPrefix (p +:+ s) p = true.
Proof. apply HasPrefix_true. eauto. Qed.

Lemma TrimPrefix_app p s : TrimPrefix (p +:+ s) p = s.
Proof. unfold TrimPrefix. by rewrite HasPrefix_app, str_drop_app. Qed.

(** What [TrimPrefix] leaves, with the prefix put back. *)
Lemma TrimPrefix_restore s p : HasPrefix s p = true -> p +:+ TrimPrefix s p = s.
Proof. intros [t ->]%HasPrefix_true. by rewrite TrimPrefix_app. Qed.

Lemma HasSuffix_app s p : HasSuffix (s +:+ p) p = true.
Proof.
  unfold HasSuffix. rewrite length_app_str, (proj2 (Nat.leb_le _ _)) by lia.
  replace (String.length s + String.length p - String.length p)%nat
    with (String.length s) by lia.
  by rewrite str_drop_app, String.eqb_refl.
Qed.

Lemma HasSuffix_true s p : HasSuffix s p = true <-> exists t, s = t +:+ p.
Proof.
  split; [|intros [t ->]; apply HasSuffix_app].
  unfold HasSuffix. intros [_ Heq%String.eqb_eq]%andb_true_iff.
  exists (str_take (String.length s - String.length p) s).
  transitivity (str_take (String.length s - String.length p) s
                +:+ str_drop (String.length s - String.length p) s).
  - by rewrite str_take_drop.
  - by f_equal.
Qed.

Lemma TrimSuffix_app s p : TrimSuffix (s +:+ p) p = s.
Proof.
  unfold TrimSuffix. rewrite HasSuffix_app, length_app_str.
  replace (String.length s + String.length p - String.length p)%nat
    with (String.length s) by lia.
  apply str_take_app.
Qed.

Lemma Contains_true s sub : Contains s sub = true <-> exists a b, s = a +:+ sub +:+ b.
Proof.
  induction s as [|c s IH]; cbn [Contains]; rewrite orb_true_iff, HasPrefix_true.
  - split; [intros [[t ->]|]; [by exists "", t|done]|].
    intros (a & b & Heq). left. destruct a; [eauto|done].
  - rewrite IH. split.
    + intros [[t Ht]|(a & b & ->)]; [exists "", t; done|]. by exists (String c a), b.
    + intros (a & b & Heq). destruct a as [|c' a]; [left; eauto|].
      rewrite app_cons_str in Heq. simplify_eq. right. eauto.
Qed.

Lemma Cut_Some s sep before after :
  Cut s sep = Some (before, after) -> s = before +:+ sep +:+ after.
Proof.
  revert before. induction s as [|c s IH]; cbn [Cut]; intros before H.
  - destruct (HasPrefix "" sep) eqn:E; [|done]. apply HasPrefix_true in E as [t Ht].
    destruct sep; [|done]. by simplify_eq.
  - destruct (HasPrefix (String c s) sep) eqn:E.
    + apply HasPrefix_true in E as [t Ht]. rewrite Ht, str_drop_app in H. by simplify_eq.
    + split_matches_in H. rewrite app_cons_str. f_equal. eauto.
Qed.

Lemma Cut_None s sep : Cut s sep = None <-> Contains s sep = false.
Proof.
  induction s as [|c s IH]; cbn [Cut Contains].
  - destruct (HasPrefix "" sep); done.
  - destruct (HasPrefix (String c s) sep); [done|]. rewrite orb_false_l, <-IH.
    destruct (Cut s sep) as [[]|]; done.
Qed.

(** The first piece of a cut is free of the separator: no earlier cut exists. *)
Lemma Cut_first s sep before after :
  sep <> "" -> Cut s sep = Some (before, after) -> Contains before sep = false.
Proof.
  intros Hsep. revert before. induction s as [|c s IH]; cbn [Cut]; intros before H.
  - destruct (HasPrefix "" sep) eqn:E; [|done]. by destruct sep.
  - destruct (HasPrefix (String c s) sep) eqn:E; [by simplify_eq; destruct sep|].
    destruct (Cut s sep) as [[b a]|] eqn:Ec; simplify_eq. cbn [Contains].
    rewrite (IH b) by done. rewrite orb_false_r.
    apply not_true_iff_false. intros [t Ht]%HasPrefix_true.
    apply not_true_iff_false in E. apply E, HasPrefix_true.
    apply Cut_Some in Ec as ->. exists (t +:+ sep +:+ after).
    change (String c (b +:+ sep +:+ after)) with (String c b +:+ sep +:+ after).
    by rewrite Ht, app_assoc_str.
Qed.

(** A cut at a one-byte separator takes everything before its first occurrence. *)
Lemma Cut_app_byte s t (c : ascii) :
  Contains s (String c "") = false -> Cut (s +:+ String c t) (String c "") = Some (s, t).
Proof.
  induction s as [|a s IH]; intros Hc; rewrite ?app_nil_l_str, ?app_cons_str; cbn [Cut HasPrefix].
  - by rewrite Ascii.eqb_refl.
  - cbn [Contains HasPrefix] in Hc. rewrite andb_true_r in *.
    apply orb_false_iff in Hc as [Ha Hs]. rewrite Ha, (IH Hs). done.
Qed.

(** ** Splitting *)

Lemma Cut_shorter s sep before after :
  sep <> "" -> Cut s sep = Some (before, after) ->
  (String.length after < String.length s)%nat.
Proof.
  intros Hsep ->%Cut_Some. rewrite !length_app_str. destruct sep; [done|]. simpl. lia.
Qed.

Lemma split_fuel_enough sep n s :
  sep <> "" -> (String.length s <= n)%nat -> split_fuel n s sep = split_fuel (String.length s) s sep.
Proof.
  intros Hsep. remember (String.length s) as m eqn:Hm. revert n s Hm.
  induction (lt_wf m) as [m _ IH]; intros n s Hm Hn. destruct n as [|n]; [by replace m with 0%nat by lia|].
  destruct m as [|m].
  { destruct s; [|done]. simpl. destruct sep; [done|]. done. }
  cbn [split_fuel]. destruct (Cut s sep) as [[b a]|] eqn:E; [|done].
  apply Cut_shorter in E; [|done]. f_equal.
  rewrite (IH (String.length a)) by (done || lia).
  symmetry. apply IH; [lia|done|lia].
Qed.

(** The recursive equation of [Split]. *)
Lemma Split_eq s sep :
  sep <> "" ->
  Split s sep = match Cut s sep with
                | None => [s]
                | Some (before, after) => before :: Split after sep
                end.
Proof.
  intros Hsep. unfold Split. destruct s as [|c s].
  - simpl. destruct sep; done.
  - cbn [String.length split_fuel]. destruct (Cut (String c s) sep) as [[b a]|] eqn:E; [|done].
    f_equal. apply Cut_shorter in E; [|done]. apply split_fuel_enough; [done|]. simpl in E. lia.
Qed.

Lemma Split_ind (P : string -> list string -> Prop) sep :
  sep <> "" ->
  (forall s, Cut s sep = None -> P s [s]) ->
  (forall s before after l, Cut s sep = Some (before, after) ->
     P after l -> P s (before :: l)) ->
  forall s, P s (Split s sep).
Proof.
  intros Hsep Hbase Hstep s. remember (String.length s) as m eqn:Hm. revert s Hm.
  induction (lt_wf m) as [m _ IH]; intros s ->. rewrite Split_eq by done.
  destruct (Cut s sep) as [[b a]|] eqn:E; [|by apply Hbase].
  eapply Hstep; [done|]. eapply IH; [|done]. by eapply Cut_shorter.
Qed.

Lemma Split_nonnil s sep : sep <> "" -> Split s sep <> [].
Proof. intros Hsep. rewrite Split_eq by done. by destruct (Cut s sep) as [[]|]. Qed.

Lemma Join_cons s l sep : l <> [] -> Join (s :: l) sep = s +:+ sep +:+ Join l sep.
Proof. by destruct l. Qed.

Lemma Join_Split s sep : sep <> "" -> Join (Split s sep) sep = s.
Proof.
  intros Hsep.
  assert (Split s sep <> [] /\ Join (Split s sep) sep = s) as [_ ?]; [|done].
  apply (Split_ind (fun s l => l <> [] /\ Join l sep = s)); [done| |].
  - done.
  - intros s' b a l E [Hne Hl]. split; [done|].
    by rewrite Join_cons, Hl, <-(Cut_Some _ _ _ _ E).
Qed.

(** No piece of a split contains the separator. *)
Lemma Split_pieces s sep : sep <> "" -> Forall (fun p => Contains p sep = false) (Split s sep).
Proof.
  intros Hsep. apply (Split_ind (fun _ l => Forall (fun p => Contains p sep = false) l)); [done| |].
  - intros s' E%Cut_None. by constructor.
  - intros s' b a l E Hl. constructor; [|done]. by eapply Cut_first.
Qed.

(** Joining pieces free of a one-byte separator and splitting again. *)
Lemma Split_Join_byte l (c : ascii) :
  l <> [] -> Forall (fun p => Contains p (String c "") = false) l ->
  Split (Join l (String c "")) (String c "") = l.
Proof.
  intros Hne Hl. induction Hl as [|s l Hs Hl IH]; [done|].
  rewrite Split_eq by done. destruct l as [|s' l].
  - cbn [Join]. by rewrite (proj2 (Cut_None _ _) Hs).
  - rewrite Join_cons by done. rewrite app_cons_str, app_nil_l_str, Cut_app_byte by done.
    by rewrite IH.
Qed.

(** Splitting a string put together with a one-byte separator. *)
Lemma Split_app_byte s t (c : ascii) :
  Split (s +:+ String c t) (String c "") = Split s (String c "") ++ Split t (String c "").
Proof.
  apply (Split_ind (fun s l => Split (s +:+ String c t) (String c "") = l ++ Split t (String c "")));
    [done| |].
  - intros s' E%Cut_None. rewrite Split_eq, Cut_app_byte by done. done.
  - intros s' b a l E IH. assert (Contains b (String c "") = false) as Hb by (by eapply Cut_first).
    apply Cut_Some in E as ->. rewrite app_assoc_str.
    change (String c "" +:+ a) with (String c a). rewrite app_cons_str.
    rewrite Split_eq, Cut_app_byte by done. by rewrite IH.
Qed.

(** ** ASCII text *)

Lemma str_forallb_impl f g s :
  (forall c, f c = true -> g c = true) -> str_forallb f s = true -> str_forallb g s = true.
Proof.
  intros Hfg. induction s as [|c s IH]; [done|]. cbn [str_forallb].
  intros [Hc Hs]%andb_true_iff. rewrite (Hfg c Hc). by apply IH.
Qed.

Definition is_ascii (c : ascii) : bool := byte_val c <? 128.

Definition ascii_lower (c : ascii) : ascii :=
  if in_range 65 90 (byte_val c) then byte_chr (byte_val c + 32) else c.

Lemma runes_ascii c s : is_ascii c = true -> runes (String c s) = (byte_val c, String c "") :: runes s.
Proof. unfold is_ascii. intros H. cbn [runes]. by rewrite H. Qed.

Lemma rune_values_ascii c s : is_ascii c = true -> rune_values (String c s) = byte_val c :: rune_values s.
Proof. intros H. unfold rune_values. by rewrite runes_ascii. Qed.

Lemma ToLower_ascii c s : is_ascii c = true -> ToLower (String c s) = String (ascii_lower c) (ToLower s).
Proof.
  intros H. unfold ToLower. rewrite rune_values_ascii by done. cbn [fmap list_fmap str_concat].
  generalize (str_concat (encode_rune ∘ ToLowerRune <$> rune_values s)).
  destruct c as [[] [] [] [] [] [] [] []]; vm_compute in H; try discriminate H;
    vm_compute; reflexivity.
Qed.

(** An ASCII prefix decodes byte by byte. *)
Lemma rune_values_app_ascii s t :
  str_forallb is_ascii s = true -> rune_values (s +:+ t) = rune_values s ++ rune_values t.
Proof.
  induction s as [|c s IH]; [done|]. cbn [str_forallb]. intros [Hc Hs]%andb_true_iff.
  rewrite app_cons_str, !rune_values_ascii by done. cbn. by rewrite IH.
Qed.

Lemma ToLower_app_ascii s t :
  str_forallb is_ascii s = true -> ToLower (s +:+ t) = ToLower s +:+ ToLower t.
Proof.
  induction s as [|c s IH]; [done|]. cbn [str_forallb]. intros [Hc Hs]%andb_true_iff.
  by rewrite app_cons_str, !ToLower_ascii, IH, app_cons_str.
Qed.

Lemma rune_values_inj s t :
  str_forallb is_ascii s = true -> str_forallb is_ascii t = true ->
  rune_values s = rune_values t -> s = t.
Proof.
  revert t. induction s as [|c s IH]; intros [|d t]; cbn [str_forallb]; try done.
  - intros _ [Hd _]%andb_true_iff. by rewrite (rune_values_ascii d).
  - intros [Hc _]%andb_true_iff _. by rewrite (rune_values_ascii c).
  - intros [Hc Hs]%andb_true_iff [Hd Ht]%andb_true_iff.
    rewrite !rune_values_ascii by done. unfold byte_val. intros [= E ?]. f_equal; [|auto].
    apply N2Z.inj in E. by rewrite <-(ascii_N_embedding c), E, ascii_N_embedding.
Qed.
