(* ===== verification/GoTime.v ===== *)
(** * GoTime: the parts of [time] and of [strconv.ParseFloat] the program uses

    A [time.Time] is the pair of the seconds since January 1 of year 1 (an int64)
    and the nanoseconds within the second.  Parsing follows [time.Parse] layout
    element by layout element, including what it accepts beyond the layout: an hour
    of one digit and a fraction after the seconds. *)
From Stdlib Require Import SpecFloat.
From S2P Require Import Prelude GoStrings.

Record Time := mkTime { t_sec : Z; t_nsec : Z }.

#[export] Instance Time_eq_dec : EqDecision Time.
Proof. solve_decision. Defined.

Definition unixToInternal : Z := 62135596800.

(** [time.Unix(sec, 0)]: the addition is on int64 and wraps. *)
Definition Unix (sec : Z) : Time := mkTime (i64 (sec + unixToInternal)) 0.

(** [t.Unix()] *)
Definition unix_of (t : Time) : Z := i64 (t_sec t - unixToInternal).

Definition Equal (t u : Time) : bool := (t_sec t =? t_sec u) && (t_nsec t =? t_nsec u).
Definition Before (t u : Time) : bool :=
  (t_sec t <? t_sec u) || ((t_sec t =? t_sec u) && (t_nsec t <? t_nsec u)).
Definition After (t u : Time) : bool := Before u t.

(** ** The calendar *)

Definition isLeap (year : Z) : bool :=
  (year mod 4 =? 0) && (negb (year mod 100 =? 0) || (year mod 400 =? 0)).

Definition daysIn (month year : Z) : Z :=
  if month =? 2 then (if isLeap year then 29 else 28)
  else if bool_decide (month ∈ [4; 6; 9; 11]) then 30 else 31.

(** Days from January 1 of year 1 to the given date of the proleptic Gregorian
    calendar: years before, months before, day of the month. *)
Definition days_before_year (year : Z) : Z :=
  let y := year - 1 in 365 * y + y / 4 - y / 100 + y / 400.

Definition days_before_month (month year : Z) : Z :=
  foldr (fun m acc => daysIn m year + acc) 0 (seqZ 1 (month - 1)).

Definition DateUTC (year month day hour min sec nsec : Z) : Time :=
  mkTime ((days_before_year year + days_before_month month year + (day - 1)) * 86400
          + hour * 3600 + min * 60 + sec) nsec.

(** ** [time.Parse] *)

Definition getnum (fixed : bool) (s : string) : option (Z * string) :=
  match s with
  | String a s' =>
      match digit_val a with
      | None => None
      | Some x =>
          match s' with
          | String b s'' =>
              match digit_val b with
              | Some y => Some (10 * x + y, s'')
              | None => if fixed then None else Some (x, s')
              end
          | "" => if fixed then None else Some (x, s')
          end
      end
  | "" => None
  end.

(** A field with its admissible range. *)
Definition getfield (fixed : bool) (lo hi : Z) (s : string) : option (Z * string) :=
  match getnum fixed s with
  | Some (n, s) => if in_range lo hi n then Some (n, s) else None
  | None => None
  end.

Definition skip (lit s : string) : option string :=
  if HasPrefix s lit then Some (str_drop (String.length lit) s) else None.

Definition getyear (s : string) : option (Z * string) :=
  if (4 <=? String.length s)%nat then
    match decimal (str_take 4 s) with
    | Some y => Some (y, str_drop 4 s)
    | None => None
    end
  else None.

Fixpoint span_digits (s : string) : string * string :=
  match s with
  | String c s' =>
      match digit_val c with
      | Some _ => let (d, r) := span_digits s' in (String c d, r)
      | None => ("", s)
      end
  | "" => ("", "")
  end.

(** The optional fraction after the seconds: nine digits count. *)
Definition getfraction (s : string) : Z * string :=
  match s with
  | String c s' =>
      if Ascii.eqb c "." || Ascii.eqb c "," then
        let (ds, rest) := span_digits s' in
        match decimal (str_take 9 ds) with
        | Some n => (n * 10 ^ (9 - str_len (str_take 9 ds)), rest)
        | None => (0, s)
        end
      else (0, s)
  | "" => (0, s)
  end.

(** The date and time fields with the separators of the layout. *)
Definition parse_datetime (dash tee colon s : string) : option (Time * string) :=
  year ← getyear s; let (year, s) := year : Z * string in
  s ← skip dash s;
  month ← getfield true 1 12 s; let (month, s) := month : Z * string in
  s ← skip dash s;
  day ← getnum true s; let (day, s) := day : Z * string in
  s ← skip tee s;
  hour ← getfield false 0 23 s; let (hour, s) := hour : Z * string in
  s ← skip colon s;
  min ← getfield true 0 59 s; let (min, s) := min : Z * string in
  s ← skip colon s;
  sec ← getfield true 0 59 s; let (sec, s) := sec : Z * string in
  let (nsec, s) := getfraction s in
  if in_range 1 (daysIn month year) day
  then Some (DateUTC year month day hour min sec nsec, s) else None.

(** [Z07:00]: the offset in seconds. *)
Definition parse_zone (s : string) : option (Z * string) :=
  match s with
  | String "Z" s => Some (0, s)
  | String sign (String h1 (String h2 (String ":" (String m1 (String m2 s))))) =>
      hr ← fst <$> getnum true (String h1 (String h2 ""));
      mm ← fst <$> getnum true (String m1 (String m2 ""));
      if (24 <? hr) || (60 <? mm) then None
      else if Ascii.eqb sign "+" then Some ((hr * 60 + mm) * 60, s)
      else if Ascii.eqb sign "-" then Some (- ((hr * 60 + mm) * 60), s)
      else None
  | _ => None
  end.

Definition finish {A} (r : option (A * string)) : option A :=
  match r with Some (a, "") => Some a | _ => None end.

(** [time.Parse(time.RFC3339, s)] *)
Definition ParseRFC3339 (s : string) : option Time :=
  t ← parse_datetime "-" "T" ":" s; let (t, s) := t : Time * string in
  off ← finish (parse_zone s);
  Some (mkTime (t_sec t - off) (t_nsec t)).

(** [time.Parse("2006-01-02T15:04:05Z", s)] *)
Definition ParseZulu (s : string) : option Time :=
  t ← parse_datetime "-" "T" ":" s; let (t, s) := t : Time * string in
  if String.eqb s "Z" then Some t else None.

(** [time.Parse("20060102T150405Z", s)] *)
Definition ParseAmzDate (s : string) : option Time :=
  t ← parse_datetime "" "T" "" s; let (t, s) := t : Time * string in
  if String.eqb s "Z" then Some t else None.

(** [time.Parse("20060102", s)] *)
Definition ParseDay (s : string) : option Time :=
  year ← getyear s; let (year, s) := year : Z * string in
  month ← getfield true 1 12 s; let (month, s) := month : Z * string in
  day ← finish (getnum true s);
  if in_range 1 (daysIn month year) day then Some (DateUTC year month day 0 0 0 0) else None.

(** ** [strconv.ParseFloat(s, 64)], finite results only

    The decimal or hexadecimal text is read as an exact rational and rounded once
    to the nearest binary64 (ties to even). *)

Definition float64 := spec_float.

Definition lower_byte (c : ascii) : Z :=
  if in_range 65 90 (byte_val c) then byte_val c + 32 else byte_val c.

Definition hex_val (c : ascii) : option Z :=
  match digit_val c with
  | Some d => Some d
  | None => if in_range 97 102 (lower_byte c) then Some (lower_byte c - 87) else None
  end.

(** The mantissa: its digits as one integer, how many of them follow the point,
    whether there was a digit and an underscore, and what is left. *)
Fixpoint scan_mantissa (hex : bool) (s : string) (mant frac : Z) (dot digits under : bool)
    : Z * Z * bool * bool * string :=
  match s with
  | "" => (mant, frac, digits, under, s)
  | String c s' =>
      if Ascii.eqb c "_" then scan_mantissa hex s' mant frac dot digits true
      else if Ascii.eqb c "." then
        if dot then (mant, frac, digits, under, s)
        else scan_mantissa hex s' mant frac true digits under
      else match (if hex then hex_val c else digit_val c) with
           | Some d => scan_mantissa hex s' ((if hex then 16 else 10) * mant + d)
                         (if dot then frac + 1 else frac) dot true under
           | None => (mant, frac, digits, under, s)
           end
  end.

(** The exponent digits; once the value reaches 10000 further digits are ignored. *)
Fixpoint scan_exponent (s : string) (e : Z) (under : bool) : Z * bool * string :=
  match s with
  | "" => (e, under, s)
  | String c s' =>
      if Ascii.eqb c "_" then scan_exponent s' e true
      else match digit_val c with
           | Some d => scan_exponent s' (if e <? 10000 then e * 10 + d else e) under
           | None => (e, under, s)
           end
  end.

(** Underscores only between digits, or between the base prefix and a digit. *)
Inductive saw_class := SawStart | SawDigit | SawUnderscore | SawOther.

Fixpoint underscore_scan (hex : bool) (saw : saw_class) (s : string) : bool :=
  match s with
  | "" => match saw with SawUnderscore => false | _ => true end
  | String c s =>
      match (if hex then hex_val c else digit_val c) with
      | Some _ => underscore_scan hex SawDigit s
      | None =>
          if Ascii.eqb c "_" then
            match saw with SawDigit => underscore_scan hex SawUnderscore s | _ => false end
          else match saw with SawUnderscore => false | _ => underscore_scan hex SawOther s end
      end
  end.

Definition strip_sign (s : string) : bool * string :=
  match s with
  | String "-" s => (true, s)
  | String "+" s => (false, s)
  | s => (false, s)
  end.

Definition underscoreOK (s : string) : bool :=
  match (strip_sign s).2 with
  | String "0" (String x s') =>
      if (lower_byte x =? 120) || (lower_byte x =? 98) || (lower_byte x =? 111) then
        underscore_scan (lower_byte x =? 120) SawDigit s'
      else underscore_scan false SawStart (String "0" (String x s'))
  | s' => underscore_scan false SawStart s'
  end.

(** Round [num / den] (both positive) to binary64: the quotient is taken with at
    least 66 significant bits and a sticky bit for the remainder. *)
Definition round_ratio (neg : bool) (num den : Z) : float64 :=
  let k := Z.max 0 (67 + Z.log2 den - Z.log2 num) in
  let n := num * 2 ^ k in
  let m := 2 * (n / den) + (if n mod den =? 0 then 0 else 1) in
  binary_normalize 53 1024 (if neg then - m else m) (- k - 1) neg.

Definition make_float (neg hex : bool) (mant frac e : Z) : float64 :=
  if mant =? 0 then S754_zero neg
  else if hex then
    let x := e - 4 * frac in
    round_ratio neg (mant * 2 ^ Z.max 0 x) (2 ^ Z.max 0 (- x))
  else
    let x := e - frac in
    round_ratio neg (mant * 10 ^ Z.max 0 x) (10 ^ Z.max 0 (- x)).

Definition finite_float (f : float64) : option float64 :=
  match f with S754_zero _ | S754_finite _ _ _ => Some f | _ => None end.

(** The optional exponent; [None] when the text is malformed. *)
Definition parse_exponent (hex : bool) (s : string) : option (Z * bool * string) :=
  match s with
  | String c s' =>
      if lower_byte c =? (if hex then 112 else 101) then
        let (eneg, s'') := strip_sign s' in
        match s'' with
        | String d _ =>
            match digit_val d with
            | Some _ =>
                let '(e, under, rest) := scan_exponent s'' 0 false in
                Some (if eneg then - e else e, under, rest)
            | None => None
            end
        | "" => None
        end
      else if hex then None else Some (0, false, s)
  | "" => if hex then None else Some (0, false, s)
  end.

(** [None] when [ParseFloat] reports an error or the value is infinite or NaN. *)
Definition ParseFloat (text : string) : option float64 :=
  let (neg, s) := strip_sign text in
  let '(hex, s) := match s with
                   | String "0" (String x (String c s')) =>
                       if lower_byte x =? 120 then (true, String c s')
                       else (false, String "0" (String x (String c s')))
                   | s => (false, s)
                   end in
  let '(mant, frac, digits, under, rest) := scan_mantissa hex s 0 0 false false false in
  if negb digits then None else
  match parse_exponent hex rest with
  | Some (e, under', "") =>
      if (under || under') && negb (underscoreOK text) then None
      else finite_float (make_float neg hex mant frac e)
  | _ => None
  end.

Definition float_eqb (a b : float64) : bool := SFeqb a b.
Definition float_ltb (a b : float64) : bool := SFltb a b.
Definition float_leb (a b : float64) : bool := SFleb a b.

(** ** Formatting and differences *)

(** The date of a day number (0 is January 1 of year 1), counting years from March. *)
Definition civil (days : Z) : Z * Z * Z :=
  let z := days + 306 in
  let era := z / 146097 in
  let doe := z mod 146097 in
  let yoe := (doe - doe / 1460 + doe / 36524 - doe / 146096) / 365 in
  let doy := doe - (365 * yoe + yoe / 4 - yoe / 100) in
  let mp := (5 * doy + 2) / 153 in
  let day := doy - (153 * mp + 2) / 5 + 1 in
  let month := if mp <? 10 then mp + 3 else mp - 9 in
  (yoe + era * 400 + (if month <=? 2 then 1 else 0), month, day).

(** Decimal with leading zeros to the given width. *)
Fixpoint pad_left (n : nat) (s : string) : string :=
  match n with O => s | S n => String "0" (pad_left n s) end.

Definition pad (width : nat) (z : Z) : string :=
  let s := FormatInt z in pad_left (width - String.length s) s.

(** [t.Format(time.RFC3339)] of a UTC time. *)
Definition FormatRFC3339 (t : Time) : string :=
  let '(y, m, d) := civil (t_sec t / 86400) in
  let s := t_sec t mod 86400 in
  pad 4 y +:+ "-" +:+ pad 2 m +:+ "-" +:+ pad 2 d +:+ "T" +:+ pad 2 (s / 3600) +:+ ":"
  +:+ pad 2 (s mod 3600 / 60) +:+ ":" +:+ pad 2 (s mod 60) +:+ "Z".

(** A decimal fraction without its trailing zeros *)
Fixpoint trim_zeros (s : string) : string :=
  match s with
  | "" => ""
  | String c s =>
      match trim_zeros s with
      | "" => if Ascii.eqb c "0" then "" else String c ""
      | t => String c t
      end
  end.

Definition fraction (nsec : Z) : string :=
  match trim_zeros (pad 9 nsec) with "" => "" | ds => "." +:+ ds end.

(** [t.Format(time.RFC3339Nano)] of a UTC time. *)
Definition FormatRFC3339Nano (t : Time) : string :=
  let '(y, m, d) := civil (t_sec t / 86400) in
  let s := t_sec t mod 86400 in
  pad 4 y +:+ "-" +:+ pad 2 m +:+ "-" +:+ pad 2 d +:+ "T" +:+ pad 2 (s / 3600) +:+ ":"
  +:+ pad 2 (s mod 3600 / 60) +:+ ":" +:+ pad 2 (s mod 60) +:+ fraction (t_nsec t) +:+ "Z".

(** [t.Format("20060102T150405Z")] and [t.Format("20060102")] of a UTC time. *)
Definition FormatDay (t : Time) : string :=
  let '(y, m, d) := civil (t_sec t / 86400) in pad 4 y +:+ pad 2 m +:+ pad 2 d.

Definition FormatAmzDate (t : Time) : string :=
  let s := t_sec t mod 86400 in
  FormatDay t +:+ "T" +:+ pad 2 (s / 3600) +:+ pad 2 (s mod 3600 / 60) +:+ pad 2 (s mod 60) +:+ "Z".

(** [t.Sub(u)]: nanoseconds, saturating. *)
Definition Sub (t u : Time) : Z :=
  Z.max min_int64 (Z.min max_int64 ((t_sec t - t_sec u) * 1000000000 + (t_nsec t - t_nsec u))).

(** [d.Milliseconds()] truncates towards zero. *)
Definition Milliseconds (d : Z) : Z := Z.quot d 1000000.

Example FormatRFC3339_examples :
  FormatRFC3339 (Unix 0) = "1970-01-01T00:00:00Z" /\
  FormatRFC3339 (Unix 951782400) = "2000-02-29T00:00:00Z" /\
  FormatRFC3339 (Unix 1767225599) = "2025-12-31T23:59:59Z" /\
  FormatAmzDate (Unix 1369353600) = "20130524T000000Z" /\
  ParseRFC3339 (FormatRFC3339 (Unix 1767225599)) = Some (Unix 1767225599).
Proof. vm_compute. repeat split; reflexivity. Qed.
