(* ===== verification/GoNet.v ===== *)
(** * GoNet: [net.ParseIP] and [net.SplitHostPort]

    The callers only test whether an address parses, so [is_ip] answers that; a zone
    makes [net.ParseIP] fail. *)
From S2P Require Import Prelude GoStrings.

(** ** IPv4: four decimal octets without leading zeros *)

Definition octet_ok (s : string) : bool :=
  match s with
  | "" => false
  | String "0" "" => true
  | String "0" _ => false
  | _ => str_forallb (fun c => in_range 48 57 (byte_val c)) s
         && (String.length s <=? 3)%nat
         && match ParseInt s with Some v => v <=? 255 | None => false end
  end.

Definition is_ipv4 (s : string) : bool :=
  let fields := Split s "." in
  (length fields =? 4)%nat && forallb octet_ok fields.

(** ** IPv6 *)

Definition is_hex (c : ascii) : bool :=
  let b := byte_val c in in_range 48 57 b || in_range 97 102 b || in_range 65 70 b.

(** The leading hexadecimal digits of [s] and what follows them. *)
Fixpoint span_hex (s : string) : nat * string :=
  match s with
  | String c s' => if is_hex c then let (n, r) := span_hex s' in (S n, r) else (O, s)
  | "" => (O, "")
  end.

(** The loop over the groups: [i] bytes are read so far, [ellipsis] tells whether a
    [::] was seen.  Result: the bytes read and whether there was an ellipsis. *)
Fixpoint ipv6_groups (fuel : nat) (i : nat) (ellipsis : bool) (s : string)
    : option (nat * bool) :=
  match fuel with
  | O => None
  | S fuel =>
      if (16 <=? i)%nat then (if String.eqb s "" then Some (i, ellipsis) else None)
      else
        let (off, rest) := span_hex s in
        if (off =? 0)%nat || (4 <? off)%nat then None
        else match rest with
             | String "." _ =>
                 if negb ellipsis && negb (i =? 12)%nat then None
                 else if (16 <? i + 4)%nat then None
                 else if is_ipv4 s then Some ((i + 4)%nat, ellipsis) else None
             | "" => Some ((i + 2)%nat, ellipsis)
             | String ":" "" => None
             | String ":" (String ":" s') =>
                 if ellipsis then None
                 else if String.eqb s' "" then Some ((i + 2)%nat, true)
                 else ipv6_groups fuel (i + 2) true s'
             | String ":" s' => ipv6_groups fuel (i + 2) ellipsis s'
             | _ => None
             end
  end.

(** At most eight groups are read, and a ninth round finds the address full. *)
Definition is_ipv6 (s : string) : bool :=
  let ellipsis := HasPrefix s "::" in
  let s' := if ellipsis then str_drop 2 s else s in
  if ellipsis && String.eqb s' "" then true
  else match ipv6_groups 9 0 ellipsis s' with
       | None => false
       | Some (i, ellipsis) =>
           if (i <? 16)%nat then ellipsis else negb ellipsis
       end.

(** The first of [.], [:] and [%] decides the family. *)
Fixpoint ip_family (s : string) : option bool :=
  match s with
  | "" => None
  | String "." _ => Some false
  | String ":" _ => Some true
  | String "%" _ => None
  | String _ s => ip_family s
  end.

(** [net.ParseIP(s) != nil] *)
Definition is_ip (s : string) : bool :=
  match ip_family s with
  | Some false => is_ipv4 s
  | Some true => negb (Contains s "%") && is_ipv6 s
  | None => false
  end.

(** ** Host and port *)

(** [s] cut at its last colon. *)
Fixpoint cut_last_colon (s : string) : option (string * string) :=
  match s with
  | "" => None
  | String c s' =>
      match cut_last_colon s' with
      | Some (h, p) => Some (String c h, p)
      | None => if Ascii.eqb c ":" then Some ("", s') else None
      end
  end.

(** [net.SplitHostPort]; [None] is an error. *)
Definition SplitHostPort (hostport : string) : option (string * string) :=
  match cut_last_colon hostport with
  | None => None
  | Some (before, port) =>
      match hostport with
      | String "[" rest =>
          match Cut rest "]" with
          | None => None
          | Some (host, after) =>
              if negb (String.eqb after (":" +:+ port)) then None
              else if Contains rest "[" then None
              else if Contains after "]" then None
              else Some (host, port)
          end
      | _ =>
          if Contains before ":" then None
          else if Contains hostport "[" || Contains hostport "]" then None
          else Some (before, port)
      end
  end.

Example is_ip_examples :
  is_ip "127.0.0.1" = true /\ is_ip "127.0.0.01" = false /\ is_ip "::1" = true /\
  is_ip "::ffff:1.2.3.4" = true /\ is_ip "fe80::1%eth0" = false /\ is_ip "1::2::3" = false /\
  is_ip "1:2:3:4:5:6:7:8" = true /\ is_ip "1:2:3:4:5:6:7::" = true /\
  is_ip "1:2:3:4:5:6:7:8::" = false /\ is_ip "example.com" = false /\ is_ip "256.0.0.1" = false.
Proof. vm_compute. repeat split; reflexivity. Qed.

Example SplitHostPort_examples :
  SplitHostPort "a.b:80" = Some ("a.b", "80") /\ SplitHostPort "[::1]:443" = Some ("::1", "443") /\
  SplitHostPort "a.b" = None /\ SplitHostPort "::1" = None /\ SplitHostPort "[::1]" = None.
Proof. vm_compute. repeat split; reflexivity. Qed.
