(* ===== verification/GoUrl.v ===== *)
(** * GoUrl: percent encoding and query strings ([net/url])

    [url.Values] is a map from keys to their values in order of appearance; [Encode]
    writes it sorted by key. *)
From S2P Require Import Prelude GoStrings.

Abbreviation Values := (gmap string (list string)).

(** ** Percent encoding *)

Definition unhex (c : ascii) : option Z :=
  let b := byte_val c in
  if in_range 48 57 b then Some (b - 48)
  else if in_range 97 102 b then Some (b - 87)
  else if in_range 65 70 b then Some (b - 55)
  else None.

Definition upperhex (z : Z) : ascii := byte_chr (if z <? 10 then z + 48 else z + 55).

Definition pct (c : ascii) : string :=
  String "%" (String (upperhex (byte_val c / 16)) (String (upperhex (byte_val c mod 16)) "")).

(** [unescape]; in a query component [+] stands for a space. *)
Fixpoint unescape (query : bool) (s : string) : option string :=
  match s with
  | "" => Some ""
  | String "%" s' =>
      match s' with
      | String a (String b rest) =>
          match unhex a, unhex b, unescape query rest with
          | Some x, Some y, Some t => Some (String (byte_chr (16 * x + y)) t)
          | _, _, _ => None
          end
      | _ => None
      end
  | String c s' =>
      match unescape query s' with
      | Some t => Some (String (if query && Ascii.eqb c "+" then " "%char else c) t)
      | None => None
      end
  end.

Definition QueryUnescape (s : string) : option string := unescape true s.
Definition PathUnescape (s : string) : option string := unescape false s.

Definition is_alnum (c : ascii) : bool :=
  let b := byte_val c in in_range 97 122 b || in_range 65 90 b || in_range 48 57 b.

Definition unreserved (c : ascii) : bool :=
  is_alnum c || Ascii.eqb c "-" || Ascii.eqb c "_" || Ascii.eqb c "." || Ascii.eqb c "~".

(** The bytes [escape] leaves alone in a path: the unreserved ones and
    [$ & + , / : ; = @]. *)
Definition path_safe (c : ascii) : bool :=
  unreserved c || existsb (Ascii.eqb c) ["$"; "&"; "+"; ","; "/"; ":"; ";"; "="; "@"]%char.

Fixpoint escape_path (s : string) : string :=
  match s with
  | "" => ""
  | String c s => (if path_safe c then String c "" else pct c) +:+ escape_path s
  end.

Fixpoint QueryEscape (s : string) : string :=
  match s with
  | "" => ""
  | String c s =>
      (if Ascii.eqb c " " then "+" else if unreserved c then String c "" else pct c)
      +:+ QueryEscape s
  end.

(** [(&url.URL{Path: path}).EscapedPath()] *)
Definition EscapedPath (path : string) : string :=
  if String.eqb path "*" then "*" else escape_path path.

(** ** Query strings *)

Definition defaultMaxParams : Z := 10000.

(** One [key=value] piece; [None] is an error, [Some None] an empty piece. *)
Definition parse_pair (piece : string) : option (option (string * string)) :=
  if Contains piece ";" then None
  else if String.eqb piece "" then Some None
  else
    let (key, value) := match Cut piece "=" with Some kv => kv | None => (piece, "") end in
    match QueryUnescape key, QueryUnescape value with
    | Some key, Some value => Some (Some (key, value))
    | _, _ => None
    end.

Definition add_value (m : Values) (key value : string) : Values :=
  <[key := default [] (m !! key) ++ [value]]> m.

(** Erroneous pieces are skipped and reported: the second component is [err == nil]. *)
Definition parse_pieces (pieces : list string) : Values * bool :=
  foldl (fun (acc : Values * bool) piece =>
           match parse_pair piece with
           | None => (acc.1, false)
           | Some None => acc
           | Some (Some (key, value)) => (add_value acc.1 key value, acc.2)
           end) (∅, true) pieces.

Definition ParseQuery (query : string) : Values * bool :=
  let pieces := Split query "&" in
  if defaultMaxParams <? Z.of_nat (length pieces) then (∅, false) else parse_pieces pieces.

(** [Values.Get] and [Values.Set] *)
Definition Values_Get (q : Values) (key : string) : string :=
  match q !! key with Some (v :: _) => v | _ => "" end.

Definition Values_Set (q : Values) (key value : string) : Values := <[key := [value]]> q.

(** Keys in byte order. *)
Definition str_leb (s t : string) : bool := negb (str_ltb t s).

Fixpoint insert_sorted (kv : string * list string) (l : list (string * list string))
    : list (string * list string) :=
  match l with
  | [] => [kv]
  | kv' :: l' => if str_leb kv.1 kv'.1 then kv :: l else kv' :: insert_sorted kv l'
  end.

Definition sorted_values (q : Values) : list (string * list string) :=
  foldr insert_sorted [] (map_to_list q).

Definition Encode (q : Values) : string :=
  Join (mbind (fun kv => (fun v => QueryEscape kv.1 +:+ "=" +:+ QueryEscape v) <$> kv.2)
          (sorted_values q)) "&".

(** ** Escaping and unescaping are inverse *)

Lemma unhex_upperhex z : 0 <= z < 16 -> unhex (upperhex z) = Some z.
Proof.
  intros Hz. assert (Forall (fun z => unhex (upperhex z) = Some z) (seqZ 0 16)) as Hall
    by (apply (bool_decide_unpack _); vm_compute; exact I).
  rewrite Forall_forall in Hall. apply Hall, elem_of_seqZ. lia.
Qed.

(** What an escaper may write for a byte so that [unescape] reads it back. *)
Definition escapes (query : bool) (c : ascii) (t : string) : Prop :=
  t = pct c \/ (t = String c "" /\ c <> "%"%char /\ (query = true -> c <> "+"%char)) \/
  (query = true /\ c = " "%char /\ t = "+").

Lemma unescape_escapes query c t s :
  escapes query c t -> unescape query (t +:+ s) = String c <$> unescape query s.
Proof.
  intros [->|[(-> & Hc & Hp)|(-> & -> & ->)]].
  - unfold pct. rewrite !app_cons_str. cbn [unescape].
    pose proof (byte_val_range c).
    rewrite !unhex_upperhex by (split; [apply Z.div_pos || apply Z.mod_pos_bound; lia|];
      (apply Z.div_lt_upper_bound || apply Z.mod_pos_bound); lia).
    rewrite app_nil_l_str. destruct (unescape query s); [|done]. cbn. do 2 f_equal.
    rewrite <-Z.div_mod by lia. apply byte_chr_val.
  - rewrite app_cons_str, app_nil_l_str.
    assert (unescape query (String c s) =
      match unescape query s with
      | Some t => Some (String (if query && Ascii.eqb c "+" then " "%char else c) t)
      | None => None
      end) as ->.
    { destruct c as [[] [] [] [] [] [] [] []]; try done; by destruct Hc. }
    assert (query && Ascii.eqb c "+" = false) as ->.
    { destruct query; [|done]. simpl. apply Ascii.eqb_neq. auto. }
    by destruct (unescape query s).
  - change ("+" +:+ s) with (String "+" s). cbn. by destruct (unescape true s).
Qed.

Lemma path_escapes c : escapes false c (if path_safe c then String c "" else pct c).
Proof.
  destruct (path_safe c) eqn:E; [|by left]. right. left. split_and!; [done| |done].
  intros ->. by vm_compute in E.
Qed.

Lemma PathUnescape_escape_path s : PathUnescape (escape_path s) = Some s.
Proof.
  unfold PathUnescape. induction s as [|c s IH]; [done|]. cbn [escape_path].
  rewrite (unescape_escapes false c), IH; [done|apply path_escapes].
Qed.

Lemma QueryUnescape_QueryEscape s : QueryUnescape (QueryEscape s) = Some s.
Proof.
  unfold QueryUnescape. induction s as [|c s IH]; [done|]. cbn [QueryEscape].
  rewrite (unescape_escapes true c), IH; [done|].
  destruct (Ascii.eqb_spec c " ") as [->|]; [by right; right|].
  destruct (unreserved c) eqn:E; [|by left]. right. left.
  split_and!; [done| |]; intros; intros ->; by vm_compute in E.
Qed.

(** ** [Encode] and [ParseQuery] are inverse *)

Definition plain (c : ascii) : bool :=
  negb (Ascii.eqb c "&") && negb (Ascii.eqb c "=") && negb (Ascii.eqb c ";").

Lemma str_forallb_app f s t : str_forallb f (s +:+ t) = str_forallb f s && str_forallb f t.
Proof.
  induction s as [|c s IH]; [done|]. rewrite app_cons_str. simpl. by rewrite IH, andb_assoc.
Qed.

Lemma upperhex_plain z : 0 <= z < 16 -> plain (upperhex z) = true.
Proof.
  intros Hz. assert (Forall (fun z => plain (upperhex z) = true) (seqZ 0 16)) as Hall
    by (apply (bool_decide_unpack _); vm_compute; exact I).
  rewrite Forall_forall in Hall. apply Hall, elem_of_seqZ. lia.
Qed.

Lemma QueryEscape_plain s : str_forallb plain (QueryEscape s) = true.
Proof.
  induction s as [|c s IH]; [done|]. cbn [QueryEscape]. rewrite str_forallb_app, IH, andb_true_r.
  destruct (Ascii.eqb c " "); [done|]. destruct (unreserved c) eqn:E.
  - simpl. rewrite andb_true_r. unfold plain.
    destruct (Ascii.eqb_spec c "&") as [->|]; [done|].
    destruct (Ascii.eqb_spec c "=") as [->|]; [done|].
    destruct (Ascii.eqb_spec c ";") as [->|]; done.
  - unfold pct. simpl. pose proof (byte_val_range c).
    rewrite !upperhex_plain; [done|split; [apply Z.mod_pos_bound; lia|apply Z.mod_pos_bound; lia]|].
    split; [apply Z.div_pos; lia|apply Z.div_lt_upper_bound; lia].
Qed.

Lemma Contains_byte_forallb f s (c : ascii) :
  str_forallb f s = true -> f c = false -> Contains s (String c "") = false.
Proof.
  induction s as [|a s IH]; intros Hs Hc; [done|]. cbn [Contains HasPrefix str_forallb] in *.
  apply andb_true_iff in Hs as [Ha Hs]. rewrite (IH Hs Hc), orb_false_r, andb_true_r.
  apply Ascii.eqb_neq. intros ->. congruence.
Qed.

Definition pair_text (kv : string * string) : string :=
  QueryEscape kv.1 +:+ "=" +:+ QueryEscape kv.2.

Lemma Contains_app_byte s t (c : ascii) :
  Contains (s +:+ t) (String c "") = Contains s (String c "") || Contains t (String c "").
Proof.
  induction s as [|a s IH]; [done|]. rewrite app_cons_str. cbn [Contains HasPrefix].
  by rewrite IH, orb_assoc.
Qed.

Lemma pair_text_no_sep kv (c : ascii) :
  plain c = false -> c <> "="%char -> Contains (pair_text kv) (String c "") = false.
Proof.
  intros Hc Hne. unfold pair_text. rewrite !Contains_app_byte.
  rewrite (Contains_byte_forallb plain (QueryEscape kv.1)),
    (Contains_byte_forallb plain (QueryEscape kv.2)) by (apply QueryEscape_plain || done).
  cbn. rewrite !orb_false_r, andb_true_r. by apply Ascii.eqb_neq.
Qed.

Lemma parse_pair_text kv : parse_pair (pair_text kv) = Some (Some kv).
Proof.
  unfold parse_pair. rewrite pair_text_no_sep by done.
  destruct (String.eqb_spec (pair_text kv) "") as [E|_].
  { apply (f_equal String.length) in E. unfold pair_text in E.
    rewrite !length_app_str in E. simpl in E. lia. }
  unfold pair_text. change ("=" +:+ QueryEscape kv.2) with (String "=" (QueryEscape kv.2)).
  rewrite Cut_app_byte by (apply (Contains_byte_forallb plain); [apply QueryEscape_plain|done]).
  rewrite !QueryUnescape_QueryEscape. by destruct kv.
Qed.

(** Adding the pairs of a map's list one by one rebuilds the map. *)
Definition add_pairs (m : Values) (l : list (string * string)) : Values :=
  foldl (fun m kv => add_value m kv.1 kv.2) m l.

Lemma parse_pieces_pairs l :
  parse_pieces (pair_text <$> l) = (add_pairs ∅ l, true).
Proof.
  unfold parse_pieces, add_pairs. generalize (∅ : Values).
  induction l as [|kv l IH]; intros m; [done|]. simpl. rewrite parse_pair_text. destruct kv.
  apply IH.
Qed.

Definition pairs_of (l : list (string * list string)) : list (string * string) :=
  mbind (fun kv => (fun v => (kv.1, v)) <$> kv.2) l.

Lemma add_pairs_app m l1 l2 : add_pairs m (l1 ++ l2) = add_pairs (add_pairs m l1) l2.
Proof. apply foldl_app. Qed.

Lemma add_pairs_key m k vs :
  vs <> [] -> add_pairs m ((fun v => (k, v)) <$> vs) = <[k := default [] (m !! k) ++ vs]> m.
Proof.
  intros Hne. destruct vs as [|v vs]; [done|]. clear Hne. revert m v.
  induction vs as [|v' vs IH]; intros m v; [done|].
  change (add_pairs (add_value m k v) ((fun v => (k, v)) <$> v' :: vs) =
          <[k := default [] (m !! k) ++ v :: v' :: vs]> m).
  rewrite (IH (add_value m k v) v'). unfold add_value.
  rewrite lookup_insert_eq, insert_insert_eq. cbn. by rewrite <-app_assoc.
Qed.

Lemma add_pairs_list m l :
  NoDup l.*1 -> (forall k vs, (k, vs) ∈ l -> vs <> [] /\ m !! k = None) ->
  add_pairs m (pairs_of l) = list_to_map l ∪ m.
Proof.
  revert m. induction l as [|[k vs] l IH]; intros m Hnd Hl.
  { cbn. by rewrite (left_id_L ∅ (∪)). }
  rewrite fmap_cons, NoDup_cons in Hnd. destruct Hnd as [Hni Hnd].
  destruct (Hl k vs) as [Hne Hk]; [set_solver|].
  unfold pairs_of. cbn [mbind list_bind fst snd]. rewrite add_pairs_app, add_pairs_key by done.
  fold (pairs_of l). rewrite Hk. cbn [default app]. rewrite IH; [|done|].
  - cbn [list_to_map foldr fst snd uncurry]. rewrite <-insert_union_l, <-insert_union_r; [done|].
    apply not_elem_of_list_to_map_1. done.
  - intros k' vs' Hin. destruct (Hl k' vs') as [? Hk']; [set_solver|]. split; [done|].
    rewrite lookup_insert_ne; [done|]. intros ->. apply Hni. by apply (list_elem_of_fmap_2 fst) in Hin.
Qed.

Lemma insert_sorted_perm kv l : insert_sorted kv l ≡ₚ kv :: l.
Proof.
  induction l as [|kv' l IH]; [done|]. simpl. destruct (str_leb _ _); [done|].
  rewrite IH. apply perm_swap.
Qed.

Lemma sorted_values_perm q : sorted_values q ≡ₚ map_to_list q.
Proof.
  unfold sorted_values. induction (map_to_list q) as [|kv l IH]; [done|]. simpl.
  by rewrite insert_sorted_perm, IH.
Qed.

Lemma Encode_pairs q : Encode q = Join (pair_text <$> pairs_of (sorted_values q)) "&".
Proof.
  unfold Encode, pairs_of. f_equal. induction (sorted_values q) as [|[k vs] l IH]; [done|].
  cbn [mbind list_bind fst snd]. rewrite fmap_app, IH. f_equal.
  rewrite <-list_fmap_compose. done.
Qed.

(** No key without values, and few enough parameters. *)
Definition values_ok (q : Values) : Prop :=
  (forall k vs, q !! k = Some vs -> vs <> []) /\
  Z.of_nat (length (pairs_of (sorted_values q))) <= defaultMaxParams.

Lemma ParseQuery_Encode q : values_ok q -> ParseQuery (Encode q) = (q, true).
Proof.
  intros [Hne Hlen]. rewrite Encode_pairs. unfold ParseQuery.
  assert (add_pairs ∅ (pairs_of (sorted_values q)) = q) as Hq.
  { rewrite add_pairs_list.
    - rewrite (right_id_L ∅ (∪)). rewrite <-(list_to_map_to_list q) at 2.
      apply list_to_map_proper; [|apply sorted_values_perm].
      rewrite sorted_values_perm. apply NoDup_fst_map_to_list.
    - rewrite sorted_values_perm. apply NoDup_fst_map_to_list.
    - intros k vs Hin. rewrite sorted_values_perm in Hin.
      apply elem_of_map_to_list in Hin. split; [by eapply Hne|apply lookup_empty]. }
  destruct (pairs_of (sorted_values q)) as [|p ps] eqn:Ep.
  - cbn in Hq. subst q. done.
  - rewrite Split_Join_byte; [|done|].
    + rewrite length_fmap, (proj2 (Z.ltb_ge _ _)) by done. rewrite parse_pieces_pairs. by rewrite Hq.
    + apply Forall_fmap, Forall_forall. intros kv _. by apply pair_text_no_sep.
Qed.

(** One value per key and keys from a short list. *)
Lemma values_ok_single (q : Values) (keys : list string) :
  (forall k vs, q !! k = Some vs -> (exists v, vs = [v]) /\ k ∈ keys) ->
  Z.of_nat (length keys) <= defaultMaxParams -> values_ok q.
Proof.
  intros Hq Hlen. split; [intros k vs Hk; by destruct (Hq k vs Hk) as [[v ->] _]|].
  assert (forall l : list (string * list string), (forall kv, kv ∈ l -> exists v, kv.2 = [v]) ->
    length (pairs_of l) = length l) as Hp.
  { induction l as [|[k vs] l IH]; intros Hl; [done|]. unfold pairs_of in *. cbn.
    destruct (Hl (k, vs) (list_elem_of_here _ _)) as [v Hv]. cbn in Hv. subst vs.
    cbn. f_equal. apply IH. intros kv Hin. apply Hl. by right. }
  rewrite Hp.
  - rewrite sorted_values_perm. rewrite <-(length_fmap fst (map_to_list q)).
    assert ((map_to_list q).*1 ⊆+ keys) as ?%submseteq_length; [|lia].
    apply NoDup_submseteq; [apply NoDup_fst_map_to_list|].
    intros k ([k' vs] & -> & Hin%elem_of_map_to_list)%list_elem_of_fmap. by eapply Hq.
  - intros [k vs] Hin. rewrite sorted_values_perm in Hin. apply elem_of_map_to_list in Hin.
    by destruct (Hq k vs Hin).
Qed.
