(* ===== verification/TimeLaws.v ===== *)
(** * TimeLaws: dates are read back as they were written

    The calendar of [GoTime] is right on every day of the years 1 to 9999: a day number
    has one date, the date is a valid one, and the formatted texts parse to the time
    they were made from, to the second. *)
From stdpp Require Import pretty.
From S2P Require Import Prelude GoStrings GoTime GoUrl.

(** ** The date of a day *)

Lemma year_of_era doe :
  0 <= doe < 146097 ->
  let yoe := (doe - doe / 1460 + doe / 36524 - doe / 146096) / 365 in
  let doy := doe - (365 * yoe + yoe / 4 - yoe / 100) in
  0 <= yoe < 400 /\ 0 <= doy <= 365 /\ (doy = 365 -> isLeap (yoe + 1) = true).
Proof.
  intros H. cbv zeta. split; [Z.div_mod_to_equations; lia|].
  split; [Z.div_mod_to_equations; lia|]. intros Hd. unfold isLeap.
  assert ((doe - doe / 1460 + doe / 36524 - doe / 146096) / 365 < 400)
    by (Z.div_mod_to_equations; lia).
  set (yoe := (doe - doe / 1460 + doe / 36524 - doe / 146096) / 365) in *.
  assert ((yoe + 1) mod 4 = 0) as -> by (subst yoe; Z.div_mod_to_equations; lia).
  cbn [Z.eqb andb]. destruct ((yoe + 1) mod 400 =? 0) eqn:E4; [by rewrite orb_true_r|].
  rewrite orb_false_r. apply negb_true_iff, Z.eqb_neq. apply Z.eqb_neq in E4.
  subst yoe; Z.div_mod_to_equations; lia.
Qed.

(** Months and days of a year that starts in March, by enumeration. *)
Definition march_ok (doy : Z) : bool :=
  let mp := (5 * doy + 2) / 153 in
  let day := doy - (153 * mp + 2) / 5 + 1 in
  let month := if mp <? 10 then mp + 3 else mp - 9 in
  in_range 1 12 month && (1 <=? day)
  && (if month <=? 2
      then (doy - 306 =? (if month =? 2 then 31 else 0) + (day - 1))
           && (day <=? (if month =? 2 then (if doy =? 365 then 29 else 28) else 31))
      else (doy + 59 =? days_before_month month 1 + (day - 1)) && (day <=? daysIn month 1)).

Lemma march_ok_all doy : 0 <= doy <= 365 -> march_ok doy = true.
Proof.
  intros H. assert (Forall (fun d => march_ok d = true) (seqZ 0 366)) as Hall
    by (apply (bool_decide_unpack _); vm_compute; exact I).
  rewrite Forall_forall in Hall. apply Hall, elem_of_seqZ. lia.
Qed.

Lemma daysIn_common month year : month <> 2 -> daysIn month year = daysIn month 1.
Proof. intros H. unfold daysIn. by rewrite (proj2 (Z.eqb_neq _ _) H). Qed.

(** The leap day comes before March. *)
Lemma days_before_month_leap month year :
  3 <= month <= 12 ->
  days_before_month month year = days_before_month month 1 + (if isLeap year then 1 else 0).
Proof.
  intros H. assert (month ∈ seqZ 3 10) as Hin by (apply elem_of_seqZ; lia).
  unfold days_before_month, daysIn. destruct (isLeap year);
    (repeat (apply elem_of_cons in Hin as [->|Hin]; [vm_compute; reflexivity|]));
    by apply not_elem_of_nil in Hin.
Qed.

(** Days before a year, counted from March of the year before. *)
Lemma days_before_year_next year :
  days_before_year (year + 1) = days_before_year year + 365 + (if isLeap year then 1 else 0).
Proof.
  unfold days_before_year, isLeap. cbv zeta.
  destruct (year mod 4 =? 0) eqn:E4, (year mod 100 =? 0) eqn:E1, (year mod 400 =? 0) eqn:E0;
    cbn [andb negb orb]; bool_to_prop; Z.div_mod_to_equations; lia.
Qed.

Lemma isLeap_era y era : isLeap (y + era * 400) = isLeap y.
Proof.
  unfold isLeap.
  assert ((y + era * 400) mod 4 = y mod 4) as -> by (Z.div_mod_to_equations; lia).
  assert ((y + era * 400) mod 100 = y mod 100) as -> by (Z.div_mod_to_equations; lia).
  by rewrite Z.mod_add.
Qed.

Lemma era_days y era :
  0 <= y < 400 ->
  days_before_year (y + era * 400 + 1) = 146097 * era + (365 * y + y / 4 - y / 100).
Proof. intros H. unfold days_before_year. cbv zeta. Z.div_mod_to_equations; lia. Qed.

Record date_ok (days year month day : Z) : Prop := {
  d_month : 1 <= month <= 12;
  d_day : 1 <= day <= daysIn month year;
  d_days : days_before_year year + days_before_month month year + (day - 1) = days
}.

Lemma civil_ok days : let '(y, m, d) := civil days in date_ok days y m d.
Proof.
  unfold civil. set (z := days + 306). set (era := z / 146097). set (doe := z mod 146097).
  assert (0 <= doe < 146097) as Hdoe by (apply Z.mod_pos_bound; lia).
  assert (z = 146097 * era + doe) as Hz by (apply Z.div_mod; lia).
  destruct (year_of_era doe Hdoe) as (Hy & Hd & Hleap). cbv zeta in *.
  set (yoe := (doe - doe / 1460 + doe / 36524 - doe / 146096) / 365) in *.
  set (doy := doe - (365 * yoe + yoe / 4 - yoe / 100)) in *.
  pose proof (march_ok_all doy Hd) as Hm. unfold march_ok in Hm. cbv zeta in Hm.
  set (mp := (5 * doy + 2) / 153) in *. set (day := doy - (153 * mp + 2) / 5 + 1) in *.
  set (month := if mp <? 10 then mp + 3 else mp - 9) in *. clearbody month day mp.
  apply andb_true_iff in Hm as [Hm Hc]. unfold in_range in Hm. bool_to_prop.
  pose proof (era_days yoe era Hy) as He.
  destruct (Z.leb_spec month 2) as [Hle|Hgt]; apply andb_true_iff in Hc as [E1 E2];
    apply Z.eqb_eq in E1; apply Z.leb_le in E2.
  - set (year := yoe + era * 400 + 1) in *.
    assert (doy = 365 -> isLeap year = true) as Hl.
    { intros E. unfold year. replace (yoe + era * 400 + 1) with (yoe + 1 + era * 400) by lia.
      rewrite isLeap_era. auto. }
    assert (month = 1 \/ month = 2) as [-> | ->] by lia; cbn in E1, E2; split; try lia.
    + unfold daysIn. cbn. rewrite bool_decide_false by set_solver. lia.
    + change (days_before_month 1 year) with 0. subst z doy. lia.
    + unfold daysIn. cbn [Z.eqb Pos.eqb].
      destruct (Z.eqb_spec doy 365) as [E|]; [rewrite (Hl E); lia|].
      destruct (isLeap year); lia.
    + change (days_before_month 2 year) with (daysIn 1 year + 0). rewrite daysIn_common by lia.
      change (daysIn 1 1) with 31. subst z doy. lia.
  - rewrite Z.add_0_r. split; try lia.
    + rewrite daysIn_common by lia. lia.
    + rewrite days_before_month_leap by lia. rewrite days_before_year_next in He.
      subst z doy. lia.
Qed.

(** ** Decimal text *)

Definition is_digit (c : ascii) : bool := in_range 48 57 (byte_val c).

Lemma pretty_N_char_digit x :
  (x < 10)%N -> is_digit (pretty_N_char x) = true /\ digit_val (pretty_N_char x) = Some (Z.of_N x).
Proof.
  intros Hx. assert (Forall (fun x => is_digit (pretty_N_char x) = true /\
    digit_val (pretty_N_char x) = Some (Z.of_N x)) [0; 1; 2; 3; 4; 5; 6; 7; 8; 9]%N) as Hall
    by (repeat constructor; vm_compute; reflexivity).
  rewrite Forall_forall in Hall. apply Hall. rewrite !elem_of_cons. lia.
Qed.

(** Writing [x] before digits: digits again, read as the number followed by the rest. *)
Lemma pretty_N_go_digits x s :
  str_forallb is_digit s = true ->
  str_forallb is_digit (pretty_N_go x s) = true /\
  decimal_acc 0 (pretty_N_go x s) = decimal_acc (Z.of_N x) s.
Proof.
  revert s. induction (N.lt_wf_0 x) as [x _ IH]; intros s Hs.
  destruct (N.eq_0_gt_0_cases x) as [->|Hx]; [done|]. rewrite pretty_N_go_step by done.
  destruct (pretty_N_char_digit (x mod 10)) as [Hd Hv]; [by apply N.mod_lt|].
  destruct (IH (x / 10)%N ltac:(by apply N.div_lt) (String (pretty_N_char (x mod 10)) s))
    as [Ha Hb]; [cbn; by rewrite Hd|]. split; [done|]. rewrite Hb. cbn [decimal_acc]. rewrite Hv.
  f_equal. pose proof (N.div_mod x 10 ltac:(done)). lia.
Qed.

Lemma length_pretty_N_go k x s :
  (x < 10 ^ N.of_nat k)%N -> (String.length (pretty_N_go x s) <= k + String.length s)%nat.
Proof.
  revert x s. induction k as [|k IH]; intros x s Hx.
  - assert (x = 0%N) as -> by (change (10 ^ N.of_nat 0)%N with 1%N in Hx; lia). done.
  - destruct (N.eq_0_gt_0_cases x) as [->|Hpos]; [rewrite pretty_N_go_0; lia|].
    rewrite pretty_N_go_step by done.
    assert (x / 10 < 10 ^ N.of_nat k)%N as Hd.
    { apply N.Div0.div_lt_upper_bound. by rewrite <-N.pow_succ_r', <-Nat2N.inj_succ. }
    specialize (IH _ (String (pretty_N_char (x mod 10)) s) Hd). cbn in IH |- *. lia.
Qed.

Lemma FormatInt_digits z :
  0 <= z -> str_forallb is_digit (FormatInt z) = true /\ decimal_acc 0 (FormatInt z) = Some z.
Proof.
  intros Hz. unfold FormatInt. destruct z as [|p|p]; [done| |lia].
  change (pretty (Z.pos p)) with (pretty (N.pos p)). unfold pretty, pretty_N. cbn [decide].
  rewrite decide_False by done. by apply pretty_N_go_digits.
Qed.

Lemma length_FormatInt k z :
  (0 < k)%nat -> 0 <= z < 10 ^ Z.of_nat k -> (String.length (FormatInt z) <= k)%nat.
Proof.
  intros Hk Hz. unfold FormatInt. destruct z as [|p|p]; [cbn; lia| |lia].
  change (pretty (Z.pos p)) with (pretty (N.pos p)). unfold pretty, pretty_N.
  rewrite decide_False by done. rewrite <-(Nat.add_0_r k). apply (length_pretty_N_go k _ "").
  apply N2Z.inj_lt. rewrite N2Z.inj_pow, nat_N_Z. cbn. lia.
Qed.

(** ** Padded fields *)

Lemma pad_left_digits n s :
  str_forallb is_digit s = true ->
  str_forallb is_digit (pad_left n s) = true /\
  decimal_acc 0 (pad_left n s) = decimal_acc 0 s /\
  String.length (pad_left n s) = (n + String.length s)%nat.
Proof.
  intros Hs. induction n as [|n (IH1 & IH2 & IH3)]; [done|]. cbn [pad_left].
  split_and!; [by cbn|by cbn|]. cbn. by rewrite IH3.
Qed.

Lemma pad_digits width z :
  (0 < width)%nat -> 0 <= z < 10 ^ Z.of_nat width ->
  str_forallb is_digit (pad width z) = true /\ decimal_acc 0 (pad width z) = Some z /\
  String.length (pad width z) = width.
Proof.
  intros Hw Hz. destruct (FormatInt_digits z ltac:(lia)) as [Hd Hv]. unfold pad. cbv zeta.
  pose proof (length_FormatInt width z Hw Hz) as Hl.
  destruct (pad_left_digits (width - String.length (FormatInt z)) _ Hd) as (H1 & H2 & H3).
  split_and!; [done|congruence|lia].
Qed.

Lemma pad2_digits z : 0 <= z < 100 -> str_forallb is_digit (pad 2 z) = true.
Proof. intros Hz. by apply (pad_digits 2); [lia|]. Qed.

Lemma pad4_digits y : 0 <= y < 10000 -> str_forallb is_digit (pad 4 y) = true.
Proof. intros Hy. by apply (pad_digits 4); [lia|]. Qed.

Lemma is_digit_val c : is_digit c = true -> exists d, digit_val c = Some d.
Proof. unfold is_digit, digit_val. intros ->. eauto. Qed.

Lemma getnum_pad fixed z s : 0 <= z < 100 -> getnum fixed (pad 2 z +:+ s) = Some (z, s).
Proof.
  intros Hz. destruct (pad_digits 2 z ltac:(lia) Hz) as (Hd & Hv & Hl).
  destruct (pad 2 z) as [|a [|b [|c u]]]; try discriminate Hl.
  cbn [str_forallb] in Hd. apply andb_true_iff in Hd as [Ha [Hb _]%andb_true_iff].
  destruct (is_digit_val a Ha) as [x Hx], (is_digit_val b Hb) as [y Hy].
  rewrite !app_cons_str, app_nil_l_str. cbn [getnum decimal_acc] in *. rewrite Hx, Hy in *.
  injection Hv as Hv. do 2 f_equal. lia.
Qed.

Lemma getfield_pad fixed lo hi z s :
  0 <= z < 100 -> lo <= z <= hi -> getfield fixed lo hi (pad 2 z +:+ s) = Some (z, s).
Proof.
  intros Hz Hr. unfold getfield. rewrite getnum_pad by done. unfold in_range.
  by rewrite (proj2 (Z.leb_le _ _)), (proj2 (Z.leb_le _ _)) by lia.
Qed.

Lemma getyear_pad y s : 0 <= y < 10000 -> getyear (pad 4 y +:+ s) = Some (y, s).
Proof.
  intros Hy. destruct (pad_digits 4 y ltac:(lia) Hy) as (_ & Hv & Hl).
  unfold getyear. rewrite length_app_str, Hl. rewrite (proj2 (Nat.leb_le _ _)) by lia.
  pose proof (str_take_app (pad 4 y) s) as Ht. pose proof (str_drop_app (pad 4 y) s) as Hr.
  rewrite Hl in Ht, Hr. rewrite Ht, Hr. unfold decimal. destruct (pad 4 y); [done|]. by rewrite Hv.
Qed.

(** ** Times *)

(** Seconds of the years 1 to 9999. *)
Definition in_years (t : Time) : Prop := 0 <= t_sec t < 315537897600.

Lemma civil_year days :
  0 <= days < 3652059 -> let '(y, m, d) := civil days in 1 <= y <= 9999.
Proof.
  intros H. pose proof (civil_ok days) as Hc. destruct (civil days) as [[y m] d].
  destruct Hc as [Hm Hd Hdays].
  assert (0 <= days_before_month m y + (d - 1) <= 365) as Hb.
  { assert (0 <= days_before_month m y /\ days_before_month m y + daysIn m y <= 366) as [? ?]; [|lia].
    clear -Hm. assert (m ∈ seqZ 1 12) as Hin by (apply elem_of_seqZ; lia).
    unfold days_before_month, daysIn. destruct (isLeap y);
      (repeat (apply elem_of_cons in Hin as [->|Hin]; [vm_compute; split; discriminate|]));
      by apply not_elem_of_nil in Hin. }
  unfold days_before_year in Hdays. cbv zeta in Hdays. Z.div_mod_to_equations; lia.
Qed.

Lemma skip_app lit s : skip lit (lit +:+ s) = Some s.
Proof. unfold skip. by rewrite HasPrefix_app, str_drop_app. Qed.

Lemma skip_nil s : skip "" s = Some s.
Proof. reflexivity. Qed.

(** What [parse_datetime] reads of formatted fields. *)
Lemma parse_datetime_fraction dash tee colon y m d hh mm ss frac nsec rest :
  0 <= y < 10000 -> 1 <= m <= 12 -> 1 <= d <= daysIn m y -> 0 <= hh < 24 -> 0 <= mm < 60 ->
  0 <= ss < 60 -> getfraction frac = (nsec, rest) ->
  parse_datetime dash tee colon
    (pad 4 y +:+ dash +:+ pad 2 m +:+ dash +:+ pad 2 d +:+ tee +:+ pad 2 hh +:+ colon
     +:+ pad 2 mm +:+ colon +:+ pad 2 ss +:+ frac) = Some (DateUTC y m d hh mm ss nsec, rest).
Proof.
  intros Hy Hm Hd Hh Hmm Hs Hr.
  assert (daysIn m y <= 31) by (unfold daysIn; repeat case_match; lia).
  unfold parse_datetime. rewrite getyear_pad by done. cbn [mbind option_bind].
  rewrite skip_app. cbn [mbind option_bind]. rewrite getfield_pad by lia. cbn [mbind option_bind].
  rewrite skip_app. cbn [mbind option_bind]. rewrite getnum_pad by lia. cbn [mbind option_bind].
  rewrite skip_app. cbn [mbind option_bind]. rewrite getfield_pad by lia. cbn [mbind option_bind].
  rewrite skip_app. cbn [mbind option_bind]. rewrite getfield_pad by lia. cbn [mbind option_bind].
  rewrite skip_app. cbn [mbind option_bind]. rewrite getfield_pad by lia. cbn [mbind option_bind].
  rewrite Hr. unfold in_range. by rewrite (proj2 (Z.leb_le _ _)), (proj2 (Z.leb_le _ _)) by lia.
Qed.

Lemma parse_datetime_fields dash tee colon y m d hh mm ss rest :
  0 <= y < 10000 -> 1 <= m <= 12 -> 1 <= d <= daysIn m y -> 0 <= hh < 24 -> 0 <= mm < 60 ->
  0 <= ss < 60 -> getfraction rest = (0, rest) ->
  parse_datetime dash tee colon
    (pad 4 y +:+ dash +:+ pad 2 m +:+ dash +:+ pad 2 d +:+ tee +:+ pad 2 hh +:+ colon
     +:+ pad 2 mm +:+ colon +:+ pad 2 ss +:+ rest) = Some (DateUTC y m d hh mm ss 0, rest).
Proof. apply parse_datetime_fraction. Qed.

(** The fields of a time are in range and make up the time. *)
Lemma time_fields t :
  in_years t ->
  let '(y, m, d) := civil (t_sec t / 86400) in
  let s := t_sec t mod 86400 in
  1 <= y <= 9999 /\ 1 <= m <= 12 /\ 1 <= d <= daysIn m y /\ 0 <= s / 3600 < 24 /\
  0 <= s mod 3600 / 60 < 60 /\ 0 <= s mod 60 < 60 /\
  DateUTC y m d (s / 3600) (s mod 3600 / 60) (s mod 60) 0 = mkTime (t_sec t) 0.
Proof.
  intros Ht. unfold in_years in Ht.
  assert (0 <= t_sec t / 86400 < 3652059) as Hdays by (Z.div_mod_to_equations; lia).
  pose proof (civil_year _ Hdays) as Hy. pose proof (civil_ok (t_sec t / 86400)) as Hc.
  destruct (civil (t_sec t / 86400)) as [[y m] d]. destruct Hc as [Hm Hd Hdd].
  cbv zeta. split_and!; try lia; try (Z.div_mod_to_equations; lia).
  unfold DateUTC. rewrite Hdd. f_equal. Z.div_mod_to_equations; lia.
Qed.

Lemma ParseAmzDate_Format t :
  in_years t -> ParseAmzDate (FormatAmzDate t) = Some (mkTime (t_sec t) 0).
Proof.
  intros Ht. pose proof (time_fields t Ht) as Hf. unfold FormatAmzDate, FormatDay, ParseAmzDate.
  destruct (civil (t_sec t / 86400)) as [[y m] d]. cbv zeta in *.
  destruct Hf as (Hy & Hm & Hd & Hh & Hmm & Hs & <-).
  pose proof (parse_datetime_fields "" "T" "" y m d (t_sec t mod 86400 / 3600)
    (t_sec t mod 86400 mod 3600 / 60) (t_sec t mod 86400 mod 60) "Z"
    ltac:(lia) Hm Hd Hh Hmm Hs eq_refl) as Hp.
  rewrite !app_nil_l_str in Hp. rewrite !app_assoc_str, Hp. reflexivity.
Qed.

Lemma ParseRFC3339_Format t :
  in_years t -> ParseRFC3339 (FormatRFC3339 t) = Some (mkTime (t_sec t) 0).
Proof.
  intros Ht. pose proof (time_fields t Ht) as Hf. unfold FormatRFC3339, ParseRFC3339.
  destruct (civil (t_sec t / 86400)) as [[y m] d]. cbv zeta in *.
  destruct Hf as (Hy & Hm & Hd & Hh & Hmm & Hs & E).
  rewrite (parse_datetime_fields "-" "T" ":") by (done || lia). rewrite E. cbn.
  by rewrite Z.sub_0_r.
Qed.

(** Trailing zeros of a fraction add nothing to it. *)
Lemma trim_zeros_value acc s :
  str_forallb is_digit s = true ->
  exists n, decimal_acc acc (trim_zeros s) = Some n /\
    decimal_acc acc s = Some (n * 10 ^ (str_len s - str_len (trim_zeros s))) /\
    str_len (trim_zeros s) <= str_len s /\ str_forallb is_digit (trim_zeros s) = true.
Proof.
  revert acc. induction s as [|c s IH]; intros acc Hs.
  { exists acc. split_and!; [done| |done|done]. cbn [decimal_acc trim_zeros].
    change (10 ^ (str_len "" - str_len "")) with 1. by rewrite Z.mul_1_r. }
  cbn [str_forallb] in Hs. apply andb_true_iff in Hs as [Hc Hs].
  destruct (is_digit_val c Hc) as [x Hx].
  destruct (IH (10 * acc + x) Hs) as (n & Hn & Hv & Hl & Hd). cbn [trim_zeros decimal_acc].
  assert (str_len (String c s) = str_len s + 1) as El by (unfold str_len; cbn [String.length]; lia).
  rewrite El. destruct (trim_zeros s) as [|b t] eqn:Et.
  - change (str_len "") with 0 in *. cbn in Hn. injection Hn as <-. rewrite Hx, Hv.
    destruct (Ascii.eqb_spec c "0") as [->|Hne].
    + assert (x = 0) as -> by (vm_compute in Hx; congruence). exists acc. change (str_len "") with 0.
      split_and!; [done| |lia|done]. f_equal. rewrite !Z.sub_0_r, Z.add_0_r, Z.pow_add_r by lia. lia.
    + exists (10 * acc + x). cbn [decimal_acc str_forallb]. rewrite Hx, Hc.
      change (str_len (String c "")) with 1. split_and!; [done| |lia|done]. f_equal. f_equal. f_equal. lia.
  - exists n. cbn [decimal_acc] in *. rewrite Hx. cbn [str_forallb] in *. rewrite Hc.
    assert (str_len (String c (String b t)) = str_len (String b t) + 1) as -> by (unfold str_len; cbn [String.length]; lia).
    split_and!; [done| |lia|done]. rewrite Hv. f_equal. f_equal. f_equal. lia.
Qed.

Lemma str_take_all n s : (String.length s <= n)%nat -> str_take n s = s.
Proof.
  revert n. induction s as [|c s IH]; intros n Hn; [by destruct n|].
  cbn [String.length] in Hn. destruct n as [|n]; [lia|]. cbn [str_take]. by rewrite IH by lia.
Qed.

Lemma span_digits_all s rest :
  str_forallb is_digit s = true -> span_digits (s +:+ String "Z" rest) = (s, String "Z" rest).
Proof.
  induction s as [|c s IH]; cbn [str_forallb]; [done|]. intros [Hc Hs]%andb_true_iff.
  rewrite app_cons_str. cbn [span_digits]. destruct (is_digit_val c Hc) as [x ->]. by rewrite IH.
Qed.

Lemma getfraction_fraction nsec :
  0 <= nsec < 1000000000 -> getfraction (fraction nsec +:+ "Z") = (nsec, "Z").
Proof.
  intros Hn. destruct (pad_digits 9 nsec ltac:(lia) Hn) as (Hd & Hv & Hl).
  destruct (trim_zeros_value 0 (pad 9 nsec) Hd) as (n & Hn1 & Hn2 & Hn3 & Hn4).
  unfold fraction. assert (str_len (pad 9 nsec) = 9) as El by (unfold str_len; by rewrite Hl).
  rewrite Hv, El in Hn2. injection Hn2 as Hn2. rewrite El in Hn3.
  destruct (trim_zeros (pad 9 nsec)) as [|c t] eqn:Et.
  - cbn in Hn1. injection Hn1 as <-. by subst.
  - rewrite app_assoc_str, app_cons_str, app_nil_l_str. cbn [getfraction]. cbn [Ascii.eqb Bool.eqb orb].
    rewrite span_digits_all by done. rewrite str_take_all.
    2:{ unfold str_len in Hn3. lia. }
    unfold decimal. by rewrite Hn1, Hn2.
Qed.

Lemma ParseRFC3339_Nano t :
  in_years t -> 0 <= t_nsec t < 1000000000 -> ParseRFC3339 (FormatRFC3339Nano t) = Some t.
Proof.
  intros Ht Hn. pose proof (time_fields t Ht) as Hf. unfold FormatRFC3339Nano, ParseRFC3339.
  destruct (civil (t_sec t / 86400)) as [[y m] d]. cbv zeta in *.
  destruct Hf as (Hy & Hm & Hd & Hh & Hmm & Hs & E).
  rewrite (parse_datetime_fraction "-" "T" ":" y m d _ _ _ _ (t_nsec t) "Z") by (done || lia || by apply getfraction_fraction).
  assert (DateUTC y m d (t_sec t mod 86400 / 3600) (t_sec t mod 86400 mod 3600 / 60)
            (t_sec t mod 86400 mod 60) (t_nsec t) = t) as ->.
  { unfold DateUTC in *. injection E as E. rewrite E. by destruct t. }
  cbn. destruct t as [s n]. cbn. by rewrite Z.sub_0_r.
Qed.

Lemma ParseDay_Format t : in_years t -> is_Some (ParseDay (FormatDay t)).
Proof.
  intros Ht. pose proof (time_fields t Ht) as Hf. unfold FormatDay, ParseDay.
  destruct (civil (t_sec t / 86400)) as [[y m] d]. cbv zeta in Hf.
  destruct Hf as (Hy & Hm & Hd & _).
  assert (daysIn m y <= 31) by (unfold daysIn; repeat case_match; lia).
  rewrite getyear_pad by lia. cbn [mbind option_bind]. rewrite getfield_pad by lia.
  cbn [mbind option_bind]. rewrite <-(app_nil_r_str (pad 2 d)), getnum_pad by lia.
  cbn. unfold in_range. rewrite (proj2 (Z.leb_le _ _)), (proj2 (Z.leb_le _ _)) by lia. eauto.
Qed.

Lemma FormatDay_digits t : in_years t -> str_forallb is_digit (FormatDay t) = true.
Proof.
  intros Ht. pose proof (time_fields t Ht) as Hf. unfold FormatDay.
  destruct (civil (t_sec t / 86400)) as [[y m] d]. cbv zeta in Hf.
  destruct Hf as (Hy & Hm & Hd & _).
  assert (daysIn m y <= 31) by (unfold daysIn; repeat case_match; lia).
  rewrite !str_forallb_app, pad4_digits, !pad2_digits by lia. done.
Qed.

Lemma FormatDay_seconds t n : FormatDay (mkTime (t_sec t) n) = FormatDay t.
Proof. reflexivity. Qed.

(** A formatted time is ASCII. *)
Lemma digit_ascii c : is_digit c = true -> is_ascii c = true.
Proof. unfold is_digit, is_ascii, in_range. lia. Qed.

Lemma fraction_ascii nsec : 0 <= nsec < 1000000000 -> str_forallb is_ascii (fraction nsec) = true.
Proof.
  intros Hn. destruct (pad_digits 9 nsec ltac:(lia) Hn) as (Hd & _).
  destruct (trim_zeros_value 0 (pad 9 nsec) Hd) as (_ & _ & _ & _ & Ht). unfold fraction.
  destruct (trim_zeros _) as [|c t]; [done|]. rewrite str_forallb_app. cbn [str_forallb andb].
  exact (str_forallb_impl _ _ _ digit_ascii Ht).
Qed.

Lemma FormatRFC3339Nano_ascii t :
  in_years t -> 0 <= t_nsec t < 1000000000 -> str_forallb is_ascii (FormatRFC3339Nano t) = true.
Proof.
  intros Ht Hn. pose proof (time_fields t Ht) as Hf. unfold FormatRFC3339Nano.
  destruct (civil (t_sec t / 86400)) as [[y m] d]. cbv zeta in *.
  destruct Hf as (Hy & Hm & Hd & Hh & Hmm & Hs & _).
  assert (daysIn m y <= 31) by (unfold daysIn; repeat case_match; lia).
  assert (forall z, 0 <= z < 100 -> str_forallb is_ascii (pad 2 z) = true) as H2
    by (intros z Hz; exact (str_forallb_impl _ _ _ digit_ascii (pad2_digits z Hz))).
  assert (str_forallb is_ascii (pad 4 y) = true) as H4
    by exact (str_forallb_impl _ _ _ digit_ascii (pad4_digits y ltac:(lia))).
  rewrite !str_forallb_app, H4, !H2, fraction_ascii by lia. done.
Qed.
