(* ===== verification/GoHttp.v ===== *)
(** * GoHttp: headers and the parts of a request the program reads ([net/http])

    A header maps a field name to its values, in order.  Reading a name directly
    canonicalizes it; the program also searches all names case-insensitively. *)
From S2P Require Import Prelude GoStrings GoUrl.

Abbreviation Header := (gmap string (list string)).

(** The token bytes of a field name. *)
Definition validHeaderFieldByte (c : ascii) : bool :=
  let b := byte_val c in
  in_range 97 122 b || in_range 65 90 b || in_range 48 57 b
  || existsb (Ascii.eqb c)
       ["!"; "#"; "$"; "%"; "&"; "'"; "*"; "+"; "-"; "."; "^"; "_"; "`"; "|"; "~"]%char.

Fixpoint canonical_bytes (upper : bool) (s : string) : string :=
  match s with
  | "" => ""
  | String c s =>
      let b := byte_val c in
      let c' := if upper && in_range 97 122 b then byte_chr (b - 32)
                else if negb upper && in_range 65 90 b then byte_chr (b + 32)
                else c in
      String c' (canonical_bytes (Ascii.eqb c' "-") s)
  end.

(** [http.CanonicalHeaderKey]: a name that is not a token is left as it is. *)
Definition CanonicalHeaderKey (s : string) : string :=
  if str_forallb validHeaderFieldByte s then canonical_bytes true s else s.

(** [Header.Values] *)
Definition Header_Values (h : Header) (name : string) : list string :=
  default [] (h !! CanonicalHeaderKey name).

(** [Header.Add], [Header.Set], [Header.Get], [Header.Del] *)
Definition Header_Add (h : Header) (key value : string) : Header :=
  <[CanonicalHeaderKey key := default [] (h !! CanonicalHeaderKey key) ++ [value]]> h.

Definition Header_Set (h : Header) (key value : string) : Header :=
  <[CanonicalHeaderKey key := [value]]> h.

Definition Header_Get (h : Header) (key : string) : string :=
  match Header_Values h key with v :: _ => v | [] => "" end.

Definition Header_Del (h : Header) (key : string) : Header := delete (CanonicalHeaderKey key) h.

(** [http.Request], the fields the program reads, with those of its URL; [TLS] is
    whether the connection is encrypted. *)
Record HttpRequest := mkHttpRequest {
  r_Method : string;
  r_Path : string;
  r_RawPath : string;
  r_RawQuery : string;
  r_Header : Header;
  r_Host : string;
  r_URLHost : string;
  r_ContentLength : Z;
  r_TransferEncoding : list string;
  r_Trailer : Header;
  r_TLS : bool
}.

(** The bytes of an encoded path that need no escaping, brackets included. *)
Definition valid_encoded_byte (c : ascii) : bool :=
  path_safe c
  || existsb (Ascii.eqb c) ["!"; "'"; "("; ")"; "*"; "["; "]"; "%"]%char.

(** [URL.EscapedPath]: the raw path when it is a valid encoding of the path. *)
Definition Request_EscapedPath (r : HttpRequest) : string :=
  if negb (String.eqb (r_RawPath r) "") && str_forallb valid_encoded_byte (r_RawPath r)
     && bool_decide (PathUnescape (r_RawPath r) = Some (r_Path r))
  then r_RawPath r else EscapedPath (r_Path r).

Example CanonicalHeaderKey_examples :
  CanonicalHeaderKey "x-amz-copy-source" = "X-Amz-Copy-Source" /\
  CanonicalHeaderKey "CONTENT-md5" = "Content-Md5" /\ CanonicalHeaderKey "a b" = "a b".
Proof. vm_compute. auto. Qed.

(** ** Canonical names *)

Lemma token_ascii c : validHeaderFieldByte c = true -> is_ascii c = true.
Proof. destruct c as [[] [] [] [] [] [] [] []]; vm_compute; congruence. Qed.

(** The byte [canonical_bytes] writes for [c]. *)
Definition canonical_byte (upper : bool) (c : ascii) : ascii :=
  if upper && in_range 97 122 (byte_val c) then byte_chr (byte_val c - 32)
  else if negb upper && in_range 65 90 (byte_val c) then byte_chr (byte_val c + 32)
  else c.

Lemma canonical_byte_token upper c :
  validHeaderFieldByte c = true ->
  validHeaderFieldByte (canonical_byte upper c) = true /\
  ascii_lower (canonical_byte upper c) = ascii_lower c /\
  canonical_byte upper (canonical_byte upper c) = canonical_byte upper c.
Proof.
  destruct upper, c as [[] [] [] [] [] [] [] []]; vm_compute; intros ?; try discriminate; done.
Qed.

Lemma canonical_bytes_cons upper c s :
  canonical_bytes upper (String c s) =
  String (canonical_byte upper c) (canonical_bytes (Ascii.eqb (canonical_byte upper c) "-") s).
Proof. reflexivity. Qed.

Lemma canonical_bytes_token upper s :
  str_forallb validHeaderFieldByte s = true ->
  str_forallb validHeaderFieldByte (canonical_bytes upper s) = true /\
  ToLower (canonical_bytes upper s) = ToLower s /\
  canonical_bytes upper (canonical_bytes upper s) = canonical_bytes upper s.
Proof.
  revert upper. induction s as [|c s IH]; intros upper; [done|].
  cbn [str_forallb]. intros [Hc Hs]%andb_true_iff. rewrite canonical_bytes_cons.
  destruct (canonical_byte_token upper c Hc) as (Ht & Hl & Hi).
  destruct (IH (Ascii.eqb (canonical_byte upper c) "-") Hs) as (Ht' & Hl' & Hi').
  cbn [str_forallb]. rewrite Ht, Ht', canonical_bytes_cons, Hi, Hi', !ToLower_ascii, Hl, Hl'
    by eauto using token_ascii. done.
Qed.

Lemma ToLower_CanonicalHeaderKey s : ToLower (CanonicalHeaderKey s) = ToLower s.
Proof.
  unfold CanonicalHeaderKey. destruct (str_forallb _ s) eqn:E; [|done].
  by apply canonical_bytes_token.
Qed.

Lemma CanonicalHeaderKey_idemp s : CanonicalHeaderKey (CanonicalHeaderKey s) = CanonicalHeaderKey s.
Proof.
  unfold CanonicalHeaderKey. destruct (str_forallb _ s) eqn:E; [|by rewrite E].
  destruct (canonical_bytes_token true s E) as (-> & _ & ->). done.
Qed.

(** The header of a request that the server of [net/http] read: every name is in
    canonical form. *)
Definition canonical_names (h : Header) : Prop :=
  forall name values, h !! name = Some values -> CanonicalHeaderKey name = name.
