(* ===== verification/Json.v ===== *)
(** * Json: [encoding/json] as the policy parser uses it

    A JSON text is read into a [json] value.  Objects keep their members in order
    and with duplicates: decoding into a Go map keeps the last one, which is what
    [object_get] returns.  Numbers keep their text ([UseNumber]). *)
From S2P Require Import Prelude GoStrings.

#[local] Set Warnings "-register-all".
Inductive json :=
| JNull
| JBool (b : bool)
| JNumber (text : string)
| JString (s : string)
| JArray (l : list json)
| JObject (members : list (string * json)).

Inductive json_error := JSyntax | JDepth | JOutOfFuel.

Definition maxNestingDepth : Z := 10000.

Definition is_ws (c : ascii) : bool :=
  Ascii.eqb c " " || Ascii.eqb c "009" || Ascii.eqb c "010" || Ascii.eqb c "013".

Fixpoint skip_ws (s : string) : string :=
  match s with
  | String c s' => if is_ws c then skip_ws s' else s
  | "" => ""
  end.

(** ** Strings *)

Definition hex_digit (c : ascii) : option Z :=
  let b := byte_val c in
  if in_range 48 57 b then Some (b - 48)
  else if in_range 97 102 b then Some (b - 87)
  else if in_range 65 70 b then Some (b - 55)
  else None.

Definition hex4 (a b c d : ascii) : option Z :=
  a ← hex_digit a; b ← hex_digit b; c ← hex_digit c; d ← hex_digit d;
  Some (a * 4096 + b * 256 + c * 16 + d).

Definition simple_escape (c : ascii) : option string :=
  match c with
  | "b" => Some (chr 8)
  | "f" => Some (chr 12)
  | "n" => Some (chr 10)
  | "r" => Some (chr 13)
  | "t" => Some (chr 9)
  | "\" | "/" | "034" => Some (String c "")
  | _ => None
  end%char.

(** The two halves of a surrogate pair, combined. *)
Definition surrogate_pair (hi lo : Z) : option Z :=
  if in_range 55296 56319 hi && in_range 56320 57343 lo
  then Some ((hi - 55296) * 1024 + (lo - 56320) + 65536) else None.

Definition prepend (t : string) (r : option (string * string)) : option (string * string) :=
  match r with Some (s, rest) => Some (t +:+ s, rest) | None => None end.

(** The body of a string after its opening quote; [None] is a syntax error.  A lone
    surrogate escape becomes U+FFFD ([encode_rune] encodes it so). *)
Fixpoint scan_string (s : string) : option (string * string) :=
  match s with
  | "" => None
  | String c s' =>
      if Ascii.eqb c "034" then Some ("", s')
      else if byte_val c <? 32 then None
      else if Ascii.eqb c "\" then
        match s' with
        | String "u" (String a (String b (String d (String e rest)))) =>
            match hex4 a b d e with
            | None => None
            | Some u =>
                match rest with
                | String "\" (String "u" (String a' (String b' (String d' (String e' rest'))))) =>
                    match hex4 a' b' d' e' with
                    | None => None
                    | Some u' =>
                        match surrogate_pair u u' with
                        | Some r => prepend (encode_rune r) (scan_string rest')
                        | None => prepend (encode_rune u) (scan_string rest)
                        end
                    end
                | _ => prepend (encode_rune u) (scan_string rest)
                end
            end
        | String x rest =>
            match simple_escape x with
            | Some t => prepend t (scan_string rest)
            | None => None
            end
        | "" => None
        end
      else prepend (String c "") (scan_string s')
  end.

(** Invalid UTF-8 in the text is coerced to U+FFFD. *)
Definition coerce_utf8 (s : string) : string := str_concat (encode_rune <$> rune_values s).

Definition parse_string (s : string) : result json_error (string * string) :=
  match scan_string s with
  | Some (t, rest) => Ok (coerce_utf8 t, rest)
  | None => Err JSyntax
  end.

(** ** Numbers and literals *)

Fixpoint digits (s : string) : string * string :=
  match s with
  | String c s' =>
      if in_range 48 57 (byte_val c) then let (d, r) := digits s' in (String c d, r)
      else ("", s)
  | "" => ("", "")
  end.

Definition digits1 (s : string) : option (string * string) :=
  match digits s with ("", _) => None | r => Some r end.

Definition number_sign (s : string) : string * string :=
  match s with String "-" s' => ("-", s') | _ => ("", s) end.

Definition number_int (s : string) : option (string * string) :=
  match s with String "0" s' => Some ("0", s') | _ => digits1 s end.

Definition number_frac (s : string) : option (string * string) :=
  match s with
  | String "." s' => prepend "." (digits1 s')
  | _ => Some ("", s)
  end.

Definition number_exp (s : string) : option (string * string) :=
  match s with
  | String c s' =>
      if Ascii.eqb c "e" || Ascii.eqb c "E" then
        match s' with
        | String d s'' =>
            if Ascii.eqb d "+" || Ascii.eqb d "-"
            then prepend (String c (String d "")) (digits1 s'')
            else prepend (String c "") (digits1 s')
        | "" => None
        end
      else Some ("", s)
  | "" => Some ("", s)
  end.

Definition parse_number (s : string) : result json_error (json * string) :=
  let (sign, s) := number_sign s in
  match number_int s with
  | None => Err JSyntax
  | Some (int, s) =>
      match number_frac s with
      | None => Err JSyntax
      | Some (frac, s) =>
          match number_exp s with
          | None => Err JSyntax
          | Some (exp, s) => Ok (JNumber (sign +:+ int +:+ frac +:+ exp), s)
          end
      end
  end.

Definition parse_literal (s : string) : result json_error (json * string) :=
  if HasPrefix s "true" then Ok (JBool true, str_drop 4 s)
  else if HasPrefix s "false" then Ok (JBool false, str_drop 5 s)
  else if HasPrefix s "null" then Ok (JNull, str_drop 4 s)
  else Err JSyntax.

Definition parse_scalar (s : string) : result json_error (json * string) :=
  match s with
  | String "034" s' => let? sr := parse_string s' in Ok (JString sr.1, sr.2)
  | String c _ =>
      if Ascii.eqb c "-" || in_range 48 57 (byte_val c) then parse_number s
      else parse_literal s
  | "" => Err JSyntax
  end.

(** ** Values *)

Fixpoint parse_value (fuel depth : nat) (s : string) {struct fuel}
    : result json_error (json * string) :=
  match fuel with
  | O => Err JOutOfFuel
  | S fuel =>
      match skip_ws s with
      | String "{" s' =>
          reject maxNestingDepth <=? Z.of_nat depth with JDepth ;;
          match skip_ws s' with
          | String "}" rest => Ok (JObject [], rest)
          | s'' => let? ms := parse_members fuel (S depth) s'' in Ok (JObject ms.1, ms.2)
          end
      | String "[" s' =>
          reject maxNestingDepth <=? Z.of_nat depth with JDepth ;;
          match skip_ws s' with
          | String "]" rest => Ok (JArray [], rest)
          | s'' => let? vs := parse_elements fuel (S depth) s'' in Ok (JArray vs.1, vs.2)
          end
      | s' => parse_scalar s'
      end
  end
with parse_elements (fuel depth : nat) (s : string) {struct fuel}
    : result json_error (list json * string) :=
  match fuel with
  | O => Err JOutOfFuel
  | S fuel =>
      let? v := parse_value fuel depth s in
      match skip_ws v.2 with
      | String "," rest =>
          let? vs := parse_elements fuel depth rest in Ok (v.1 :: vs.1, vs.2)
      | String "]" rest => Ok ([v.1], rest)
      | _ => Err JSyntax
      end
  end
with parse_members (fuel depth : nat) (s : string) {struct fuel}
    : result json_error (list (string * json) * string) :=
  match fuel with
  | O => Err JOutOfFuel
  | S fuel =>
      match skip_ws s with
      | String "034" s' =>
          let? k := parse_string s' in
          match skip_ws k.2 with
          | String ":" s'' =>
              let? v := parse_value fuel depth s'' in
              match skip_ws v.2 with
              | String "," rest =>
                  let? ms := parse_members fuel depth rest in Ok ((k.1, v.1) :: ms.1, ms.2)
              | String "}" rest => Ok ([(k.1, v.1)], rest)
              | _ => Err JSyntax
              end
          | _ => Err JSyntax
          end
      | _ => Err JSyntax
      end
  end.

(** Every call of the parser consumes a byte before the next, so twice the length of
    the text is enough fuel. *)
Definition json_fuel (s : string) : nat := S (2 * String.length s).

(** [dec.Decode(&v)] followed by a decode that must report end of input. *)
Definition decode_single (s : string) : result json_error json :=
  let? v := parse_value (json_fuel s) 0 s in
  match skip_ws v.2 with "" => Ok v.1 | _ => Err JSyntax end.

(** ** Decoding into Go types *)

(** [map[string]json.RawMessage]: the value of a key is its last occurrence. *)
Fixpoint object_get (members : list (string * json)) (key : string) : option json :=
  match members with
  | [] => None
  | (k, v) :: ms =>
      match object_get ms key with
      | Some v' => Some v'
      | None => if String.eqb k key then Some v else None
      end
  end.

Definition object_keys (members : list (string * json)) : list string := members.*1.

(** The members a Go map would hold, each key once. *)
Definition object_map (members : list (string * json)) : gmap string json :=
  foldl (fun m kv => <[kv.1 := kv.2]> m) ∅ members.

(** [json.Unmarshal(raw, &s)] with [s] a string: [null] leaves it empty. *)
Definition unmarshal_string (v : json) : option string :=
  match v with JString s => Some s | JNull => Some "" | _ => None end.

(** [json.Unmarshal(raw, &l)] with [l] a []string; [null] leaves it nil. *)
Definition unmarshal_strings (v : json) : option (list string) :=
  match v with
  | JArray l => mapM unmarshal_string l
  | JNull => Some []
  | _ => None
  end.

(** ** The parser terminates within its fuel

    Every step consumes input, so [json_fuel] always suffices. *)

Lemma skip_ws_length s : (String.length (skip_ws s) <= String.length s)%nat.
Proof.
  induction s as [|c s IH]; simpl; [lia|]. destruct (is_ws c); simpl; lia.
Qed.

Lemma skip_ws_shorter s c s' :
  skip_ws s = String c s' -> (S (String.length s') <= String.length s)%nat.
Proof. intros E. pose proof (skip_ws_length s) as Hl. by rewrite E in Hl. Qed.

Lemma prepend_Some t r s rest :
  prepend t r = Some (s, rest) -> exists s', r = Some (s', rest).
Proof. destruct r as [[? ?]|]; simpl; intros; simplify_eq/=; eauto. Qed.

Lemma scan_string_length_le n s t rest :
  (String.length s <= n)%nat -> scan_string s = Some (t, rest) ->
  (String.length rest < String.length s)%nat.
Proof.
  revert s t rest. induction n as [|n IH]; intros [|c s] t rest Hn H; simpl in Hn;
    try discriminate; try lia.
  assert (forall s' t' rest', (String.length s' <= String.length s)%nat ->
    scan_string s' = Some (t', rest') -> (String.length rest' < S (String.length s))%nat) as IH'.
  { intros s' t' rest' Hs' Hs. apply IH in Hs; lia. }
  clear IH Hn. change (String.length (String c s)) with (S (String.length s)).
  cbn [scan_string] in H.
  destruct (Ascii.eqb c "034"); [simplify_eq; lia|].
  destruct (byte_val c <? 32); [done|].
  destruct (Ascii.eqb c "\").
  - repeat (match type of H with
            | context [match ?x with _ => _ end] => destruct x
            end; try discriminate H);
      apply prepend_Some in H as [? H]; (eapply IH'; [|exact H]; simpl; lia).
  - apply prepend_Some in H as [? H]. eapply IH'; [|exact H]; lia.
Qed.

Lemma parse_string_length s t rest :
  parse_string s = Ok (t, rest) -> (String.length rest < String.length s)%nat.
Proof.
  unfold parse_string. destruct (scan_string s) as [[t' r]|] eqn:E; [|done].
  intros H; simplify_eq. by eapply scan_string_length_le.
Qed.

Lemma digits_length s : (String.length (digits s).2 <= String.length s)%nat.
Proof.
  induction s as [|c s IH]; simpl; [lia|]. destruct (in_range 48 57 _); simpl; [|lia].
  destruct (digits s); simpl in *; lia.
Qed.

Lemma digits1_length s d rest :
  digits1 s = Some (d, rest) -> (String.length rest < String.length s)%nat.
Proof.
  unfold digits1. intros H. destruct s as [|c s]; [done|].
  pose proof (digits_length s) as Hl. simpl in *.
  destruct (in_range 48 57 _); [|done]. destruct (digits s) as [d' r]. simplify_eq/=. lia.
Qed.

Lemma number_sign_length s : (String.length (number_sign s).2 <= String.length s)%nat.
Proof. unfold number_sign. repeat case_match; simpl; lia. Qed.

Lemma number_int_length s d rest :
  number_int s = Some (d, rest) -> (String.length rest < String.length s)%nat.
Proof.
  unfold number_int. intros H.
  repeat (match type of H with
          | context [match ?x with _ => _ end] => destruct x
          end; try discriminate H);
    first [by apply digits1_length in H | simplify_eq; simpl; lia].
Qed.

Lemma number_frac_length s d rest :
  number_frac s = Some (d, rest) -> (String.length rest <= String.length s)%nat.
Proof.
  unfold number_frac. intros H.
  repeat (match type of H with
          | context [match ?x with _ => _ end] => destruct x
          end; try discriminate H);
    first [simplify_eq; simpl; lia
          |apply prepend_Some in H as [? H%digits1_length]; simpl; lia].
Qed.

Lemma number_exp_length s d rest :
  number_exp s = Some (d, rest) -> (String.length rest <= String.length s)%nat.
Proof.
  unfold number_exp. destruct s as [|c [|c' s]]; intros H; simpl in *;
    repeat (case_match; try discriminate H);
    first [simplify_eq; simpl; lia
          |apply prepend_Some in H as [? H%digits1_length]; simpl in *; lia].
Qed.

Lemma parse_number_length s v rest :
  parse_number s = Ok (v, rest) -> (String.length rest < String.length s)%nat.
Proof.
  unfold parse_number. pose proof (number_sign_length s) as Hs.
  destruct (number_sign s) as [sg s1]. simpl in Hs.
  destruct (number_int s1) as [[i s2]|] eqn:Ei; [|done].
  destruct (number_frac s2) as [[f s3]|] eqn:Ef; [|done].
  destruct (number_exp s3) as [[e s4]|] eqn:Ee; [|done]. intros [=<- <-].
  apply number_int_length in Ei. apply number_frac_length in Ef.
  apply number_exp_length in Ee. lia.
Qed.

Lemma parse_literal_length s v rest :
  parse_literal s = Ok (v, rest) -> (String.length rest < String.length s)%nat.
Proof.
  unfold parse_literal. intros H.
  assert (forall p n, HasPrefix s p = true -> String.length p = S n ->
    (String.length (str_drop (S n) s) < String.length s)%nat) as Hd.
  { intros p n [t ->]%HasPrefix_true Hn. rewrite <-Hn, str_drop_app, length_app_str. lia. }
  destruct (HasPrefix s "true") eqn:?; [replace rest with (str_drop 4 s) by congruence; by apply (Hd "true")|].
  destruct (HasPrefix s "false") eqn:?; [replace rest with (str_drop 5 s) by congruence; by apply (Hd "false")|].
  destruct (HasPrefix s "null") eqn:?; [replace rest with (str_drop 4 s) by congruence; by apply (Hd "null")|done].
Qed.

Lemma parse_scalar_length s v rest :
  parse_scalar s = Ok (v, rest) -> (String.length rest < String.length s)%nat.
Proof.
  unfold parse_scalar. intros H. destruct s as [|c s]; [done|].
  assert ((if Ascii.eqb c "-" || in_range 48 57 (byte_val c) then parse_number (String c s)
           else parse_literal (String c s)) = Ok (v, rest) ->
          (String.length rest < String.length (String c s))%nat) as Hd.
  { destruct (_ || _); [apply parse_number_length|apply parse_literal_length]. }
  destruct c as [[] [] [] [] [] [] [] []]; try exact (Hd H).
  destruct (parse_string s) as [[t r]|] eqn:E; [|done]. simplify_eq/=.
  apply parse_string_length in E. lia.
Qed.

Lemma parse_scalar_fuel s : parse_scalar s <> Err JOutOfFuel.
Proof.
  assert (parse_number s <> Err JOutOfFuel) as Hn.
  { unfold parse_number. by repeat case_match. }
  assert (parse_literal s <> Err JOutOfFuel) as Hl.
  { unfold parse_literal. by repeat case_match. }
  unfold parse_scalar, parse_string. intros H. destruct s as [|c s]; [done|].
  destruct (scan_string s) as [[? ?]|];
    destruct (Ascii.eqb c "-" || in_range 48 57 (byte_val c));
    destruct c as [[] [] [] [] [] [] [] []]; done.
Qed.

(** What a parser promises on an input of [n] bytes: it does not run out of fuel, and
    what it leaves is shorter. *)
Definition consumes {A} (n : nat) (r : result json_error (A * string)) : Prop :=
  r <> Err JOutOfFuel /\
  forall v rest, r = Ok (v, rest) -> (String.length rest < n)%nat.

Lemma consumes_Err {A} n e : e <> JOutOfFuel -> consumes (A:=A) n (Err e).
Proof. intros. split; congruence. Qed.

Lemma consumes_Ok {A} n (v : A) rest : (String.length rest < n)%nat -> consumes n (Ok (v, rest)).
Proof. intros. split; [done|]. by intros ? ? [=<- <-]. Qed.

Lemma consumes_map {A B} n m (r : result json_error (A * string)) (f : A -> B) :
  consumes n r -> (n <= m)%nat ->
  consumes m (let? x := r in Ok (f x.1, x.2)).
Proof.
  intros [Hf Hl] ?. destruct r as [[v rest]|e]; simpl.
  - apply consumes_Ok. specialize (Hl v rest eq_refl). lia.
  - apply consumes_Err. congruence.
Qed.

Lemma consumes_scalar s : consumes (String.length s) (parse_scalar s).
Proof. split; [apply parse_scalar_fuel|]. intros ? ?. apply parse_scalar_length. Qed.

Definition fuel_spec (fuel : nat) : Prop :=
  (forall d s, (2 * String.length s < fuel)%nat ->
     consumes (String.length s) (parse_value fuel d s)) /\
  (forall d s, (2 * String.length s + 1 < fuel)%nat ->
     consumes (String.length s) (parse_elements fuel d s)) /\
  (forall d s, (2 * String.length s + 1 < fuel)%nat ->
     consumes (String.length s) (parse_members fuel d s)).

Lemma parse_value_consumes fuel d s :
  fuel_spec fuel -> (2 * String.length s < S fuel)%nat ->
  consumes (String.length s) (parse_value (S fuel) d s).
Proof.
  intros (_ & He & Hm) Hf. cbn [parse_value]. pose proof (skip_ws_length s) as Hs.
  destruct (skip_ws s) as [|c s'] eqn:E.
  { by apply consumes_Err. }
  assert (consumes (String.length s) (parse_scalar (String c s'))) as Hsc.
  { destruct (consumes_scalar (String c s')) as [? Hl]. split; [done|].
    intros ? ? ?%Hl. simpl in *. lia. }
  pose proof (skip_ws_length s') as Hs'. simpl in Hs.
  assert (consumes (String.length s)
    (let? ms := parse_members fuel (S d) (skip_ws s') in Ok (JObject ms.1, ms.2))) as HM.
  { eapply consumes_map; [apply Hm|]; lia. }
  assert (consumes (String.length s)
    (let? ms := parse_elements fuel (S d) (skip_ws s') in Ok (JArray ms.1, ms.2))) as HE.
  { eapply consumes_map; [apply He|]; lia. }
  destruct c as [[] [] [] [] [] [] [] []]; try exact Hsc.
  all: destruct (maxNestingDepth <=? Z.of_nat d); [by apply consumes_Err|].
  all: destruct (skip_ws s') as [|c' s''] eqn:E'; [assumption|].
  all: destruct c' as [[] [] [] [] [] [] [] []]; try assumption; apply consumes_Ok;
    simpl in *; lia.
Qed.

Lemma parse_elements_consumes fuel d s :
  fuel_spec fuel -> (2 * String.length s + 1 < S fuel)%nat ->
  consumes (String.length s) (parse_elements (S fuel) d s).
Proof.
  intros (Hv & He & _) Hf. cbn [parse_elements].
  destruct (Hv d s ltac:(lia)) as [Hvf Hvl].
  destruct (parse_value fuel d s) as [[v rest]|e]; [|apply consumes_Err; congruence].
  specialize (Hvl v rest eq_refl). simpl. pose proof (skip_ws_length rest) as Hs.
  destruct (skip_ws rest) as [|c s'] eqn:E; [by apply consumes_Err|]. simpl in Hs.
  assert (consumes (String.length s)
    (let? vs := parse_elements fuel d s' in Ok (v :: vs.1, vs.2))) as HE.
  { eapply (consumes_map _ _ _ (cons v)); [apply He|]; lia. }
  destruct c as [[] [] [] [] [] [] [] []]; try exact HE; try (by apply consumes_Err).
  apply consumes_Ok. lia.
Qed.

Lemma parse_members_consumes fuel d s :
  fuel_spec fuel -> (2 * String.length s + 1 < S fuel)%nat ->
  consumes (String.length s) (parse_members (S fuel) d s).
Proof.
  intros (Hv & _ & Hm) Hf. cbn [parse_members]. pose proof (skip_ws_length s) as Hs.
  destruct (skip_ws s) as [|q s'] eqn:E; [by apply consumes_Err|]. simpl in Hs.
  assert (forall A (r : result json_error (A * string)) c,
    consumes (String.length s) r ->
    consumes (String.length s) (match c with "034"%char => r | _ => Err JSyntax end)) as Hq.
  { intros A r c Hr. destruct c as [[] [] [] [] [] [] [] []]; try exact Hr;
      by apply consumes_Err. }
  apply Hq. destruct (parse_string s') as [[k rest]|e] eqn:Ek.
  2: { apply consumes_Err. unfold parse_string in Ek. case_match; [case_match|]; congruence. }
  apply parse_string_length in Ek. simpl. pose proof (skip_ws_length rest) as Hr.
  destruct (skip_ws rest) as [|c1 s1]; [by apply consumes_Err|]. simpl in Hr.
  destruct (Hv d s1 ltac:(lia)) as [Hvf Hvl].
  assert (forall A (r : result json_error (A * string)) c,
    consumes (String.length s) r ->
    consumes (String.length s) (match c with ":"%char => r | _ => Err JSyntax end)) as Hc.
  { intros A r c Hr'. destruct c as [[] [] [] [] [] [] [] []]; try exact Hr';
      by apply consumes_Err. }
  apply Hc. destruct (parse_value fuel d s1) as [[v rest1]|e]; [|apply consumes_Err; congruence].
  specialize (Hvl v rest1 eq_refl). simpl. pose proof (skip_ws_length rest1) as Hs1.
  destruct (skip_ws rest1) as [|c s2]; [by apply consumes_Err|]. simpl in Hs1.
  assert (consumes (String.length s)
    (let? ms := parse_members fuel d s2 in Ok ((k, v) :: ms.1, ms.2))) as HM.
  { eapply (consumes_map _ _ _ (cons (k, v))); [apply Hm|]; lia. }
  destruct c as [[] [] [] [] [] [] [] []]; try exact HM; try (by apply consumes_Err).
  apply consumes_Ok. lia.
Qed.

Lemma fuel_spec_holds fuel : fuel_spec fuel.
Proof.
  induction fuel as [|fuel IH]; [split; [|split]; intros; lia|].
  split; [|split]; intros.
  - by apply parse_value_consumes.
  - by apply parse_elements_consumes.
  - by apply parse_members_consumes.
Qed.

Lemma decode_single_fuel s : decode_single s <> Err JOutOfFuel.
Proof.
  unfold decode_single, json_fuel.
  destruct (fuel_spec_holds (S (2 * String.length s))) as [Hv _].
  destruct (Hv 0%nat s ltac:(lia)) as [Hf _].
  destruct (parse_value _ 0 s) as [[v rest]|e]; [|congruence]. simpl. by case_match.
Qed.
