(* ===== verification/Utf8.v ===== *)
(** * Utf8: encoding and decoding of code points are inverse

    [range] over a string ([runes]) and [utf8.AppendRune] ([encode_rune]). *)
From S2P Require Import Prelude GoStrings Json.

(** A Unicode scalar value *)
Definition scalar (r : Z) : Prop := 0 <= r <= 1114111 /\ ~ 55296 <= r <= 57343.

Lemma scalar_error : scalar RuneError.
Proof. unfold scalar, RuneError. lia. Qed.

(** The four lengths of an encoding *)
Lemma encode_rune_cases r :
  scalar r ->
  (r < 128 /\ encode_rune r = chr r) \/
  (128 <= r < 2048 /\ encode_rune r = chr (192 + r / 64) +:+ chr (128 + r mod 64)) \/
  (2048 <= r < 65536 /\
   encode_rune r = chr (224 + r / 4096) +:+ chr (128 + r / 64 mod 64) +:+ chr (128 + r mod 64)) \/
  (65536 <= r /\
   encode_rune r = chr (240 + r / 262144) +:+ chr (128 + r / 4096 mod 64) +:+ chr (128 + r / 64 mod 64)
                   +:+ chr (128 + r mod 64)).
Proof.
  intros [Hr Hs]. unfold encode_rune, in_range.
  assert ((r <? 0) || (1114111 <? r) || ((55296 <=? r) && (r <=? 57343)) = false) as -> by lia.
  destruct (Z.ltb_spec r 128); [auto|]. destruct (Z.ltb_spec r 2048); [auto 6|].
  destruct (Z.ltb_spec r 65536); auto 8.
Qed.

Ltac bytes_known := rewrite ?byte_val_chr by (Z.to_euclidean_division_equations; lia).

Lemma in_range_true lo hi z : lo <= z <= hi -> in_range lo hi z = true.
Proof. unfold in_range. lia. Qed.

Lemma in_range_false lo hi z : z < lo \/ hi < z -> in_range lo hi z = false.
Proof. unfold in_range. lia. Qed.

Lemma is_cont_true c : 128 <= byte_val c <= 191 -> is_cont c = true.
Proof. unfold is_cont. lia. Qed.

Lemma runes_1 c s : byte_val c < 128 -> runes (String c s) = (byte_val c, String c "") :: runes s.
Proof. intros. cbn [runes]. by rewrite (proj2 (Z.ltb_lt _ _)). Qed.

Lemma runes_2 c0 c1 s :
  194 <= byte_val c0 <= 223 -> 128 <= byte_val c1 <= 191 ->
  runes (String c0 (String c1 s)) =
    ((byte_val c0 - 192) * 64 + (byte_val c1 - 128), String c0 (String c1 "")) :: runes s.
Proof.
  intros. cbn [runes]. by rewrite (proj2 (Z.ltb_ge _ _)), in_range_true, is_cont_true by lia.
Qed.

(** The admissible second bytes of the longer forms *)
Definition second3 (b0 b1 : Z) : Prop :=
  (if b0 =? 224 then 160 else 128) <= b1 <= (if b0 =? 237 then 159 else 191).
Definition second4 (b0 b1 : Z) : Prop :=
  (if b0 =? 240 then 144 else 128) <= b1 <= (if b0 =? 244 then 143 else 191).

Lemma runes_3 c0 c1 c2 s :
  224 <= byte_val c0 <= 239 -> second3 (byte_val c0) (byte_val c1) -> 128 <= byte_val c2 <= 191 ->
  runes (String c0 (String c1 (String c2 s))) =
    ((byte_val c0 - 224) * 4096 + (byte_val c1 - 128) * 64 + (byte_val c2 - 128),
     String c0 (String c1 (String c2 ""))) :: runes s.
Proof.
  unfold second3. intros. cbn [runes].
  rewrite (proj2 (Z.ltb_ge _ _)), (in_range_false 194), (in_range_true 224), is_cont_true, andb_true_r by lia.
  by rewrite in_range_true.
Qed.

Lemma runes_4 c0 c1 c2 c3 s :
  240 <= byte_val c0 <= 244 -> second4 (byte_val c0) (byte_val c1) -> 128 <= byte_val c2 <= 191 ->
  128 <= byte_val c3 <= 191 ->
  runes (String c0 (String c1 (String c2 (String c3 s)))) =
    ((byte_val c0 - 240) * 262144 + (byte_val c1 - 128) * 4096 + (byte_val c2 - 128) * 64
       + (byte_val c3 - 128),
     String c0 (String c1 (String c2 (String c3 "")))) :: runes s.
Proof.
  unfold second4. intros. cbn [runes].
  rewrite (proj2 (Z.ltb_ge _ _)), (in_range_false 194), (in_range_false 224), (in_range_true 240),
    !is_cont_true, !andb_true_r by lia.
  by rewrite in_range_true.
Qed.

Lemma runes_encode_app r t :
  scalar r -> runes (encode_rune r +:+ t) = (r, encode_rune r) :: runes t.
Proof.
  intros Hr. pose proof Hr as [Hr1 Hr2].
  destruct (encode_rune_cases r Hr) as [[H ->]|[[H ->]|[[H ->]|[H ->]]]];
    unfold chr; repeat (rewrite app_cons_str || rewrite app_nil_l_str).
  - rewrite runes_1; bytes_known; [done|lia].
  - rewrite runes_2; bytes_known; [|Z.to_euclidean_division_equations; lia..].
    do 2 f_equal. Z.to_euclidean_division_equations; lia.
  - rewrite runes_3; unfold second3; bytes_known;
      [|repeat case_match; Z.to_euclidean_division_equations; lia..].
    do 2 f_equal. Z.to_euclidean_division_equations; lia.
  - rewrite runes_4; unfold second4; bytes_known;
      [|repeat case_match; Z.to_euclidean_division_equations; lia..].
    do 2 f_equal. Z.to_euclidean_division_equations; lia.
Qed.

(** A decoded piece is the encoding of its code point, or one invalid byte. *)
Definition piece_ok (p : Z * string) : Prop :=
  scalar p.1 /\ (p.2 = encode_rune p.1 \/ (p.1 = RuneError /\ String.length p.2 = 1%nat)).

Lemma chr_eq z c : z = byte_val c -> byte_chr z = c.
Proof. intros ->. apply byte_chr_val. Qed.

Ltac same_bytes :=
  unfold chr; repeat (rewrite app_cons_str || rewrite app_nil_l_str);
  repeat f_equal; symmetry; apply chr_eq; Z.to_euclidean_division_equations; lia.

Lemma piece_1 c : byte_val c < 128 -> piece_ok (byte_val c, String c "").
Proof.
  pose proof (byte_val_range c). intros ?. assert (scalar (byte_val c)) as Hs by (unfold scalar; lia).
  split; [exact Hs|left]. cbn [fst snd].
  destruct (encode_rune_cases _ Hs) as [[? ->]|[[? _]|[[? _]|[? _]]]]; try lia.
  unfold chr. by rewrite byte_chr_val.
Qed.

Lemma piece_2 c0 c1 :
  194 <= byte_val c0 <= 223 -> 128 <= byte_val c1 <= 191 ->
  piece_ok ((byte_val c0 - 192) * 64 + (byte_val c1 - 128), String c0 (String c1 "")).
Proof.
  intros. set (r := (byte_val c0 - 192) * 64 + (byte_val c1 - 128)).
  assert (scalar r) as Hs by (unfold scalar; lia). split; [exact Hs|left]. cbn [fst snd].
  destruct (encode_rune_cases _ Hs) as [[? _]|[[? ->]|[[? _]|[? _]]]]; try lia. subst r. same_bytes.
Qed.

Lemma piece_3 c0 c1 c2 :
  224 <= byte_val c0 <= 239 -> second3 (byte_val c0) (byte_val c1) -> 128 <= byte_val c2 <= 191 ->
  piece_ok ((byte_val c0 - 224) * 4096 + (byte_val c1 - 128) * 64 + (byte_val c2 - 128),
    String c0 (String c1 (String c2 ""))).
Proof.
  unfold second3. intros. set (r := _ + (byte_val c2 - 128)).
  assert (scalar r /\ 2048 <= r < 65536) as [Hs ?] by (unfold scalar; repeat case_match; lia).
  split; [exact Hs|left]. cbn [fst snd].
  destruct (encode_rune_cases _ Hs) as [[? _]|[[? _]|[[? ->]|[? _]]]]; try lia.
  assert (128 <= byte_val c1 <= 191) by (repeat case_match; lia). subst r. same_bytes.
Qed.

Lemma piece_4 c0 c1 c2 c3 :
  240 <= byte_val c0 <= 244 -> second4 (byte_val c0) (byte_val c1) -> 128 <= byte_val c2 <= 191 ->
  128 <= byte_val c3 <= 191 ->
  piece_ok ((byte_val c0 - 240) * 262144 + (byte_val c1 - 128) * 4096 + (byte_val c2 - 128) * 64
       + (byte_val c3 - 128), String c0 (String c1 (String c2 (String c3 "")))).
Proof.
  unfold second4. intros. set (r := _ + (byte_val c3 - 128)).
  assert (scalar r /\ 65536 <= r) as [Hs ?] by (unfold scalar; repeat case_match; lia).
  split; [exact Hs|left]. cbn [fst snd].
  destruct (encode_rune_cases _ Hs) as [[? _]|[[? _]|[[? _]|[? ->]]]]; try lia.
  assert (128 <= byte_val c1 <= 191) by (repeat case_match; lia). subst r. same_bytes.
Qed.

Lemma piece_bad c : piece_ok (RuneError, String c "").
Proof. split; [apply scalar_error|by right]. Qed.

Lemma runes_step c s :
  exists p rest, runes (String c s) = p :: runes rest /\ piece_ok p /\
    (String.length rest <= String.length s)%nat.
Proof.
  assert (forall b, (b = (RuneError, String c "") :: runes s) ->
    exists p rest, b = p :: runes rest /\ piece_ok p /\ (String.length rest <= String.length s)%nat) as Hbad.
  { intros b ->. exists (RuneError, String c ""), s. split_and!; [done|apply piece_bad|done]. }
  cbn [runes]. cbv zeta. destruct (byte_val c <? 128) eqn:E1.
  { apply Z.ltb_lt in E1. eexists _, s. split_and!; [done|by apply piece_1|done]. }
  destruct (in_range 194 223 (byte_val c)) eqn:E2.
  { destruct s as [|c1 s]; [by apply Hbad|]. destruct (is_cont c1) eqn:Ec; [|by apply Hbad].
    unfold in_range, is_cont in *. eexists _, s. split_and!; [done|apply piece_2; lia|cbn; lia]. }
  destruct (in_range 224 239 (byte_val c)) eqn:E3.
  { destruct s as [|c1 [|c2 s]]; [by apply Hbad..|]. destruct (_ && _) eqn:Ec; [|by apply Hbad].
    unfold in_range, is_cont in *. eexists _, s. split_and!; [done|apply piece_3; unfold second3; lia|cbn; lia]. }
  destruct (in_range 240 244 (byte_val c)) eqn:E4; [|by apply Hbad].
  destruct s as [|c1 [|c2 [|c3 s]]]; [by apply Hbad..|]. destruct (_ && _) eqn:Ec; [|by apply Hbad].
  unfold in_range, is_cont in *. eexists _, s. split_and!; [done|apply piece_4; unfold second4; lia|cbn; lia].
Qed.

Lemma runes_ok s : Forall piece_ok (runes s).
Proof.
  induction s as [s IH] using (induction_ltof1 _ String.length). unfold ltof in IH.
  destruct s as [|c s]; [constructor|]. destruct (runes_step c s) as (p & rest & -> & Hp & Hl).
  constructor; [done|]. apply IH. cbn. lia.
Qed.

Lemma runes_encode l : Forall scalar l -> rune_values (str_concat (encode_rune <$> l)) = l.
Proof.
  induction 1 as [|r l Hr _ IH]; [done|]. cbn [fmap list_fmap str_concat]. unfold rune_values in *.
  rewrite runes_encode_app by done. cbn. by rewrite IH.
Qed.

Lemma rune_values_coerce s : rune_values (coerce_utf8 s) = rune_values s.
Proof.
  apply runes_encode. unfold rune_values. apply Forall_fmap.
  eapply Forall_impl; [apply runes_ok|]. by intros p [? _].
Qed.

Lemma coerce_utf8_idemp s : coerce_utf8 (coerce_utf8 s) = coerce_utf8 s.
Proof. unfold coerce_utf8 at 1. by rewrite rune_values_coerce. Qed.

(** ASCII text is its own coercion. *)
Lemma coerce_utf8_ascii s : str_forallb is_ascii s = true -> coerce_utf8 s = s.
Proof.
  unfold coerce_utf8. induction s as [|c s IH]; cbn [str_forallb]; [done|]. intros [Hc Hs]%andb_true_iff.
  rewrite rune_values_ascii by done. cbn [fmap list_fmap str_concat].
  change (list_fmap Z string encode_rune (rune_values s)) with (encode_rune <$> rune_values s).
  rewrite IH by done. destruct (piece_1 c) as [_ [E|[E _]]].
  - unfold is_ascii in Hc. lia.
  - cbn in E. by rewrite <-E, app_cons_str, app_nil_l_str.
  - cbn in E. unfold is_ascii, RuneError in *. lia.
Qed.
