(* ===== verification/JsonEncode.v ===== *)
(** * JsonEncode: [encoding/json]'s encoder

    [json.NewEncoder(w).Encode] with HTML escaping, on values whose numbers are integers.
    What it writes is read back, by the decoder of [Json], as the value with its strings
    coerced to UTF-8. *)
From stdpp Require Import pretty.
From S2P Require Import Prelude GoStrings GoTime TimeLaws Json Utf8.

(** ** Strings *)

Definition hex_char (n : Z) : ascii := byte_chr (if n <? 10 then 48 + n else 87 + n).

Definition backslash (s : string) : string := String "\" s.

(** A byte below 128; those of HTML are escaped too. *)
Definition escape_byte (c : ascii) : string :=
  let b := byte_val c in
  if (b =? 34) || (b =? 92) then backslash (String c "")
  else if b =? 8 then backslash "b"
  else if b =? 12 then backslash "f"
  else if b =? 10 then backslash "n"
  else if b =? 13 then backslash "r"
  else if b =? 9 then backslash "t"
  else if (b <? 32) || (b =? 60) || (b =? 62) || (b =? 38)
  then backslash ("u00" +:+ String (hex_char (b / 16)) (String (hex_char (b mod 16)) ""))
  else String c "".

(** One code point with its bytes; U+2028 and U+2029 end lines in JavaScript. *)
Definition escape_piece (p : Z * string) : string :=
  let (r, bytes) := p in
  if r <? 128 then match bytes with String c _ => escape_byte c | "" => "" end
  else if (r =? RuneError) && (String.length bytes =? 1)%nat then backslash "ufffd"
  else if (r =? 8232) || (r =? 8233) then backslash ("u202" +:+ String (hex_char (r mod 16)) "")
  else bytes.

Definition quote : string := String "034" "".

Definition encode_string (s : string) : string :=
  quote +:+ str_concat (escape_piece <$> runes s) +:+ quote.

(** ** Values *)

Fixpoint print (v : json) : string :=
  match v with
  | JNull => "null"
  | JBool b => FormatBool b
  | JNumber text => text
  | JString s => encode_string s
  | JArray l => "[" +:+ Join (map print l) "," +:+ "]"
  | JObject ms => "{" +:+ Join (map (fun kv => encode_string kv.1 +:+ ":" +:+ print kv.2) ms) "," +:+ "}"
  end.

(** [Encode] ends the value with a newline. *)
Definition Encode (v : json) : string := print v +:+ chr 10.

(** ** Reading strings back *)

Lemma prepend_app s t r : prepend (s +:+ t) r = prepend s (prepend t r).
Proof. destruct r as [[u rest]|]; [|done]. cbn. by rewrite app_assoc_str. Qed.

(** An escape that is not the first half of a surrogate pair *)
Lemma scan_escape a b c d u t :
  hex4 a b c d = Some u -> u < 55296 \/ 56319 < u ->
  scan_string (String "\" (String "u" (String a (String b (String c (String d t))))))
  = prepend (encode_rune u) (scan_string t).
Proof.
  intros Hu Hr. cbn [scan_string]. rewrite Hu. change (Ascii.eqb "\" "034") with false.
  change (byte_val "\" <? 32) with false. change (Ascii.eqb "\" "\") with true. cbn iota.
  assert (forall u', surrogate_pair u u' = None) as Hs.
  { intros u'. unfold surrogate_pair. by rewrite (in_range_false 55296) by lia. }
  repeat (match goal with
          | |- context [match ?x with _ => _ end] =>
              lazymatch x with
              | hex4 _ _ _ _ => destruct x eqn:?
              | surrogate_pair _ _ => rewrite Hs
              | _ => is_var x; destruct x
              end
          end; try reflexivity).
  cbn [scan_string]. by rewrite Heqo.
Qed.

Lemma scan_escape_byte c t :
  byte_val c < 128 -> scan_string (escape_byte c +:+ t) = prepend (String c "") (scan_string t).
Proof.
  intros Hc.
  assert (forall u, hex4 "0" "0" (hex_char (byte_val c / 16)) (hex_char (byte_val c mod 16)) = Some u ->
    u < 55296 \/ 56319 < u -> scan_string (backslash ("u00" +:+ String (hex_char (byte_val c / 16))
      (String (hex_char (byte_val c mod 16)) "")) +:+ t) = prepend (encode_rune u) (scan_string t)) as Hu
    by (intros u ? ?; by apply scan_escape).
  destruct c as [[] [] [] [] [] [] [] []]; try (vm_compute in Hc; discriminate Hc);
    first [reflexivity|apply (Hu _ eq_refl); vm_compute; auto].
Qed.

Lemma scan_raw s t :
  str_forallb (fun c => 128 <=? byte_val c) s = true ->
  scan_string (s +:+ t) = prepend s (scan_string t).
Proof.
  induction s as [|c s IH]; cbn [str_forallb].
  - intros _. rewrite app_nil_l_str. by destruct (scan_string t) as [[]|].
  - intros [Hc%Z.leb_le Hs]%andb_true_iff. rewrite app_cons_str.
    change (String c s) with (String c "" +:+ s). rewrite prepend_app, <-IH by done.
    assert (c <> "034"%char /\ c <> "\"%char) as [H1 H2] by (split; intros ->; vm_compute in Hc; by apply Hc).
    cbn [scan_string]. rewrite (proj2 (Ascii.eqb_neq _ _) H1), (proj2 (Ascii.eqb_neq _ _) H2).
    by rewrite (proj2 (Z.ltb_ge _ _)) by lia.
Qed.

Lemma encode_rune_high r :
  scalar r -> 128 <= r -> str_forallb (fun c => 128 <=? byte_val c) (encode_rune r) = true.
Proof.
  intros Hr H. pose proof Hr as [? _].
  destruct (encode_rune_cases r Hr) as [[? _]|[[? ->]|[[? ->]|[? ->]]]]; [lia|..];
    unfold chr; repeat (rewrite app_cons_str || rewrite app_nil_l_str); cbn [str_forallb];
    repeat (rewrite byte_val_chr by (Z.to_euclidean_division_equations; lia));
    repeat (rewrite (proj2 (Z.leb_le 128 _)) by (Z.to_euclidean_division_equations; lia)); reflexivity.
Qed.

Lemma scan_piece p t :
  piece_ok p -> scan_string (escape_piece p +:+ t) = prepend (encode_rune p.1) (scan_string t).
Proof.
  destruct p as [r bytes]. intros [Hr Hb]. cbn [fst snd] in *. pose proof Hr as [? _].
  unfold escape_piece. destruct (Z.ltb_spec r 128).
  { destruct Hb as [->|[-> _]]; [|by vm_compute in H0].
    destruct (encode_rune_cases r Hr) as [[? ->]|[[? _]|[[? _]|[? _]]]]; try lia.
    unfold chr. rewrite scan_escape_byte; [done|]. rewrite byte_val_chr; lia. }
  destruct ((r =? RuneError) && _) eqn:E1.
  { apply andb_true_iff in E1 as [->%Z.eqb_eq _]. apply scan_escape; [done|right; done]. }
  destruct Hb as [->|[-> Hl]].
  2:{ by rewrite Z.eqb_refl, Hl in E1. }
  destruct ((r =? 8232) || (r =? 8233)) eqn:E2; [|by apply scan_raw, encode_rune_high].
  apply orb_true_iff in E2 as [->%Z.eqb_eq| ->%Z.eqb_eq]; apply scan_escape; by (done || left).
Qed.

Lemma parse_encoded s t : exists body, encode_string s +:+ t = String "034" body /\
  parse_string body = Ok (coerce_utf8 s, t).
Proof.
  unfold encode_string, quote. rewrite app_cons_str, app_nil_l_str, app_cons_str, app_assoc_str.
  eexists. split; [done|]. unfold parse_string.
  assert (forall ps, Forall piece_ok ps ->
    scan_string (str_concat (escape_piece <$> ps) +:+ String "034" "" +:+ t)
    = Some (str_concat (encode_rune <$> ps.*1), t)) as Hs.
  { induction 1 as [|p ps Hp _ IH]; [done|]. cbn [fmap list_fmap str_concat].
    rewrite app_assoc_str, scan_piece by done. rewrite IH. done. }
  rewrite Hs by apply runes_ok. fold (rune_values s). fold (coerce_utf8 s). by rewrite coerce_utf8_idemp.
Qed.

(** ** Reading numbers back *)

(** What can follow a value in a document *)
Definition delimited (rest : string) : Prop :=
  match rest with
  | "" => True
  | String c _ => is_digit c = false /\ c <> "."%char /\ c <> "e"%char /\ c <> "E"%char
  end.

Lemma digits_all s rest :
  str_forallb is_digit s = true -> delimited rest -> digits (s +:+ rest) = (s, rest).
Proof.
  intros Hs Hr. induction s as [|c s IH]; cbn [str_forallb] in Hs.
  - rewrite app_nil_l_str. destruct rest as [|c rest]; [done|]. destruct Hr as [Hc _].
    cbn [digits]. unfold is_digit in Hc. by rewrite Hc.
  - apply andb_true_iff in Hs as [Hc Hs]. rewrite app_cons_str. cbn [digits].
    unfold is_digit in Hc. by rewrite Hc, IH.
Qed.

(** A positive number does not begin with a zero. *)
Lemma pretty_lead x s :
  (0 < x)%N -> exists c t, pretty_N_go x s = String c t /\ c <> "0"%char.
Proof.
  revert s. induction (N.lt_wf_0 x) as [x _ IH]; intros s Hx. rewrite pretty_N_go_step by done.
  destruct (N.eq_0_gt_0_cases (x / 10)) as [E|Hd].
  - rewrite E, pretty_N_go_0. eexists _, _. split; [done|].
    assert (x < 10)%N by (apply N.div_small_iff in E; lia). rewrite N.mod_small by done.
    assert (Forall (fun x => pretty_N_char x <> "0"%char) [1; 2; 3; 4; 5; 6; 7; 8; 9]%N) as Hall
      by (repeat constructor; vm_compute; congruence).
    rewrite Forall_forall in Hall. apply Hall. rewrite !elem_of_cons. lia.
  - apply IH; [by apply N.div_lt|done].
Qed.

Lemma FormatInt_pos p :
  exists c t, FormatInt (Z.pos p) = String c t /\ c <> "0"%char /\
    str_forallb is_digit (FormatInt (Z.pos p)) = true.
Proof.
  destruct (FormatInt_digits (Z.pos p) ltac:(lia)) as [Hd _].
  unfold FormatInt in *. change (pretty (Z.pos p)) with (pretty (N.pos p)) in *.
  unfold pretty, pretty_N in *. cbn [decide] in *. rewrite decide_False in * by done.
  destruct (pretty_lead (N.pos p) "" ltac:(lia)) as (c & t & E & Hc). eauto.
Qed.

Lemma FormatInt_neg p : FormatInt (Z.neg p) = "-" +:+ FormatInt (Z.pos p).
Proof. reflexivity. Qed.

Lemma number_ends text rest :
  delimited rest ->
  match number_frac rest with
  | None => Err JSyntax
  | Some (frac, s) =>
      match number_exp s with
      | None => Err JSyntax
      | Some (exp, s) => Ok (JNumber (text +:+ frac +:+ exp), s)
      end
  end = Ok (JNumber text, rest).
Proof.
  intros Hr. assert (number_frac rest = Some ("", rest)) as ->.
  { destruct rest as [|c rest]; [done|]. destruct Hr as (_ & Hc & _). unfold number_frac.
    repeat (match goal with
            | |- match ?x with _ => _ end = _ => is_var x; destruct x
            end; try reflexivity). by destruct Hc. }
  assert (number_exp rest = Some ("", rest)) as ->.
  { destruct rest as [|c rest]; [done|]. destruct Hr as (_ & _ & H1 & H2). unfold number_exp.
    by rewrite (proj2 (Ascii.eqb_neq _ _) H1), (proj2 (Ascii.eqb_neq _ _) H2). }
  by rewrite !app_nil_r_str.
Qed.

Lemma number_int_digits c t rest :
  c <> "0"%char -> str_forallb is_digit (String c t) = true -> delimited rest ->
  number_int (String c t +:+ rest) = Some (String c t, rest).
Proof.
  intros Hc Hd Hr. assert (number_int (String c t +:+ rest) = digits1 (String c t +:+ rest)) as ->.
  { rewrite app_cons_str. unfold number_int.
    repeat (match goal with
            | |- match ?x with _ => _ end = _ => is_var x; destruct x
            end; try reflexivity). by destruct Hc. }
  unfold digits1. by rewrite digits_all.
Qed.

Lemma parse_integer z rest :
  delimited rest -> parse_number (FormatInt z +:+ rest) = Ok (JNumber (FormatInt z), rest).
Proof.
  intros Hr. unfold parse_number. destruct z as [|p|p].
  - change (FormatInt 0) with "0". rewrite app_cons_str, app_nil_l_str. cbn [number_sign number_int].
    by apply (number_ends "0").
  - destruct (FormatInt_pos p) as (c & t & E & Hc & Hd). rewrite E in *.
    assert (number_sign (String c t +:+ rest) = ("", String c t +:+ rest)) as ->.
    { rewrite app_cons_str. cbn [str_forallb] in Hd. apply andb_true_iff in Hd as [Hd _].
      unfold number_sign. repeat (match goal with
        | |- match ?x with _ => _ end = _ => is_var x; destruct x end; try reflexivity).
      by vm_compute in Hd. }
    rewrite number_int_digits by done. by apply (number_ends (String c t)).
  - rewrite FormatInt_neg. destruct (FormatInt_pos p) as (c & t & E & Hc & Hd). rewrite E in *.
    rewrite app_assoc_str. change (number_sign ("-" +:+ String c t +:+ rest)) with ("-", String c t +:+ rest).
    cbv beta iota. rewrite number_int_digits by done.
    pose proof (number_ends ("-" +:+ String c t) rest Hr) as He.
    destruct (number_frac rest) as [[? s]|]; [|done]. destruct (number_exp s) as [[? ?]|]; [|done].
    by rewrite app_assoc_str in He.
Qed.

Lemma FormatInt_first z :
  exists c s, FormatInt z = String c s /\ (Ascii.eqb c "-" || is_digit c) = true.
Proof.
  destruct z as [|p|p].
  - by exists "0"%char, "".
  - destruct (FormatInt_pos p) as (c & s & E & _ & Hd). exists c, s. rewrite E in Hd. split; [done|].
    cbn [str_forallb] in Hd. apply andb_true_iff in Hd as [-> _]. apply orb_true_r.
  - exists "-"%char, (FormatInt (Z.pos p)). by rewrite FormatInt_neg.
Qed.

(** ** Reading values back *)

(** A value whose numbers are integers *)
#[local] Set Warnings "-register-all".
Inductive integral : json -> Prop :=
| int_null : integral JNull
| int_bool b : integral (JBool b)
| int_number z : integral (JNumber (FormatInt z))
| int_string s : integral (JString s)
| int_array l : Forall integral l -> integral (JArray l)
| int_object ms : Forall (fun kv => integral kv.2) ms -> integral (JObject ms).

(** The value with its strings in UTF-8 *)
Fixpoint coerced (v : json) : json :=
  match v with
  | JString s => JString (coerce_utf8 s)
  | JArray l => JArray (map coerced l)
  | JObject ms => JObject (map (fun kv => (coerce_utf8 kv.1, coerced kv.2)) ms)
  | _ => v
  end.

Fixpoint nodes (v : json) : nat :=
  match v with
  | JArray l => S (list_sum (map (fun v => S (nodes v)) l))
  | JObject ms => S (list_sum (map (fun kv => S (nodes kv.2)) ms))
  | _ => 1
  end.

Fixpoint height (v : json) : nat :=
  match v with
  | JArray l => S (max_list (map height l))
  | JObject ms => S (max_list (map (fun kv => height kv.2) ms))
  | _ => 0
  end.

(** [parse_value] reads back [v], in any context that leaves it room. *)
Definition reads_back (v : json) : Prop :=
  forall fuel depth rest, (nodes v <= fuel)%nat -> Z.of_nat (depth + height v) <= maxNestingDepth ->
    delimited rest -> parse_value fuel depth (print v +:+ rest) = Ok (coerced v, rest).

Lemma reads_elements l v fuel depth rest :
  Forall reads_back (v :: l) -> (list_sum (map (fun v => S (nodes v)) (v :: l)) <= fuel)%nat ->
  Z.of_nat (depth + max_list (map height (v :: l))) <= maxNestingDepth ->
  parse_elements fuel depth (Join (map print (v :: l)) "," +:+ "]" +:+ rest)
  = Ok (map coerced (v :: l), rest).
Proof.
  revert v fuel. induction l as [|w l IH]; intros v fuel Hall Hf Hd.
  - inversion Hall as [|? ? Hv]; subst. destruct fuel as [|fuel]; [cbn in Hf; lia|].
    cbn [map Join parse_elements]. cbn in Hf, Hd. rewrite (Hv fuel depth ("]" +:+ rest)); [done|lia|lia|done].
  - inversion Hall as [|? ? Hv Hl]; subst. destruct fuel as [|fuel]; [cbn in Hf; lia|].
    cbn [map]. rewrite Join_cons, !app_assoc_str by done. cbn [parse_elements].
    cbn [map list_sum max_list] in Hf, Hd. cbn in Hf, Hd.
    rewrite (Hv fuel depth); [|lia|lia|done]. cbn [fst snd]. rewrite app_cons_str, app_nil_l_str.
    cbn [skip_ws is_ws Ascii.eqb Bool.eqb orb].
    change (print w :: map print l) with (map print (w :: l)). rewrite IH; [done|done|cbn; lia|cbn; lia].
Qed.

Definition member (kv : string * json) : string := encode_string kv.1 +:+ ":" +:+ print kv.2.
Definition coerced_member (kv : string * json) : string * json := (coerce_utf8 kv.1, coerced kv.2).

Lemma reads_members ms kv fuel depth rest :
  Forall (fun kv => reads_back kv.2) (kv :: ms) ->
  (list_sum (map (fun kv => S (nodes kv.2)) (kv :: ms)) <= fuel)%nat ->
  Z.of_nat (depth + max_list (map (fun kv => height kv.2) (kv :: ms))) <= maxNestingDepth ->
  parse_members fuel depth (Join (map member (kv :: ms)) "," +:+ "}" +:+ rest)
  = Ok (map coerced_member (kv :: ms), rest).
Proof.
  revert kv fuel. induction ms as [|kv' ms IH]; intros [k v] fuel Hall Hf Hd;
    inversion Hall as [|? ? Hv Hms]; subst; (destruct fuel as [|fuel]; [cbn in Hf; lia|]); cbn in Hf, Hd, Hv.
  - cbn [map Join]. unfold member at 1. cbn [fst snd]. rewrite !app_assoc_str.
    destruct (parse_encoded k (":" +:+ print v +:+ "}" +:+ rest)) as (body & -> & Hp).
    cbn [parse_members skip_ws is_ws Ascii.eqb Bool.eqb orb]. rewrite Hp. cbn [fst snd].
    rewrite !app_cons_str, !app_nil_l_str. cbn [skip_ws is_ws Ascii.eqb Bool.eqb orb].
    by rewrite (Hv fuel depth (String "}" rest)); [|lia|lia|].
  - cbn [map]. rewrite Join_cons by done. unfold member at 1. cbn [fst snd]. rewrite !app_assoc_str.
    destruct (parse_encoded k (":" +:+ print v +:+ "," +:+ Join (map member (kv' :: ms)) "," +:+ "}" +:+ rest))
      as (body & Hb & Hp). cbn [map] in Hb. rewrite Hb.
    cbn [parse_members skip_ws is_ws Ascii.eqb Bool.eqb orb]. rewrite Hp. cbn [fst snd].
    rewrite (app_cons_str ":"), app_nil_l_str. cbn [skip_ws is_ws Ascii.eqb Bool.eqb orb].
    rewrite (Hv fuel depth); [|lia|lia|done]. cbn [fst snd].
    rewrite (app_cons_str ","), app_nil_l_str. cbn [skip_ws is_ws Ascii.eqb Bool.eqb orb].
    rewrite IH; [done|done|cbn; lia|cbn; lia].
Qed.

(** What a printed value begins with *)
Lemma print_first v t :
  integral v -> (exists rest, t = print v +:+ rest) ->
  exists c s, t = String c s /\ is_ws c = false /\ c <> "]"%char.
Proof.
  intros Hv [rest ->].
  assert (exists c s, print v = String c s /\ is_ws c = false /\ c <> "]"%char) as (c & s & -> & Hc).
  { inversion Hv as [|b|z|s|l _|ms _]; subst.
    - by exists "n"%char, "ull".
    - by destruct b; [exists "t"%char, "rue"|exists "f"%char, "alse"].
    - destruct (FormatInt_first z) as (c & s & E & Hc). exists c, s. cbn [print]. split; [done|].
      destruct c as [[] [] [] [] [] [] [] []]; vm_compute in Hc; (done || by split).
    - by eexists "034"%char, _.
    - by eexists "["%char, _.
    - by eexists "{"%char, _. }
  eexists c, _. rewrite app_cons_str. by split.
Qed.

(** Values that are not containers *)
Lemma reads_scalar v c s :
  print v = String c s -> is_ws c = false -> c <> "{"%char -> c <> "["%char -> nodes v = 1%nat ->
  (forall rest, delimited rest -> parse_scalar (print v +:+ rest) = Ok (coerced v, rest)) -> reads_back v.
Proof.
  intros Hp Hw H1 H2 Hs Hr fuel depth rest Hf _ Hd. destruct fuel as [|fuel]; [lia|].
  rewrite <-Hr by done. rewrite Hp, app_cons_str. cbn [parse_value skip_ws]. rewrite Hw.
  repeat (match goal with
          | |- match ?x with _ => _ end = _ => is_var x; destruct x
          end; try reflexivity); by (destruct H1 || destruct H2).
Qed.

Lemma reads_number z : reads_back (JNumber (FormatInt z)).
Proof.
  destruct (FormatInt_first z) as (c & s & E & Hc).
  apply (reads_scalar _ c s); cbn [print nodes coerced]; [done|..|done|].
  1-3: destruct c as [[] [] [] [] [] [] [] []]; vm_compute in Hc; (done || congruence).
  intros rest Hr. rewrite <-parse_integer by done. rewrite E, app_cons_str. unfold parse_scalar.
  fold (is_digit c). rewrite Hc.
  repeat (match goal with
          | |- match ?x with _ => _ end = _ => is_var x; destruct x
          end; try reflexivity). by vm_compute in Hc.
Qed.

Lemma reads_string s : reads_back (JString s).
Proof.
  destruct (parse_encoded s "") as (body & E & _). rewrite app_nil_r_str in E.
  apply (reads_scalar _ "034" body); cbn [print nodes coerced]; [done..|].
  intros rest _. destruct (parse_encoded s rest) as (body' & -> & Hp). cbn [parse_scalar]. by rewrite Hp.
Qed.

(** After an opening bracket or brace *)
Definition array_rest (fuel depth : nat) (t : string) : result json_error (json * string) :=
  match skip_ws t with
  | String "]" rest => Ok (JArray [], rest)
  | t => let? vs := parse_elements fuel depth t in Ok (JArray vs.1, vs.2)
  end.

Definition object_rest (fuel depth : nat) (t : string) : result json_error (json * string) :=
  match skip_ws t with
  | String "}" rest => Ok (JObject [], rest)
  | t => let? ms := parse_members fuel depth t in Ok (JObject ms.1, ms.2)
  end.

Lemma parse_array fuel depth t :
  Z.of_nat depth < maxNestingDepth -> parse_value (S fuel) depth (String "[" t) = array_rest fuel (S depth) t.
Proof.
  intros Hd. cbn [parse_value skip_ws is_ws Ascii.eqb Bool.eqb orb].
  by rewrite (proj2 (Z.leb_gt _ _)) by lia.
Qed.

Lemma parse_object fuel depth t :
  Z.of_nat depth < maxNestingDepth -> parse_value (S fuel) depth (String "{" t) = object_rest fuel (S depth) t.
Proof.
  intros Hd. cbn [parse_value skip_ws is_ws Ascii.eqb Bool.eqb orb].
  by rewrite (proj2 (Z.leb_gt _ _)) by lia.
Qed.

Lemma array_rest_ne fuel depth t c s :
  t = String c s -> is_ws c = false -> c <> "]"%char ->
  array_rest fuel depth t = let? vs := parse_elements fuel depth t in Ok (JArray vs.1, vs.2).
Proof.
  intros -> Hw Hc. unfold array_rest. cbn [skip_ws]. rewrite Hw.
  repeat (match goal with
          | |- match ?x with _ => _ end = _ => is_var x; destruct x
          end; try reflexivity). by destruct Hc.
Qed.

Lemma object_rest_ne fuel depth t s x :
  t = String "034" s -> x = t ->
  object_rest fuel depth x = let? ms := parse_members fuel depth x in Ok (JObject ms.1, ms.2).
Proof. by intros -> ->. Qed.

Lemma list_sum_cons x l : list_sum (x :: l) = (x + list_sum l)%nat.
Proof. done. Qed.

Lemma reads_value v : integral v -> reads_back v.
Proof.
  assert (forall n v, (nodes v <= n)%nat -> integral v -> reads_back v) as Hn; [|by apply (Hn (nodes v))].
  clear v. induction n as [|n IH]; intros v Hs Hv; [destruct v; cbn in Hs; lia|].
  assert (forall (A : Type) (f : A -> json) (l : list A),
    (list_sum (map (fun x => S (nodes (f x))) l) <= n)%nat ->
    Forall (fun x => integral (f x)) l -> Forall (fun x => reads_back (f x)) l) as Hl.
  { intros A f l. induction l as [|x l IHl]; intros Hsum Hall; [constructor|].
    inversion Hall; subst. cbn [map] in Hsum. rewrite list_sum_cons in Hsum.
    constructor; [apply IH; [lia|done]|apply IHl; [lia|done]]. }
  inversion Hv as [|b|z|s|l Hall|ms Hall]; subst.
  - by apply (reads_scalar _ "n" "ull").
  - by destruct b; [apply (reads_scalar _ "t" "rue")|apply (reads_scalar _ "f" "alse")].
  - apply reads_number.
  - apply reads_string.
  - specialize (Hl _ id l (le_S_n _ _ Hs) Hall). intros fuel depth rest Hf Hd _.
    destruct fuel as [|fuel]; [cbn in Hf; lia|]. apply le_S_n in Hf. cbn [height] in Hd.
    cbn [print coerced]. rewrite !app_assoc_str, app_cons_str, app_nil_l_str, parse_array by lia.
    destruct l as [|v l]; [done|]. inversion Hall as [|? ? Hv1 _]; subst.
    destruct (print_first v (Join (map print (v :: l)) "," +:+ "]" +:+ rest)) as (c & s & E & Hc & Hb);
      [done| |].
    { destruct l as [|w l]; [by exists ("]" +:+ rest)|].
      cbn [map]. rewrite Join_cons, app_assoc_str by done. by eexists. }
    rewrite (array_rest_ne _ _ _ _ _ E Hc Hb), reads_elements; [done|exact Hl|done|lia].
  - specialize (Hl _ snd ms (le_S_n _ _ Hs) Hall). intros fuel depth rest Hf Hd _.
    destruct fuel as [|fuel]; [cbn in Hf; lia|]. apply le_S_n in Hf. cbn [height] in Hd.
    cbn [print coerced]. rewrite !app_assoc_str, app_cons_str, app_nil_l_str, parse_object by lia.
    fold member. fold coerced_member. destruct ms as [|[k v] ms]; [done|].
    assert (exists t, Join (map member ((k, v) :: ms)) "," +:+ "}" +:+ rest = encode_string k +:+ t) as [t E].
    { destruct ms as [|kv ms]; cbn [map].
      - cbn [Join]. unfold member. cbn [fst]. rewrite app_assoc_str. by eexists.
      - rewrite Join_cons by done. unfold member at 1. cbn [fst]. rewrite !app_assoc_str. by eexists. }
    destruct (parse_encoded k t) as (body & Eb & _). rewrite Eb in E.
    rewrite (object_rest_ne _ _ _ _ _ eq_refl E), reads_members; [done|exact Hl|done|lia].
Qed.

Lemma length_Join {A} (f : A -> string) (g : A -> nat) x l :
  Forall (fun x => (g x <= 2 * String.length (f x))%nat) (x :: l) ->
  (list_sum (map (fun x => S (g x)) (x :: l)) <= 2 * S (String.length (Join (map f (x :: l)) ",")))%nat.
Proof.
  revert x. induction l as [|y l IH]; intros x Hall; inversion Hall as [|? ? Hx Hl]; subst.
  - cbn [map Join]. rewrite list_sum_cons. change (list_sum []) with 0%nat. lia.
  - specialize (IH y Hl). cbn [map] in IH |- *. rewrite Join_cons, !length_app_str by done.
    rewrite list_sum_cons. change (String.length ",") with 1%nat. lia.
Qed.

Lemma nodes_print v : integral v -> (nodes v <= 2 * String.length (print v))%nat.
Proof.
  assert (forall n v, (nodes v <= n)%nat -> integral v -> (nodes v <= 2 * String.length (print v))%nat) as Hn;
    [|by apply (Hn (nodes v))].
  clear v. induction n as [|n IH]; intros v Hs Hv; [destruct v; cbn in Hs; lia|].
  assert (forall (A : Type) (f : A -> json) (g : A -> string) (l : list A),
    (list_sum (map (fun x => S (nodes (f x))) l) <= n)%nat -> Forall (fun x => integral (f x)) l ->
    (forall x, (String.length (print (f x)) <= String.length (g x))%nat) ->
    Forall (fun x => (nodes (f x) <= 2 * String.length (g x))%nat) l) as Hl.
  { intros A f g l. induction l as [|x l IHl]; intros Hsum Hall Hg; [constructor|].
    inversion Hall; subst. cbn [map] in Hsum. rewrite list_sum_cons in Hsum.
    constructor; [|apply IHl; [lia|done..]]. specialize (IH (f x) ltac:(lia) ltac:(done)).
    specialize (Hg x). lia. }
  inversion Hv as [|b|z|s|l Hall|ms Hall]; subst; cbn [nodes print].
  - cbn. lia.
  - destruct b; cbn; lia.
  - destruct (FormatInt_first z) as (c & s & -> & _). cbn. lia.
  - unfold encode_string, quote. rewrite app_cons_str. cbn [String.length]. lia.
  - rewrite !length_app_str. change (String.length "[") with 1%nat. change (String.length "]") with 1%nat.
    destruct l as [|v l]; [cbn; lia|].
    pose proof (length_Join print nodes v l (Hl _ id print _ (le_S_n _ _ Hs) Hall ltac:(done))). lia.
  - rewrite !length_app_str. change (String.length "{") with 1%nat. change (String.length "}") with 1%nat.
    fold member. destruct ms as [|kv ms]; [cbn; lia|].
    assert (forall x, (String.length (print (snd x)) <= String.length (member x))%nat) as Hm
      by (intros x; unfold member; rewrite !length_app_str; lia).
    pose proof (length_Join member (fun kv => nodes kv.2) kv ms
      (Hl _ snd member _ (le_S_n _ _ Hs) Hall Hm)). lia.
Qed.

(** Whatever the encoder writes of a value, the decoder reads back. *)
Lemma decode_Encode v :
  integral v -> Z.of_nat (height v) <= maxNestingDepth -> decode_single (Encode v) = Ok (coerced v).
Proof.
  intros Hv Hd. unfold decode_single, Encode.
  rewrite (reads_value v Hv); [done| |done|by split].
  unfold json_fuel. pose proof (nodes_print v Hv). rewrite length_app_str. lia.
Qed.
