(* ===== verification/Iam.v ===== *)
(** * Iam: the policy language of [iam/policy.go]

    [ParsePolicyJSON] compiles a JSON policy, [Authorize] evaluates a request
    against it.  A Go map is a [gmap]; a loop over one visits its members in the
    order of [map_to_list], and no result below depends on that order except which
    of several errors is reported.  Wildcards are compiled to regular expressions of
    the only shape [wildcardToRegex] produces: a sequence of literal code points,
    [.] and [.*], anchored at both ends. *)
From S2P Require Import Prelude GoStrings GoTime Json.

(** ** Data *)

Inductive iam_error :=
| ErrInvalidPolicy (msg : string)
| ErrExplicitDeny
| ErrImplicitDeny.

Record Request := mkRequest {
  rq_action : string;
  rq_resource : string;
  rq_context : gmap string (list string)
}.

Inductive ConditionValueType :=
| ConditionValueAny
| ConditionValueString
| ConditionValueBool
| ConditionValueNumeric
| ConditionValueDate.

Record Options := mkOptions {
  AllowedConditionKeys : gmap string bool;
  ConditionKeyTypes : gmap string ConditionValueType
}.

Inductive effect := effectAllow | effectDeny.

Inductive matchMode := matchPositive | matchNegative.

Inductive conditionFamily :=
| conditionStringEquals
| conditionStringLike
| conditionBool
| conditionNull
| conditionNumericEquals
| conditionNumericLessThan
| conditionNumericLessThanEquals
| conditionNumericGreaterThan
| conditionNumericGreaterThanEquals
| conditionDateEquals
| conditionDateLessThan
| conditionDateLessThanEquals
| conditionDateGreaterThan
| conditionDateGreaterThanEquals.

#[export] Instance conditionFamily_eq_dec : EqDecision conditionFamily.
Proof. solve_decision. Defined.
#[export] Instance ConditionValueType_eq_dec : EqDecision ConditionValueType.
Proof. solve_decision. Defined.
#[export] Instance effect_eq_dec : EqDecision effect.
Proof. solve_decision. Defined.

Record conditionOperator := mkOperator {
  op_name : string;
  op_family : conditionFamily;
  op_negative : bool
}.

(** One item of a compiled pattern: a quoted code point, [.], or [.*]. *)
Inductive re_item := ReLit (r : Z) | ReDot | ReDotStar.

Record wildcard := mkWildcard { w_raw : string; w_re : list re_item }.

Record condition := mkCondition {
  c_operator : conditionOperator;
  c_key : string;
  c_values : list string;
  c_patterns : list wildcard
}.

Record statement := mkStatement {
  s_sid : string;
  s_effect : effect;
  s_actionMode : matchMode;
  s_actions : list wildcard;
  s_resourceMode : matchMode;
  s_resources : list wildcard;
  s_conditions : list condition
}.

Record Policy := mkPolicy { statements : list statement }.

Definition DenyAllPolicy : Policy := mkPolicy [].

(** ** Wildcards *)

Definition wildcardToRegex (pattern : string) : list re_item :=
  (fun r => if r =? 42 then ReDotStar else if r =? 63 then ReDot else ReLit r)
    <$> rune_values pattern.

(** Without the [s] flag, [.] matches every code point but the newline. *)
Definition re_dot (r : Z) : bool := negb (r =? 10).

(** [regexp.MatchString] of [^re$] on the code points of a string. *)
Fixpoint re_match (re : list re_item) (v : list Z) {struct re} : bool :=
  match re with
  | [] => match v with [] => true | _ => false end
  | ReLit r :: re => match v with x :: v => (x =? r) && re_match re v | [] => false end
  | ReDot :: re => match v with x :: v => re_dot x && re_match re v | [] => false end
  | ReDotStar :: re =>
      (fix star (v : list Z) : bool :=
         re_match re v || match v with x :: v => re_dot x && star v | [] => false end) v
  end.

(** [regexp.Compile] accepts every pattern made of quoted text, [.] and [.*]. *)
Definition compileWildcard (value : string) : wildcard :=
  mkWildcard value (wildcardToRegex value).

Definition compileWildcards (values : list string) (action : bool) : list wildcard :=
  (fun value => compileWildcard (if action then ToLower value else value)) <$> values.

Definition wildcard_matches (w : wildcard) (value : string) (action : bool) : bool :=
  re_match (w_re w) (rune_values (if action then ToLower value else value)).

(** ** Evaluation *)

Definition canonicalConditionKey (key : string) : string := ToLower key.

Definition Context_values (ctx : gmap string (list string)) (key : string)
    : option (list string) := ctx !! canonicalConditionKey key.

Definition parseNumbers (actual expected : string) : option (float64 * float64) :=
  a ← ParseFloat actual; e ← ParseFloat expected; Some (a, e).

Definition parseIAMTime (value : string) : option Time :=
  match ParseInt value with
  | Some unix => Some (Unix unix)
  | None =>
      match ParseRFC3339 value with
      | Some t => Some t
      | None => ParseZulu value
      end
  end.

Definition parseTimes (actual expected : string) : option (Time * Time) :=
  a ← parseIAMTime actual; e ← parseIAMTime expected; Some (a, e).

Definition with_pair {A} (r : option (A * A)) (f : A -> A -> bool) : bool :=
  match r with Some (a, e) => f a e | None => false end.

Definition valueMatches (c : condition) (actual expected : string) : bool :=
  match op_family (c_operator c) with
  | conditionStringEquals => String.eqb actual expected
  | conditionStringLike => false
  | conditionBool =>
      match ParseBool (ToLower actual), ParseBool (ToLower expected) with
      | Some a, Some e => Bool.eqb a e
      | _, _ => false
      end
  | conditionNumericEquals => with_pair (parseNumbers actual expected) float_eqb
  | conditionNumericLessThan => with_pair (parseNumbers actual expected) float_ltb
  | conditionNumericLessThanEquals => with_pair (parseNumbers actual expected) float_leb
  | conditionNumericGreaterThan =>
      with_pair (parseNumbers actual expected) (fun a e => float_ltb e a)
  | conditionNumericGreaterThanEquals =>
      with_pair (parseNumbers actual expected) (fun a e => float_leb e a)
  | conditionDateEquals => with_pair (parseTimes actual expected) Equal
  | conditionDateLessThan => with_pair (parseTimes actual expected) Before
  | conditionDateLessThanEquals =>
      with_pair (parseTimes actual expected) (fun a e => Before a e || Equal a e)
  | conditionDateGreaterThan => with_pair (parseTimes actual expected) After
  | conditionDateGreaterThanEquals =>
      with_pair (parseTimes actual expected) (fun a e => After a e || Equal a e)
  | conditionNull => false
  end.

Definition valueMatchesAny (c : condition) (actual : string) : bool :=
  if bool_decide (op_family (c_operator c) = conditionStringLike)
  then existsb (fun p => wildcard_matches p actual false) (c_patterns c)
  else existsb (fun expected => valueMatches c actual expected) (c_values c).

Definition condition_matches (c : condition) (ctx : gmap string (list string)) : bool :=
  let values := Context_values ctx (c_key c) in
  let isNull := match values with Some (_ :: _) => false | _ => true end in
  if bool_decide (op_family (c_operator c) = conditionNull) then
    let wantNull :=
      existsb (fun v => match ParseBool (ToLower v) with Some b => b | None => false end)
        (c_values c) in
    Bool.eqb isNull wantNull
  else if isNull then op_negative (c_operator c)
  else
    let anyMatch := existsb (valueMatchesAny c) (default [] values) in
    if op_negative (c_operator c) then negb anyMatch else anyMatch.

Definition matchesByMode (mode : matchMode) (patterns : list wildcard) (value : string)
    (action : bool) : bool :=
  let matched := existsb (fun p => wildcard_matches p value action) patterns in
  match mode with matchNegative => negb matched | matchPositive => matched end.

Definition statement_matches (s : statement) (req : Request) : bool :=
  if negb (matchesByMode (s_actionMode s) (s_actions s) (rq_action req) true) then false
  else if negb (matchesByMode (s_resourceMode s) (s_resources s) (rq_resource req) false)
  then false
  else forallb (fun c => condition_matches c (rq_context req)) (s_conditions s).

(** The loop of [Authorize] over the remaining statements, with its [allowed] flag. *)
Fixpoint authorize_loop (allowed : bool) (stmts : list statement) (req : Request)
    : result iam_error unit :=
  match stmts with
  | [] => if negb allowed then Err ErrImplicitDeny else Ok tt
  | stmt :: stmts =>
      if negb (statement_matches stmt req) then authorize_loop allowed stmts req
      else match s_effect stmt with
           | effectDeny => Err ErrExplicitDeny
           | effectAllow => authorize_loop true stmts req
           end
  end.

(** The receiver may be nil. *)
Definition Authorize (p : option Policy) (req : Request) : result iam_error unit :=
  match p with
  | None => Err ErrImplicitDeny
  | Some p => authorize_loop false (statements p) req
  end.

(** ** Compilation *)

Definition invalid {A} (msg : string) : result iam_error A := Err (ErrInvalidPolicy msg).

Definition has_variable (s : string) : bool := Contains s "${".

Definition check_list_value (field value : string) : result iam_error unit :=
  reject has_variable value
    with ErrInvalidPolicy (field +:+ " contains unsupported policy variable") ;;
  reject String.eqb value ""
    with ErrInvalidPolicy (field +:+ " value must not be empty") ;;
  Ok tt.

Definition parseStringList (raw : json) (field : string) : result iam_error (list string) :=
  match unmarshal_string raw with
  | Some single =>
      let? _ := check_list_value field single in Ok [single]
  | None =>
      match unmarshal_strings raw with
      | None => invalid (field +:+ " must be a string or array of strings")
      | Some [] => invalid (field +:+ " must not be empty")
      | Some many => let? _ := res_iter (check_list_value field) many in Ok many
      end
  end.

Definition parseConditionOperator (name : string) : result iam_error conditionOperator :=
  let op family negative := Ok (mkOperator name family negative) in
  if String.eqb name "StringEquals" then op conditionStringEquals false
  else if String.eqb name "StringNotEquals" then op conditionStringEquals true
  else if String.eqb name "StringLike" then op conditionStringLike false
  else if String.eqb name "StringNotLike" then op conditionStringLike true
  else if String.eqb name "Bool" then op conditionBool false
  else if String.eqb name "Null" then op conditionNull false
  else if String.eqb name "NumericEquals" then op conditionNumericEquals false
  else if String.eqb name "NumericNotEquals" then op conditionNumericEquals true
  else if String.eqb name "NumericLessThan" then op conditionNumericLessThan false
  else if String.eqb name "NumericLessThanEquals" then op conditionNumericLessThanEquals false
  else if String.eqb name "NumericGreaterThan" then op conditionNumericGreaterThan false
  else if String.eqb name "NumericGreaterThanEquals"
  then op conditionNumericGreaterThanEquals false
  else if String.eqb name "DateEquals" then op conditionDateEquals false
  else if String.eqb name "DateNotEquals" then op conditionDateEquals true
  else if String.eqb name "DateLessThan" then op conditionDateLessThan false
  else if String.eqb name "DateLessThanEquals" then op conditionDateLessThanEquals false
  else if String.eqb name "DateGreaterThan" then op conditionDateGreaterThan false
  else if String.eqb name "DateGreaterThanEquals" then op conditionDateGreaterThanEquals false
  else invalid "unsupported condition operator".

Definition operatorMatchesKeyType (family : conditionFamily) (keyType : ConditionValueType)
    : bool :=
  match family with
  | conditionStringEquals | conditionStringLike =>
      bool_decide (keyType = ConditionValueString)
  | conditionBool => bool_decide (keyType = ConditionValueBool)
  | conditionNumericEquals | conditionNumericLessThan | conditionNumericLessThanEquals
  | conditionNumericGreaterThan | conditionNumericGreaterThanEquals =>
      bool_decide (keyType = ConditionValueNumeric)
  | conditionDateEquals | conditionDateLessThan | conditionDateLessThanEquals
  | conditionDateGreaterThan | conditionDateGreaterThanEquals =>
      bool_decide (keyType = ConditionValueDate)
  | conditionNull => false
  end.

Definition check_operand (family : conditionFamily) (value : string) : result iam_error unit :=
  match family with
  | conditionBool | conditionNull =>
      if negb (String.eqb value "true") && negb (String.eqb value "false")
      then invalid "operator requires true or false" else Ok tt
  | conditionNumericEquals | conditionNumericLessThan | conditionNumericLessThanEquals
  | conditionNumericGreaterThan | conditionNumericGreaterThanEquals =>
      match ParseFloat value with
      | Some _ => Ok tt
      | None => invalid "operator requires a finite number"
      end
  | conditionDateEquals | conditionDateLessThan | conditionDateLessThanEquals
  | conditionDateGreaterThan | conditionDateGreaterThanEquals =>
      match parseIAMTime value with
      | Some _ => Ok tt
      | None => invalid "operator requires an IAM date"
      end
  | conditionStringEquals | conditionStringLike => Ok tt
  end.

Definition validateConditionOperands (operator : conditionOperator)
    (keyType : ConditionValueType) (values : list string) : result iam_error unit :=
  reject negb (bool_decide (op_family operator = conditionNull))
         && negb (bool_decide (keyType = ConditionValueAny))
         && negb (operatorMatchesKeyType (op_family operator) keyType)
    with ErrInvalidPolicy "operator is not valid for this condition key" ;;
  res_iter (check_operand (op_family operator)) values.

Definition compileConditionPatterns (operator : conditionOperator) (values : list string)
    : list wildcard :=
  if negb (bool_decide (op_family operator = conditionStringLike)) then []
  else compileWildcards values false.

Definition conditionValueToString (value : json) : result iam_error string :=
  match value with
  | JString v =>
      reject has_variable v
        with ErrInvalidPolicy "condition value contains unsupported policy variable" ;;
      Ok v
  | JBool v => Ok (FormatBool v)
  | JNumber v => Ok v
  | _ => invalid "condition value must be a string, number, bool, or array of those"
  end.

Definition parseConditionValues (raw : json) : result iam_error (list string) :=
  match raw with
  | JArray [] => invalid "condition value list must not be empty"
  | JArray l => res_mapM conditionValueToString l
  | single => let? value := conditionValueToString single in Ok [value]
  end.

(** The body of the loop over the keys of one operator. *)
Definition parse_condition (allowedConditionKeys : gmap string bool)
    (conditionKeyTypes : gmap string ConditionValueType) (operator : conditionOperator)
    (kv : string * json) : result iam_error condition :=
  let canonicalKey := canonicalConditionKey kv.1 in
  reject negb (default false (allowedConditionKeys !! canonicalKey))
    with ErrInvalidPolicy "unsupported condition key" ;;
  let? values := parseConditionValues kv.2 in
  let? _ := validateConditionOperands operator
              (default ConditionValueAny (conditionKeyTypes !! canonicalKey)) values in
  Ok (mkCondition operator canonicalKey values (compileConditionPatterns operator values)).

(** [map[string]json.RawMessage]; [None] when the value is neither object nor null. *)
Definition unmarshal_map (v : json) : option (gmap string json) :=
  match v with JObject ms => Some (object_map ms) | JNull => Some ∅ | _ => None end.

(** [map[string]map[string]json.RawMessage]: an ill-typed value is an error even where a
    later occurrence of its key replaces it. *)
Definition unmarshal_maps (v : json) : option (gmap string (gmap string json)) :=
  match v with
  | JObject ms =>
      maps ← mapM (fun kv => m ← unmarshal_map kv.2; Some (kv.1, m)) ms;
      Some (foldl (fun m kv => <[kv.1 := kv.2]> m) ∅ maps)
  | JNull => Some ∅
  | _ => None
  end.

Definition parse_operator_conditions (allowedConditionKeys : gmap string bool)
    (conditionKeyTypes : gmap string ConditionValueType)
    (entry : string * gmap string json) : result iam_error (list condition) :=
  let? operator := parseConditionOperator entry.1 in
  reject bool_decide (entry.2 = ∅)
    with ErrInvalidPolicy "Condition operator must include at least one key" ;;
  res_mapM (parse_condition allowedConditionKeys conditionKeyTypes operator)
    (map_to_list entry.2).

Definition parseConditions (raw : json) (allowedConditionKeys : gmap string bool)
    (conditionKeyTypes : gmap string ConditionValueType) : result iam_error (list condition) :=
  match unmarshal_maps raw with
  | None => invalid "Condition must be an object"
  | Some byOperator =>
      match map_to_list byOperator with
      | [] => invalid "Condition must not be empty"
      | entries =>
          let? groups := res_mapM
            (parse_operator_conditions allowedConditionKeys conditionKeyTypes) entries in
          Ok (concat groups)
      end
  end.

Definition check_statement_key (kv : string * json) : result iam_error unit :=
  if bool_decide (kv.1 ∈ ["Sid"; "Effect"; "Action"; "NotAction"; "Resource"; "NotResource";
                          "Condition"]) then Ok tt
  else if bool_decide (kv.1 ∈ ["Principal"; "NotPrincipal"])
  then invalid "not supported in identity policies"
  else invalid "unsupported statement element".

Definition rawChoice (first second : option json) : option json :=
  match first with Some r => Some r | None => second end.

(** [Action]/[NotAction] and [Resource]/[NotResource]: exactly one of the two, with
    its mode and its compiled patterns. *)
Definition compile_target (raw : gmap string json) (name negName : string) (action : bool)
    : result iam_error (matchMode * list wildcard) :=
  let pos := raw !! name in
  let neg := raw !! negName in
  reject Bool.eqb (bool_decide (is_Some pos)) (bool_decide (is_Some neg))
    with ErrInvalidPolicy ("exactly one of " +:+ name +:+ " or " +:+ negName +:+ " is required") ;;
  let? values := parseStringList (default JNull (rawChoice pos neg)) name in
  Ok (if bool_decide (is_Some neg) then matchNegative else matchPositive,
      compileWildcards values action).

Definition parse_sid (raw : gmap string json) : result iam_error string :=
  match raw !! "Sid" with
  | None => Ok ""
  | Some v => match unmarshal_string v with
              | Some s => Ok s
              | None => invalid "Sid must be a string"
              end
  end.

Definition parse_effect (raw : gmap string json) : result iam_error effect :=
  match raw !! "Effect" with
  | None => invalid "Effect is required"
  | Some v =>
      match unmarshal_string v with
      | None => invalid "Effect must be a string"
      | Some value =>
          if String.eqb value "Allow" then Ok effectAllow
          else if String.eqb value "Deny" then Ok effectDeny
          else invalid "Effect must be Allow or Deny"
      end
  end.

(** [raw] is [None] for a nil map (a JSON null in the statement list). *)
Definition compileStatement (raw : option (gmap string json))
    (allowedConditionKeys : gmap string bool)
    (conditionKeyTypes : gmap string ConditionValueType) : result iam_error statement :=
  match raw with
  | None => invalid "statement must be an object"
  | Some raw =>
      let? _ := res_iter check_statement_key (map_to_list raw) in
      let? sid := parse_sid raw in
      let? eff := parse_effect raw in
      let? actions := compile_target raw "Action" "NotAction" true in
      let? resources := compile_target raw "Resource" "NotResource" false in
      let? conditions := match raw !! "Condition" with
                         | None => Ok []
                         | Some c => parseConditions c allowedConditionKeys conditionKeyTypes
                         end in
      Ok (mkStatement sid eff actions.1 actions.2 resources.1 resources.2 conditions)
  end.

(** An element of the statement array: an object, or null for a nil map. *)
Definition statement_element (v : json) : option (option (gmap string json)) :=
  match v with
  | JObject ms => Some (Some (object_map ms))
  | JNull => Some None
  | _ => None
  end.

Definition parseStatementList (raw : json) : result iam_error (list (option (gmap string json))) :=
  match raw with
  | JObject ms => Ok [Some (object_map ms)]
  | JArray l =>
      match mapM statement_element l with
      | Some many => Ok many
      | None => invalid "Statement must be an object or array"
      end
  | JNull => Ok []
  | _ => invalid "Statement must be an object or array"
  end.

(** Members [false] in the argument are absent from the result. *)
Definition canonicalConditionKeySet (keys : gmap string bool) : gmap string bool :=
  foldr (fun kv out => if kv.2 : bool then <[canonicalConditionKey kv.1 := true]> out else out)
    ∅ (map_to_list keys).

Definition canonicalConditionKeyTypes (types : gmap string ConditionValueType)
    : gmap string ConditionValueType :=
  foldr (fun kv out => <[canonicalConditionKey kv.1 := kv.2]> out) ∅ (map_to_list types).

Definition check_version (raw : gmap string json) : result iam_error unit :=
  match raw !! "Version" with
  | None => Ok tt
  | Some v =>
      match unmarshal_string v with
      | None => invalid "Version must be a string"
      | Some version =>
          if negb (String.eqb version "2012-10-17") && negb (String.eqb version "2008-10-17")
          then invalid "unsupported policy Version" else Ok tt
      end
  end.

Definition check_policy_key (kv : string * json) : result iam_error unit :=
  if bool_decide (kv.1 ∈ ["Version"; "Statement"]) then Ok tt
  else invalid "unsupported top-level policy element".

(** From the decoded object on. *)
Definition compilePolicy (raw : gmap string json) (opts : Options) : result iam_error Policy :=
  let? _ := res_iter check_policy_key (map_to_list raw) in
  let? _ := check_version raw in
  match raw !! "Statement" with
  | None => invalid "policy must include Statement"
  | Some statementRaw =>
      let? rawStatements := parseStatementList statementRaw in
      reject bool_decide (rawStatements = [])
        with ErrInvalidPolicy "policy must include at least one statement" ;;
      let allowedConditionKeys := canonicalConditionKeySet (AllowedConditionKeys opts) in
      let conditionKeyTypes := canonicalConditionKeyTypes (ConditionKeyTypes opts) in
      let? stmts := res_mapM
        (fun r => compileStatement r allowedConditionKeys conditionKeyTypes) rawStatements in
      Ok (mkPolicy stmts)
  end.

Definition ParsePolicyJSON (policyJSON : string) (opts : Options) : result iam_error Policy :=
  reject String.eqb (TrimSpace policyJSON) "" with ErrInvalidPolicy "policy JSON is empty" ;;
  reject negb (ValidString policyJSON)
    with ErrInvalidPolicy "policy JSON must be valid UTF-8" ;;
  match decode_single policyJSON with
  | Err _ => invalid "parse policy JSON"
  | Ok (JObject ms) => compilePolicy (object_map ms) opts
  | Ok JNull => invalid "policy JSON must be an object"
  | Ok _ => invalid "parse policy JSON"
  end.

(** ** Reference semantics of the patterns *)

(** What a pattern stands for, on its own characters: [*] (42) for any run of code points
    without a newline (10), [?] (63) for one code point but a newline, and every other
    character for itself. *)
Inductive stands_for : list Z -> list Z -> Prop :=
| stands_end : stands_for [] []
| stands_run run p v : 10 ∉ run -> stands_for p v -> stands_for (42 :: p) (run ++ v)
| stands_one x p v : x <> 10 -> stands_for p v -> stands_for (63 :: p) (x :: v)
| stands_self r p v : r <> 42 -> r <> 63 -> stands_for p v -> stands_for (r :: p) (r :: v).

Lemma re_dot_true x : re_dot x = true <-> x <> 10.
Proof. unfold re_dot. rewrite negb_true_iff. apply Z.eqb_neq. Qed.

Lemma re_match_star_unfold re v :
  re_match (ReDotStar :: re) v =
  re_match re v || match v with x :: v => re_dot x && re_match (ReDotStar :: re) v | [] => false end.
Proof. by destruct v. Qed.

(** The regular expression a character is translated to. *)
Definition re_of (r : Z) : re_item :=
  if r =? 42 then ReDotStar else if r =? 63 then ReDot else ReLit r.

Lemma re_match_sound p v : re_match (re_of <$> p) v = true -> stands_for p v.
Proof.
  revert v. induction p as [|r p IH]; intros v; [destruct v; [constructor|done]|].
  rewrite fmap_cons. unfold re_of at 1. destruct (Z.eqb_spec r 42) as [->|Hs].
  - induction v as [|x v IHv]; rewrite re_match_star_unfold; intros [Hm|Hm]%orb_true_iff.
    + apply (stands_run []); [apply not_elem_of_nil|auto].
    + done.
    + apply (stands_run []); [apply not_elem_of_nil|auto].
    + apply andb_true_iff in Hm as [Hx%re_dot_true Hm]. apply IHv in Hm.
      inversion Hm as [|run p' v' Hr Hv| |]; subst; [|done].
      apply (stands_run (x :: run)); [|done]. rewrite elem_of_cons. intuition congruence.
  - destruct (Z.eqb_spec r 63) as [->|Hq]; (destruct v as [|x v]; [done|]); cbn [re_match].
    + intros [Hx%re_dot_true ?]%andb_true_iff. apply stands_one; auto.
    + intros [->%Z.eqb_eq ?]%andb_true_iff. apply stands_self; auto.
Qed.

Lemma re_match_complete p v : stands_for p v -> re_match (re_of <$> p) v = true.
Proof.
  induction 1 as [|run p v Hr _ IH|x p v Hx _ IH|r p v Hs Hq _ IH]; [done|..]; rewrite fmap_cons.
  - change (re_match (ReDotStar :: (re_of <$> p)) (run ++ v) = true).
    induction run as [|x run IHr]; rewrite re_match_star_unfold; [cbn [app]; by rewrite IH|].
    rewrite elem_of_cons in Hr. cbn [app]. rewrite IHr by tauto.
    by rewrite (proj2 (re_dot_true x)), orb_true_r by (intros ->; tauto).
  - change (re_dot x && re_match (re_of <$> p) v = true). by rewrite (proj2 (re_dot_true x)).
  - unfold re_of at 1. rewrite (proj2 (Z.eqb_neq _ _) Hs), (proj2 (Z.eqb_neq _ _) Hq).
    change ((r =? r) && re_match (re_of <$> p) v = true). by rewrite Z.eqb_refl.
Qed.

(** ** Evaluation of a policy *)

Definition matching (p : Policy) (req : Request) (e : effect) : Prop :=
  exists s, s ∈ statements p /\ s_effect s = e /\ statement_matches s req = true.

Lemma authorize_loop_deny allowed stmts req :
  authorize_loop allowed stmts req = Err ErrExplicitDeny <->
  exists s, s ∈ stmts /\ s_effect s = effectDeny /\ statement_matches s req = true.
Proof.
  revert allowed. induction stmts as [|s stmts IH]; intros allowed; simpl.
  { split; [by destruct allowed|]. intros (? & ?%not_elem_of_nil & _). done. }
  setoid_rewrite elem_of_cons. destruct (statement_matches s req) eqn:Em; simpl.
  - destruct (s_effect s) eqn:Ee; [|split; [intros _; exists s; auto|done]].
    rewrite IH. split; [intros (s' & ? & ?); eauto|].
    intros (s' & [->|?] & ? & ?); [congruence|eauto].
  - rewrite IH. split; [intros (s' & ? & ?); eauto|].
    intros (s' & [->|?] & ? & ?); [congruence|eauto].
Qed.

Lemma authorize_loop_ok allowed stmts req :
  authorize_loop allowed stmts req = Ok tt <->
  ~ (exists s, s ∈ stmts /\ s_effect s = effectDeny /\ statement_matches s req = true) /\
  (allowed = true \/
   exists s, s ∈ stmts /\ s_effect s = effectAllow /\ statement_matches s req = true).
Proof.
  revert allowed. induction stmts as [|s stmts IH]; intros allowed; simpl.
  { split.
    - destruct allowed; [|done]. intros _. split; [|by left].
      intros (? & ?%not_elem_of_nil & _). done.
    - intros [_ [->|(? & ?%not_elem_of_nil & _)]]; done. }
  setoid_rewrite elem_of_cons. destruct (statement_matches s req) eqn:Em; simpl;
    [destruct (s_effect s) eqn:Ee|].
  - rewrite IH. split.
    + intros [Hn _]. split; [|right; exists s; auto].
      intros (s' & [->|?] & ? & ?); [congruence|apply Hn; eauto].
    + intros [Hn _]. split; [|by left]. intros (s' & ? & ?). apply Hn. eauto.
  - split; [done|]. intros [Hn _]. exfalso. apply Hn. eauto.
  - rewrite IH. split; intros [Hn Ha]; split.
    + intros (s' & [->|?] & ? & ?); [congruence|apply Hn; eauto].
    + destruct Ha as [?|(s' & ? & ?)]; eauto.
    + intros (s' & ? & ?). apply Hn. eauto.
    + destruct Ha as [?|(s' & [->|?] & ? & ?)]; [auto|congruence|eauto].
Qed.

Lemma authorize_loop_cases allowed stmts req :
  authorize_loop allowed stmts req = Ok tt \/
  authorize_loop allowed stmts req = Err ErrExplicitDeny \/
  authorize_loop allowed stmts req = Err ErrImplicitDeny.
Proof.
  revert allowed. induction stmts as [|s stmts IH]; intros allowed; simpl.
  - destruct allowed; auto.
  - destruct (statement_matches s req); simpl; [|auto]. destruct (s_effect s); auto.
Qed.

(** C4. The outcome of [Authorize] is exactly the IAM rule: an explicit deny when some
    matching statement denies, success when none denies and some matching statement
    allows, an implicit deny otherwise (also for a nil policy); the position of the
    statements is irrelevant. *)
Theorem Authorize_spec (p : Policy) (req : Request) :
  (Authorize (Some p) req = Err ErrExplicitDeny <-> matching p req effectDeny) /\
  (Authorize (Some p) req = Ok tt <->
     matching p req effectAllow /\ ~ matching p req effectDeny) /\
  (Authorize (Some p) req = Err ErrImplicitDeny <->
     ~ matching p req effectAllow /\ ~ matching p req effectDeny) /\
  Authorize None req = Err ErrImplicitDeny.
Proof.
  unfold Authorize, matching.
  pose proof (authorize_loop_deny false (statements p) req) as Hd.
  pose proof (authorize_loop_ok false (statements p) req) as Ho.
  set (D := exists s, s ∈ statements p /\ s_effect s = effectDeny /\ _) in *.
  set (A := exists s, s ∈ statements p /\ s_effect s = effectAllow /\ _) in *.
  destruct (authorize_loop_cases false (statements p) req) as [E|[E|E]]; rewrite E in *;
    intuition congruence.
Qed.

(** C33. Compiling a pattern and matching a value with it decides what the pattern stands
    for, read off its own characters: [*] stands for any run of code points without a
    newline, [?] for one such code point, every other character for itself; matching
    covers the whole value, and an action is compared in lower case. *)
Theorem wildcard_matches_spec (pattern value : string) (action : bool) :
  wildcard_matches (compileWildcard pattern) value action = true <->
  stands_for (rune_values pattern) (rune_values (if action then ToLower value else value)).
Proof.
  unfold wildcard_matches, compileWildcard; simpl.
  split; [apply re_match_sound|apply re_match_complete].
Qed.

(** [*] alone accepts exactly the values without a newline. *)
Lemma re_match_star_only v :
  re_match [ReDotStar] v = forallb re_dot v.
Proof.
  induction v as [|x v IH]; rewrite re_match_star_unfold; simpl; [done|].
  simpl in IH. by rewrite IH.
Qed.

(** A literal prefix followed by [*] accepts exactly the values that start with the
    prefix and continue without a newline. *)
Lemma re_match_lits_star p v :
  re_match ((ReLit <$> p) ++ [ReDotStar]) v = true <->
  exists rest, v = p ++ rest /\ forallb re_dot rest = true.
Proof.
  revert v. induction p as [|x p IH]; intros v.
  - rewrite re_match_star_only. split; [eauto|]. by intros (rest & -> & ?).
  - destruct v as [|y v]; [split; [done|by intros (? & ? & _)]|].
    cbn [fmap list_fmap app re_match]. rewrite andb_true_iff, Z.eqb_eq, IH. split.
    + intros [-> (rest & -> & ?)]. by exists rest.
    + intros (rest & [=-> ->] & ?). eauto.
Qed.

(** ** Compiled policies are well formed *)

Lemma canonicalConditionKeySet_lookup keys k :
  canonicalConditionKeySet keys !! k = Some true <->
  exists k', keys !! k' = Some true /\ canonicalConditionKey k' = k.
Proof.
  transitivity (exists k', (k', true) ∈ map_to_list keys /\ canonicalConditionKey k' = k).
  2: { by setoid_rewrite elem_of_map_to_list. }
  unfold canonicalConditionKeySet. induction (map_to_list keys) as [|[k0 b] l IH]; simpl.
  { split; [by rewrite lookup_empty|]. intros (? & ?%not_elem_of_nil & _). done. }
  setoid_rewrite elem_of_cons. destruct b; simpl; [rewrite lookup_insert; case_decide|].
  - split; [|done]. intros _. eauto.
  - rewrite IH. split; intros (k' & Hin & Heq); [eauto|].
    destruct Hin as [[=->]|?]; [done|eauto].
  - rewrite IH. split; intros (k' & Hin & Heq); [eauto|].
    destruct Hin as [[=]|?]; eauto.
Qed.

(** What the parser guarantees of a condition: an allowed key, an operator of the
    key's type, at least one operand, all of them readable at that type, and the
    patterns the operands compile to. *)
Record condition_wf (opts : Options) (c : condition) : Prop := {
  cwf_key : exists k, AllowedConditionKeys opts !! k = Some true /\
                      c_key c = canonicalConditionKey k;
  cwf_type : op_family (c_operator c) = conditionNull \/
    let kt := default ConditionValueAny
                (canonicalConditionKeyTypes (ConditionKeyTypes opts) !! c_key c) in
    kt = ConditionValueAny \/ operatorMatchesKeyType (op_family (c_operator c)) kt = true;
  cwf_values : c_values c <> [];
  cwf_operands : Forall (fun v => check_operand (op_family (c_operator c)) v = Ok tt) (c_values c);
  cwf_patterns : c_patterns c = compileConditionPatterns (c_operator c) (c_values c)
}.

(** Patterns come from non-empty strings without policy variables. *)
Definition pattern_wf (action : bool) (w : wildcard) : Prop :=
  exists v, v <> "" /\ has_variable v = false /\
            w = compileWildcard (if action then ToLower v else v).

Record statement_wf (opts : Options) (s : statement) : Prop := {
  swf_actions : s_actions s <> [] /\ Forall (pattern_wf true) (s_actions s);
  swf_resources : s_resources s <> [] /\ Forall (pattern_wf false) (s_resources s);
  swf_conditions : Forall (condition_wf opts) (s_conditions s)
}.

Definition policy_wf (opts : Options) (p : Policy) : Prop :=
  statements p <> [] /\ Forall (statement_wf opts) (statements p).

Lemma check_list_value_Ok field v :
  check_list_value field v = Ok tt -> v <> "" /\ has_variable v = false.
Proof.
  unfold check_list_value. destruct (has_variable v); [done|].
  destruct (String.eqb_spec v ""); done.
Qed.

Lemma parseStringList_Ok raw field l :
  parseStringList raw field = Ok l ->
  l <> [] /\ Forall (fun v => v <> "" /\ has_variable v = false) l.
Proof.
  unfold parseStringList. destruct (unmarshal_string raw) as [single|].
  - destruct (check_list_value field single) as [[]|] eqn:E; [|done]. intros [=<-].
    split; [done|]. constructor; [by eapply check_list_value_Ok|done].
  - destruct (unmarshal_strings raw) as [[|v many]|]; [done| |done].
    destruct (res_iter _ _) as [[]|] eqn:E; [|done]. intros [=<-]. split; [done|].
    apply res_iter_Ok in E. eapply Forall_impl; [exact E|]. intros ?. apply check_list_value_Ok.
Qed.

Lemma compile_target_Ok raw name neg action r :
  compile_target raw name neg action = Ok r ->
  r.2 <> [] /\ Forall (pattern_wf action) r.2.
Proof.
  unfold compile_target. destruct (Bool.eqb _ _); [done|].
  destruct (parseStringList _ name) as [values|] eqn:E; [|done]. intros [=<-].
  apply parseStringList_Ok in E as [Hne HF]. simpl. unfold compileWildcards. split.
  - by destruct values.
  - apply Forall_fmap. eapply Forall_impl; [exact HF|]. intros v [? ?]. by exists v.
Qed.

Lemma parseConditionValues_Ok raw l : parseConditionValues raw = Ok l -> l <> [].
Proof.
  unfold parseConditionValues. destruct raw as [| | | |[|v vs]|]; try done.
  all: try (destruct (conditionValueToString _); [by intros [=<-]|done]).
  intros H%res_mapM_length. by destruct l.
Qed.

Lemma parse_condition_wf opts operator kv c :
  parse_condition (canonicalConditionKeySet (AllowedConditionKeys opts))
    (canonicalConditionKeyTypes (ConditionKeyTypes opts)) operator kv = Ok c ->
  condition_wf opts c.
Proof.
  unfold parse_condition.
  destruct (canonicalConditionKeySet _ !! _) as [[]|] eqn:Ekey; try done. simpl.
  destruct (parseConditionValues kv.2) as [values|] eqn:Ev; [|done].
  unfold validateConditionOperands.
  set (kt := default _ _). destruct (_ && _ && _) eqn:Et; [done|].
  destruct (res_iter _ _) as [[]|] eqn:Eo; [|done]. intros [=<-].
  apply canonicalConditionKeySet_lookup in Ekey as (k & Hk & Heq).
  constructor; simpl.
  - exists k. by rewrite Heq.
  - fold kt. repeat (rewrite ?andb_false_iff, ?negb_false_iff in Et).
    rewrite !bool_decide_eq_true in Et. destruct Et as [[?|?]|?]; auto.
  - by apply parseConditionValues_Ok in Ev.
  - by apply res_iter_Ok.
  - done.
Qed.

Lemma res_mapM_Forall {E A B} (P : B -> Prop) (f : A -> result E B) l ys :
  (forall x y, f x = Ok y -> P y) -> res_mapM f l = Ok ys -> Forall P ys.
Proof. intros HP H%res_mapM_Ok. induction H; constructor; eauto. Qed.

Lemma parseConditions_wf opts raw cs :
  parseConditions raw (canonicalConditionKeySet (AllowedConditionKeys opts))
    (canonicalConditionKeyTypes (ConditionKeyTypes opts)) = Ok cs ->
  Forall (condition_wf opts) cs.
Proof.
  unfold parseConditions. destruct (unmarshal_maps raw) as [byOperator|]; [|done].
  destruct (map_to_list byOperator) as [|e es]; [done|].
  destruct (res_mapM _ _) as [groups|] eqn:E; [|done]. intros [=<-].
  apply Forall_concat. eapply res_mapM_Forall; [|exact E].
  intros entry g. unfold parse_operator_conditions.
  destruct (parseConditionOperator _) as [operator|]; [|done].
  case_bool_decide; [done|]. intros Hg. eapply res_mapM_Forall; [|exact Hg].
  intros kv c. apply parse_condition_wf.
Qed.

Lemma compileStatement_wf opts raw s :
  compileStatement raw (canonicalConditionKeySet (AllowedConditionKeys opts))
    (canonicalConditionKeyTypes (ConditionKeyTypes opts)) = Ok s ->
  statement_wf opts s.
Proof.
  unfold compileStatement. destruct raw as [raw|]; [|done].
  destruct (res_iter _ _) as [_|]; [|done]. destruct (parse_sid raw) as [sid|]; [|done].
  destruct (parse_effect raw) as [eff|]; [|done].
  destruct (compile_target raw "Action" _ _) as [actions|] eqn:Ea; [|done].
  destruct (compile_target raw "Resource" _ _) as [resources|] eqn:Er; [|done].
  intros H. constructor.
  - apply compile_target_Ok in Ea. by split_matches_in H.
  - apply compile_target_Ok in Er. by split_matches_in H.
  - destruct (raw !! "Condition") as [c|]; [|by simplify_eq/=].
    destruct (parseConditions c _ _) as [cs|] eqn:Ec; simplify_eq/=.
    by eapply parseConditions_wf.
Qed.

(** C34. Every policy the parser accepts has a statement, and each of its statements
    names at least one action and one resource, all from non-empty patterns without
    policy variables; every condition uses an allowed key with an operator of the
    type the options give that key, has at least one operand, and all its operands
    parse at that type. *)
Theorem ParsePolicyJSON_wf (policyJSON : string) (opts : Options) (p : Policy)
    (Hp : ParsePolicyJSON policyJSON opts = Ok p) :
  policy_wf opts p.
Proof.
  revert Hp. unfold ParsePolicyJSON. destruct (String.eqb _ _); [done|].
  destruct (negb _); [done|]. destruct (decode_single policyJSON) as [[| | | | |ms]|]; try done.
  unfold compilePolicy. destruct (res_iter _ _) as [_|]; [|done].
  destruct (check_version _) as [_|]; [|done].
  destruct (_ !! "Statement") as [st|]; [|done].
  destruct (parseStatementList st) as [raws|]; [|done].
  case_bool_decide as Hne; [done|]. destruct (res_mapM _ raws) as [stmts|] eqn:E; [|done].
  intros [=<-]. split; simpl.
  - apply res_mapM_length in E. by destruct stmts, raws.
  - eapply res_mapM_Forall; [|exact E]. intros raw s. apply compileStatement_wf.
Qed.

(** A computation whose only errors are [ErrInvalidPolicy]. *)
Definition rejects_only {A} (r : result iam_error A) : Prop :=
  match r with Err e => exists msg, e = ErrInvalidPolicy msg | Ok _ => True end.

Lemma rejects_only_bind {A B} (r : result iam_error A) (k : A -> result iam_error B) :
  rejects_only r -> (forall a, rejects_only (k a)) ->
  rejects_only (match r with Ok a => k a | Err e => Err e end).
Proof. destruct r; simpl; auto. Qed.

Lemma rejects_only_mapM {A B} (f : A -> result iam_error B) l :
  (forall x, rejects_only (f x)) -> rejects_only (res_mapM f l).
Proof.
  intros Hf. induction l as [|x l IH]; simpl; [done|].
  apply rejects_only_bind; [done|]. intros y. by apply rejects_only_bind.
Qed.

Lemma rejects_only_iter {A} (f : A -> result iam_error unit) l :
  (forall x, rejects_only (f x)) -> rejects_only (res_iter f l).
Proof.
  intros Hf. induction l as [|x l IH]; simpl; [done|]. by apply rejects_only_bind.
Qed.

Lemma rejects_only_invalid {A} msg : rejects_only (A:=A) (invalid msg).
Proof. by exists msg. Qed.

Lemma rejects_only_Err {A} msg : rejects_only (A:=A) (Err (ErrInvalidPolicy msg)).
Proof. by exists msg. Qed.

Create HintDb rejects.
#[local] Hint Resolve rejects_only_invalid rejects_only_Err : rejects.
#[local] Hint Extern 1 (rejects_only (Ok _)) => exact I : rejects.

(** Walks a parser: binds, loops and branches. *)
Ltac rejects :=
  repeat first
    [ progress (intros; simpl)
    | solve [eauto with rejects]
    | apply rejects_only_mapM | apply rejects_only_iter
    | apply rejects_only_bind
    | progress case_match ].

Lemma compile_target_rejects raw name neg action :
  rejects_only (compile_target raw name neg action).
Proof.
  unfold compile_target, parseStringList, check_list_value. rejects.
Qed.

Lemma parseConditionOperator_rejects name : rejects_only (parseConditionOperator name).
Proof.
  unfold parseConditionOperator.
  repeat (destruct (String.eqb name _); [exact I|]). apply rejects_only_invalid.
Qed.
#[local] Hint Resolve compile_target_rejects parseConditionOperator_rejects : rejects.

Lemma conditionValueToString_rejects v : rejects_only (conditionValueToString v).
Proof. unfold conditionValueToString. rejects. Qed.
#[local] Hint Resolve conditionValueToString_rejects : rejects.

Lemma check_operand_rejects f v : rejects_only (check_operand f v).
Proof. unfold check_operand. rejects. Qed.
#[local] Hint Resolve check_operand_rejects : rejects.

Lemma parse_condition_rejects allowed types operator kv :
  rejects_only (parse_condition allowed types operator kv).
Proof.
  unfold parse_condition, parseConditionValues, validateConditionOperands. rejects.
Qed.
#[local] Hint Resolve parse_condition_rejects : rejects.

Lemma parseConditions_rejects raw allowed types :
  rejects_only (parseConditions raw allowed types).
Proof. unfold parseConditions, parse_operator_conditions. rejects. Qed.
#[local] Hint Resolve parseConditions_rejects : rejects.

Lemma compileStatement_rejects raw allowed types :
  rejects_only (compileStatement raw allowed types).
Proof.
  unfold compileStatement, check_statement_key, parse_sid, parse_effect. rejects.
Qed.
#[local] Hint Resolve compileStatement_rejects : rejects.

Lemma compilePolicy_rejects raw opts : rejects_only (compilePolicy raw opts).
Proof.
  unfold compilePolicy, check_policy_key, check_version, parseStatementList. rejects.
Qed.

(** Parsing a policy always ends in a policy or an [ErrInvalidPolicy]: the JSON
    reader's recursion is bounded by the text, so a failed parse is a syntax or a
    nesting error of the text itself. *)
Theorem ParsePolicyJSON_total (policyJSON : string) (opts : Options) :
  decode_single policyJSON <> Err JOutOfFuel /\
  ((exists p, ParsePolicyJSON policyJSON opts = Ok p) \/
   (exists msg, ParsePolicyJSON policyJSON opts = Err (ErrInvalidPolicy msg))).
Proof.
  split; [apply decode_single_fuel|].
  enough (rejects_only (ParsePolicyJSON policyJSON opts)) as H.
  { destruct (ParsePolicyJSON policyJSON opts) as [p|e]; [eauto|]. destruct H as [m ->]. eauto. }
  unfold ParsePolicyJSON. pose proof (fun ms => compilePolicy_rejects (object_map ms) opts).
  rejects.
Qed.

(** ** What a condition means *)

Definition time_lt (t u : Time) : Prop :=
  t_sec t < t_sec u \/ (t_sec t = t_sec u /\ t_nsec t < t_nsec u).

(** The comparison an operator family makes between an actual value and an operand;
    [None] for the families that do not compare numbers or dates. *)
Definition numeric_relation (f : conditionFamily) : option (float64 -> float64 -> bool) :=
  match f with
  | conditionNumericEquals => Some float_eqb
  | conditionNumericLessThan => Some float_ltb
  | conditionNumericLessThanEquals => Some float_leb
  | conditionNumericGreaterThan => Some (fun a e => float_ltb e a)
  | conditionNumericGreaterThanEquals => Some (fun a e => float_leb e a)
  | _ => None
  end.

Definition date_relation (f : conditionFamily) : option (Time -> Time -> Prop) :=
  match f with
  | conditionDateEquals => Some eq
  | conditionDateLessThan => Some time_lt
  | conditionDateLessThanEquals => Some (fun a e => time_lt a e \/ a = e)
  | conditionDateGreaterThan => Some (fun a e => time_lt e a)
  | conditionDateGreaterThanEquals => Some (fun a e => time_lt e a \/ a = e)
  | _ => None
  end.

Definition operand_holds (f : conditionFamily) (actual operand : string) : Prop :=
  match f with
  | conditionStringEquals => actual = operand
  | conditionStringLike => stands_for (rune_values operand) (rune_values actual)
  | conditionBool => exists b, ParseBool (ToLower actual) = Some b /\ operand = FormatBool b
  | conditionNull => False
  | _ =>
      match numeric_relation f, date_relation f with
      | Some rel, _ => exists a e, ParseFloat actual = Some a /\ ParseFloat operand = Some e /\
                                   rel a e = true
      | None, Some rel => exists a e, parseIAMTime actual = Some a /\
                                      parseIAMTime operand = Some e /\ rel a e
      | None, None => False
      end
  end.

Lemma Equal_spec t u : Equal t u = true <-> t = u.
Proof.
  unfold Equal. rewrite andb_true_iff, !Z.eqb_eq. destruct t, u; simpl.
  split; [intros [-> ->]|intros [=]]; auto.
Qed.

Lemma Before_spec t u : Before t u = true <-> time_lt t u.
Proof.
  unfold Before, time_lt.
  by rewrite orb_true_iff, andb_true_iff, !Z.ltb_lt, Z.eqb_eq.
Qed.

Lemma with_pair_option {A} (x y : option A) (f : A -> A -> bool) (P : A -> A -> Prop) :
  (forall a e, f a e = true <-> P a e) ->
  with_pair (a ← x; e ← y; Some (a, e)) f = true <->
  exists a e, x = Some a /\ y = Some e /\ P a e.
Proof.
  intros HP. destruct x as [a|]; [|split; [done|by intros (? & ? & ? & _)]].
  destruct y as [e|]; simpl; [|split; [done|by intros (? & ? & _ & ? & _)]].
  rewrite HP. split; [eauto 10|]. by intros (? & ? & [=->] & [=->] & ?).
Qed.

Lemma ParseBool_operand v :
  check_operand conditionBool v = Ok tt ->
  exists b, v = FormatBool b /\ ParseBool (ToLower v) = Some b.
Proof.
  unfold check_operand. destruct (String.eqb_spec v "true") as [->|]; [by exists true|].
  destruct (String.eqb_spec v "false") as [->|]; [by exists false|]. done.
Qed.

Lemma valueMatches_bool c actual operand :
  op_family (c_operator c) = conditionBool ->
  check_operand conditionBool operand = Ok tt ->
  valueMatches c actual operand = true <-> operand_holds conditionBool actual operand.
Proof.
  intros Ef (b & -> & Hb)%ParseBool_operand. unfold valueMatches. rewrite Ef, Hb. simpl.
  destruct (ParseBool (ToLower actual)) as [a|].
  - rewrite eqb_true_iff. split; [intros ->; eauto|].
    intros (b' & [=->] & Hf). by destruct b, b'.
  - split; [done|by intros (? & ? & _)].
Qed.

Lemma valueMatches_spec c actual operand :
  op_family (c_operator c) <> conditionStringLike ->
  check_operand (op_family (c_operator c)) operand = Ok tt ->
  valueMatches c actual operand = true <->
  operand_holds (op_family (c_operator c)) actual operand.
Proof.
  intros Hl Ho. destruct (op_family (c_operator c)) eqn:Ef; try done;
    try (by apply valueMatches_bool);
    unfold valueMatches, parseNumbers, parseTimes; rewrite Ef; simpl;
    try done; try apply String.eqb_eq.
  all: apply with_pair_option; intros a e; try done;
    unfold After; rewrite ?orb_true_iff, ?Before_spec, ?Equal_spec; tauto.
Qed.

Lemma valueMatchesAny_spec opts c actual :
  condition_wf opts c ->
  valueMatchesAny c actual = true <->
  exists operand : string, operand ∈ c_values c /\
    operand_holds (op_family (c_operator c)) actual operand.
Proof.
  intros Hwf. unfold valueMatchesAny. case_bool_decide as Hl; rewrite existsb_elem_of.
  - rewrite (cwf_patterns _ _ Hwf). unfold compileConditionPatterns, compileWildcards.
    rewrite Hl, bool_decide_true by done. cbn [negb operand_holds]. split.
    + intros (w & (v & -> & Hv)%list_elem_of_fmap & Hm). exists v. split; [done|].
      by apply re_match_sound.
    + intros (v & Hv & Hm). exists (compileWildcard v). split.
      * apply list_elem_of_fmap. eauto.
      * by apply re_match_complete.
  - pose proof (cwf_operands _ _ Hwf) as Ho. rewrite Forall_forall in Ho.
    split; intros (v & Hv & Hm); exists v; (split; [done|]); apply (valueMatches_spec c); auto.
Qed.

(** C32. A condition of a parsed policy holds exactly as IAM describes it.  [Null]
    compares the absence of the key with its operand; for every other operator an
    absent key satisfies only the negated forms, and a present one satisfies the
    operator when one of its values stands in the operator's relation to one of the
    operands, and the negated operator when none does. *)
Theorem condition_matches_spec (opts : Options) (c : condition)
    (ctx : gmap string (list string)) (Hwf : condition_wf opts c) :
  let f := op_family (c_operator c) in
  let values := default [] (Context_values ctx (c_key c)) in
  let related := exists actual operand : string,
    actual ∈ values /\ operand ∈ c_values c /\ operand_holds f actual operand in
  condition_matches c ctx = true <->
  if bool_decide (f = conditionNull)
  then (values = [] <-> "true" ∈ c_values c)
  else if op_negative (c_operator c) then ~ related else related.
Proof.
  intros f values related. unfold condition_matches.
  fold f. fold related. subst values.
  set (vals := Context_values ctx (c_key c)) in *.
  case_bool_decide as Hnull.
  - rewrite eqb_true_iff. pose proof (cwf_operands _ _ Hwf) as Ho. fold f in Ho.
    rewrite Hnull in Ho.
    assert (existsb (fun v => default false (ParseBool (ToLower v))) (c_values c) = true <->
            "true" ∈ c_values c) as Ht.
    { rewrite existsb_elem_of. rewrite Forall_forall in Ho. split.
      - intros (v & Hv & Hb). destruct (ParseBool_operand v (Ho v Hv)) as ([] & -> & Hp);
          [done|]. by rewrite Hp in Hb.
      - intros Hv. by exists "true". }
    change (fun v => match ParseBool (ToLower v) with Some b => b | None => false end)
      with (fun v => default false (ParseBool (ToLower v))).
    destruct (existsb _ _); destruct vals as [[|x l]|]; simpl; intuition congruence.
  - assert (existsb (valueMatchesAny c) (default [] vals) = true <-> related) as Hr.
    { unfold related. rewrite existsb_elem_of. setoid_rewrite (valueMatchesAny_spec opts c);
        [|done]. fold f. split.
      - intros (a & Ha & o & ? & ?). eauto 10.
      - intros (a & o & ? & ? & ?). eauto 10. }
    destruct vals as [[|x l]|]; cbn [default] in *; simpl;
      destruct (op_negative (c_operator c));
      rewrite ?negb_true_iff, <-?not_true_iff_false, ?Hr; simpl in *; intuition congruence.
Qed.

(** [*] does not stand for every string: the pattern matches exactly the values
    that hold no newline. *)
Theorem star_excludes_newline (value : string) :
  wildcard_matches (compileWildcard "*") value false = true <-> 10 ∉ rune_values value.
Proof.
  change (re_match [ReDotStar] (rune_values value) = true <-> 10 ∉ rune_values value).
  rewrite re_match_star_only, forallb_elem_of. unfold re_dot. split.
  - intros H Hin. by apply H in Hin.
  - intros H x Hx. apply negb_true_iff, Z.eqb_neq. by intros ->.
Qed.

(** ** A concrete policy *)

(** JSON text written with apostrophes for double quotes. *)
Fixpoint with_quotes (s : string) : string :=
  match s with
  | String c s => String (if Ascii.eqb c "'" then "034"%char else c) (with_quotes s)
  | "" => ""
  end.

Definition example_options : Options :=
  mkOptions {["S3:prefix" := true; "s3:max-keys" := true; "s3:delimiter" := true]}
            {["s3:prefix" := ConditionValueString; "s3:max-keys" := ConditionValueNumeric;
              "s3:delimiter" := ConditionValueString]}.

Definition example_policy_text : string := with_quotes
  "{'Version': '2012-10-17', 'Statement': [
     {'Sid': 'list', 'Effect': 'Allow', 'Action': ['s3:List*', 's3:GetObject'],
      'Resource': 'arn:aws:s3:::b*',
      'Condition': {'NumericLessThanEquals': {'S3:max-keys': '1e2'}}},
     {'Effect': 'Deny', 'Action': '*', 'Resource': '*',
      'Condition': {'StringLike': {'s3:delimiter': '*'}}}]}".

Definition example_policy : Policy :=
  match ParsePolicyJSON example_policy_text example_options with
  | Ok p => p
  | Err _ => DenyAllPolicy
  end.

Example example_policy_decisions :
  let ask ctx := Authorize (Some example_policy) (mkRequest "S3:ListBucket" "arn:aws:s3:::b" ctx) in
  ask {["s3:max-keys" := ["100"]]} = Ok tt /\
  ask {["s3:max-keys" := ["101"]]} = Err ErrImplicitDeny /\
  ask {["s3:max-keys" := ["100"]; "s3:delimiter" := ["/"]]} = Err ErrExplicitDeny /\
  ask {["s3:max-keys" := ["100"]; "s3:delimiter" := [chr 10]]} = Ok tt.
Proof. vm_compute. auto. Qed.

Lemma ParsePolicyJSON_wf_witness :
  ParsePolicyJSON example_policy_text example_options = Ok example_policy /\
  policy_wf example_options example_policy.
Proof.
  assert (ParsePolicyJSON example_policy_text example_options = Ok example_policy) as H
    by (vm_compute; reflexivity).
  split; [exact H|].
  exact (ParsePolicyJSON_wf example_policy_text example_options example_policy H).
Defined.

Definition example_condition : condition :=
  mkCondition (mkOperator "NumericLessThanEquals" conditionNumericLessThanEquals false)
    "s3:max-keys" ["1e2"] [].

Lemma condition_matches_spec_witness :
  condition_wf example_options example_condition /\
  (condition_matches example_condition {["s3:max-keys" := ["100"]]} = true <->
   exists actual operand : string, actual ∈ ["100"] /\ operand ∈ ["1e2"] /\
     operand_holds conditionNumericLessThanEquals actual operand).
Proof.
  assert (condition_wf example_options example_condition) as Hwf.
  { constructor.
    - exists "s3:max-keys". vm_compute. auto.
    - right. right. vm_compute. reflexivity.
    - done.
    - constructor; [vm_compute; reflexivity|constructor].
    - vm_compute. reflexivity. }
  split; [exact Hwf|].
  exact (condition_matches_spec example_options example_condition
           {["s3:max-keys" := ["100"]]} Hwf).
Defined.
