(* ===== verification/Errors.v ===== *)
(** * Errors: the error values of the resolver boundary

    [controlplane/errors.go], the error variables of [http_server/vbucket.go] and
    [http_server/resolver_errors.go].  A Go error is a tree: a package variable (with
    the variables it wraps), or a formatted error with the causes of its [%w] verbs;
    [errors.Is] searches that tree.  What gRPC's status package answers is a
    parameter. *)
From S2P Require Import Prelude.

Inductive sentinel :=
| ErrResolverNotFound
| ErrResolverUnavailable
| ErrResolverThrottled
| ErrResolverInvalidResponse
| ErrVBucketAlreadyOwnedByYou
| ErrVBucketAlreadyExists
| ErrInvalidVBucketName
| ErrInvalidVBucketArgument
| ErrVBucketAccessDenied
| errNotConnected
| ErrUnsynchronized
| ErrRevisionRace
| ErrWatchSilence
| ErrSynchronizationTimeout
| ContextCanceled
| ContextDeadlineExceeded
| IoEOF.

#[export] Instance sentinel_eq_dec : EqDecision sentinel.
Proof. solve_decision. Defined.

(** The variables declared with [fmt.Errorf("%w: ...")]. *)
Definition sentinel_cause (s : sentinel) : option sentinel :=
  match s with
  | errNotConnected | ErrUnsynchronized | ErrRevisionRace => Some ErrResolverUnavailable
  | _ => None
  end.

(** [ErrNotFound] and [ErrMissRejected] are the http_server variables themselves. *)
Definition ErrNotFound : sentinel := ErrResolverNotFound.
Definition ErrMissRejected : sentinel := ErrResolverThrottled.

Inductive code :=
| codeOK | codeCanceled | codeUnknown | codeInvalidArgument | codeDeadlineExceeded
| codeNotFound | codeAlreadyExists | codePermissionDenied | codeResourceExhausted
| codeFailedPrecondition | codeAborted | codeOutOfRange | codeUnimplemented
| codeInternal | codeUnavailable | codeDataLoss | codeUnauthenticated.

#[export] Instance code_eq_dec : EqDecision code.
Proof. solve_decision. Defined.

#[local] Set Warnings "-register-all".
Inductive error :=
| Named (s : sentinel)
| Status (c : code)
| Errorf (msg : string) (causes : list error).

(** [errors.Is(err, target)] for a variable [target]. *)
Fixpoint Is (err : error) (target : sentinel) : bool :=
  match err with
  | Named s => bool_decide (s = target) || bool_decide (sentinel_cause s = Some target)
  | Status _ => false
  | Errorf _ causes => existsb (fun e => Is e target) causes
  end.

(** What the code uses of [google.golang.org/grpc/status]: [FromError] succeeds on
    errors that carry a status, [Code] reads its code. *)
Class GrpcStatus := {
  FromErrorOk : error -> bool;
  Code : error -> code
}.

Section mapping.
Context `{GrpcStatus}.

Definition resolver_known : list sentinel :=
  [ErrResolverNotFound; ErrResolverUnavailable; ErrResolverThrottled;
   ErrResolverInvalidResponse; ErrVBucketAccessDenied; ErrVBucketAlreadyOwnedByYou;
   ErrVBucketAlreadyExists; ErrInvalidVBucketName; ErrInvalidVBucketArgument].

(** A nil error is [None]. *)
Definition mapResolverError (err : option error) : option error :=
  match err with
  | None => None
  | Some err =>
      Some
        (if existsb (Is err) resolver_known then err
         else if Is err ContextCanceled || Is err ContextDeadlineExceeded
         then Errorf "" [Named ErrResolverUnavailable; err]
         else if FromErrorOk err then
           let category := match Code err with
                           | codeNotFound => ErrResolverNotFound
                           | codePermissionDenied | codeUnauthenticated => ErrVBucketAccessDenied
                           | codeResourceExhausted => ErrResolverThrottled
                           | _ => ErrResolverUnavailable
                           end in
           Errorf "" [Named category; err]
         else Errorf "" [Named ErrResolverInvalidResponse; err])
  end.

Definition mapCreateVBucketError (err : error) : error :=
  match Code err with
  | codeAlreadyExists => Errorf "" [Named ErrVBucketAlreadyOwnedByYou]
  | codeAborted | codeFailedPrecondition => Errorf "" [Named ErrVBucketAlreadyExists]
  | codeInvalidArgument => Errorf "" [Named ErrInvalidVBucketArgument]
  | codePermissionDenied | codeUnauthenticated | codeNotFound =>
      Errorf "" [Named ErrVBucketAccessDenied]
  | _ => err
  end.

Definition mapListVBucketsError (err : error) : error :=
  match Code err with
  | codePermissionDenied | codeUnauthenticated | codeNotFound =>
      Errorf "" [Named ErrVBucketAccessDenied]
  | _ => err
  end.
End mapping.

(** ** The response of the HTTP adapter *)

Record s3_error := mkS3Error { se_status : Z; se_code : string; se_message : string }.

Definition writeResolverError (err : error) (credentials : bool) : s3_error :=
  if Is err ErrResolverNotFound && credentials then
    mkS3Error 403 "InvalidAccessKeyId"
      "The AWS Access Key Id you provided does not exist in our records."
  else if Is err ErrResolverNotFound || Is err ErrVBucketAccessDenied then
    mkS3Error 403 "AccessDenied" "Access Denied"
  else if Is err ErrResolverThrottled then
    mkS3Error 503 "SlowDown" "Please reduce your request rate."
  else if Is err ErrResolverUnavailable || Is err ContextDeadlineExceeded
          || Is err ContextCanceled then
    mkS3Error 503 "ServiceUnavailable" "Control plane is temporarily unavailable."
  else if Is err ErrInvalidVBucketArgument then
    mkS3Error 400 "InvalidRequest" "Invalid request."
  else mkS3Error 502 "InternalError" "Invalid control-plane response.".

(** ** Every error that crosses the boundary has a category *)

Definition categorized (err : error) : Prop := exists s, s ∈ resolver_known /\ Is err s = true.

Lemma Is_head s msg causes : Is (Errorf msg (Named s :: causes)) s = true.
Proof. simpl. by rewrite bool_decide_true. Qed.

Lemma categorized_wrap s msg causes :
  bool_decide (s ∈ resolver_known) = true -> categorized (Errorf msg (Named s :: causes)).
Proof. intros Hs%bool_decide_eq_true. exists s. split; [done|apply Is_head]. Qed.

(** Whatever a control-plane operation fails with, the error the resolver hands to
    the HTTP adapter belongs to one of the categories of the contract; a nil error
    stays nil. *)
Theorem mapResolverError_categorized `{GrpcStatus} (err : option error) :
  match mapResolverError err with
  | None => err = None
  | Some err' => err <> None /\ categorized err'
  end.
Proof.
  destruct err as [err|]; [|done]. cbn [mapResolverError]. split; [done|].
  destruct (existsb (Is err) resolver_known) eqn:E.
  { apply existsb_elem_of in E as (s & ? & ?). by exists s. }
  destruct (_ || _); [by apply categorized_wrap|].
  destruct (FromErrorOk err); [|by apply categorized_wrap].
  apply categorized_wrap. by destruct (Code err).
Qed.

(** The adapter answers an unknown access key with InvalidAccessKeyId only where
    the lookup was for credentials; unavailability and cancellation are always 503,
    and no resolver error is answered with success. *)
Theorem writeResolverError_status (err : error) (credentials : bool) :
  let r := writeResolverError err credentials in
  (se_code r = "InvalidAccessKeyId" <-> credentials = true /\ Is err ErrResolverNotFound = true) /\
  (se_status r = 503 <->
     Is err ErrResolverNotFound = false /\ Is err ErrVBucketAccessDenied = false /\
     (Is err ErrResolverThrottled || Is err ErrResolverUnavailable
      || Is err ContextDeadlineExceeded || Is err ContextCanceled) = true) /\
  400 <= se_status r.
Proof.
  unfold writeResolverError.
  destruct (Is err ErrResolverNotFound), credentials, (Is err ErrVBucketAccessDenied),
    (Is err ErrResolverThrottled), (Is err ErrResolverUnavailable),
    (Is err ContextDeadlineExceeded), (Is err ContextCanceled),
    (Is err ErrInvalidVBucketArgument); simpl; (split; [|split]); try lia;
    split; intros; intuition (congruence || lia).
Qed.
