(* ===== verification/Cache.v ===== *)
(** * Cache: the bounded TTL + LRU store of [controlplane/cache.go]

    [localCache] pairs a Go map with a [container/list] of keys.  The list
    elements have an identity of their own (the [*list.Element] each entry
    holds), so the model keeps element identities and every list operation works
    on an identity, as the pointer operations of the source do.  The abstract
    specification is an association list, most recently used first. *)
From S2P Require Import Prelude.

(** ** [container/list], restricted to the operations the cache uses *)

(** An element is its identity and its value; the list is front first. *)
Definition listRemove {K} (id : nat) (l : list (nat * K)) : list (nat * K) :=
  filter (fun e => e.1 <> id) l.

Definition listMoveToFront {K} (id : nat) (l : list (nat * K)) : list (nat * K) :=
  filter (fun e => e.1 = id) l ++ listRemove id l.

Definition listPushFront {K} (id : nat) (k : K) (l : list (nat * K)) : list (nat * K) :=
  (id, k) :: l.

Record timedEntry (V : Type) := mkTimedEntry {
  te_value : V;
  te_expiresAt : Z;
  te_order : nat
}.
Global Arguments mkTimedEntry {V} _ _ _.
Global Arguments te_value {V} _.
Global Arguments te_expiresAt {V} _.
Global Arguments te_order {V} _.

Module LocalCache.
Section cache.
Context {K : Type} `{Countable K} {V : Type}.

(** [onEvict] is the number of times the callback ran, [None] when it is nil.
    [nextElem] is the identity the next allocated list element gets. *)
Record localCache := mkLocalCache {
  entries : gmap K (timedEntry V);
  order : list (nat * K);
  nextElem : nat;
  maximum : Z;
  onEvict : option nat
}.

Definition newLocalCache (maximum : Z) (onEvict : option nat) : localCache :=
  let maximum := if maximum <? 1 then 1 else maximum in
  mkLocalCache ∅ [] 0 maximum onEvict.

Definition GetIfPresent (now : Z) (key : K) (c : localCache) : localCache * option V :=
  match entries c !! key with
  | None => (c, None)
  | Some entry =>
      if te_expiresAt entry <=? now then
        (mkLocalCache (delete key (entries c)) (listRemove (te_order entry) (order c))
           (nextElem c) (maximum c) (onEvict c), None)
      else
        (mkLocalCache (entries c) (listMoveToFront (te_order entry) (order c))
           (nextElem c) (maximum c) (onEvict c), Some (te_value entry))
  end.

(** Dropping the least recently used element, at [c.order.Back()]. *)
Definition evictOldest (c : localCache) : localCache :=
  match last (order c) with
  | None => c
  | Some (oldest, oldestKey) =>
      mkLocalCache (delete oldestKey (entries c)) (listRemove oldest (order c))
        (nextElem c) (maximum c) (S <$> onEvict c)
  end.

Definition Set_ (now : Z) (key : K) (value : V) (ttl : Z) (c : localCache) : localCache :=
  if ttl <=? 0 then c else
  match entries c !! key with
  | Some existing =>
      mkLocalCache (<[key := mkTimedEntry value (now + ttl) (te_order existing)]> (entries c))
        (listMoveToFront (te_order existing) (order c))
        (nextElem c) (maximum c) (onEvict c)
  | None =>
      let c' := mkLocalCache
        (<[key := mkTimedEntry value (now + ttl) (nextElem c)]> (entries c))
        (listPushFront (nextElem c) key (order c))
        (S (nextElem c)) (maximum c) (onEvict c) in
      if Z.of_nat (size (entries c')) <=? maximum c' then c' else evictOldest c'
  end.

Definition Invalidate (key : K) (c : localCache) : localCache :=
  let order' := match entries c !! key with
                | Some entry => listRemove (te_order entry) (order c)
                | None => order c
                end in
  mkLocalCache (delete key (entries c)) order' (nextElem c) (maximum c) (onEvict c).

Definition InvalidateAll (c : localCache) : localCache :=
  mkLocalCache ∅ [] (nextElem c) (maximum c) (onEvict c).

Definition Len (c : localCache) : Z := Z.of_nat (size (entries c)).

(** ** Well-formedness *)

Record cache_wf (c : localCache) : Prop := {
  wf_ids : NoDup (order c).*1;
  wf_keys : NoDup (order c).*2;
  wf_link : forall k id, (exists e, entries c !! k = Some e /\ te_order e = id)
                         <-> (id, k) ∈ order c;
  wf_fresh : forall id k, (id, k) ∈ order c -> (id < nextElem c)%nat;
  wf_bound : Len c <= maximum c;
  wf_max : 1 <= maximum c
}.

(** ** Abstract specification: an association list, most recent first *)

Abbreviation lru := (list (K * (V * Z))).

Definition lru_remove (k : K) (l : lru) : lru := filter (fun e => e.1 <> k) l.

Definition lru_find (k : K) (l : lru) : option (V * Z) :=
  snd <$> head (filter (fun e => e.1 = k) l).

Definition lru_get (now : Z) (k : K) (l : lru) : lru * option V :=
  match lru_find k l with
  | None => (l, None)
  | Some (v, exp) =>
      if exp <=? now then (lru_remove k l, None)
      else ((k, (v, exp)) :: lru_remove k l, Some v)
  end.

Definition lru_set (bound : nat) (now : Z) (k : K) (v : V) (ttl : Z) (l : lru) : lru :=
  if ttl <=? 0 then l
  else take bound ((k, (v, now + ttl)) :: lru_remove k l).

(** The list a cache stands for. *)
Definition view (m : gmap K (timedEntry V)) (o : list (nat * K)) : lru :=
  omap (fun e => (fun te => (e.2, (te_value te, te_expiresAt te))) <$> m !! e.2) o.

Definition abs (c : localCache) : lru := view (entries c) (order c).

(** ** Lemmas on the element list *)

Lemma listRemove_by_key id k (l : list (nat * K)) :
  NoDup l.*1 -> NoDup l.*2 -> (id, k) ∈ l ->
  listRemove id l = filter (fun e => e.2 <> k) l.
Proof.
  intros Hid Hk Hin. unfold listRemove. apply list_filter_iff_Forall.
  rewrite Forall_forall. intros [id' k'] Hin'; simpl.
  apply list_elem_of_lookup in Hin as [i Hi].
  apply list_elem_of_lookup in Hin' as [j Hj]. f_equiv. split; intros ->.
  - assert (i = j) as ->; [|by simplify_eq].
    by apply (NoDup_lookup _ _ _ id Hid); rewrite list_lookup_fmap, ?Hi, ?Hj.
  - assert (i = j) as ->; [|by simplify_eq].
    by apply (NoDup_lookup _ _ _ k Hk); rewrite list_lookup_fmap, ?Hi, ?Hj.
Qed.

Lemma filter_id_singleton id k (l : list (nat * K)) :
  NoDup l.*1 -> (id, k) ∈ l -> filter (fun e => e.1 = id) l = [(id, k)].
Proof.
  induction l as [|[id' k'] l IH]; simpl; intros Hnd Hin; [by apply not_elem_of_nil in Hin|].
  apply NoDup_cons in Hnd as [Hni Hnd]. rewrite filter_cons; simpl.
  apply elem_of_cons in Hin as [?|Hin]; simplify_eq.
  - rewrite decide_True by done. f_equal.
    apply list_filter_nil. intros [a b] Hin Ha; simpl in *; subst a.
    by apply Hni, (list_elem_of_fmap_2 fst _ (id', b)).
  - rewrite decide_False; [by apply IH|]. intros ->.
    by apply Hni, (list_elem_of_fmap_2 fst _ (id, k)).
Qed.

Lemma listMoveToFront_by_key id k (l : list (nat * K)) :
  NoDup l.*1 -> NoDup l.*2 -> (id, k) ∈ l ->
  listMoveToFront id l = (id, k) :: filter (fun e => e.2 <> k) l.
Proof.
  intros. unfold listMoveToFront.
  by rewrite (filter_id_singleton id k), (listRemove_by_key id k).
Qed.

(** ** Lemmas on the abstraction *)

Lemma view_cons m id k o :
  view m ((id, k) :: o) =
  match m !! k with
  | Some te => (k, (te_value te, te_expiresAt te)) :: view m o
  | None => view m o
  end.
Proof. unfold view; simpl. by destruct (m !! k). Qed.

Lemma view_remove k m o :
  lru_remove k (view m o) = view m (filter (fun e => e.2 <> k) o).
Proof.
  unfold lru_remove. induction o as [|[id k'] o IH]; [done|].
  rewrite view_cons, filter_cons; cbn [snd]. destruct (m !! k') as [te|] eqn:E.
  - rewrite filter_cons; cbn [fst]. destruct (decide (k' <> k)); [|done].
    rewrite view_cons, E. by f_equal.
  - destruct (decide (k' <> k)); rewrite ?view_cons, ?E; done.
Qed.

Lemma view_ext m1 m2 o :
  (forall k, k ∈ o.*2 -> m1 !! k = m2 !! k) -> view m1 o = view m2 o.
Proof.
  induction o as [|[id k] o IH]; intros Hext; [done|].
  rewrite fmap_cons in Hext; cbn [snd] in Hext.
  rewrite !view_cons, (Hext k), IH by set_solver. done.
Qed.

Lemma filter_keys_ne k (o : list (nat * K)) k' :
  k' ∈ (filter (fun e => e.2 <> k) o).*2 -> k' <> k.
Proof. intros ([id ?] & -> & [? ?]%list_elem_of_filter)%list_elem_of_fmap. done. Qed.

Lemma view_delete k m o :
  view (delete k m) (filter (fun e => e.2 <> k) o) = lru_remove k (view m o).
Proof.
  rewrite view_remove. apply view_ext. intros k' ?%filter_keys_ne.
  by rewrite lookup_delete_ne.
Qed.

Lemma view_insert k te m o :
  view (<[k := te]> m) (filter (fun e => e.2 <> k) o) = lru_remove k (view m o).
Proof.
  rewrite view_remove. apply view_ext. intros k' ?%filter_keys_ne.
  by rewrite lookup_insert_ne.
Qed.

Lemma view_find_absent k m o : m !! k = None -> lru_find k (view m o) = None.
Proof.
  intros Hk. unfold lru_find. induction o as [|[id k'] o IH]; [done|].
  rewrite view_cons. destruct (m !! k') eqn:E; [|done].
  rewrite filter_cons; cbn [fst]. by rewrite decide_False by congruence.
Qed.

Lemma view_find k m o :
  k ∈ o.*2 ->
  lru_find k (view m o) = (fun te => (te_value te, te_expiresAt te)) <$> m !! k.
Proof.
  destruct (m !! k) as [te|] eqn:E; [|by rewrite view_find_absent].
  unfold lru_find. induction o as [|[id k'] o IH]; intros Hin.
  { by apply not_elem_of_nil in Hin. }
  rewrite fmap_cons in Hin; cbn [snd] in Hin. rewrite view_cons. destruct (decide (k' = k)) as [->|Hne].
  - rewrite E, filter_cons; cbn [fst]. by rewrite decide_True.
  - destruct (m !! k'); [|apply IH; set_solver].
    rewrite filter_cons; cbn [fst]. rewrite decide_False by done. apply IH; set_solver.
Qed.

Lemma view_remove_absent k m o : m !! k = None -> lru_remove k (view m o) = view m o.
Proof.
  intros Hk. apply list_filter_all. intros [k' v] Hin; cbn [fst]. intros ->.
  apply list_elem_of_omap in Hin as ([id k'] & _ & Hin); cbn [snd] in Hin.
  apply fmap_Some in Hin as (te & Hte & ?). by simplify_eq.
Qed.

(** ** The invariant and the refinement, operation by operation *)

Lemma wf_size c : cache_wf c -> size (entries c) = length (order c).
Proof.
  intros Hwf. rewrite <-size_dom, <-(length_fmap snd (order c)).
  rewrite <-(size_list_to_set (C := gset K) (order c).*2) by apply Hwf.
  f_equal. apply set_eq. intros k. rewrite elem_of_dom, elem_of_list_to_set. split.
  - intros [te Hte]. assert ((te_order te, k) ∈ order c) as Hin by (apply Hwf; eauto).
    by apply (list_elem_of_fmap_2 snd) in Hin.
  - intros ([id k'] & -> & Hin)%list_elem_of_fmap.
    apply Hwf in Hin as (te & Hte & _). eauto.
Qed.

Lemma wf_in_order c k te :
  cache_wf c -> entries c !! k = Some te -> (te_order te, k) ∈ order c.
Proof. intros Hwf Hte. apply Hwf. eauto. Qed.

Lemma wf_key_in_order c k te :
  cache_wf c -> entries c !! k = Some te -> k ∈ (order c).*2.
Proof. intros Hwf Hte%wf_in_order; [|done]. by apply (list_elem_of_fmap_2 snd) in Hte. Qed.

(** A cache whose entries and order agree except that [k] was removed. *)
Lemma wf_removed c k ev :
  cache_wf c ->
  cache_wf (mkLocalCache (delete k (entries c)) (filter (fun e => e.2 <> k) (order c))
              (nextElem c) (maximum c) ev).
Proof.
  intros Hwf. split; simpl; unfold Len; simpl.
  - apply NoDup_fmap_filter, Hwf.
  - apply NoDup_fmap_filter, Hwf.
  - intros k' id. rewrite list_elem_of_filter; simpl. rewrite <-(wf_link c Hwf).
    rewrite lookup_delete. case_decide; naive_solver.
  - intros id k' [_ Hin]%list_elem_of_filter. by apply (wf_fresh c Hwf) in Hin.
  - pose proof (wf_bound c Hwf). unfold Len in *.
    rewrite map_size_delete. destruct (entries c !! k); simpl; lia.
  - apply Hwf.
Qed.

(** A cache whose entry at [k] was updated and moved to the front. *)
Lemma wf_touched c k te te' ev :
  cache_wf c -> entries c !! k = Some te -> te_order te' = te_order te ->
  cache_wf (mkLocalCache (<[k := te']> (entries c))
              ((te_order te, k) :: filter (fun e => e.2 <> k) (order c))
              (nextElem c) (maximum c) ev).
Proof.
  intros Hwf Hk Ho. pose proof (wf_in_order c k te Hwf Hk) as Hin.
  split; simpl; unfold Len; simpl.
  - apply NoDup_cons. split; [|apply NoDup_fmap_filter, Hwf].
    rewrite <-(listRemove_by_key (te_order te)) by (done || apply Hwf).
    by intros ([] & -> & [? ?]%list_elem_of_filter)%list_elem_of_fmap.
  - apply NoDup_cons. split; [|apply NoDup_fmap_filter, Hwf].
    by intros ?%filter_keys_ne.
  - intros k' id. rewrite elem_of_cons, list_elem_of_filter; simpl.
    rewrite <-(wf_link c Hwf), lookup_insert. case_decide as Hd; [subst k'|].
    + split; [intros (e & ? & ?); simplify_eq; left; congruence|].
      intros [?|[? ?]]; simplify_eq; eauto.
    + split; [intros (e & ? & ?); right; eauto|].
      intros [?|(? & ? & ? & ?)]; simplify_eq; eauto.
  - intros id k' [?|[_ Hin']%list_elem_of_filter]%elem_of_cons; simplify_eq;
      by eapply wf_fresh.
  - pose proof (wf_bound c Hwf). unfold Len in *.
    rewrite map_size_insert, Hk; simpl. lia.
  - apply Hwf.
Qed.

Lemma wf_new m ev : cache_wf (newLocalCache m ev).
Proof.
  unfold newLocalCache. split; simpl; unfold Len; simpl.
  1-2: constructor.
  - intros k id. rewrite lookup_empty. split; [naive_solver|by intros ?%not_elem_of_nil].
  - intros id k ?%not_elem_of_nil; done.
  - rewrite map_size_empty. case_match; bool_to_prop; lia.
  - case_match; bool_to_prop; lia.
Qed.

(** ** Get *)

Lemma GetIfPresent_refines now k c :
  cache_wf c ->
  cache_wf (GetIfPresent now k c).1 /\
  (abs (GetIfPresent now k c).1, (GetIfPresent now k c).2) = lru_get now k (abs c).
Proof.
  intros Hwf. unfold GetIfPresent, lru_get, abs.
  destruct (entries c !! k) as [te|] eqn:E; [|by rewrite view_find_absent].
  rewrite view_find, E by (by eapply wf_key_in_order). cbn [fmap option_fmap option_map].
  pose proof (wf_in_order c k te Hwf E) as Hin.
  destruct (te_expiresAt te <=? now); simpl.
  - rewrite (listRemove_by_key _ k), view_delete by (done || apply Hwf).
    split; [by apply wf_removed|done].
  - rewrite (listMoveToFront_by_key _ k) by (done || apply Hwf).
    rewrite view_cons, E, view_remove. split; [|done].
    rewrite <-(insert_id (entries c) k te) by done. by apply wf_touched.
Qed.

(** ** Set *)

Lemma wf_pushed c k te ev :
  cache_wf c -> entries c !! k = None -> te_order te = nextElem c -> Len c < maximum c ->
  cache_wf (mkLocalCache (<[k := te]> (entries c)) ((nextElem c, k) :: order c)
              (S (nextElem c)) (maximum c) ev).
Proof.
  intros Hwf Hk Ho Hlen. split; simpl; unfold Len in *; simpl.
  - apply NoDup_cons. split; [|apply Hwf].
    intros ([id k'] & Hid & Hin)%list_elem_of_fmap; simpl in *; subst.
    apply (wf_fresh c Hwf) in Hin. lia.
  - apply NoDup_cons. split; [|apply Hwf].
    intros ([id k'] & Hk' & Hin)%list_elem_of_fmap; simpl in *; subst.
    apply (wf_link c Hwf) in Hin as (? & ? & ?). congruence.
  - intros k' id. rewrite elem_of_cons, <-(wf_link c Hwf), lookup_insert.
    case_decide as Hd; [subst k'|].
    + split; [intros (e & ? & ?); simplify_eq; left; congruence|].
      intros [?|(? & ? & ?)]; simplify_eq; eauto.
    + split; [intros (e & ? & ?); right; eauto|].
      intros [?|(? & ? & ?)]; simplify_eq; eauto.
  - intros id k' [?|Hin]%elem_of_cons; simplify_eq; [lia|].
    apply (wf_fresh c Hwf) in Hin. lia.
  - rewrite map_size_insert, Hk; simpl. lia.
  - apply Hwf.
Qed.

(** The push-then-evict of a full cache, in one step. *)
Lemma evictOldest_pushed c k te :
  cache_wf c -> entries c !! k = None -> te_order te = nextElem c -> Len c = maximum c ->
  exists id k' o,
    order c = o ++ [(id, k')] /\
    evictOldest (mkLocalCache (<[k := te]> (entries c)) ((nextElem c, k) :: order c)
                   (S (nextElem c)) (maximum c) (onEvict c)) =
    mkLocalCache (<[k := te]> (delete k' (entries c))) ((nextElem c, k) :: o)
                 (S (nextElem c)) (maximum c) (S <$> onEvict c).
Proof.
  intros Hwf Hk Ho Hlen. pose proof (wf_max c Hwf). unfold Len in *.
  rewrite (wf_size c Hwf) in Hlen.
  destruct (order c) as [|e o _] eqn:Eo using rev_ind; [simpl in *; lia|].
  destruct e as [id k']. exists id, k', o. split; [done|].
  assert (Hin : (id, k') ∈ order c) by (rewrite Eo; set_solver).
  assert (id < nextElem c)%nat as Hfresh by (by eapply wf_fresh).
  assert (k <> k') as Hne.
  { intros ->. apply (wf_link c Hwf) in Hin as (? & ? & ?). congruence. }
  unfold evictOldest; simpl. rewrite app_comm_cons, last_snoc.
  rewrite delete_insert_ne by done. f_equal.
  unfold listRemove. rewrite <-app_comm_cons, filter_cons_True, filter_app by (simpl; lia).
  rewrite filter_cons_False, filter_nil, app_nil_r by (simpl; lia). f_equal.
  apply list_filter_all. intros [id' k''] Hin' Heq; simpl in *; subst.
  pose proof (wf_ids c Hwf) as Hnd. rewrite Eo, fmap_app in Hnd.
  apply NoDup_app in Hnd as (_ & Hnd & _). apply (Hnd id); [|set_solver].
  by apply (list_elem_of_fmap_2 fst) in Hin'.
Qed.

Lemma abs_length c : cache_wf c -> Z.of_nat (length (abs c)) = Len c.
Proof.
  intros Hwf. unfold Len. rewrite (wf_size c Hwf). f_equal. unfold abs, view.
  assert (Forall (fun e => is_Some (entries c !! e.2)) (order c)) as Hall.
  { apply Forall_forall. intros [id k] (te & Hte & _)%(wf_link c Hwf). eauto. }
  induction Hall as [|e o [te Hte] _ IH]; csimpl; [done|]. rewrite Hte; csimpl. by rewrite IH.
Qed.

Lemma take_abs c : cache_wf c -> take (Z.to_nat (maximum c)) (abs c) = abs c.
Proof.
  intros Hwf. pose proof (abs_length c Hwf). pose proof (wf_bound c Hwf).
  apply take_ge. lia.
Qed.

Lemma full_split c o id k' :
  cache_wf c -> order c = o ++ [(id, k')] -> filter (fun e => e.2 <> k') (order c) = o.
Proof.
  intros Hwf Ho. pose proof (wf_keys c Hwf) as Hnd. rewrite Ho, fmap_app in Hnd.
  apply NoDup_app in Hnd as (_ & Hnd & _).
  rewrite Ho, filter_app, filter_cons_False, filter_nil, app_nil_r by (simpl; tauto).
  apply list_filter_all. intros [id' k''] Hin Heq; simpl in *; subst.
  apply (Hnd k'); [by apply (list_elem_of_fmap_2 snd) in Hin|set_solver].
Qed.

Lemma wf_absent c k : cache_wf c -> entries c !! k = None -> k ∉ (order c).*2.
Proof.
  intros Hwf Hk ([id k'] & ? & Hin)%list_elem_of_fmap; simpl in *; subst.
  apply (wf_link c Hwf) in Hin as (? & ? & ?). congruence.
Qed.

Lemma view_insert_absent k te m o : k ∉ o.*2 -> view (<[k := te]> m) o = view m o.
Proof. intros Hk. apply view_ext. intros k' Hin. rewrite lookup_insert_ne; set_solver. Qed.

Lemma Set_refines_existing now k v ttl c te :
  cache_wf c -> 0 < ttl -> entries c !! k = Some te ->
  cache_wf (Set_ now k v ttl c) /\
  abs (Set_ now k v ttl c) = lru_set (Z.to_nat (maximum c)) now k v ttl (abs c).
Proof.
  intros Hwf Httl E. unfold Set_, lru_set. rewrite (proj2 (Z.leb_gt _ _)) by done. rewrite E.
  rewrite (listMoveToFront_by_key _ k); [|apply Hwf..|by apply wf_in_order].
  pose proof (wf_touched c k te (mkTimedEntry v (now + ttl) (te_order te)) (onEvict c)
                Hwf E eq_refl) as Hwf'.
  split; [done|]. rewrite <-(take_abs _ Hwf'); cbn [maximum]. f_equal. unfold abs.
  cbn [entries order]. by rewrite view_cons, lookup_insert_eq, view_insert.
Qed.

Lemma Set_refines_room now k v ttl c :
  cache_wf c -> 0 < ttl -> entries c !! k = None -> Len c < maximum c ->
  cache_wf (Set_ now k v ttl c) /\
  abs (Set_ now k v ttl c) = lru_set (Z.to_nat (maximum c)) now k v ttl (abs c).
Proof.
  intros Hwf Httl E Hroom. unfold Set_, lru_set, listPushFront.
  rewrite (proj2 (Z.leb_gt _ _)) by done. rewrite E. cbn zeta; cbn [entries maximum].
  rewrite map_size_insert, E, (proj2 (Z.leb_le _ _)) by (unfold Len in *; lia).
  pose proof (wf_pushed c k (mkTimedEntry v (now + ttl) (nextElem c)) (onEvict c)
                Hwf E eq_refl Hroom) as Hwf'.
  split; [done|]. rewrite <-(take_abs _ Hwf'); cbn [maximum]. f_equal.
  unfold abs; cbn [entries order].
  rewrite view_cons, lookup_insert_eq, view_remove_absent by done.
  by rewrite view_insert_absent by (by apply wf_absent).
Qed.

Lemma Set_refines_full now k v ttl c :
  cache_wf c -> 0 < ttl -> entries c !! k = None -> Len c = maximum c ->
  cache_wf (Set_ now k v ttl c) /\
  abs (Set_ now k v ttl c) = lru_set (Z.to_nat (maximum c)) now k v ttl (abs c).
Proof.
  intros Hwf Httl E Hfull. unfold Set_, lru_set, listPushFront.
  rewrite (proj2 (Z.leb_gt _ _)) by done. rewrite E. cbn zeta; cbn [entries maximum].
  rewrite map_size_insert, E, (proj2 (Z.leb_gt _ _)) by (unfold Len in *; lia).
  set (te := mkTimedEntry v (now + ttl) (nextElem c)).
  destruct (evictOldest_pushed c k te) as (id & k' & o & Ho & ->); [done..|].
  pose proof (full_split c o id k' Hwf Ho) as Hfilter.
  assert ((id, k') ∈ order c) as (te' & Hte' & _)%(wf_link c Hwf) by (rewrite Ho; set_solver).
  pose proof (wf_removed c k' (S <$> onEvict c) Hwf) as Hwf1. rewrite Hfilter in Hwf1.
  pose proof (abs_length _ Hwf1) as Hlen. unfold abs, Len in Hlen, Hfull; cbn [entries order] in Hlen.
  rewrite map_size_delete, Hte' in Hlen; cbn [Init.Nat.pred] in Hlen.
  assert (view (delete k' (entries c)) o = view (entries c) o) as Hview.
  { rewrite <-Hfilter. by rewrite view_delete, view_remove. }
  pose proof (wf_max c Hwf). split.
  - apply (wf_pushed _ k te (S <$> onEvict c)) in Hwf1; cbn in *; [done|..].
    + rewrite lookup_delete_ne; [done|]. congruence.
    + done.
    + unfold Len; cbn. rewrite map_size_delete, Hte'; cbn. lia.
  - unfold abs; cbn [entries order].
    rewrite view_remove_absent, view_cons, lookup_insert_eq by done.
    rewrite view_insert_absent, Hview.
    2:{ intros Hin. apply (wf_absent c k Hwf E). rewrite Ho. set_solver. }
    destruct (Z.to_nat (maximum c)) as [|n] eqn:En; [lia|].
    cbn [take firstn]. f_equal. rewrite Ho. unfold view. rewrite omap_app.
    fold (view (entries c) o). rewrite take_app_length'; [done|].
    rewrite <-Hview. lia.
Qed.

Lemma Set_refines now k v ttl c :
  cache_wf c ->
  cache_wf (Set_ now k v ttl c) /\
  abs (Set_ now k v ttl c) = lru_set (Z.to_nat (maximum c)) now k v ttl (abs c).
Proof.
  intros Hwf. destruct (decide (0 < ttl)).
  - pose proof (wf_bound c Hwf). destruct (entries c !! k) eqn:E.
    + by eapply Set_refines_existing.
    + destruct (decide (Len c = maximum c)); [by apply Set_refines_full|].
      apply Set_refines_room; [done..|lia].
  - unfold Set_, lru_set. by rewrite (proj2 (Z.leb_le _ _)) by lia.
Qed.

Lemma Invalidate_refines k c :
  cache_wf c ->
  cache_wf (Invalidate k c) /\ abs (Invalidate k c) = lru_remove k (abs c).
Proof.
  intros Hwf. unfold Invalidate. destruct (entries c !! k) as [te|] eqn:E.
  - rewrite (listRemove_by_key _ k); [|apply Hwf..|by apply wf_in_order].
    split; [by apply wf_removed|]. unfold abs; cbn [entries order]. by rewrite view_delete.
  - rewrite delete_id by done. unfold abs; cbn [entries order].
    rewrite view_remove_absent by done. split; [|done]. by destruct c.
Qed.

Lemma InvalidateAll_refines c :
  cache_wf c -> cache_wf (InvalidateAll c) /\ abs (InvalidateAll c) = [].
Proof.
  intros Hwf. split; [|done]. pose proof (wf_max c Hwf).
  split; simpl; unfold Len; simpl; [constructor..| | | |done].
  - intros k id. rewrite lookup_empty. split; [by intros (? & ? & ?)|by intros ?%not_elem_of_nil].
  - by intros id k ?%not_elem_of_nil.
  - rewrite map_size_empty. lia.
Qed.

(** ** Whole runs *)

Inductive cache_op :=
| OpGet (now : Z) (k : K)
| OpSet (now : Z) (k : K) (v : V) (ttl : Z)
| OpInvalidate (k : K)
| OpInvalidateAll.

Definition cache_step (o : cache_op) (c : localCache) : localCache * option V :=
  match o with
  | OpGet now k => GetIfPresent now k c
  | OpSet now k v ttl => (Set_ now k v ttl c, None)
  | OpInvalidate k => (Invalidate k c, None)
  | OpInvalidateAll => (InvalidateAll c, None)
  end.

Definition lru_step (bound : nat) (o : cache_op) (l : lru) : lru * option V :=
  match o with
  | OpGet now k => lru_get now k l
  | OpSet now k v ttl => (lru_set bound now k v ttl l, None)
  | OpInvalidate k => (lru_remove k l, None)
  | OpInvalidateAll => ([], None)
  end.

Fixpoint run {S : Type} (step : cache_op -> S -> S * option V) (ops : list cache_op) (s : S)
    : S * list (option V) :=
  match ops with
  | [] => (s, [])
  | o :: ops =>
      let (s, out) := step o s in
      let (s, outs) := run step ops s in
      (s, out :: outs)
  end.

Lemma cache_step_maximum o c : maximum (cache_step o c).1 = maximum c.
Proof.
  destruct o; simpl; unfold GetIfPresent, Set_, evictOldest; split_matches; done.
Qed.

Lemma cache_step_refines o c :
  cache_wf c ->
  cache_wf (cache_step o c).1 /\
  (abs (cache_step o c).1, (cache_step o c).2) =
    lru_step (Z.to_nat (maximum c)) o (abs c).
Proof.
  intros Hwf. destruct o; simpl.
  - by apply GetIfPresent_refines.
  - destruct (Set_refines now k v ttl c Hwf) as [? ->]. done.
  - destruct (Invalidate_refines k c Hwf) as [? ->]. done.
  - destruct (InvalidateAll_refines c Hwf) as [? ->]. done.
Qed.

Lemma run_refines ops c :
  cache_wf c ->
  cache_wf (run cache_step ops c).1 /\
  (abs (run cache_step ops c).1, (run cache_step ops c).2) =
    run (lru_step (Z.to_nat (maximum c))) ops (abs c).
Proof.
  revert c. induction ops as [|o ops IH]; intros c Hwf; [done|]; simpl.
  destruct (cache_step_refines o c Hwf) as [Hwf1 Heq].
  pose proof (cache_step_maximum o c) as Hmax.
  destruct (cache_step o c) as [c1 out]; simpl in *.
  destruct (IH c1 Hwf1) as [Hwf2 Heq2]. rewrite Hmax, <-Heq in *.
  destruct (run cache_step ops c1); simpl in *. rewrite <-Heq2. done.
Qed.

Lemma run_maximum ops c : maximum (run cache_step ops c).1 = maximum c.
Proof.
  revert c. induction ops as [|o ops IH]; intros c; [done|]; simpl.
  pose proof (cache_step_maximum o c). destruct (cache_step o c) as [c1 out]; simpl in *.
  specialize (IH c1). destruct (run cache_step ops c1); simpl in *. congruence.
Qed.

(** [lru_find] after a removal of another key. *)
Lemma lru_find_remove_ne k k' (l : lru) : k <> k' -> lru_find k (lru_remove k' l) = lru_find k l.
Proof.
  intros Hne. unfold lru_find, lru_remove. do 2 f_equal. rewrite list_filter_filter.
  apply list_filter_iff. intros [k'' ?]; simpl. naive_solver.
Qed.
End cache.
Global Arguments localCache _ {_ _} _.
Global Arguments cache_op : clear implicits.

(** C20. Every run of cache operations on a fresh cache behaves exactly like the
    abstract recency list bounded by [max(maximum, 1)]: the values the reads return
    and the final contents, in recency order, are those of the specification
    (eviction drops the least recently used entry, expired entries are never
    returned), and the number of entries never exceeds the bound. *)
Theorem localCache_refines_lru {K V} `{Countable K} (m : Z) (ops : list (cache_op K V)) :
  let c := run cache_step ops (newLocalCache m (Some 0%nat)) in
  let spec := run (lru_step (Z.to_nat (Z.max m 1))) ops [] in
  c.2 = spec.2 /\ abs c.1 = spec.1 /\ Len c.1 <= Z.max m 1.
Proof.
  pose proof (run_refines ops _ (wf_new m (Some 0%nat))) as [Hwf Heq].
  pose proof (wf_bound _ Hwf) as Hb. rewrite run_maximum in Hb.
  assert (maximum (K := K) (V := V) (newLocalCache m (Some 0%nat)) = Z.max m 1) as Hm.
  { unfold newLocalCache; simpl. case_match; bool_to_prop; lia. }
  rewrite Hm in *. destruct (run cache_step ops _); simpl in *.
  change (abs (newLocalCache m (Some 0%nat))) with (@nil (K * (V * Z))) in Heq.
  by rewrite <-Heq.
Qed.

(** A value stored with a positive TTL is returned by a read of the same key
    until the TTL elapses and never from then on, whatever the cache held. *)
Theorem set_then_get {K V} `{Countable K} (c : localCache K V) t t' k v ttl :
  cache_wf c -> 0 < ttl ->
  (GetIfPresent t' k (Set_ t k v ttl c)).2 = (if t' <? t + ttl then Some v else None).
Proof.
  intros Hwf Httl. destruct (Set_refines t k v ttl c Hwf) as [Hwf' Habs].
  destruct (GetIfPresent_refines t' k _ Hwf') as [_ Hget].
  apply (f_equal snd) in Hget; simpl in Hget. rewrite Hget, Habs. unfold lru_get, lru_set.
  rewrite (proj2 (Z.leb_gt _ _)) by done. pose proof (wf_max c Hwf).
  destruct (Z.to_nat (maximum c)) as [|n] eqn:En; [lia|]. cbn [take firstn].
  unfold lru_find. rewrite filter_cons_True by done; simpl.
  destruct (t' <? t + ttl) eqn:E1, (t + ttl <=? t') eqn:E2; bool_to_prop; done || lia.
Qed.

Definition example_cache : localCache string Z :=
  Set_ 0 "a" 1 10 (newLocalCache 1 (Some 0%nat)).

Lemma set_then_get_witness :
  (GetIfPresent 12 "b" (Set_ 5 "b" 7 8 example_cache)).2 = Some 7 /\
  (GetIfPresent 13 "b" (Set_ 5 "b" 7 8 example_cache)).2 = None.
Proof.
  split; (rewrite set_then_get; [reflexivity| |lia]);
    apply Set_refines; apply wf_new.
Defined.
End LocalCache.

(** ** The interface the control-plane client is verified against

    [store_holds c k v]: a read of [k] may still return [v]. *)
Class TimedStore (C K V : Type) := {
  store_get : Z -> K -> C -> C * option V;
  store_set : Z -> K -> V -> Z -> C -> C;
  store_invalidate : K -> C -> C;
  store_clear : C -> C;
  store_len : C -> Z;
  store_holds : C -> K -> V -> Prop
}.

Class TimedStoreLaws (C K V : Type) `{TimedStore C K V} := {
  store_get_holds now k c v :
    (store_get now k c).2 = Some v -> store_holds c k v;
  store_get_miss now k c v :
    (store_get now k c).2 = None -> ~ store_holds (store_get now k c).1 k v;
  store_get_keeps now k c k' v :
    store_holds (store_get now k c).1 k' v -> store_holds c k' v;
  store_set_holds now k v ttl c k' v' :
    0 < ttl -> store_holds (store_set now k v ttl c) k' v' ->
    (k' = k /\ v' = v) \/ (k' <> k /\ store_holds c k' v');
  store_set_nop now k v ttl c : ttl <= 0 -> store_set now k v ttl c = c;
  store_invalidate_holds k c k' v :
    store_holds (store_invalidate k c) k' v -> k' <> k /\ store_holds c k' v;
  store_clear_holds c k v : ~ store_holds (store_clear c) k v
}.

Section instance.
Context {K V : Type} `{Countable K}.

#[export] Instance localCache_store : TimedStore (LocalCache.localCache K V) K V := {
  store_get := LocalCache.GetIfPresent;
  store_set := LocalCache.Set_;
  store_invalidate := LocalCache.Invalidate;
  store_clear := LocalCache.InvalidateAll;
  store_len := LocalCache.Len;
  store_holds c k v := te_value <$> LocalCache.entries c !! k = Some v
}.

Lemma evictOldest_entries (c : LocalCache.localCache K V) k v :
  te_value <$> LocalCache.entries (LocalCache.evictOldest c) !! k = Some v ->
  te_value <$> LocalCache.entries c !! k = Some v.
Proof.
  unfold LocalCache.evictOldest. destruct (last _) as [[o k']|]; [|done]. simpl.
  rewrite lookup_delete. by case_decide.
Qed.

#[export] Instance localCache_laws : TimedStoreLaws (LocalCache.localCache K V) K V.
Proof.
  split; simpl.
  - intros now k c v. unfold LocalCache.GetIfPresent.
    destruct (LocalCache.entries c !! k); [|done]. simpl. case_match; simpl; congruence.
  - intros now k c v. unfold LocalCache.GetIfPresent.
    destruct (LocalCache.entries c !! k) eqn:E; [|intros _; simpl; by rewrite E].
    simpl. case_match; simpl; [|done]. by rewrite lookup_delete_eq.
  - intros now k c k' v. unfold LocalCache.GetIfPresent.
    destruct (LocalCache.entries c !! k); [|done]. case_match; simpl; [|done].
    rewrite lookup_delete. by case_decide.
  - intros now k v ttl c k' v' Httl. unfold LocalCache.Set_.
    rewrite (proj2 (Z.leb_gt _ _)) by done.
    set (c' := LocalCache.mkLocalCache (<[k:=mkTimedEntry v (now + ttl) (LocalCache.nextElem c)]> _)
                 _ _ _ _).
    assert (forall te : timedEntry V, te_value te = v ->
      te_value <$> <[k := te]> (LocalCache.entries c) !! k' = Some v' ->
      (k' = k /\ v' = v) \/ (k' <> k /\ te_value <$> LocalCache.entries c !! k' = Some v')) as Hi.
    { intros te Hte. rewrite lookup_insert. case_decide; simpl; [|auto].
      intros [=<-]. left. auto. }
    destruct (LocalCache.entries c !! k); simpl; [by apply Hi|].
    case_match; simpl; [by apply Hi|]. intros Hh%evictOldest_entries. revert Hh. by apply Hi.
  - intros now k v ttl c Httl. unfold LocalCache.Set_. by rewrite (proj2 (Z.leb_le _ _)).
  - intros k c k' v. unfold LocalCache.Invalidate. simpl. rewrite lookup_delete.
    case_decide; [done|auto].
  - intros c k v. by rewrite lookup_empty.
Qed.
End instance.
