(* ===== verification/Flight.v ===== *)
(** * Flight: coalesced loads and miss admission of [controlplane/cache.go]

    [loadGroup.Do] and [missAdmission] as shared-memory steps: the callers that enter,
    join or are rejected under the group's lock, and the loading goroutine that returns,
    forgets its call and closes its channel.  The token bucket computes in float64
    ([SpecFloat] at 53 bits, multiply and add rounded separately). *)
From Stdlib Require Import SpecFloat.
From S2P Require Import Prelude Errors.

(** ** Token bucket *)

Module Float64.
Definition of_Z (z : Z) : spec_float := binary_normalize 53 1024 z 0 false.
Definition add : spec_float -> spec_float -> spec_float := SFadd 53 1024.
Definition sub : spec_float -> spec_float -> spec_float := SFsub 53 1024.
Definition mul : spec_float -> spec_float -> spec_float := SFmul 53 1024.
Definition div : spec_float -> spec_float -> spec_float := SFdiv 53 1024.

(** [math.Min] *)
Definition min (x y : spec_float) : spec_float :=
  match x, y with
  | S754_infinity true, _ | _, S754_infinity true => S754_infinity true
  | S754_nan, _ | _, S754_nan => S754_nan
  | S754_zero s, S754_zero _ => if s then x else y
  | _, _ => if SFltb x y then x else y
  end.

(** [time.Duration.Seconds] *)
Definition seconds (d : Z) : spec_float :=
  add (of_Z (Z.quot d 1000000000)) (div (of_Z (Z.rem d 1000000000)) (of_Z 1000000000)).
End Float64.

(** [time.Time.Sub] saturates. *)
Definition time_sub (t u : Z) : Z := Z.max min_int64 (Z.min max_int64 (t - u)).

(** [inflight] is a channel of capacity [capacity]: the number of slots taken. *)
Record missAdmission := mkAdmission {
  rate : spec_float;
  burst : spec_float;
  tokens : spec_float;
  last : Z;
  inflight : Z;
  capacity : Z
}.

Definition newMissAdmission (rate : spec_float) (burst inflight now : Z) : missAdmission :=
  mkAdmission rate (Float64.of_Z burst) (Float64.of_Z burst) now 0 inflight.

Definition acquire (now : Z) (a : missAdmission) : missAdmission * bool :=
  let elapsed := Float64.seconds (time_sub now (last a)) in
  let refilled := Float64.min (burst a) (Float64.add (tokens a) (Float64.mul elapsed (rate a))) in
  let a := mkAdmission (rate a) (burst a) refilled now (inflight a) (capacity a) in
  if SFltb refilled (Float64.of_Z 1) then (a, false)
  else
    let a := mkAdmission (rate a) (burst a) (Float64.sub refilled (Float64.of_Z 1)) now
               (inflight a) (capacity a) in
    if inflight a <? capacity a
    then (mkAdmission (rate a) (burst a) (tokens a) now (inflight a + 1) (capacity a), true)
    else (a, false).

(** A receive from an empty channel blocks. *)
Definition release (a : missAdmission) : option missAdmission :=
  if 0 <? inflight a
  then Some (mkAdmission (rate a) (burst a) (tokens a) (last a) (inflight a - 1) (capacity a))
  else None.

(** ** Coalesced loads *)

(** Where the goroutine of a call is: running [load], leaving it with its result (the
    deferred release still to come), returned from it with value and error stored, past
    the removal of the call from the group, past the close of the channel. *)
Inductive load_phase := Loading | Leaving | Returned | Forgotten | Closed.

#[export] Instance load_phase_eq_dec : EqDecision load_phase.
Proof. solve_decision. Defined.

(** [lc_env] is what the call's [load] closure captured. *)
Record loadCall (K G V : Type) := mkLoadCall {
  lc_key : K;
  lc_env : G;
  lc_result : option (result error V);
  lc_waiters : Z;
  lc_phase : load_phase
}.
Global Arguments mkLoadCall {K G V} _ _ _ _ _.
Global Arguments lc_key {K G V} _.
Global Arguments lc_env {K G V} _.
Global Arguments lc_result {K G V} _.
Global Arguments lc_waiters {K G V} _.
Global Arguments lc_phase {K G V} _.

(** What a caller of [Do] obtained under the group's lock. *)
Inductive entered := Joined (id : nat) | Rejected | Started (id : nat).

Section group.
Context {K G V : Type} `{Countable K}.

(** [calls] points into [heap], where every call ever made keeps its index. *)
Record loadGroup := mkLoadGroup {
  calls : gmap K nat;
  heap : list (loadCall K G V);
  admission : missAdmission
}.

Definition newLoadGroup (a : missAdmission) : loadGroup := mkLoadGroup ∅ [] a.

Definition do_enter (now : Z) (key : K) (env : G) (g : loadGroup) : loadGroup * entered :=
  match calls g !! key with
  | Some id =>
      (mkLoadGroup (calls g)
         (alter (fun c => mkLoadCall (lc_key c) (lc_env c) (lc_result c) (lc_waiters c + 1)
                            (lc_phase c)) id (heap g)) (admission g), Joined id)
  | None =>
      let (a, admitted) := acquire now (admission g) in
      if admitted then
        let id := length (heap g) in
        (mkLoadGroup (<[key := id]> (calls g))
           (heap g ++ [mkLoadCall key env None 0 Loading]) a, Started id)
      else (mkLoadGroup (calls g) (heap g) a, Rejected)
  end.

Definition set_phase (p : load_phase) (r : option (result error V)) (c : loadCall K G V)
  : loadCall K G V := mkLoadCall (lc_key c) (lc_env c) r (lc_waiters c) p.

(** The body of [load] is done. *)
Definition load_body (id : nat) (r : result error V) (g : loadGroup) : option loadGroup :=
  match heap g !! id with
  | Some c =>
      if bool_decide (lc_phase c = Loading)
      then Some (mkLoadGroup (calls g) (<[id := set_phase Leaving (Some r) c]> (heap g))
                   (admission g))
      else None
  | None => None
  end.

(** The deferred release, and [call.value, call.err = load()]. *)
Definition load_return (id : nat) (g : loadGroup) : option loadGroup :=
  match heap g !! id, release (admission g) with
  | Some c, Some a =>
      if bool_decide (lc_phase c = Leaving)
      then Some (mkLoadGroup (calls g) (<[id := set_phase Returned (lc_result c) c]> (heap g)) a)
      else None
  | _, _ => None
  end.

(** [if g.calls[key] == call { delete(g.calls, key) }] *)
Definition load_forget (id : nat) (g : loadGroup) : option loadGroup :=
  match heap g !! id with
  | Some c =>
      if bool_decide (lc_phase c = Returned) then
        Some (mkLoadGroup
          (if bool_decide (calls g !! lc_key c = Some id) then delete (lc_key c) (calls g)
           else calls g)
          (<[id := set_phase Forgotten (lc_result c) c]> (heap g)) (admission g))
      else None
  | None => None
  end.

(** [close(call.done)] *)
Definition load_close (id : nat) (g : loadGroup) : option loadGroup :=
  match heap g !! id with
  | Some c =>
      if bool_decide (lc_phase c = Forgotten)
      then Some (mkLoadGroup (calls g) (<[id := set_phase Closed (lc_result c) c]> (heap g))
                   (admission g))
      else None
  | None => None
  end.

(** [<-call.done], then the call's value and error: [None] while it blocks. *)
Definition call_result (id : nat) (g : loadGroup) : option (result error V) :=
  match heap g !! id with
  | Some c => if bool_decide (lc_phase c = Closed) then lc_result c else None
  | None => None
  end.

(** A caller or a goroutine moves; a goroutine that cannot do the named move has not
    moved. *)
Inductive flight_event :=
| FlightEnter (now : Z) (key : K) (env : G)
| FlightBody (id : nat) (r : result error V)
| FlightReturn (id : nat)
| FlightForget (id : nat)
| FlightClose (id : nat).

Definition flight_step (e : flight_event) (g : loadGroup) : loadGroup :=
  match e with
  | FlightEnter now key env => (do_enter now key env g).1
  | FlightBody id r => default g (load_body id r g)
  | FlightReturn id => default g (load_return id g)
  | FlightForget id => default g (load_forget id g)
  | FlightClose id => default g (load_close id g)
  end.

Definition flight_run (h : list flight_event) (g : loadGroup) : loadGroup :=
  foldl (fun g e => flight_step e g) g h.

(** ** The invariant *)

(** The goroutine holds a slot. *)
Definition holding (c : loadCall K G V) : Prop := lc_phase c = Loading \/ lc_phase c = Leaving.

#[export] Instance holding_dec c : Decision (holding c) := ltac:(unfold holding; apply _).

Definition joinable (c : loadCall K G V) : Prop := holding c \/ lc_phase c = Returned.

#[export] Instance joinable_dec c : Decision (joinable c) := ltac:(unfold joinable; apply _).

Definition running (h : list (loadCall K G V)) : Z :=
  Z.of_nat (length (filter holding h)).

Record flight_inv (g : loadGroup) : Prop := {
  fi_calls key id : calls g !! key = Some id ->
    exists c, heap g !! id = Some c /\ lc_key c = key /\ joinable c;
  fi_joinable id c : heap g !! id = Some c -> joinable c -> calls g !! lc_key c = Some id;
  fi_slots : inflight (admission g) = running (heap g);
  fi_bound : inflight (admission g) <= Z.max 0 (capacity (admission g));
  fi_result id c : heap g !! id = Some c -> (lc_result c = None <-> lc_phase c = Loading)
}.

Lemma alter_as_insert {A} (f : A -> A) id (l : list A) c :
  l !! id = Some c -> alter f id l = <[id := f c]> l.
Proof.
  revert id. induction l as [|d l IH]; intros [|id] E; simplify_eq/=; [done|].
  f_equal. by apply IH.
Qed.

Definition slot (c : loadCall K G V) : Z := if bool_decide (holding c) then 1 else 0.

Lemma running_cons c h : running (c :: h) = slot c + running h.
Proof.
  unfold running, slot. rewrite filter_cons. case_decide; simpl.
  - rewrite bool_decide_true by done. lia.
  - rewrite bool_decide_false by done. lia.
Qed.

Lemma running_insert h id c c' :
  h !! id = Some c -> running (<[id := c']> h) = running h - slot c + slot c'.
Proof.
  revert id. induction h as [|d h IH]; intros [|id] E; simplify_eq/=.
  - rewrite !running_cons. lia.
  - rewrite !running_cons. rewrite (IH id) by done. lia.
Qed.

Lemma running_snoc h c : running (h ++ [c]) = running h + slot c.
Proof.
  induction h as [|d h IH]; simpl; rewrite !running_cons; [unfold running; simpl; lia|].
  rewrite IH. lia.
Qed.

Lemma running_positive h id c : h !! id = Some c -> holding c -> 0 < running h.
Proof.
  intros E Hp. unfold running. apply list_elem_of_lookup_2 in E.
  assert (c ∈ filter holding h) as Hin by by apply list_elem_of_filter.
  destruct (filter _ h); [by apply elem_of_nil in Hin|simpl; lia].
Qed.

(** What [acquire] does to the slots. *)
Lemma acquire_slots now a :
  let r := acquire now a in
  capacity r.1 = capacity a /\
  inflight r.1 = inflight a + (if r.2 then 1 else 0) /\
  (r.2 = true -> inflight r.1 <= capacity a).
Proof.
  unfold acquire. cbv zeta. destruct (SFltb _ _); [simpl; split_and!; [done|lia|done]|].
  cbn [inflight capacity]. destruct (Z.ltb_spec (inflight a) (capacity a)); simpl; split_and!;
    (done || lia).
Qed.

Lemma release_slots a b :
  release a = Some b -> capacity b = capacity a /\ inflight b = inflight a - 1.
Proof. unfold release. case_match; [|done]. by intros [=<-]. Qed.

(** A call that stays in place keeps its key, and stays joinable or not. *)
Lemma flight_inv_update g id c c' a :
  flight_inv g -> heap g !! id = Some c ->
  lc_key c' = lc_key c -> (joinable c' <-> joinable c) ->
  (lc_result c' = None <-> lc_phase c' = Loading) ->
  inflight a = inflight (admission g) - slot c + slot c' ->
  capacity a = capacity (admission g) -> slot c' <= slot c ->
  flight_inv (mkLoadGroup (calls g) (<[id := c']> (heap g)) a).
Proof.
  intros I E Hk Hj Hr Ha Hc Hs. pose proof (lookup_lt_Some _ _ _ E). split; cbn.
  - intros key i Hi. destruct (fi_calls g I key i Hi) as (d & Ed & ? & ?).
    destruct (decide (i = id)) as [->|].
    + exists c'. rewrite list_lookup_insert_eq by done. simplify_eq. naive_solver.
    + exists d. rewrite list_lookup_insert_ne by done. auto.
  - intros i d. rewrite list_lookup_insert. case_decide as Hi.
    + destruct Hi as [-> _]. intros [=<-] Hj'%Hj. rewrite Hk. by eapply (fi_joinable g I).
    + intros Ed. by apply (fi_joinable g I i).
  - rewrite (running_insert _ _ c) by done. rewrite Ha. pose proof (fi_slots g I). lia.
  - rewrite Ha, Hc. pose proof (fi_bound g I). lia.
  - intros i d. rewrite list_lookup_insert. case_decide as Hi; [by intros [=<-]|].
    apply (fi_result g I i).
Qed.

(** A step of a goroutine that keeps its call in the group, or keeps it out. *)
Ltac phase_step := unfold slot, joinable, holding, set_phase; cbn;
  repeat match goal with E : lc_phase _ = _ |- _ => rewrite E end;
  repeat case_bool_decide; try done; try lia; intuition congruence.

Lemma inv_enter now key env g : flight_inv g -> flight_inv (do_enter now key env g).1.
Proof.
  intros I. unfold do_enter. destruct (calls g !! key) as [id|] eqn:E.
  - destruct (fi_calls g I key id E) as (c & Ec & Hk & Hj). cbn.
    rewrite (alter_as_insert _ _ _ c) by done.
    pose proof (fi_result g I id c Ec). apply (flight_inv_update g id c); phase_step.
  - pose proof (acquire_slots now (admission g)) as Ha. cbv zeta in Ha.
    destruct (acquire now (admission g)) as [a [|]]; cbn in *; destruct Ha as (Hc & Hi & Hb).
    + split; cbn.
      * intros k i. rewrite lookup_insert. case_decide as Hk.
        { intros [=<-]. subst k. eexists. rewrite lookup_app_r by done.
          rewrite Nat.sub_diag. split_and!; [done|done|]. by left; left. }
        intros (d & Ed & ? & ?)%(fi_calls g I). exists d. split; [|done].
        by apply lookup_app_l_Some.
      * intros i d [Ed|[Hl Ed]]%lookup_app_Some Hj.
        { rewrite lookup_insert_ne; [by apply (fi_joinable g I)|].
          intros Heq. pose proof (fi_joinable g I i d Ed Hj). congruence. }
        destruct (i - length (heap g))%nat eqn:En; [|simpl in Ed; by rewrite lookup_nil in Ed]. simplify_eq/=.
        replace i with (length (heap g)) by lia. by rewrite lookup_insert_eq.
      * rewrite running_snoc, Hi, (fi_slots g I). done.
      * rewrite Hc. specialize (Hb eq_refl). lia.
      * intros i d [Ed|[Hl Ed]]%lookup_app_Some; [by apply (fi_result g I i)|].
        destruct (i - length (heap g))%nat; [|simpl in Ed; by rewrite lookup_nil in Ed]. by simplify_eq/=.
    + rewrite Z.add_0_r in Hi. split; cbn; rewrite ?Hi, ?Hc; apply I.
Qed.

Lemma inv_body id r g g' : flight_inv g -> load_body id r g = Some g' -> flight_inv g'.
Proof.
  intros I. unfold load_body. destruct (heap g !! id) as [c|] eqn:E; [|done].
  case_bool_decide as Hp; [|done]. intros [=<-].
  apply (flight_inv_update g id c); phase_step.
Qed.

Lemma inv_return id g g' : flight_inv g -> load_return id g = Some g' -> flight_inv g'.
Proof.
  intros I. unfold load_return. destruct (heap g !! id) as [c|] eqn:E; [|done].
  destruct (release (admission g)) as [a|] eqn:Ea; [|done]. case_bool_decide as Hp; [|done].
  intros [=<-]. apply release_slots in Ea as [Hc Ha].
  pose proof (fi_result g I id c E) as Hr. rewrite Hp in Hr.
  apply (flight_inv_update g id c); rewrite ?Ha, ?Hc; phase_step.
Qed.

Lemma inv_forget id g g' : flight_inv g -> load_forget id g = Some g' -> flight_inv g'.
Proof.
  intros I. unfold load_forget. destruct (heap g !! id) as [c|] eqn:E; [|done].
  case_bool_decide as Hp; [|done]. intros [=<-]. pose proof (lookup_lt_Some _ _ _ E) as Hl.
  assert (calls g !! lc_key c = Some id) as Hin by (apply (fi_joinable g I id); [done|by right]).
  rewrite bool_decide_true by done. split; cbn.
  - intros key i. rewrite lookup_delete. case_decide as Hk; [done|].
    intros Hi. destruct (fi_calls g I key i Hi) as (d & Ed & ? & ?). exists d.
    rewrite list_lookup_insert_ne; [auto|]. intros ->. congruence.
  - intros i d. rewrite list_lookup_insert. case_decide as Hi.
    + destruct Hi as [-> _]. by intros [=<-] [[?|?]|?].
    + intros Ed Hj. pose proof (fi_joinable g I i d Ed Hj) as Hd.
      rewrite lookup_delete_ne; [done|]. intros Heq. rewrite <-Heq in Hd. apply Hi.
      split; [congruence|done].
  - rewrite (running_insert _ _ c) by done. pose proof (fi_slots g I).
    assert (slot c = 0 /\ slot (set_phase Forgotten (lc_result c) c) = 0) as [-> ->]
      by (split; phase_step). lia.
  - apply I.
  - intros i d. rewrite list_lookup_insert. case_decide as Hi; [|apply (fi_result g I i)].
    intros [=<-]. cbn. pose proof (fi_result g I id c E) as Hr. rewrite Hp in Hr. by intuition.
Qed.

Lemma inv_close id g g' : flight_inv g -> load_close id g = Some g' -> flight_inv g'.
Proof.
  intros I. unfold load_close. destruct (heap g !! id) as [c|] eqn:E; [|done].
  case_bool_decide as Hp; [|done]. intros [=<-].
  pose proof (fi_result g I id c E) as Hr. rewrite Hp in Hr.
  apply (flight_inv_update g id c); phase_step.
Qed.

Lemma inv_flight_step e g : flight_inv g -> flight_inv (flight_step e g).
Proof.
  intros I. destruct e; cbn; [by apply inv_enter| | | |].
  - destruct (load_body id r g) eqn:E; [by eapply inv_body|done].
  - destruct (load_return id g) eqn:E; [by eapply inv_return|done].
  - destruct (load_forget id g) eqn:E; [by eapply inv_forget|done].
  - destruct (load_close id g) eqn:E; [by eapply inv_close|done].
Qed.

Lemma inv_flight_run h g : flight_inv g -> flight_inv (flight_run h g).
Proof.
  revert g. induction h as [|e h IH]; intros g I; [done|].
  apply (IH (flight_step e g)). auto using inv_flight_step.
Qed.

Lemma inv_newLoadGroup a : inflight a = 0 -> flight_inv (newLoadGroup a).
Proof.
  intros Ha. split; cbn; try done; rewrite ?Ha; try done; lia.
Qed.

Lemma flight_step_capacity e g :
  capacity (admission (flight_step e g)) = capacity (admission g).
Proof.
  destruct e; cbn.
  - unfold do_enter. case_match; [done|]. pose proof (acquire_slots now (admission g)) as Ha.
    cbv zeta in Ha. destruct (acquire now (admission g)) as [a [|]]; apply Ha.
  - unfold load_body. destruct (heap g !! id); [|done]. by case_bool_decide.
  - unfold load_return. destruct (heap g !! id); [|done].
    destruct (release (admission g)) eqn:E; [|done]. case_bool_decide; [|done].
    by apply release_slots in E as [? _].
  - unfold load_forget. destruct (heap g !! id); [|done]. by case_bool_decide.
  - unfold load_close. destruct (heap g !! id); [|done]. by case_bool_decide.
Qed.

Lemma flight_run_capacity h g :
  capacity (admission (flight_run h g)) = capacity (admission g).
Proof.
  revert g. induction h as [|e h IH]; intros g; [done|].
  change (flight_run (e :: h) g) with (flight_run h (flight_step e g)).
  by rewrite IH, flight_step_capacity.
Qed.

(** What a step does to one call: a closed one stays as it is, and a result is written
    by the body of its load only. *)
Definition call_next (i : nat) (e : flight_event) (c c' : loadCall K G V) : Prop :=
  (lc_phase c = Closed -> lc_phase c' = Closed /\ lc_result c' = lc_result c) /\
  (lc_result c' = lc_result c \/ exists r, e = FlightBody i r /\ lc_result c' = Some r).

Lemma call_next_same i e c c' :
  lc_phase c' = lc_phase c -> lc_result c' = lc_result c -> call_next i e c c'.
Proof. intros Hp Hr. split; [by rewrite Hp|by left]. Qed.

Lemma call_next_insert (h : list (loadCall K G V)) i j e c d d' :
  h !! i = Some c -> h !! j = Some d -> call_next j e d d' ->
  exists c', <[j := d']> h !! i = Some c' /\ call_next i e c c'.
Proof.
  intros Ei Ej Hn. destruct (decide (i = j)) as [->|Hij].
  - exists d'. rewrite list_lookup_insert_eq by by eapply lookup_lt_Some.
    rewrite Ei in Ej. by injection Ej as <-.
  - exists c. rewrite list_lookup_insert_ne by congruence. split; [done|by apply call_next_same].
Qed.

Lemma flight_step_call e g i c :
  heap g !! i = Some c -> exists c', heap (flight_step e g) !! i = Some c' /\ call_next i e c c'.
Proof.
  intros Ei. assert (exists c', heap g !! i = Some c' /\ call_next i e c c') as Hid
    by (exists c; split; [done|by apply call_next_same]).
  destruct e as [now key env|j r|j|j|j]; cbn.
  - unfold do_enter. destruct (calls g !! key) as [j|].
    + cbn. rewrite list_lookup_alter. case_decide as Hj; [subst j|done].
      rewrite Ei. eexists. split; [reflexivity|]. by apply call_next_same.
    + destruct (acquire _ _) as [a [|]]; [|done]. cbn. exists c.
      split; [by apply lookup_app_l_Some|by apply call_next_same].
  - unfold load_body. destruct (heap g !! j) as [d|] eqn:Ej; [|done].
    case_bool_decide as Hp; [|done]. apply (call_next_insert _ i j _ c d); [done..|].
    split; [by rewrite Hp|]. right. by exists r.
  - unfold load_return. destruct (heap g !! j) as [d|] eqn:Ej; [|done].
    destruct (release _); [|done]. case_bool_decide as Hp; [|done].
    apply (call_next_insert _ i j _ c d); [done..|]. split; [by rewrite Hp|by left].
  - unfold load_forget. destruct (heap g !! j) as [d|] eqn:Ej; [|done].
    case_bool_decide as Hp; [|done]. apply (call_next_insert _ i j _ c d); [done..|].
    split; [by rewrite Hp|by left].
  - unfold load_close. destruct (heap g !! j) as [d|] eqn:Ej; [|done].
    case_bool_decide as Hp; [|done]. apply (call_next_insert _ i j _ c d); [done..|].
    split; [by rewrite Hp|by left].
Qed.

(** Once its channel is closed a call answers the same for ever. *)
Lemma call_result_stable h g i r : call_result i g = Some r -> call_result i (flight_run h g) = Some r.
Proof.
  revert g. induction h as [|e h IH]; intros g Hr; [done|]. apply (IH (flight_step e g)).
  unfold call_result in *. destruct (heap g !! i) as [c|] eqn:Ei; [|done].
  case_bool_decide as Hp; [|done]. destruct (flight_step_call e g i c Ei) as (c' & -> & Hc & _).
  destruct (Hc Hp) as [Hp' Hr']. by rewrite bool_decide_true, Hr'.
Qed.

(** Calls are only added. *)
Lemma flight_step_new e g i c :
  heap g !! i = None -> heap (flight_step e g) !! i = Some c -> lc_result c = None.
Proof.
  intros Ei. assert (heap g !! i = Some c -> lc_result c = None) as Hid by congruence.
  destruct e as [now key env|j r|j|j|j]; cbn.
  - unfold do_enter. destruct (calls g !! key) as [j|].
    + cbn. rewrite list_lookup_alter. case_decide as Hj; [subst j|done]. by rewrite Ei.
    + destruct (acquire _ _) as [a [|]]; [|done]. cbn. intros [?|[_ E]]%lookup_app_Some; [auto|].
      apply list_lookup_singleton_Some in E as [_ <-]. done.
  - unfold load_body. destruct (heap g !! j) as [d|] eqn:Ej; [|done].
    case_bool_decide; [|done]. cbn. rewrite list_lookup_insert_ne; [done|congruence].
  - unfold load_return. destruct (heap g !! j) as [d|] eqn:Ej; [|done].
    destruct (release _); [|done]. case_bool_decide; [|done]. cbn.
    rewrite list_lookup_insert_ne; [done|congruence].
  - unfold load_forget. destruct (heap g !! j) as [d|] eqn:Ej; [|done].
    case_bool_decide; [|done]. cbn. rewrite list_lookup_insert_ne; [done|congruence].
  - unfold load_close. destruct (heap g !! j) as [d|] eqn:Ej; [|done].
    case_bool_decide; [|done]. cbn. rewrite list_lookup_insert_ne; [done|congruence].
Qed.

(** A call's result is what the body of its own load returned. *)
Lemma result_from_body h a i c r :
  heap (flight_run h (newLoadGroup a)) !! i = Some c -> lc_result c = Some r -> FlightBody i r ∈ h.
Proof.
  revert i c r. induction h as [|e h IH] using rev_ind; intros i c r; [done|].
  unfold flight_run in *. rewrite foldl_app. cbn [foldl].
  set (g := foldl _ _ h) in *. intros Ei Hr. destruct (heap g !! i) as [d|] eqn:Ed.
  - destruct (flight_step_call e g i d Ed) as (c' & Ec & _ & [Hs|(r' & -> & Hs)]);
      rewrite Ei in Ec; injection Ec as <-; apply elem_of_app.
    + left. apply (IH i d r Ed). congruence.
    + right. rewrite Hr in Hs. injection Hs as ->. by constructor.
  - pose proof (flight_step_new e g i c Ed Ei). congruence.
Qed.

(** C21. Single flight.  After any interleaving of callers and loading goroutines, at most
    one call per key is running or can be joined; the number of running loads is the
    number of slots taken and is within the configured bound; a goroutine that returns
    finds its slot; a call that is joined has that key and has not been closed, so a
    retry never rejoins a completed load; a closed call has a result, which the body of
    its own load returned; and that result never changes, whatever happens next. *)
Theorem single_flight (rt : spec_float) (bu slots now : Z) (h : list flight_event)
    (Hslots : 0 <= slots) :
  let g := flight_run h (newLoadGroup (newMissAdmission rt bu slots now)) in
  (forall i j c d, heap g !! i = Some c -> heap g !! j = Some d ->
     joinable c -> joinable d -> lc_key c = lc_key d -> i = j) /\
  running (heap g) = inflight (admission g) /\
  running (heap g) <= capacity (admission g) /\
  (forall i c, heap g !! i = Some c -> lc_phase c = Leaving -> is_Some (load_return i g)) /\
  (forall t key env id, (do_enter t key env g).2 = Joined id ->
     call_result id g = None /\
     exists c, heap g !! id = Some c /\ lc_key c = key /\ joinable c) /\
  (forall i c, heap g !! i = Some c -> lc_phase c = Closed ->
     exists r, call_result i g = Some r /\ FlightBody i r ∈ h /\
       forall h', call_result i (flight_run h' g) = Some r).
Proof.
  intros g. assert (flight_inv g) as I by by apply inv_flight_run, inv_newLoadGroup.
  assert (capacity (admission g) = slots) as Hcap.
  { unfold g. by rewrite flight_run_capacity. }
  rewrite <-(fi_slots g I). split_and!.
  - intros i j c d Ei Ej Hc Hd Hk.
    pose proof (fi_joinable g I i c Ei Hc). pose proof (fi_joinable g I j d Ej Hd). congruence.
  - done.
  - pose proof (fi_bound g I). lia.
  - intros i c Ei Hc. unfold load_return, release. rewrite Ei, (fi_slots g I).
    rewrite (proj2 (Z.ltb_lt _ _)) by (eapply running_positive; [done|by right]).
    rewrite bool_decide_true by done. eauto.
  - intros t key env id. unfold do_enter. destruct (calls g !! key) as [i|] eqn:E.
    + intros [=<-]. destruct (fi_calls g I key i E) as (c & Ec & Hk & Hj).
      split; [|by exists c]. unfold call_result. rewrite Ec.
      rewrite bool_decide_false; [done|]. destruct Hj as [[?|?]|?]; congruence.
    + destruct (acquire _ _) as [a [|]]; discriminate.
  - intros i c Ei Hc. destruct (lc_result c) as [r|] eqn:Hr.
    2:{ apply (fi_result g I i c Ei) in Hr. congruence. }
    assert (call_result i g = Some r) as Hres
      by (unfold call_result; rewrite Ei, bool_decide_true; done).
    exists r. split_and!; [done|by eapply result_from_body|].
    intros h'. by apply call_result_stable.
Qed.
End group.

(** ** A concrete run *)

Module FlightExample.
(** One slot and a bucket of two tokens, refilled at one token a second. *)
Definition adm : missAdmission := newMissAdmission (Float64.of_Z 1) 2 1 0.

(** A load of [a] starts, a second caller joins it, a caller for [b] finds no slot and
    spends the second token. *)
Definition busy : list (flight_event (K:=string) (G:=unit) (V:=Z)) :=
  [FlightEnter 1 "a" (); FlightEnter 2 "a" (); FlightEnter 3 "b" ()].

Definition finish : list (flight_event (K:=string) (G:=unit) (V:=Z)) :=
  [FlightBody 0 (Ok 7); FlightReturn 0; FlightForget 0; FlightClose 0].

(** The bucket is empty right after, and has a token again a second later. *)
Example admitted_later :
  let g := flight_run (busy ++ finish) (newLoadGroup adm) in
  call_result 0 g = Some (Ok 7) /\
  (do_enter 4 "b" () g).2 = Rejected /\
  (do_enter 1000000004 "b" () g).2 = Started 1.
Proof. vm_compute. auto. Qed.

Lemma single_flight_witness :
  let g := flight_run busy (newLoadGroup adm) in
  running (heap g) = 1 /\ (do_enter 5 "a" () g).2 = Joined 0 /\ call_result 0 g = None.
Proof.
  destruct (single_flight (Float64.of_Z 1) 2 1 0 busy) as (_ & Hr & _ & _ & Hj & _); [lia|].
  split_and!; [etransitivity; [exact Hr|vm_compute; reflexivity]|vm_compute; reflexivity|].
  apply (Hj 5 "a" () 0%nat). vm_compute. reflexivity.
Defined.
End FlightExample.
