(* ===== verification/FloatLaws.v ===== *)
(** * FloatLaws: rounding errors of the floats the program computes with

    A positive float [m * 2 ^ e] is measured in units of [2 ^ -600], as an integer.  Each
    rounding changes a value by at most one part in [2 ^ 52]. *)
From Stdlib Require Import SpecFloat.
From S2P Require Import Prelude Flight.

(** ** Digits and shifts *)

Lemma digits2_pos_bounds p : 2 ^ (Z.pos (digits2_pos p) - 1) <= Z.pos p < 2 ^ Z.pos (digits2_pos p).
Proof.
  induction p as [p IH|p IH|]; cbn [digits2_pos]; [| |by cbn].
  all: rewrite Pos2Z.inj_succ; replace (Z.succ (Z.pos (digits2_pos p)) - 1) with
    (Z.succ (Z.pos (digits2_pos p) - 1)) by lia; rewrite !Z.pow_succ_r by lia; lia.
Qed.

Lemma shr_1_div mrs : 0 <= shr_m mrs -> shr_m (shr_1 mrs) = shr_m mrs / 2.
Proof.
  destruct mrs as [m r s]. cbn [shr_m]. intros Hm. destruct m as [|p|p]; [done| |lia].
  unfold shr_1. destruct p as [p|p|]; cbn [shr_m].
  - rewrite Pos2Z.inj_xI. apply (Z.div_unique _ _ _ 1); lia.
  - rewrite Pos2Z.inj_xO. apply (Z.div_unique _ _ _ 0); lia.
  - done.
Qed.

Lemma shr_iter_div p mrs :
  0 <= shr_m mrs -> shr_m (SpecFloat.iter_pos shr_1 p mrs) = shr_m mrs / 2 ^ Z.pos p.
Proof.
  revert mrs. induction p as [p IH|p IH|]; intros mrs Hm; cbn [SpecFloat.iter_pos].
  - rewrite IH; rewrite IH; rewrite ?shr_1_div by done; repeat (apply Z.div_pos; try lia); [|done..].
    rewrite !Z.div_div by lia. f_equal.
    replace (Z.pos p~1) with (1 + Z.pos p + Z.pos p) by lia. rewrite !Z.pow_add_r by lia. ring.
  - rewrite IH; rewrite IH; repeat (apply Z.div_pos; try lia); [|done..].
    rewrite !Z.div_div by lia. f_equal.
    replace (Z.pos p~0) with (Z.pos p + Z.pos p) by lia. rewrite !Z.pow_add_r by lia. ring.
  - by apply shr_1_div.
Qed.

(** ** Rounding to 53 bits *)

Definition digits (m : Z) : Z := Zdigits2 m.

Lemma digits_bounds m : 0 < m -> 2 ^ (digits m - 1) <= m < 2 ^ digits m.
Proof. destruct m as [|p|p]; [lia| |lia]. intros _. apply digits2_pos_bounds. Qed.

Lemma digits_pos m : 0 < m -> 0 < digits m.
Proof. destruct m; try lia; intros _; unfold digits; cbn; lia. Qed.

Lemma digits_unique m d : 0 < d -> 2 ^ (d - 1) <= m < 2 ^ d -> digits m = d.
Proof.
  intros Hd Hm. assert (0 < m) as Hp by (pose proof (Z.pow_pos_nonneg 2 (d - 1)); lia).
  pose proof (digits_bounds m Hp). pose proof (digits_pos m Hp).
  destruct (Z_lt_le_dec (digits m) d).
  - pose proof (Z.pow_le_mono_r 2 (digits m) (d - 1)). lia.
  - destruct (Z_lt_le_dec d (digits m)); [|lia].
    pose proof (Z.pow_le_mono_r 2 d (digits m - 1)). lia.
Qed.

(** The bits a rounding drops. *)
Definition dropped (m : Z) : Z := Z.max 0 (digits m - 53).

Lemma shr_fexp_div m e :
  0 < m -> -1074 <= e ->
  shr_m (shr_fexp 53 1024 m e loc_Exact).1 = m / 2 ^ dropped m /\
  (shr_fexp 53 1024 m e loc_Exact).2 = e + dropped m /\
  (dropped m = 0 -> loc_of_shr_record (shr_fexp 53 1024 m e loc_Exact).1 = loc_Exact).
Proof.
  intros Hm He. unfold shr_fexp, shr, fexp, emin. fold (digits m).
  assert (Z.max (digits m + e - 53) (3 - 1024 - 53) - e = Z.max (digits m - 53) (- 1074 - e)) as -> by lia.
  unfold dropped. cbn [shr_record_of_loc].
  destruct (Z_le_gt_dec (digits m) 53) as [Hd|Hd].
  - replace (Z.max 0 (digits m - 53)) with 0 by lia.
    assert (Z.max (digits m - 53) (-1074 - e) <= 0) as Hn by lia.
    destruct (Z.max (digits m - 53) (-1074 - e)); try lia; cbn; by rewrite Z.div_1_r, Z.add_0_r.
  - replace (Z.max (digits m - 53) (-1074 - e)) with (digits m - 53) by lia.
    replace (Z.max 0 (digits m - 53)) with (digits m - 53) by lia.
    destruct (digits m - 53) as [|p|p] eqn:En; try lia. cbn [fst snd].
    rewrite shr_iter_div by (cbn; lia). split_and!; [done|done|]. lia.
Qed.

Lemma round_even_near m l : round_nearest_even m l = m \/ round_nearest_even m l = m + 1.
Proof. destruct l as [|[]]; cbn; auto. destruct (Z.even m); auto. Qed.

(** A rounded mantissa loses at most one part in [2 ^ 52]. *)
Lemma round_aux_near m e :
  0 < m -> -1000 <= e -> e + digits m <= 900 ->
  exists m' n, 0 <= n /\ Z.pos m' < 2 ^ 53 /\
    binary_round_aux 53 1024 false m e loc_Exact = S754_finite false m' (e + n) /\
    m * (2 ^ 52 - 1) <= Z.pos m' * 2 ^ n * 2 ^ 52 <= m * (2 ^ 52 + 1).
Proof.
  intros Hm He Hd. unfold binary_round_aux.
  destruct (shr_fexp_div m e) as (H1 & H2 & H3); [lia..|].
  destruct (shr_fexp 53 1024 m e loc_Exact) as [mrs e1]. cbn [fst snd] in *. subst e1.
  set (q := round_nearest_even (shr_m mrs) (loc_of_shr_record mrs)).
  pose proof (digits_bounds m Hm) as Hb. pose proof (digits_pos m Hm) as Hdp.
  assert (0 < q /\ dropped q <= 1 /\ q mod 2 ^ dropped q = 0 /\ q / 2 ^ dropped q < 2 ^ 53 /\
          m * (2 ^ 52 - 1) <= q * 2 ^ dropped m * 2 ^ 52 <= m * (2 ^ 52 + 1)) as (Hq & Hdq & Hmod & Hq53 & Hnear).
  { destruct (Z.eq_dec (dropped m) 0) as [E|E].
    - assert (q = m) as -> by (unfold q; rewrite H3, H1, E, Z.div_1_r by done; done).
      unfold dropped in E. pose proof (Z.pow_le_mono_r 2 (digits m) 53 ltac:(lia) ltac:(lia)).
      replace (dropped m) with 0 by (unfold dropped; lia). rewrite Z.mod_1_r, Z.div_1_r. lia.
    - assert (dropped m = digits m - 53) as En by (unfold dropped in *; lia).
      set (n := dropped m) in *. assert (0 < n) as Hn by (unfold n, dropped in *; lia).
      assert (2 ^ (digits m - 1) = 2 ^ n * 2 ^ 52) as Ep by (rewrite <-Z.pow_add_r by lia; f_equal; lia).
      assert (2 ^ digits m = 2 ^ n * 2 ^ 53) as Ep' by (rewrite <-Z.pow_add_r by lia; f_equal; lia).
      rewrite Ep, Ep' in Hb. assert (0 < 2 ^ n) as Hpn by (apply Z.pow_pos_nonneg; lia).
      pose proof (Z.mul_div_le m (2 ^ n) Hpn). pose proof (Z.mul_succ_div_gt m (2 ^ n) Hpn).
      assert (2 ^ 52 <= m / 2 ^ n < 2 ^ 53) as Hr.
      { split; [apply Z.div_le_lower_bound; lia|apply Z.div_lt_upper_bound; lia]. }
      assert (q = m / 2 ^ n \/ q = m / 2 ^ n + 1) as Hqc by (unfold q; rewrite <-H1; apply round_even_near).
      assert (dropped q = 0 /\ q < 2 ^ 53 \/ dropped q = 1 /\ q = 2 ^ 53) as Hdq.
      { destruct (Z_lt_le_dec q (2 ^ 53)).
        - left. unfold dropped. rewrite (digits_unique q 53); lia.
        - right. unfold dropped. rewrite (digits_unique q 54); lia. }
      split_and!; [lia|lia| | |nia|nia].
      + destruct Hdq as [[-> _]|[-> ->]]; [apply Z.mod_1_r|done].
      + destruct Hdq as [[-> ?]|[-> ->]]; [by rewrite Z.div_1_r|done]. }
  destruct (shr_fexp_div q (e + dropped m)) as (H4 & H5 & _); [done|unfold dropped; lia|].
  destruct (shr_fexp 53 1024 q (e + dropped m) loc_Exact) as [mrs' e2]. cbn [fst snd] in *. subst e2.
  assert (0 <= dropped q) as Hdq0 by (unfold dropped; lia).
  assert (0 < 2 ^ dropped q) as Hpq by (apply Z.pow_pos_nonneg; lia).
  pose proof (Z.div_mod q (2 ^ dropped q) ltac:(lia)) as Hdiv. rewrite Hmod, Z.add_0_r in Hdiv.
  assert (0 < shr_m mrs') as Hpos by (rewrite H4; nia).
  destruct (shr_m mrs') as [|m'|m'] eqn:Em; try lia.
  rewrite (proj2 (Z.leb_le _ _)) by (unfold dropped in *; lia).
  exists m', (dropped m + dropped q). split; [unfold dropped; lia|]. split; [by rewrite H4|].
  split; [by rewrite Z.add_assoc|].
  rewrite Z.pow_add_r by (unfold dropped; lia).
  replace (Z.pos m' * (2 ^ dropped m * 2 ^ dropped q) * 2 ^ 52) with
    (2 ^ dropped q * Z.pos m' * 2 ^ dropped m * 2 ^ 52) by ring.
  rewrite H4, <-Hdiv. exact Hnear.
Qed.

(** ** Values *)

(** In units of [2 ^ -600]. *)
Definition units (m e : Z) : Z := m * 2 ^ (e + 600).

(** [y] is [x] up to [c] parts in [2 ^ 52]. *)
Definition near (c x y : Z) : Prop := x * (2 ^ 52 - c) <= y * 2 ^ 52 <= x * (2 ^ 52 + c).

(** A positive float, of exponent at least [lo], within [c] parts of [x] units. *)
Definition rounds (lo c x : Z) (f : spec_float) : Prop :=
  exists m e, f = S754_finite false m e /\ Z.pos m < 2 ^ 53 /\ lo <= e /\ near c x (units (Z.pos m) e).

Lemma near_refl x : near 0 x x.
Proof. unfold near. lia. Qed.

Lemma near_trans c1 c2 x y z :
  0 <= x -> 0 <= c1 <= 2 ^ 20 -> 0 <= c2 <= 2 ^ 20 -> near c1 x y -> near c2 y z -> near (c1 + c2 + 1) x z.
Proof.
  unfold near. intros Hx H1 H2 [Hy1 Hy2] [Hz1 Hz2]. assert (0 <= c1 * c2 <= 2 ^ 40) as Hc by nia.
  assert (x * (c1 * c2) <= x * 2 ^ 40) by (apply Z.mul_le_mono_nonneg_l; lia).
  assert (0 <= x * (c1 * c2)) by (apply Z.mul_nonneg_nonneg; lia).
  split.
  - apply (Z.mul_le_mono_nonneg_r _ _ (2 ^ 52 - c2)) in Hy1; [|lia].
    replace (x * (2 ^ 52 - c1) * (2 ^ 52 - c2)) with
      (x * (2 ^ 52 - (c1 + c2 + 1)) * 2 ^ 52 + x * 2 ^ 52 + x * (c1 * c2)) in Hy1 by ring. lia.
  - apply (Z.mul_le_mono_nonneg_r _ _ (2 ^ 52 + c2)) in Hy2; [|lia].
    replace (x * (2 ^ 52 + c1) * (2 ^ 52 + c2)) with
      (x * (2 ^ 52 + (c1 + c2 + 1)) * 2 ^ 52 - x * 2 ^ 52 + x * (c1 * c2)) in Hy2 by ring. lia.
Qed.

Lemma near_add c a x y : 0 <= a -> 0 <= c -> near c x y -> near c (a + x) (a + y).
Proof. unfold near. nia. Qed.

Lemma near_scale c k x y : 0 <= k -> near c x y -> near c (x * k) (y * k).
Proof.
  unfold near. intros Hk [H1 H2]. split.
  - apply (Z.mul_le_mono_nonneg_r _ _ k) in H1; [|done]. lia.
  - apply (Z.mul_le_mono_nonneg_r _ _ k) in H2; [|done]. lia.
Qed.

Lemma units_shift m e n : -600 <= e -> 0 <= n -> units (m * 2 ^ n) e = units m (e + n).
Proof.
  intros. unfold units. replace (e + n + 600) with (n + (e + 600)) by lia.
  rewrite (Z.pow_add_r 2 n) by lia. ring.
Qed.

(** The size of a value bounds its exponent. *)
Lemma units_digits m e x :
  0 < m -> -600 <= e -> -600 <= x -> units m e < 2 ^ (x + 600) -> e + digits m <= x.
Proof.
  intros Hm He Hx Hu. destruct (Z_le_gt_dec (e + digits m) x) as [|Hgt]; [done|exfalso].
  pose proof (digits_bounds m Hm) as [Hd _]. pose proof (digits_pos m Hm). unfold units in Hu.
  assert (2 ^ (digits m - 1) * 2 ^ (e + 600) <= m * 2 ^ (e + 600)) as Hle
    by (apply Z.mul_le_mono_nonneg_r; [apply Z.pow_nonneg; lia|done]).
  rewrite <-Z.pow_add_r in Hle by lia.
  pose proof (Z.pow_le_mono_r 2 (x + 600) (digits m - 1 + (e + 600)) ltac:(lia) ltac:(lia)). lia.
Qed.

Lemma round_aux_rounds m e :
  0 < m -> -600 <= e -> e + digits m <= 900 ->
  rounds e 1 (units m e) (binary_round_aux 53 1024 false m e loc_Exact).
Proof.
  intros Hm He Hd. destruct (round_aux_near m e Hm ltac:(lia) Hd) as (m' & n & Hn & Hm' & -> & Hb).
  exists m', (e + n). split_and!; [done|done|lia|]. rewrite <-units_shift by lia.
  apply near_scale; [apply Z.pow_nonneg; lia|exact Hb].
Qed.

Lemma iter_xO p d : Z.pos (Pos.iter xO p d) = Z.pos p * 2 ^ Z.pos d.
Proof.
  revert p. induction d as [|d IH] using Pos.peano_ind; intros p; [cbn; lia|].
  rewrite Pos.iter_succ, Pos2Z.inj_xO, IH, Pos2Z.inj_succ, Z.pow_succ_r by lia. ring.
Qed.

Lemma shl_align_units m e e' :
  -600 <= e' -> -600 <= e ->
  let (m1, e1) := shl_align m e e' in units (Z.pos m1) e1 = units (Z.pos m) e /\ e1 = Z.min e e'.
Proof.
  intros He' He. unfold shl_align. destruct (e' - e) as [|d|d] eqn:Ed.
  - split; [done|lia].
  - split; [done|lia].
  - rewrite iter_xO. split; [|lia]. rewrite units_shift by lia. f_equal. lia.
Qed.

Lemma round_rounds m e :
  -500 <= e -> e + digits (Z.pos m) <= 800 ->
  rounds (e - 53) 1 (units (Z.pos m) e) (binary_round 53 1024 false m e).
Proof.
  intros He Hd. unfold binary_round. change (Z.pos (digits2_pos m)) with (digits (Z.pos m)).
  pose proof (digits_pos (Z.pos m) ltac:(lia)) as Hdp.
  assert (fexp 53 1024 (digits (Z.pos m) + e) = digits (Z.pos m) + e - 53) as -> by (unfold fexp, emin; lia).
  pose proof (shl_align_units m e (digits (Z.pos m) + e - 53) ltac:(lia) ltac:(lia)) as Hs.
  destruct (shl_align m e _) as [m1 e1]. destruct Hs as [Hu ->].
  assert (Z.min e (digits (Z.pos m) + e - 53) + digits (Z.pos m1) <= e + digits (Z.pos m)) as Hd1.
  { apply units_digits; [lia|lia|lia|]. rewrite Hu. unfold units.
    replace (e + digits (Z.pos m) + 600) with (digits (Z.pos m) + (e + 600)) by lia.
    rewrite (Z.pow_add_r 2 (digits (Z.pos m))) by lia.
    apply Z.mul_lt_mono_pos_r; [apply Z.pow_pos_nonneg; lia|].
    by apply digits_bounds. }
  rewrite <-Hu.
  destruct (round_aux_rounds (Z.pos m1) (Z.min e (digits (Z.pos m) + e - 53))) as (m' & e' & -> & ? & ? & ?); [lia..|].
  exists m', e'. split_and!; [done|done|lia|done].
Qed.

Lemma of_Z_rounds z : 0 < z < 2 ^ 63 -> rounds (-53) 1 (units z 0) (Float64.of_Z z).
Proof.
  intros Hz. destruct z as [|p|p]; try lia. unfold Float64.of_Z, binary_normalize.
  apply (round_rounds p 0); [lia|]. cut (0 + digits (Z.pos p) <= 63); [lia|].
  apply units_digits; try lia. unfold units. replace (63 + 600) with (63 + (0 + 600)) by lia.
  rewrite (Z.pow_add_r 2 63) by lia. apply Z.mul_lt_mono_pos_r; lia.
Qed.

Lemma add_rounds m1 e1 m2 e2 :
  -400 <= e1 -> -400 <= e2 -> units (Z.pos m1) e1 + units (Z.pos m2) e2 < 2 ^ 1000 ->
  rounds (Z.min e1 e2 - 53) 1 (units (Z.pos m1) e1 + units (Z.pos m2) e2)
    (Float64.add (S754_finite false m1 e1) (S754_finite false m2 e2)).
Proof.
  intros H1 H2 Hs. unfold Float64.add, SFadd. cbv zeta. cbn [cond_Zopp].
  pose proof (shl_align_units m1 e1 (Z.min e1 e2) ltac:(lia) ltac:(lia)) as Ha1.
  pose proof (shl_align_units m2 e2 (Z.min e1 e2) ltac:(lia) ltac:(lia)) as Ha2.
  destruct (shl_align m1 e1 _) as [a1 x1], (shl_align m2 e2 _) as [a2 x2].
  destruct Ha1 as [Hu1 ->], Ha2 as [Hu2 ->]. cbn [fst]. rewrite <-Hu1, <-Hu2 in Hs |- *. clear Hu1 Hu2.
  replace (Z.min e1 (Z.min e1 e2)) with (Z.min e1 e2) in * by lia.
  replace (Z.min e2 (Z.min e1 e2)) with (Z.min e1 e2) in * by lia.
  assert (units (Z.pos a1) (Z.min e1 e2) + units (Z.pos a2) (Z.min e1 e2)
          = units (Z.pos (a1 + a2)) (Z.min e1 e2)) as E by (unfold units; rewrite Pos2Z.inj_add; ring).
  rewrite E in Hs |- *. rewrite <-Pos2Z.inj_add. cbn [binary_normalize].
  apply round_rounds; [lia|]. cut (Z.min e1 e2 + digits (Z.pos (a1 + a2)) <= 400); [lia|].
  apply units_digits; lia.
Qed.

Lemma mul_rounds m1 e1 m2 e2 :
  -300 <= e1 -> -300 <= e2 -> units (Z.pos m1) e1 * units (Z.pos m2) e2 < 2 ^ 1400 ->
  exists m e, Float64.mul (S754_finite false m1 e1) (S754_finite false m2 e2) = S754_finite false m e /\
    -600 <= e /\ near 1 (units (Z.pos m1) e1 * units (Z.pos m2) e2) (units (Z.pos m) e * 2 ^ 600).
Proof.
  intros H1 H2 Hs. unfold Float64.mul, SFmul. cbn [xorb].
  assert (units (Z.pos (m1 * m2)) (e1 + e2) * 2 ^ 600 = units (Z.pos m1) e1 * units (Z.pos m2) e2) as E.
  { unfold units. rewrite Pos2Z.inj_mul.
    transitivity (Z.pos m1 * Z.pos m2 * (2 ^ (e1 + 600) * 2 ^ (e2 + 600))); [|ring].
    rewrite <-Z.pow_add_r by lia. rewrite <-Z.mul_assoc, <-Z.pow_add_r by lia. do 2 f_equal. lia. }
  rewrite <-E in Hs |- *. change (2 ^ 1400) with (2 ^ 800 * 2 ^ 600) in Hs.
  apply Z.mul_lt_mono_pos_r in Hs; [|lia].
  destruct (round_aux_rounds (Z.pos (m1 * m2)) (e1 + e2)) as (m & e & -> & _ & He & Hn); [lia|lia| |].
  { cut (e1 + e2 + digits (Z.pos (m1 * m2)) <= 200); [lia|]. apply units_digits; lia. }
  exists m, e. split_and!; [done|lia|by apply near_scale].
Qed.

(** ** Division by [2 ^ 53] *)

Lemma div_core_exact m1 e1 :
  Z.pos m1 < 2 ^ 53 -> -400 <= e1 <= 400 ->
  exists s, 0 <= s <= 53 /\
    SFdiv_core_binary 53 1024 (Z.pos m1) e1 (2 ^ 52) 1 = (Z.pos m1 * 2 ^ s, e1 - 53 - s, loc_Exact).
Proof.
  intros Hm He. unfold SFdiv_core_binary. cbv zeta. fold (digits (Z.pos m1)).
  change (Zdigits2 (2 ^ 52)) with 53.
  pose proof (digits_pos (Z.pos m1) ltac:(lia)) as Hp.
  assert (digits (Z.pos m1) <= 53) as Hd.
  { destruct (Z_le_gt_dec (digits (Z.pos m1)) 53) as [|Hgt]; [done|].
    pose proof (digits_bounds (Z.pos m1) ltac:(lia)).
    pose proof (Z.pow_le_mono_r 2 53 (digits (Z.pos m1) - 1) ltac:(lia) ltac:(lia)). lia. }
  exists (54 - digits (Z.pos m1)). split; [lia|].
  assert (Z.min (fexp 53 1024 (digits (Z.pos m1) + e1 - (53 + 1))) (e1 - 1)
          = e1 - 53 - (54 - digits (Z.pos m1))) as -> by (unfold fexp, emin; lia).
  replace (e1 - 1 - (e1 - 53 - (54 - digits (Z.pos m1)))) with (54 - digits (Z.pos m1) + 52) by lia.
  destruct (54 - digits (Z.pos m1)) as [|s|s] eqn:Es; try lia.
  change (match Z.pos s + 52 with 0 => Z.pos m1 | Z.pos _ => Z.shiftl (Z.pos m1) (Z.pos s + 52) | _ => 0 end)
    with (Z.shiftl (Z.pos m1) (Z.pos s + 52)).
  rewrite Z.shiftl_mul_pow2, Z.pow_add_r, Z.mul_assoc by lia.
  pose proof (Z_div_mult_full (Z.pos m1 * 2 ^ Z.pos s) (2 ^ 52) ltac:(lia)) as Hq.
  pose proof (Z_mod_mult (Z.pos m1 * 2 ^ Z.pos s) (2 ^ 52)) as Hr.
  unfold Z.div, Z.modulo in Hq, Hr. destruct (Z.div_eucl _ _) as [q r]. by subst.
Qed.

Lemma div_rounds m1 e1 :
  Z.pos m1 < 2 ^ 53 -> -300 <= e1 -> e1 <= 300 ->
  rounds (e1 - 106) 1 (units (Z.pos m1) (e1 - 53))
    (Float64.div (S754_finite false m1 e1) (Float64.of_Z (2 ^ 53))).
Proof.
  intros Hm He He'. change (Float64.of_Z (2 ^ 53)) with (S754_finite false (2 ^ 52) 1).
  unfold Float64.div, SFdiv. cbn [xorb].
  destruct (div_core_exact m1 e1 Hm ltac:(lia)) as (s & Hs & E).
  change (Z.pos (2 ^ 52)) with (2 ^ 52). rewrite E.
  assert (units (Z.pos m1) (e1 - 53) = units (Z.pos m1 * 2 ^ s) (e1 - 53 - s)) as ->
    by (rewrite units_shift by lia; f_equal; lia).
  assert (0 < Z.pos m1 * 2 ^ s) as Hpos by (apply Z.mul_pos_pos; [lia|apply Z.pow_pos_nonneg; lia]).
  destruct (round_aux_rounds (Z.pos m1 * 2 ^ s) (e1 - 53 - s)) as (m & e & -> & ? & ? & ?); [lia|lia| |].
  { cut (e1 - 53 - s + digits (Z.pos m1 * 2 ^ s) <= e1); [lia|]. apply units_digits; [lia..|].
    rewrite units_shift by lia. replace (e1 - 53 - s + s) with (e1 - 53) by lia. unfold units.
    replace (e1 + 600) with (53 + (e1 - 53 + 600)) by lia. rewrite (Z.pow_add_r 2 53) by lia.
    apply Z.mul_lt_mono_pos_r; [apply Z.pow_pos_nonneg; lia|done]. }
  exists m, e. split_and!; [done|done|lia|]. done.
Qed.
