(* ===== verification/Client.v ===== *)
(** * Client: the revisioned watch of [controlplane/client.go] and [controlplane/watch.go]

    [Client] holds the fields the synchronization lock guards, the two channels of
    capacity one (true when a signal is pending), whether a transport is set, and the
    two caches.  One definition per function that runs under the lock; [now] is the
    reading of the clock (nanoseconds).  What the public-suffix list and protobuf
    durations answer are parameters ([Platform]); the caches are any [TimedStore]. *)
From S2P Require Import Prelude GoStrings GoNet Errors Cache.

(** ** Code outside the repository *)

(** [publicsuffix.EffectiveTLDPlusOne(domain)] succeeds; a [durationpb.Duration] with
    its [CheckValid() == nil] and [AsDuration()]. *)
Class Platform := {
  EffectiveTLDPlusOne_ok : string -> bool;
  Duration : Type;
  CheckValid : Duration -> bool;
  AsDuration : Duration -> Z
}.

(** ** Data *)

Inductive State :=
| StateStartup
| StateConnecting
| StateSynchronizing
| StateReady
| StateDisconnected
| StateShutdown.

#[export] Instance State_eq_dec : EqDecision State.
Proof. solve_decision. Defined.

Record snapshotState := mkSnapshot {
  sn_revision : Z;
  sn_expectedCursor : string;
  sn_previousCursor : string;
  sn_baseHosts : gmap string Z
}.

(** [cachedCredentials] and [cachedVBucket]: the payload is a pointer, nil in a
    negative entry. *)
Record cached (A : Type) := mkCached {
  ce_value : option A;
  ce_Found : bool;
  ce_Revision : Z;
  ce_TTL : Z
}.
Global Arguments mkCached {A} _ _ _ _.
Global Arguments ce_value {A} _.
Global Arguments ce_Found {A} _.
Global Arguments ce_Revision {A} _.
Global Arguments ce_TTL {A} _.

(** ** Watch messages ([api/v1]) *)

Section messages.
Context `{Platform}.

Record CredentialsDelta := mkCredentialsDelta {
  cd_AccessKeyId : string;
  cd_Remove : bool;
  cd_NegativeTtl : option Duration
}.

Record BaseHostDelta := mkBaseHostDelta { bh_Remove : bool; bh_BaseHost : string }.

Record VBucketDelta := mkVBucketDelta {
  vd_AccessKeyId : string;
  vd_BucketName : string;
  vd_Remove : bool;
  vd_NegativeTtl : option Duration
}.

(** The oneof; the message inside a variant may be nil. *)
Inductive watch_payload :=
| SnapshotBegin
| SynchronizationBarrier
| Heartbeat
| CredentialsEvent (d : option CredentialsDelta)
| BaseHostEvent (d : option BaseHostDelta)
| VbucketEvent (d : option VBucketDelta).

Record WatchEvent := mkWatchEvent {
  we_Event : option watch_payload;
  we_Revision : Z;
  we_Cursor : string
}.
End messages.

Definition vbucketCacheKey (accessKeyID bucketName : string) : string :=
  accessKeyID +:+ "/" +:+ bucketName.

(** A load returns an entry, loses a race, or asks for a resynchronization. *)
Inductive load_result (A : Type) :=
| LoadEntry (e : cached A)
| LoadRace
| LoadResync.
Global Arguments LoadEntry {A} _.
Global Arguments LoadRace {A}.
Global Arguments LoadResync {A}.

Section client.
Context `{Platform} {Cred Conf CC VC : Type}
  `{TimedStore CC string (cached Cred)} `{TimedStore VC string (cached Conf)}.

Record Client := mkClient {
  state : State;
  revision : Z;
  cursor : string;
  epoch : Z;
  snapshot : option snapshotState;
  lastGap : Z;
  requiredRevision : Z;
  lastTransition : Z;
  synchronizingSince : Z;
  baseHosts : gmap string Z;
  baseHostMax : Z;
  barrierRequired : bool;
  lastDisconnectReason : string;
  resync : bool;
  stateChanged : bool;
  connected : bool;
  credentials : CC;
  vbuckets : VC;
  watchGaps : Z
}.

Definition set_state (x : State) (c : Client) : Client :=
  mkClient x (revision c) (cursor c) (epoch c) (snapshot c) (lastGap c) (requiredRevision c)
    (lastTransition c) (synchronizingSince c) (baseHosts c) (baseHostMax c) (barrierRequired c)
    (lastDisconnectReason c) (resync c) (stateChanged c) (connected c) (credentials c)
    (vbuckets c) (watchGaps c).
Definition set_revision (x : Z) (c : Client) : Client :=
  mkClient (state c) x (cursor c) (epoch c) (snapshot c) (lastGap c) (requiredRevision c)
    (lastTransition c) (synchronizingSince c) (baseHosts c) (baseHostMax c) (barrierRequired c)
    (lastDisconnectReason c) (resync c) (stateChanged c) (connected c) (credentials c)
    (vbuckets c) (watchGaps c).
Definition set_cursor (x : string) (c : Client) : Client :=
  mkClient (state c) (revision c) x (epoch c) (snapshot c) (lastGap c) (requiredRevision c)
    (lastTransition c) (synchronizingSince c) (baseHosts c) (baseHostMax c) (barrierRequired c)
    (lastDisconnectReason c) (resync c) (stateChanged c) (connected c) (credentials c)
    (vbuckets c) (watchGaps c).
Definition set_epoch (x : Z) (c : Client) : Client :=
  mkClient (state c) (revision c) (cursor c) x (snapshot c) (lastGap c) (requiredRevision c)
    (lastTransition c) (synchronizingSince c) (baseHosts c) (baseHostMax c) (barrierRequired c)
    (lastDisconnectReason c) (resync c) (stateChanged c) (connected c) (credentials c)
    (vbuckets c) (watchGaps c).
Definition set_snapshot (x : option snapshotState) (c : Client) : Client :=
  mkClient (state c) (revision c) (cursor c) (epoch c) x (lastGap c) (requiredRevision c)
    (lastTransition c) (synchronizingSince c) (baseHosts c) (baseHostMax c) (barrierRequired c)
    (lastDisconnectReason c) (resync c) (stateChanged c) (connected c) (credentials c)
    (vbuckets c) (watchGaps c).
Definition set_lastGap (x : Z) (c : Client) : Client :=
  mkClient (state c) (revision c) (cursor c) (epoch c) (snapshot c) x (requiredRevision c)
    (lastTransition c) (synchronizingSince c) (baseHosts c) (baseHostMax c) (barrierRequired c)
    (lastDisconnectReason c) (resync c) (stateChanged c) (connected c) (credentials c)
    (vbuckets c) (watchGaps c).
Definition set_requiredRevision (x : Z) (c : Client) : Client :=
  mkClient (state c) (revision c) (cursor c) (epoch c) (snapshot c) (lastGap c) x
    (lastTransition c) (synchronizingSince c) (baseHosts c) (baseHostMax c) (barrierRequired c)
    (lastDisconnectReason c) (resync c) (stateChanged c) (connected c) (credentials c)
    (vbuckets c) (watchGaps c).
Definition set_lastTransition (x : Z) (c : Client) : Client :=
  mkClient (state c) (revision c) (cursor c) (epoch c) (snapshot c) (lastGap c)
    (requiredRevision c) x (synchronizingSince c) (baseHosts c) (baseHostMax c)
    (barrierRequired c) (lastDisconnectReason c) (resync c) (stateChanged c) (connected c)
    (credentials c) (vbuckets c) (watchGaps c).
Definition set_synchronizingSince (x : Z) (c : Client) : Client :=
  mkClient (state c) (revision c) (cursor c) (epoch c) (snapshot c) (lastGap c)
    (requiredRevision c) (lastTransition c) x (baseHosts c) (baseHostMax c) (barrierRequired c)
    (lastDisconnectReason c) (resync c) (stateChanged c) (connected c) (credentials c)
    (vbuckets c) (watchGaps c).
Definition set_baseHosts (x : gmap string Z) (c : Client) : Client :=
  mkClient (state c) (revision c) (cursor c) (epoch c) (snapshot c) (lastGap c)
    (requiredRevision c) (lastTransition c) (synchronizingSince c) x (baseHostMax c)
    (barrierRequired c) (lastDisconnectReason c) (resync c) (stateChanged c) (connected c)
    (credentials c) (vbuckets c) (watchGaps c).
Definition set_barrierRequired (x : bool) (c : Client) : Client :=
  mkClient (state c) (revision c) (cursor c) (epoch c) (snapshot c) (lastGap c)
    (requiredRevision c) (lastTransition c) (synchronizingSince c) (baseHosts c)
    (baseHostMax c) x (lastDisconnectReason c) (resync c) (stateChanged c) (connected c)
    (credentials c) (vbuckets c) (watchGaps c).
Definition set_lastDisconnectReason (x : string) (c : Client) : Client :=
  mkClient (state c) (revision c) (cursor c) (epoch c) (snapshot c) (lastGap c)
    (requiredRevision c) (lastTransition c) (synchronizingSince c) (baseHosts c)
    (baseHostMax c) (barrierRequired c) x (resync c) (stateChanged c) (connected c)
    (credentials c) (vbuckets c) (watchGaps c).
Definition set_resync (x : bool) (c : Client) : Client :=
  mkClient (state c) (revision c) (cursor c) (epoch c) (snapshot c) (lastGap c)
    (requiredRevision c) (lastTransition c) (synchronizingSince c) (baseHosts c)
    (baseHostMax c) (barrierRequired c) (lastDisconnectReason c) x (stateChanged c)
    (connected c) (credentials c) (vbuckets c) (watchGaps c).
Definition set_stateChanged (x : bool) (c : Client) : Client :=
  mkClient (state c) (revision c) (cursor c) (epoch c) (snapshot c) (lastGap c)
    (requiredRevision c) (lastTransition c) (synchronizingSince c) (baseHosts c)
    (baseHostMax c) (barrierRequired c) (lastDisconnectReason c) (resync c) x (connected c)
    (credentials c) (vbuckets c) (watchGaps c).
Definition set_connected (x : bool) (c : Client) : Client :=
  mkClient (state c) (revision c) (cursor c) (epoch c) (snapshot c) (lastGap c)
    (requiredRevision c) (lastTransition c) (synchronizingSince c) (baseHosts c)
    (baseHostMax c) (barrierRequired c) (lastDisconnectReason c) (resync c) (stateChanged c) x
    (credentials c) (vbuckets c) (watchGaps c).
Definition set_credentials (x : CC) (c : Client) : Client :=
  mkClient (state c) (revision c) (cursor c) (epoch c) (snapshot c) (lastGap c)
    (requiredRevision c) (lastTransition c) (synchronizingSince c) (baseHosts c)
    (baseHostMax c) (barrierRequired c) (lastDisconnectReason c) (resync c) (stateChanged c)
    (connected c) x (vbuckets c) (watchGaps c).
Definition set_vbuckets (x : VC) (c : Client) : Client :=
  mkClient (state c) (revision c) (cursor c) (epoch c) (snapshot c) (lastGap c)
    (requiredRevision c) (lastTransition c) (synchronizingSince c) (baseHosts c)
    (baseHostMax c) (barrierRequired c) (lastDisconnectReason c) (resync c) (stateChanged c)
    (connected c) (credentials c) x (watchGaps c).
Definition set_watchGaps (x : Z) (c : Client) : Client :=
  mkClient (state c) (revision c) (cursor c) (epoch c) (snapshot c) (lastGap c)
    (requiredRevision c) (lastTransition c) (synchronizingSince c) (baseHosts c)
    (baseHostMax c) (barrierRequired c) (lastDisconnectReason c) (resync c) (stateChanged c)
    (connected c) (credentials c) (vbuckets c) x.

(** [NewClientWithOptions]: the state a client starts in. *)
Definition newClient (now maxBaseHosts : Z) (cc : CC) (vc : VC) : Client :=
  mkClient StateStartup 0 "" 0 None 0 0 now 0 ∅ maxBaseHosts true "" false false false cc vc 0.

(** ** State transitions *)

Definition transitionLocked (now : Z) (s : State) (c : Client) : Client :=
  if bool_decide (state c = StateShutdown) && negb (bool_decide (s = StateShutdown)) then c
  else if bool_decide (state c = s) then c
  else
    let c := if bool_decide (state c = StateReady) && negb (bool_decide (s = StateReady))
             then set_epoch (u64 (epoch c + 1)) c else c in
    let c := set_lastTransition now (set_state s c) in
    let c := if bool_decide (s = StateSynchronizing) then set_synchronizingSince now c else c in
    set_stateChanged true c.

Definition requestResyncLocked (now : Z) (c : Client) : Client :=
  if bool_decide (state c = StateShutdown) then c
  else set_resync true (transitionLocked now StateDisconnected (set_barrierRequired true c)).

Definition markUnsynchronized (now : Z) (s : State) (c : Client) : Client :=
  set_barrierRequired true (set_snapshot None (transitionLocked now s c)).

Definition disconnectReason (err : option error) : string :=
  match err with
  | None => "watch_closed"
  | Some err =>
      if Is err IoEOF then "watch_closed"
      else if Is err ContextCanceled then "shutdown"
      else if Is err ErrWatchSilence then "watch_silence_timeout"
      else if Is err ErrSynchronizationTimeout then "synchronization_timeout"
      else if Is err ErrRevisionRace then "revision_resynchronization"
      else "watch_protocol_or_transport_error"
  end.

(** The steps of [connect] on the shared state: dropping a stale resync signal,
    publishing and withdrawing the transport, opening the watch, leaving it. *)
Definition drainResync (c : Client) : Client := set_resync false c.

Definition publishTransport (b : bool) (c : Client) : Client := set_connected b c.

(** Also the request: the resume cursor and revision. *)
Definition openWatch (now : Z) (c : Client) : Client * (string * Z) :=
  let c := transitionLocked now StateSynchronizing c in (c, (cursor c, revision c)).

Definition markDisconnected (now : Z) (returnErr : option error) (c : Client) : Client :=
  let c := set_lastDisconnectReason (disconnectReason returnErr) c in
  set_barrierRequired true (set_snapshot None (transitionLocked now StateDisconnected c)).

(** ** Base domains *)

Definition invalid_domain {A} : result error A := Err (Errorf "invalid base domain" []).

(** The label checks the registry and the host lookup share: 1 to 63 lower-case
    letters, digits and hyphens, no hyphen at either end. *)
Definition label_ok (label : string) : bool :=
  negb (String.eqb label "") && (str_len label <=? 63)
  && negb (HasPrefix label "-") && negb (HasSuffix label "-")
  && forallb (fun r => in_range 97 122 r || in_range 48 57 r || (r =? 45)) (rune_values label).

Definition normalizeBaseDomain (value : string) : result error string :=
  let domain := ToLower (TrimSuffix (TrimSpace value) ".") in
  if String.eqb domain "" || (253 <? str_len domain) || Contains domain ":"
     || Contains domain "*" || HasPrefix domain "." || HasSuffix domain "."
     || Contains domain ".." || is_ip domain then invalid_domain
  else if negb (forallb label_ok (Split domain ".")) then invalid_domain
  else if EffectiveTLDPlusOne_ok domain then Ok domain
  else Err (Errorf "base domain must not be a public suffix" []).

Definition baseHostDeltaDomain (delta : option BaseHostDelta) : result error string :=
  match delta with
  | None => Err (Errorf "missing base host delta" [])
  | Some d => normalizeBaseDomain (bh_BaseHost d)
  end.

Definition cacheTTL (source : string) (ttl : option Duration) : result error Z :=
  match ttl with
  | None => Err (Errorf (source +:+ " TTL is required") [])
  | Some ttl =>
      reject negb (CheckValid ttl) with Errorf (source +:+ " TTL is invalid") [] ;;
      reject AsDuration ttl <=? 0 with Errorf (source +:+ " TTL must be positive") [] ;;
      Ok (AsDuration ttl)
  end.

(** ** Applying a mutation *)

(** An operation under the lock: the state it leaves and the error it returns. *)
Abbreviation outcome := (Client * option error)%type.

Definition fails (msg : string) (c : Client) : outcome := (c, Some (Errorf msg [])).

Definition applyCredentials (now rev : Z) (d : option CredentialsDelta) (c : Client) : outcome :=
  match d with
  | None => fails "invalid credential delta" c
  | Some d =>
      if String.eqb (cd_AccessKeyId d) "" then fails "invalid credential delta" c else
      let (cc, hot) := store_get now (cd_AccessKeyId d) (credentials c) in
      let c := set_credentials cc c in
      if cd_Remove d then
        match cacheTTL "credential removal" (cd_NegativeTtl d) with
        | Err err =>
            (set_credentials (store_invalidate (cd_AccessKeyId d) (credentials c)) c, Some err)
        | Ok ttl =>
            if bool_decide (is_Some hot) then
              (set_credentials (store_set now (cd_AccessKeyId d) (mkCached None false rev ttl)
                                  ttl (credentials c)) c, None)
            else (c, None)
        end
      else if bool_decide (is_Some (cd_NegativeTtl d))
      then fails "credential invalidation must not include negative TTL" c
      else if bool_decide (is_Some hot)
      then (set_credentials (store_invalidate (cd_AccessKeyId d) (credentials c)) c, None)
      else (c, None)
  end.

Definition applyBaseHost (rev : Z) (d : option BaseHostDelta) (c : Client) : outcome :=
  match baseHostDeltaDomain d with
  | Err err => (c, Some err)
  | Ok domain =>
      if default false (bh_Remove <$> d)
      then (set_baseHosts (delete domain (baseHosts c)) c, None)
      else if bool_decide (baseHosts c !! domain = None)
              && (baseHostMax c <=? Z.of_nat (size (baseHosts c)))
      then fails "base-domain registry exceeds configured bound" c
      else (set_baseHosts (<[domain := rev]> (baseHosts c)) c, None)
  end.

Definition applyVBucket (now rev : Z) (d : option VBucketDelta) (c : Client) : outcome :=
  match d with
  | None => fails "invalid vbucket delta" c
  | Some d =>
      if String.eqb (vd_AccessKeyId d) "" || String.eqb (vd_BucketName d) ""
      then fails "invalid vbucket delta" c else
      let key := vbucketCacheKey (vd_AccessKeyId d) (vd_BucketName d) in
      let (vc, hot) := store_get now key (vbuckets c) in
      let c := set_vbuckets vc c in
      if vd_Remove d then
        match cacheTTL "vbucket removal" (vd_NegativeTtl d) with
        | Err err => (set_vbuckets (store_invalidate key (vbuckets c)) c, Some err)
        | Ok ttl =>
            if bool_decide (is_Some hot) then
              (set_vbuckets (store_set now key (mkCached None false rev ttl) ttl (vbuckets c)) c,
               None)
            else (c, None)
        end
      else if bool_decide (is_Some (vd_NegativeTtl d))
      then fails "vbucket invalidation must not include negative TTL" c
      else if bool_decide (is_Some hot)
      then (set_vbuckets (store_invalidate key (vbuckets c)) c, None)
      else (c, None)
  end.

Definition applyEntityLocked (now : Z) (e : watch_payload) (rev : Z) (c : Client) : outcome :=
  match e with
  | CredentialsEvent d => applyCredentials now rev d c
  | BaseHostEvent d => applyBaseHost rev d c
  | VbucketEvent d => applyVBucket now rev d c
  | _ => fails "unknown watch event" c
  end.

(** ** Processing a watch event *)

Definition beginSnapshot (now : Z) (d : WatchEvent) (c : Client) : outcome :=
  if bool_decide (is_Some (snapshot c)) then fails "nested snapshot begin" c
  else if (we_Revision d =? 0) || negb (String.eqb (we_Cursor d) "")
          || (we_Revision d <? revision c)
  then fails "invalid snapshot begin" c
  else
    let c := transitionLocked now StateSynchronizing c in
    let c := set_barrierRequired true c in
    let c := set_credentials (store_clear (credentials c)) c in
    let c := set_vbuckets (store_clear (vbuckets c)) c in
    let expectedCursor := if we_Revision d =? revision c then cursor c else "" in
    (set_snapshot (Some (mkSnapshot (we_Revision d) expectedCursor (cursor c) ∅)) c, None).

(** After an accepted barrier: ready unless a confirmed write is still ahead. *)
Definition settle (now : Z) (c : Client) : Client :=
  if requiredRevision c =? 0 then transitionLocked now StateReady c
  else transitionLocked now StateSynchronizing c.

Definition snapshotBarrier (now : Z) (d : WatchEvent) (sn : snapshotState) (c : Client)
    : outcome :=
  if negb (we_Revision d =? sn_revision sn)
  then fails "snapshot barrier revision does not match cut" c
  else if negb (String.eqb (sn_expectedCursor sn) "")
          && negb (String.eqb (we_Cursor d) (sn_expectedCursor sn))
  then fails "same-revision snapshot changed canonical cursor" c
  else if (revision c <? sn_revision sn) && negb (String.eqb (sn_previousCursor sn) "")
          && String.eqb (we_Cursor d) (sn_previousCursor sn)
  then fails "newer snapshot reused an older revision cursor" c
  else
    let c := set_snapshot None (set_baseHosts (sn_baseHosts sn) c) in
    let c := set_cursor (we_Cursor d) (set_revision (we_Revision d) c) in
    let c := set_barrierRequired false c in
    let c := if negb (requiredRevision c =? 0) && (requiredRevision c <=? revision c)
             then set_requiredRevision 0 c else c in
    (settle now c, None).

Definition resumeBarrier (now : Z) (d : WatchEvent) (c : Client) : outcome :=
  if negb (we_Revision d =? revision c) || negb (String.eqb (we_Cursor d) (cursor c))
  then fails "resume barrier does not match accepted revision/cursor" c
  else
    let c := set_barrierRequired false c in
    if (requiredRevision c =? 0) || (requiredRevision c <=? revision c)
    then (transitionLocked now StateReady (set_requiredRevision 0 c), None)
    else (transitionLocked now StateSynchronizing c, None).

Definition acceptBarrier (now : Z) (d : WatchEvent) (c : Client) : outcome :=
  if (we_Revision d =? 0) || String.eqb (we_Cursor d) ""
  then fails "invalid synchronization barrier" c
  else match snapshot c with
       | Some sn => snapshotBarrier now d sn c
       | None => resumeBarrier now d c
       end.

Definition acceptHeartbeat (d : WatchEvent) (c : Client) : outcome :=
  if bool_decide (is_Some (snapshot c)) || negb (we_Revision d =? revision c)
     || String.eqb (we_Cursor d) "" || negb (String.eqb (we_Cursor d) (cursor c))
  then fails "heartbeat does not match accepted revision/cursor" c
  else (c, None).

Definition snapshotEntry (d : WatchEvent) (e : watch_payload) (sn : snapshotState) (c : Client)
    : outcome :=
  if (we_Revision d =? 0) || (sn_revision sn <? we_Revision d)
     || negb (String.eqb (we_Cursor d) "")
  then fails "invalid snapshot entry envelope" c
  else match e with
       | BaseHostEvent b =>
           match baseHostDeltaDomain b with
           | Err err => (c, Some err)
           | Ok domain =>
               if default false (bh_Remove <$> b)
               then fails "snapshot cannot contain base-domain removals" c
               else if bool_decide (is_Some (sn_baseHosts sn !! domain))
               then fails "snapshot contains duplicate base domain" c
               else if baseHostMax c <=? Z.of_nat (size (sn_baseHosts sn))
               then fails "base-domain snapshot exceeds configured bound" c
               else (set_snapshot (Some (mkSnapshot (sn_revision sn) (sn_expectedCursor sn)
                                           (sn_previousCursor sn)
                                           (<[domain := we_Revision d]> (sn_baseHosts sn)))) c,
                     None)
           end
       | _ => fails "credential/vbucket snapshot entries are forbidden" c
       end.

Definition liveMutation (now : Z) (d : WatchEvent) (e : watch_payload) (c : Client) : outcome :=
  if (revision c =? 0) || String.eqb (cursor c) ""
  then fails "watch mutation received before snapshot" c
  else if we_Revision d <=? revision c
  then fails "duplicate or reordered watch mutation" (transitionLocked now StateDisconnected c)
  else if negb (we_Revision d =? u64 (revision c + 1)) || String.eqb (we_Cursor d) ""
          || String.eqb (we_Cursor d) (cursor c)
  then
    let c := set_watchGaps (u64 (watchGaps c + 1)) c in
    let c := set_lastGap (we_Revision d) c in
    fails "watch revision gap" (transitionLocked now StateDisconnected c)
  else
    match applyEntityLocked now e (we_Revision d) c with
    | (c, Some err) => (transitionLocked now StateDisconnected c, Some err)
    | (c, None) =>
        let c := set_cursor (we_Cursor d) (set_revision (we_Revision d) c) in
        if negb (requiredRevision c =? 0) && (requiredRevision c <=? revision c) then
          let c := set_requiredRevision 0 c in
          if negb (barrierRequired c) then (transitionLocked now StateReady c, None)
          else (c, None)
        else (c, None)
    end.

(** The body of [processWatch] under the lock. *)
Definition watchBody (now : Z) (d : WatchEvent) (e : watch_payload) (c : Client) : outcome :=
  if negb (bool_decide (state c = StateReady)) && negb (bool_decide (state c = StateSynchronizing))
  then (c, Some (Named ErrUnsynchronized))
  else match e with
       | SnapshotBegin => beginSnapshot now d c
       | SynchronizationBarrier => acceptBarrier now d c
       | Heartbeat => acceptHeartbeat d c
       | _ =>
           match snapshot c with
           | Some sn => snapshotEntry d e sn c
           | None => liveMutation now d e c
           end
       end.

(** With the deferred handling of an error. *)
Definition processWatch (now : Z) (delta : option WatchEvent) (c : Client) : outcome :=
  match delta with
  | None => fails "empty watch event" c
  | Some d =>
      match we_Event d with
      | None => fails "empty watch event" c
      | Some e =>
          match watchBody now d e c with
          | (c, Some err) =>
              (transitionLocked now StateDisconnected (set_barrierRequired true c), Some err)
          | (c, None) => (c, None)
          end
      end
  end.

(** ** Readers *)

Definition Ready (c : Client) : bool := bool_decide (state c = StateReady).

Definition baseHostCount (c : Client) : Z := Z.of_nat (size (baseHosts c)).

(** [lookupSnapshot]: the revision and epoch a lookup runs at. *)
Definition lookupSnapshot (c : Client) : result error (Z * Z) :=
  if negb (bool_decide (state c = StateReady)) then Err (Named ErrUnsynchronized)
  else if negb (connected c) then Err (Named errNotConnected)
  else Ok (revision c, epoch c).

Definition stillCurrent (rev ep : Z) (c : Client) : bool :=
  bool_decide (state c = StateReady) && (revision c =? rev) && (epoch c =? ep).

Definition BeginResolution (c : Client) : result error (Z * Z) := lookupSnapshot c.

Definition ValidateResolution (stamp : Z * Z) (c : Client) : result error unit :=
  if negb (stillCurrent stamp.1 stamp.2 c) then Err (Named ErrRevisionRace) else Ok tt.

Definition LookupBaseHost (hostname : string) (c : Client) : result error (string * bool) :=
  if negb (bool_decide (state c = StateReady)) then Err (Named ErrUnsynchronized)
  else
    let host := ToLower (TrimSuffix (TrimSpace hostname) ".") in
    if is_ip host then Ok ("", false)
    else if (str_len host =? 0) || (253 <? str_len host)
    then Err (Named ErrInvalidVBucketArgument)
    else if negb (forallb label_ok (Split host ".")) then Err (Named ErrInvalidVBucketArgument)
    else
      let labels := Split host "." in
      let candidates := (fun i => Join (drop i labels) ".") <$> seq 0 (length labels) in
      match list_find (fun cand => is_Some (baseHosts c !! cand)) candidates with
      | Some (_, best) => if String.eqb best "" then Ok ("", false) else Ok (best, true)
      | None => Ok ("", false)
      end.

(** ** Sections of the unary calls under the lock *)

Definition checkUnaryRevision (now rev expected : Z) (c : Client) : outcome :=
  if rev =? expected then (c, None)
  else if bool_decide (state c = StateShutdown) then (c, Some (Named ErrRevisionRace))
  else
    let c :=
      if rev <? expected then requestResyncLocked now c
      else if revision c <? rev then
        let c := set_requiredRevision (Z.max (requiredRevision c) rev) c in
        if bool_decide (state c = StateReady) then transitionLocked now StateSynchronizing c else c
      else c in
    (c, Some (Named ErrRevisionRace)).

(** [CreateVBucket] after its RPC; [resp] is the response's revision. *)
Definition createReply (now rev : Z) (resp : option Z) (c : Client) : outcome :=
  let bad := (requestResyncLocked now c, Some (Named ErrRevisionRace)) in
  match resp with
  | None => bad
  | Some r =>
      if (r =? 0) || (r <=? rev) then bad
      else if bool_decide (state c = StateShutdown) then (c, None)
      else if revision c <? r then
        let c := set_requiredRevision (Z.max (requiredRevision c) r) c in
        if bool_decide (state c = StateReady) || bool_decide (state c = StateSynchronizing)
        then (transitionLocked now StateSynchronizing c, None) else (c, None)
      else (c, None)
  end.

(** The insertion of a loaded entry, the same for both caches: [rev] is the revision
    the lookup started at, [cur] the client's. *)
Definition insertEntry {S A} `{TimedStore S string (cached A)} (now : Z) (key : string)
    (candidate : cached A) (s : S) : S * load_result A :=
  let (s, newer) := store_get now key s in
  match newer with
  | Some newer =>
      if ce_Revision candidate <=? ce_Revision newer then (s, LoadEntry newer)
      else (store_set now key candidate (ce_TTL candidate) s, LoadEntry candidate)
  | None => (store_set now key candidate (ce_TTL candidate) s, LoadEntry candidate)
  end.

Definition admitEntry {S A} `{TimedStore S string (cached A)} (now : Z) (key : string)
    (rev cur : Z) (candidate : cached A) (s : S) : S * load_result A :=
  let (s, newer) := store_get now key s in
  let arbitrate :=
    if cur <? ce_Revision candidate then (s, LoadResync)
    else if negb (cur =? rev) || negb (ce_Revision candidate =? cur) then (s, LoadRace)
    else insertEntry now key candidate s in
  match newer with
  | Some newer =>
      if (ce_Revision candidate <? ce_Revision newer) && (ce_Revision newer =? cur)
      then (s, LoadEntry newer) else arbitrate
  | None => arbitrate
  end.

Definition load_value {A} (r : load_result A) : result error (cached A) :=
  match r with LoadEntry e => Ok e | _ => Err (Named ErrRevisionRace) end.

Definition load_resync {A} (now : Z) (r : load_result A) (c : Client) : Client :=
  match r with LoadResync => requestResyncLocked now c | _ => c end.

(** [ep] is the epoch the lookup started at. *)
Definition admitCredentials (now : Z) (key : string) (rev ep : Z) (candidate : cached Cred)
    (c : Client) : Client * result error (cached Cred) :=
  if negb (bool_decide (state c = StateReady)) || negb (epoch c =? ep)
  then (c, Err (Named ErrRevisionRace))
  else
    let (cc, r) := admitEntry now key rev (revision c) candidate (credentials c) in
    (load_resync now r (set_credentials cc c), load_value r).

Definition admitVBucket (now : Z) (key : string) (rev ep : Z) (candidate : cached Conf)
    (c : Client) : Client * result error (cached Conf) :=
  if negb (bool_decide (state c = StateReady)) || negb (epoch c =? ep)
  then (c, Err (Named ErrRevisionRace))
  else
    let (vc, r) := admitEntry now key rev (revision c) candidate (vbuckets c) in
    (load_resync now r (set_vbuckets vc c), load_value r).

(** The loader after its RPC: the revision check, the parsed response, the insertion. *)
Definition loadCredentials (now : Z) (key : string) (rev ep respRev : Z)
    (parsed : result error (cached Cred)) (c : Client) : Client * result error (cached Cred) :=
  match checkUnaryRevision now respRev rev c with
  | (c, Some err) => (c, Err err)
  | (c, None) =>
      match parsed with
      | Err err => (c, Err err)
      | Ok candidate => admitCredentials now key rev ep candidate c
      end
  end.

Definition loadVBucket (now : Z) (key : string) (rev ep respRev : Z)
    (parsed : result error (cached Conf)) (c : Client) : Client * result error (cached Conf) :=
  match checkUnaryRevision now respRev rev c with
  | (c, Some err) => (c, Err err)
  | (c, None) =>
      match parsed with
      | Err err => (c, Err err)
      | Ok candidate => admitVBucket now key rev ep candidate c
      end
  end.

Definition readCredentials (now : Z) (key : string) (c : Client) : Client * option (cached Cred) :=
  let (cc, r) := store_get now key (credentials c) in (set_credentials cc c, r).

Definition readVBucket (now : Z) (key : string) (c : Client) : Client * option (cached Conf) :=
  let (vc, r) := store_get now key (vbuckets c) in (set_vbuckets vc c, r).

(** ** Interleavings

    The client is shared by the watch goroutine and by the requests; each takes the
    lock for one of the steps below, so a history is any sequence of them, each with
    the clock's reading. *)
Inductive event :=
| EvConnecting
| EvShutdown
| EvDrainResync
| EvTakeStateChanged
| EvTransport (b : bool)
| EvOpenWatch
| EvWatch (d : option WatchEvent)
| EvDisconnected (reason : option error)
| EvResync
| EvUnaryRevision (rev expected : Z)
| EvCreateReply (rev : Z) (resp : option Z)
| EvLoadCredentials (key : string) (rev ep respRev : Z) (parsed : result error (cached Cred))
| EvLoadVBucket (key : string) (rev ep respRev : Z) (parsed : result error (cached Conf))
| EvReadCredentials (key : string)
| EvReadVBucket (key : string).

Definition step (e : Z * event) (c : Client) : Client :=
  let now := e.1 in
  match e.2 with
  | EvConnecting => markUnsynchronized now StateConnecting c
  | EvShutdown => markUnsynchronized now StateShutdown c
  | EvDrainResync => drainResync c
  | EvTakeStateChanged => set_stateChanged false c
  | EvTransport b => publishTransport b c
  | EvOpenWatch => (openWatch now c).1
  | EvWatch d => (processWatch now d c).1
  | EvDisconnected reason => markDisconnected now reason c
  | EvResync => requestResyncLocked now c
  | EvUnaryRevision rev expected => (checkUnaryRevision now rev expected c).1
  | EvCreateReply rev resp => (createReply now rev resp c).1
  | EvLoadCredentials key rev ep respRev parsed =>
      (loadCredentials now key rev ep respRev parsed c).1
  | EvLoadVBucket key rev ep respRev parsed => (loadVBucket now key rev ep respRev parsed c).1
  | EvReadCredentials key => (readCredentials now key c).1
  | EvReadVBucket key => (readVBucket now key c).1
  end.

Definition run (history : list (Z * event)) (c : Client) : Client :=
  foldl (fun c e => step e c) c history.
End client.
