(* ===== verification/ClientInv.v ===== *)
(** * ClientInv: what every history of the control-plane client maintains

    The invariant of [Client], its preservation by every step, and the properties of
    histories: readiness, revisions, stamps, the host registry, and the coherence of
    the caches with the control plane's state. *)
From S2P Require Import Prelude GoStrings GoNet Errors Cache Client.

Create Rewrite HintDb client.

Section invariant.
Context `{Platform} {Cred Conf CC VC : Type}
  `{TimedStoreLaws CC string (cached Cred)} `{TimedStoreLaws VC string (cached Conf)}.

Abbreviation Client := (Client (CC:=CC) (VC:=VC)).
Implicit Types (c : Client) (now rev ep : Z).

(** ** What a transition changes *)

Lemma transitionLocked_state now s c :
  state (transitionLocked now s c) =
  if bool_decide (state c = StateShutdown) then StateShutdown else s.
Proof.
  unfold transitionLocked. repeat case_bool_decide; simpl; congruence.
Qed.

Lemma transitionLocked_epoch now s c :
  epoch (transitionLocked now s c) =
  if bool_decide (state c = StateReady) && negb (bool_decide (s = StateReady))
  then u64 (epoch c + 1) else epoch c.
Proof.
  unfold transitionLocked. repeat case_bool_decide; simpl; congruence.
Qed.

Lemma transitionLocked_revision now s c : revision (transitionLocked now s c) = revision c.
Proof. unfold transitionLocked. by repeat case_bool_decide. Qed.
Lemma transitionLocked_cursor now s c : cursor (transitionLocked now s c) = cursor c.
Proof. unfold transitionLocked. by repeat case_bool_decide. Qed.
Lemma transitionLocked_snapshot now s c : snapshot (transitionLocked now s c) = snapshot c.
Proof. unfold transitionLocked. by repeat case_bool_decide. Qed.
Lemma transitionLocked_lastGap now s c : lastGap (transitionLocked now s c) = lastGap c.
Proof. unfold transitionLocked. by repeat case_bool_decide. Qed.
Lemma transitionLocked_requiredRevision now s c : requiredRevision (transitionLocked now s c) = requiredRevision c.
Proof. unfold transitionLocked. by repeat case_bool_decide. Qed.
Lemma transitionLocked_baseHosts now s c : baseHosts (transitionLocked now s c) = baseHosts c.
Proof. unfold transitionLocked. by repeat case_bool_decide. Qed.
Lemma transitionLocked_baseHostMax now s c : baseHostMax (transitionLocked now s c) = baseHostMax c.
Proof. unfold transitionLocked. by repeat case_bool_decide. Qed.
Lemma transitionLocked_barrierRequired now s c : barrierRequired (transitionLocked now s c) = barrierRequired c.
Proof. unfold transitionLocked. by repeat case_bool_decide. Qed.
Lemma transitionLocked_lastDisconnectReason now s c : lastDisconnectReason (transitionLocked now s c) = lastDisconnectReason c.
Proof. unfold transitionLocked. by repeat case_bool_decide. Qed.
Lemma transitionLocked_resync now s c : resync (transitionLocked now s c) = resync c.
Proof. unfold transitionLocked. by repeat case_bool_decide. Qed.
Lemma transitionLocked_connected now s c : connected (transitionLocked now s c) = connected c.
Proof. unfold transitionLocked. by repeat case_bool_decide. Qed.
Lemma transitionLocked_credentials now s c : credentials (transitionLocked now s c) = credentials c.
Proof. unfold transitionLocked. by repeat case_bool_decide. Qed.
Lemma transitionLocked_vbuckets now s c : vbuckets (transitionLocked now s c) = vbuckets c.
Proof. unfold transitionLocked. by repeat case_bool_decide. Qed.
Lemma transitionLocked_watchGaps now s c : watchGaps (transitionLocked now s c) = watchGaps c.
Proof. unfold transitionLocked. by repeat case_bool_decide. Qed.

#[local] Hint Rewrite transitionLocked_state transitionLocked_revision
  transitionLocked_cursor transitionLocked_snapshot transitionLocked_lastGap
  transitionLocked_requiredRevision transitionLocked_baseHosts transitionLocked_baseHostMax
  transitionLocked_barrierRequired transitionLocked_lastDisconnectReason
  transitionLocked_resync transitionLocked_connected transitionLocked_credentials
  transitionLocked_vbuckets transitionLocked_watchGaps : client.

Ltac frame := cbn; autorewrite with client; cbn.

(** ** The invariant *)

Record client_inv (c : Client) : Prop := {
  inv_ready : state c = StateReady ->
    barrierRequired c = false /\ snapshot c = None /\ requiredRevision c = 0 /\
    revision c <> 0;
  inv_required : requiredRevision c = 0 \/ revision c < requiredRevision c;
  inv_revision : 0 <= revision c < 2 ^ 64;
  inv_cursor : revision c = 0 <-> cursor c = "";
  inv_hosts : Z.of_nat (size (baseHosts c)) <= Z.max 0 (baseHostMax c);
  inv_snapshot sn : snapshot c = Some sn ->
    revision c <= sn_revision sn < 2 ^ 64 /\ sn_revision sn <> 0 /\
    Z.of_nat (size (sn_baseHosts sn)) <= Z.max 0 (baseHostMax c) /\
    (forall k v, ~ store_holds (credentials c) k v) /\
    (forall k v, ~ store_holds (vbuckets c) k v);
  inv_credentials k v : store_holds (credentials c) k v -> ce_Revision v <= revision c;
  inv_vbuckets k v : store_holds (vbuckets c) k v -> ce_Revision v <= revision c
}.

(** The same accepted revision and registry, no more cached, readiness not gained. *)
Lemma inv_frame c c' :
  client_inv c ->
  revision c' = revision c -> cursor c' = cursor c ->
  baseHosts c' = baseHosts c -> baseHostMax c' = baseHostMax c ->
  (snapshot c' = snapshot c \/ snapshot c' = None) ->
  (requiredRevision c' = 0 \/ revision c < requiredRevision c') ->
  (forall k v, store_holds (credentials c') k v -> store_holds (credentials c) k v) ->
  (forall k v, store_holds (vbuckets c') k v -> store_holds (vbuckets c) k v) ->
  (state c' = StateReady ->
     state c = StateReady /\ barrierRequired c' = barrierRequired c /\ requiredRevision c' = 0) ->
  client_inv c'.
Proof.
  intros I Hr Hc Hb Hm Hs Hq Hcc Hvc Hst. constructor; rewrite ?Hr, ?Hc, ?Hb, ?Hm.
  - intros (Hs1 & -> & ->)%Hst. destruct (inv_ready c I Hs1) as (? & E & ? & ?).
    rewrite E in Hs. destruct Hs as [->| ->]; auto.
  - done.
  - apply I.
  - apply I.
  - apply I.
  - intros sn Hsn. destruct Hs as [Hs|Hs]; [|congruence]. rewrite Hs in Hsn.
    destruct (inv_snapshot c I sn Hsn) as (? & ? & ? & Hnc & Hnv).
    split_and!; try lia; [intros k v Hh%Hcc; by apply (Hnc k v)
                         |intros k v Hh%Hvc; by apply (Hnv k v)].
  - intros k v Hh%Hcc. by apply (inv_credentials c I k v).
  - intros k v Hh%Hvc. by apply (inv_vbuckets c I k v).
Qed.

(** Moving to a state that is not ready. *)
Lemma inv_transition now s c :
  client_inv c -> s <> StateReady -> client_inv (transitionLocked now s c).
Proof.
  intros I Hs. apply (inv_frame c); frame; auto; [apply I|].
  case_bool_decide; [done|]. by intros ->.
Qed.

Lemma inv_barrier c : client_inv c -> state c <> StateReady -> client_inv (set_barrierRequired true c).
Proof. intros I Hs. apply (inv_frame c); cbn; auto; [apply I|done]. Qed.

Lemma inv_resync now c : client_inv c -> client_inv (requestResyncLocked now c).
Proof.
  intros I. unfold requestResyncLocked. case_bool_decide; [done|].
  apply (inv_frame c); frame; auto; [apply I|]. by case_bool_decide.
Qed.

Lemma inv_markUnsynchronized now s c :
  client_inv c -> s <> StateReady -> client_inv (markUnsynchronized now s c).
Proof.
  intros I Hs. apply (inv_frame c); frame; auto; [apply I|]. case_bool_decide; [done|]. by intros ->.
Qed.

Lemma inv_markDisconnected now r c : client_inv c -> client_inv (markDisconnected now r c).
Proof.
  intros I. apply (inv_frame c); frame; auto; [apply I|]. by case_bool_decide.
Qed.
(** ** Applying a mutation *)

(** What [applyEntityLocked] leaves alone and what it may change. *)
Record applied (rev : Z) (c c' : Client) (r : option error) : Prop := {
  ap_state : state c' = state c;
  ap_revision : revision c' = revision c;
  ap_cursor : cursor c' = cursor c;
  ap_epoch : epoch c' = epoch c;
  ap_snapshot : snapshot c' = snapshot c;
  ap_required : requiredRevision c' = requiredRevision c;
  ap_barrier : barrierRequired c' = barrierRequired c;
  ap_max : baseHostMax c' = baseHostMax c;
  ap_hosts : Z.of_nat (size (baseHosts c)) <= Z.max 0 (baseHostMax c) ->
             Z.of_nat (size (baseHosts c')) <= Z.max 0 (baseHostMax c);
  ap_error : r <> None -> baseHosts c' = baseHosts c;
  ap_credentials k v : store_holds (credentials c') k v ->
    store_holds (credentials c) k v \/ (r = None /\ ce_Revision v = rev /\ ce_Found v = false);
  ap_vbuckets k v : store_holds (vbuckets c') k v ->
    store_holds (vbuckets c) k v \/ (r = None /\ ce_Revision v = rev /\ ce_Found v = false)
}.

Lemma applied_fails rev c msg : applied rev c (fails msg c).1 (fails msg c).2.
Proof. constructor; simpl; auto. Qed.

Lemma applied_credentials rev c cc r :
  (forall k v, store_holds cc k v ->
     store_holds (credentials c) k v \/ (r = None /\ ce_Revision v = rev /\ ce_Found v = false)) ->
  applied rev c (set_credentials cc c) r.
Proof. intros Hc. constructor; cbn; auto. Qed.

Lemma applied_vbuckets rev c vc r :
  (forall k v, store_holds vc k v ->
     store_holds (vbuckets c) k v \/ (r = None /\ ce_Revision v = rev /\ ce_Found v = false)) ->
  applied rev c (set_vbuckets vc c) r.
Proof. intros Hc. constructor; cbn; auto. Qed.

Lemma cacheTTL_positive source ttl d : cacheTTL source ttl = Ok d -> 0 < d.
Proof.
  unfold cacheTTL. intros Ht. destruct ttl as [t|]; [|done].
  destruct (negb _); [done|]. destruct (AsDuration t <=? 0) eqn:E; [done|].
  injection Ht as <-. by apply Z.leb_gt.
Qed.

Lemma applyCredentials_applied now rev d c :
  applied rev c (applyCredentials now rev d c).1 (applyCredentials now rev d c).2.
Proof.
  unfold applyCredentials. destruct d as [d|]; [|apply applied_fails].
  destruct (String.eqb _ _); [apply applied_fails|].
  destruct (store_get now (cd_AccessKeyId d) (credentials c)) as [cc hot] eqn:E.
  assert (forall k v, store_holds cc k v -> store_holds (credentials c) k v) as Hk.
  { intros k v. change cc with (cc, hot).1. rewrite <-E. apply store_get_keeps. }
  destruct (cd_Remove d).
  - destruct (cacheTTL _ _) as [ttl|err] eqn:Et; simpl.
    + apply cacheTTL_positive in Et. destruct (bool_decide _); simpl.
      * apply (applied_credentials rev c). intros k v [[-> ->]|[_ Hh]]%store_set_holds; auto.
      * apply (applied_credentials rev c). auto.
    + apply (applied_credentials rev c). intros k v [_ Hh]%store_invalidate_holds. auto.
  - destruct (bool_decide (is_Some (cd_NegativeTtl d))); simpl.
    + apply (applied_credentials rev c). auto.
    + destruct (bool_decide _); simpl; apply (applied_credentials rev c); [|auto].
      intros k v [_ Hh]%store_invalidate_holds. auto.
Qed.

Lemma applyVBucket_applied now rev d c :
  applied rev c (applyVBucket now rev d c).1 (applyVBucket now rev d c).2.
Proof.
  unfold applyVBucket. destruct d as [d|]; [|apply applied_fails].
  destruct (_ || _); [apply applied_fails|].
  set (key := vbucketCacheKey _ _).
  destruct (store_get now key (vbuckets c)) as [vc hot] eqn:E.
  assert (forall k v, store_holds vc k v -> store_holds (vbuckets c) k v) as Hk.
  { intros k v. change vc with (vc, hot).1. rewrite <-E. apply store_get_keeps. }
  destruct (vd_Remove d).
  - destruct (cacheTTL _ _) as [ttl|err] eqn:Et; simpl.
    + apply cacheTTL_positive in Et. destruct (bool_decide _); simpl.
      * apply (applied_vbuckets rev c). intros k v [[-> ->]|[_ Hh]]%store_set_holds; auto.
      * apply (applied_vbuckets rev c). auto.
    + apply (applied_vbuckets rev c). intros k v [_ Hh]%store_invalidate_holds. auto.
  - destruct (bool_decide (is_Some (vd_NegativeTtl d))); simpl.
    + apply (applied_vbuckets rev c). auto.
    + destruct (bool_decide _); simpl; apply (applied_vbuckets rev c); [|auto].
      intros k v [_ Hh]%store_invalidate_holds. auto.
Qed.

Lemma applyBaseHost_applied rev d c :
  applied rev c (applyBaseHost rev d c).1 (applyBaseHost rev d c).2.
Proof.
  unfold applyBaseHost. destruct (baseHostDeltaDomain d) as [domain|err].
  2: { constructor; simpl; auto. }
  destruct (default false _); simpl.
  - constructor; cbn; auto; [|done]. rewrite map_size_delete.
    destruct (baseHosts c !! domain); simpl; lia.
  - destruct (bool_decide (baseHosts c !! domain = None)
      && (baseHostMax c <=? Z.of_nat (size (baseHosts c)))) eqn:E; [apply applied_fails|].
    constructor; cbn; auto; [|done]. rewrite map_size_insert.
    destruct (baseHosts c !! domain) eqn:Ed; simpl; [lia|].
    rewrite bool_decide_true in E by done. bool_to_prop. destruct E as [|E]; [done|].
    apply Z.leb_gt in E. lia.
Qed.

Lemma applyEntityLocked_applied now e rev c :
  applied rev c (applyEntityLocked now e rev c).1 (applyEntityLocked now e rev c).2.
Proof.
  destruct e; simpl; try apply applied_fails.
  - apply applyCredentials_applied.
  - apply applyBaseHost_applied.
  - apply applyVBucket_applied.
Qed.
(** ** Watch events preserve the invariant *)

Definition u64_range_ok (z : Z) : Prop := 0 <= z < 2 ^ 64.

Lemma inv_beginSnapshot now d c :
  client_inv c -> u64_range_ok (we_Revision d) -> client_inv (beginSnapshot now d c).1.
Proof.
  intros I Hd. unfold beginSnapshot. case_bool_decide as Hs; [done|].
  destruct (_ || _ || _) eqn:E; [done|]. bool_to_prop.
  constructor; frame.
  - by case_bool_decide.
  - apply I.
  - apply I.
  - apply I.
  - apply I.
  - intros sn [=<-]; simpl. unfold u64_range_ok in Hd.
    split_and!; try lia; [by rewrite map_size_empty; lia
                         |intros k v; apply store_clear_holds..].
  - intros k v Hh. by apply store_clear_holds in Hh.
  - intros k v Hh. by apply store_clear_holds in Hh.
Qed.

(** Accepting revision [r] with cursor [cur] while nothing cached is newer, then
    becoming ready or going on synchronizing. *)
Lemma inv_accept c c' (r : Z) (cur : string) :
  client_inv c ->
  revision c <= r < 2 ^ 64 -> r <> 0 -> cur <> "" ->
  revision c' = r -> cursor c' = cur -> baseHostMax c' = baseHostMax c ->
  Z.of_nat (size (baseHosts c')) <= Z.max 0 (baseHostMax c) ->
  snapshot c' = None ->
  (requiredRevision c' = 0 \/ r < requiredRevision c') ->
  (forall k v, store_holds (credentials c') k v -> ce_Revision v <= r) ->
  (forall k v, store_holds (vbuckets c') k v -> ce_Revision v <= r) ->
  (state c' = StateReady -> barrierRequired c' = false /\ requiredRevision c' = 0) ->
  client_inv c'.
Proof.
  intros I Hr Hr0 Hcur Er Ec Em Hh Es Hq Hc Hv Hst. pose proof (inv_revision c I).
  constructor; rewrite ?Er, ?Ec, ?Em, ?Es; auto; try done; try lia.
  intros Hs. destruct (Hst Hs). auto.
Qed.

Lemma inv_settle now c :
  client_inv c -> barrierRequired c = false -> snapshot c = None -> revision c <> 0 ->
  client_inv (settle now c).
Proof.
  intros I Hb Hs Hr. unfold settle. destruct (requiredRevision c =? 0) eqn:E.
  - apply Z.eqb_eq in E. apply (inv_accept c _ (revision c) (cursor c)); frame; auto.
    + pose proof (inv_revision c I). lia.
    + intros Hc. by apply Hr, (inv_cursor c I).
    + apply I.
    + apply I.
    + apply I.
  - by apply inv_transition.
Qed.

Lemma inv_snapshotBarrier now d sn c :
  client_inv c -> snapshot c = Some sn -> we_Revision d <> 0 -> we_Cursor d <> "" ->
  client_inv (snapshotBarrier now d sn c).1.
Proof.
  intros I Hs Hr0 Hc0. unfold snapshotBarrier. destruct (negb _) eqn:E1; [done|].
  destruct (_ && _); [done|]. destruct (_ && _ && _); [done|]. bool_to_prop.
  cbv zeta; cbn [fst]. destruct (inv_snapshot c I sn Hs) as (Hle & _ & Hsz & Hnc & Hnv).
  set (c1 := set_barrierRequired false _).
  set (c2 := if negb (requiredRevision c1 =? 0) && _ then set_requiredRevision 0 c1 else c1).
  assert (client_inv c2 /\ barrierRequired c2 = false /\ snapshot c2 = None /\
          revision c2 = we_Revision d) as (I2 & Hb2 & Hs2 & Hr2).
  { assert (requiredRevision c2 = 0 \/ we_Revision d < requiredRevision c2) as Hq.
    { subst c2. destruct (_ && _) eqn:Eq; [by left|]. bool_to_prop. cbn in *.
      destruct Eq as [Eq|Eq]; bool_to_prop; auto. }
    assert (forall P : Client -> Prop, P (set_requiredRevision 0 c1) -> P c1 -> P c2) as Hcase.
    { intros P ? ?. subst c2. by destruct (_ && _). }
    split_and!; [|apply Hcase; done..].
    apply (inv_accept c c2 (we_Revision d) (we_Cursor d)); auto;
      try (apply Hcase; cbn; auto; lia).
    - lia.
    - apply Hcase; intros k v Hh; by apply Hnc in Hh.
    - apply Hcase; intros k v Hh; by apply Hnv in Hh.
    - intros Hst. exfalso. assert (state c2 = state c) as Hsc by (by apply Hcase).
      rewrite Hsc in Hst. destruct (inv_ready c I Hst) as (_ & ? & _). congruence. }
  apply inv_settle; congruence.
Qed.
Lemma inv_resumeBarrier now d c :
  client_inv c -> snapshot c = None -> we_Revision d <> 0 ->
  client_inv (resumeBarrier now d c).1.
Proof.
  intros I Hs Hr0. unfold resumeBarrier. destruct (_ || _) eqn:E; [done|].
  bool_to_prop. cbv zeta.
  assert (revision c <> 0) as Hr by congruence.
  destruct (_ || _) eqn:Eq; cbn [fst].
  - apply (inv_accept c _ (revision c) (cursor c)); frame; auto.
    + pose proof (inv_revision c I). lia.
    + intros Hc. by apply Hr, (inv_cursor c I).
    + apply I.
    + apply I.
    + apply I.
  - cbn in Eq. bool_to_prop. apply (inv_frame c); frame; auto. by case_bool_decide.
Qed.

Lemma inv_acceptBarrier now d c : client_inv c -> client_inv (acceptBarrier now d c).1.
Proof.
  intros I. unfold acceptBarrier. destruct (_ || _) eqn:E; [done|]. bool_to_prop.
  destruct (snapshot c) as [sn|] eqn:Es.
  - by apply inv_snapshotBarrier.
  - by apply inv_resumeBarrier.
Qed.

Lemma inv_snapshotEntry d e sn c :
  client_inv c -> snapshot c = Some sn -> client_inv (snapshotEntry d e sn c).1.
Proof.
  intros I Hs. unfold snapshotEntry. destruct (_ || _ || _); [done|].
  destruct e as [| | |?|b|?]; try done. destruct (baseHostDeltaDomain b) as [domain|]; [|done].
  destruct (default false _); [done|]. case_bool_decide as Hd; [done|].
  destruct (_ <=? _) eqn:Em; [done|]. apply Z.leb_gt in Em.
  destruct (inv_snapshot c I sn Hs) as (? & ? & Hsz & Hnc & Hnv).
  constructor; cbn; try apply I.
  - intros Hst. destruct (inv_ready c I Hst) as (_ & ? & _). congruence.
  - intros sn' [=<-]; simpl. split_and!; auto; try lia. rewrite map_size_insert.
    destruct (sn_baseHosts sn !! domain) eqn:Ed; simpl; [|lia].
    exfalso. apply Hd. eauto.
Qed.

Lemma inv_liveMutation now d e c :
  client_inv c -> snapshot c = None -> u64_range_ok (we_Revision d) ->
  client_inv (liveMutation now d e c).1.
Proof.
  intros I Hs Hd. unfold liveMutation. destruct (_ || _) eqn:E0; [done|].
  destruct (we_Revision d <=? revision c) eqn:E1; [by apply inv_transition|].
  destruct (_ || _ || _) eqn:E2.
  { apply (inv_frame c); frame; auto; [apply I|]. by case_bool_decide. }
  bool_to_prop. pose proof (applyEntityLocked_applied now e (we_Revision d) c) as A.
  destruct (applyEntityLocked now e (we_Revision d) c) as [c1 [err|]]; simpl in A.
  { apply (inv_frame c); frame; rewrite ?(ap_state _ _ _ _ A), ?(ap_revision _ _ _ _ A),
      ?(ap_cursor _ _ _ _ A), ?(ap_max _ _ _ _ A), ?(ap_snapshot _ _ _ _ A),
      ?(ap_required _ _ _ _ A); auto.
    - by apply (ap_error _ _ _ _ A).
    - apply I.
    - intros k v [?|[? _]]%(ap_credentials _ _ _ _ A); done.
    - intros k v [?|[? _]]%(ap_vbuckets _ _ _ _ A); done.
    - by case_bool_decide. }
  assert (forall c2, revision c2 = we_Revision d -> cursor c2 = we_Cursor d ->
    baseHostMax c2 = baseHostMax c1 -> baseHosts c2 = baseHosts c1 -> snapshot c2 = snapshot c1 ->
    credentials c2 = credentials c1 -> vbuckets c2 = vbuckets c1 ->
    (requiredRevision c2 = 0 \/ we_Revision d < requiredRevision c2) ->
    (state c2 = StateReady -> barrierRequired c2 = false /\ requiredRevision c2 = 0) ->
    client_inv c2) as Hacc.
  { intros c2 ? ? Em Eb Es Ec Ev ? ?. unfold u64_range_ok in Hd. pose proof (inv_revision c I).
    rewrite (ap_max _ _ _ _ A) in Em. rewrite (ap_snapshot _ _ _ _ A), Hs in Es.
    pose proof (ap_hosts _ _ _ _ A (inv_hosts c I)) as Hsz. rewrite <-Eb in Hsz.
    apply (inv_accept c c2 (we_Revision d) (we_Cursor d)); auto; try lia.
    - rewrite Ec. intros k v [Hh|(_ & -> & _)]%(ap_credentials _ _ _ _ A); [|lia].
      apply (inv_credentials c I) in Hh. lia.
    - rewrite Ev. intros k v [Hh|(_ & -> & _)]%(ap_vbuckets _ _ _ _ A); [|lia].
      apply (inv_vbuckets c I) in Hh. lia. }
  cbv zeta. destruct (_ && _) eqn:Eq; cbn in Eq |- *; [destruct (barrierRequired c1) eqn:Eb|]; cbn;
    bool_to_prop; apply Hacc; frame; auto.
  - intros Hst. rewrite (ap_state _ _ _ _ A) in Hst. rewrite (ap_barrier _ _ _ _ A) in Eb.
    destruct (inv_ready c I Hst). congruence.
  - destruct Eq as [Eq|Eq]; bool_to_prop; auto.
  - rewrite (ap_state _ _ _ _ A), (ap_barrier _ _ _ _ A), (ap_required _ _ _ _ A).
    intros Hst. by destruct (inv_ready c I Hst) as (? & _ & ? & _).
Qed.
Lemma inv_watchBody now d e c :
  client_inv c -> u64_range_ok (we_Revision d) -> client_inv (watchBody now d e c).1.
Proof.
  intros I Hd. unfold watchBody. destruct (_ && _); [done|].
  destruct (snapshot c) as [sn|] eqn:Es; destruct e;
    eauto using inv_beginSnapshot, inv_acceptBarrier, inv_snapshotEntry, inv_liveMutation.
  all: unfold acceptHeartbeat; by destruct (_ || _).
Qed.

Definition watch_ok (d : option WatchEvent) : Prop :=
  forall w, d = Some w -> u64_range_ok (we_Revision w).

Lemma inv_processWatch now d c :
  client_inv c -> watch_ok d -> client_inv (processWatch now d c).1.
Proof.
  intros I Hd. unfold processWatch. destruct d as [d|]; [|done].
  destruct (we_Event d) as [e|]; [|done].
  pose proof (inv_watchBody now d e c I (Hd d eq_refl)) as I1.
  destruct (watchBody now d e c) as [c1 [err|]]; [|done]. cbn [fst] in *.
  apply (inv_frame c1); frame; auto; [apply I1|]. by case_bool_decide.
Qed.

(** ** Unary calls *)

Lemma inv_checkUnaryRevision now rev expected c :
  client_inv c -> client_inv (checkUnaryRevision now rev expected c).1.
Proof.
  intros I. unfold checkUnaryRevision. destruct (rev =? expected); [done|].
  case_bool_decide; [done|]. cbn [fst]. destruct (rev <? expected); [by apply inv_resync|].
  destruct (revision c <? rev) eqn:E; [|done]. apply Z.ltb_lt in E. cbv zeta. cbn [state set_requiredRevision].
  pose proof (inv_required c I).
  case_bool_decide; apply (inv_frame c); frame; auto; try lia.
  - by case_bool_decide.
  - done.
Qed.

Lemma inv_createReply now rev resp c :
  client_inv c -> client_inv (createReply now rev resp c).1.
Proof.
  intros I. unfold createReply. destruct resp as [r|]; [|by apply inv_resync].
  destruct (_ || _); [by apply inv_resync|]. case_bool_decide; [done|].
  destruct (revision c <? r) eqn:E; [|done]. apply Z.ltb_lt in E. cbv zeta.
  cbn [state set_requiredRevision].
  destruct (_ || _) eqn:Es; apply (inv_frame c); frame; auto; try lia.
  - by rewrite bool_decide_false by done.
  - bool_to_prop. done.
Qed.

(** What a load leaves in a cache. *)
Lemma insertEntry_holds {S A} `{TimedStoreLaws S string (cached A)} now key candidate (s : S) k v :
  store_holds (insertEntry now key candidate s).1 k v ->
  store_holds s k v \/ (k = key /\ v = candidate).
Proof.
  unfold insertEntry. destruct (store_get now key s) as [s1 newer] eqn:E.
  assert (forall k v, store_holds s1 k v -> store_holds s k v) as Hk.
  { intros k' v'. change s1 with (s1, newer).1. rewrite <-E. apply store_get_keeps. }
  assert (store_holds (store_set now key candidate (ce_TTL candidate) s1) k v ->
          store_holds s k v \/ (k = key /\ v = candidate)) as Hset.
  { destruct (Z_lt_dec 0 (ce_TTL candidate)) as [Ht|Ht].
    - intros [?|[_ ?]]%store_set_holds; auto.
    - rewrite store_set_nop by lia. auto. }
  destruct newer as [n|]; [destruct (_ <=? _)|]; simpl; auto.
Qed.

Lemma admitEntry_holds {S A} `{TimedStoreLaws S string (cached A)} now key rev cur candidate (s : S) k v :
  store_holds (admitEntry now key rev cur candidate s).1 k v ->
  store_holds s k v \/ (k = key /\ v = candidate /\ ce_Revision candidate = cur /\ cur = rev).
Proof.
  unfold admitEntry. destruct (store_get now key s) as [s1 newer] eqn:E.
  assert (forall k v, store_holds s1 k v -> store_holds s k v) as Hk.
  { intros k' v'. change s1 with (s1, newer).1. rewrite <-E. apply store_get_keeps. }
  set (arb := if cur <? _ then _ else _).
  assert (store_holds arb.1 k v -> store_holds s k v \/
            (k = key /\ v = candidate /\ ce_Revision candidate = cur /\ cur = rev)) as Harb.
  { subst arb. destruct (cur <? _); [simpl; auto|]. destruct (_ || _) eqn:Eq; [simpl; auto|].
    bool_to_prop. intros [?|[? ?]]%insertEntry_holds; auto. }
  destruct newer as [n|]; [destruct (_ && _)|]; simpl; auto.
Qed.
Lemma inv_load_resync {A} now (r : load_result A) c :
  client_inv c -> client_inv (load_resync now r c).
Proof. intros I. destruct r; simpl; auto using inv_resync. Qed.

Lemma inv_set_credentials c cc :
  client_inv c ->
  (forall k v, store_holds cc k v -> store_holds (credentials c) k v \/
                 (state c = StateReady /\ ce_Revision v <= revision c)) ->
  client_inv (set_credentials cc c).
Proof.
  intros I Hc. constructor; cbn; try apply I.
  - intros sn Hs. destruct (inv_snapshot c I sn Hs) as (? & ? & ? & Hn & ?).
    split_and!; auto; try lia. intros k v [Hh|[Hst _]]%Hc; [by apply Hn in Hh|].
    destruct (inv_ready c I Hst) as (_ & ? & _). congruence.
  - intros k v [Hh|[_ Hh]]%Hc; [by apply (inv_credentials c I k v)|done].
Qed.

Lemma inv_set_vbuckets c vc :
  client_inv c ->
  (forall k v, store_holds vc k v -> store_holds (vbuckets c) k v \/
                 (state c = StateReady /\ ce_Revision v <= revision c)) ->
  client_inv (set_vbuckets vc c).
Proof.
  intros I Hc. constructor; cbn; try apply I.
  - intros sn Hs. destruct (inv_snapshot c I sn Hs) as (? & ? & ? & ? & Hn).
    split_and!; auto; try lia. intros k v [Hh|[Hst _]]%Hc; [by apply Hn in Hh|].
    destruct (inv_ready c I Hst) as (_ & ? & _). congruence.
  - intros k v [Hh|[_ Hh]]%Hc; [by apply (inv_vbuckets c I k v)|done].
Qed.

Lemma inv_admitCredentials now key rev ep candidate c :
  client_inv c -> client_inv (admitCredentials now key rev ep candidate c).1.
Proof.
  intros I. unfold admitCredentials. destruct (_ || _) eqn:E; [done|]. bool_to_prop.
  destruct (admitEntry _ _ _ _ _ _) as [cc r] eqn:Ea. simpl. apply inv_load_resync.
  apply inv_set_credentials; [done|]. intros k v. change cc with (cc, r).1. rewrite <-Ea.
  intros [?|(_ & -> & -> & _)]%admitEntry_holds; auto with lia.
Qed.

Lemma inv_admitVBucket now key rev ep candidate c :
  client_inv c -> client_inv (admitVBucket now key rev ep candidate c).1.
Proof.
  intros I. unfold admitVBucket. destruct (_ || _) eqn:E; [done|]. bool_to_prop.
  destruct (admitEntry _ _ _ _ _ _) as [vc r] eqn:Ea. simpl. apply inv_load_resync.
  apply inv_set_vbuckets; [done|]. intros k v. change vc with (vc, r).1. rewrite <-Ea.
  intros [?|(_ & -> & -> & _)]%admitEntry_holds; auto with lia.
Qed.

Lemma inv_loadCredentials now key rev ep respRev parsed c :
  client_inv c -> client_inv (loadCredentials now key rev ep respRev parsed c).1.
Proof.
  intros I. unfold loadCredentials.
  pose proof (inv_checkUnaryRevision now respRev rev c I) as I1.
  destruct (checkUnaryRevision _ _ _ _) as [c1 [err|]]; [done|].
  destruct parsed; [|done]. by apply inv_admitCredentials.
Qed.

Lemma inv_loadVBucket now key rev ep respRev parsed c :
  client_inv c -> client_inv (loadVBucket now key rev ep respRev parsed c).1.
Proof.
  intros I. unfold loadVBucket.
  pose proof (inv_checkUnaryRevision now respRev rev c I) as I1.
  destruct (checkUnaryRevision _ _ _ _) as [c1 [err|]]; [done|].
  destruct parsed; [|done]. by apply inv_admitVBucket.
Qed.

(** ** Every step, every history *)

Definition event_ok (e : Z * event (Cred:=Cred) (Conf:=Conf)) : Prop :=
  match e.2 with EvWatch d => watch_ok d | _ => True end.

Lemma inv_step e c : client_inv c -> event_ok e -> client_inv (step e c).
Proof.
  destruct e as [now e]. intros I He. destruct e; cbn in *;
    auto using inv_markUnsynchronized, inv_markDisconnected, inv_resync, inv_processWatch,
      inv_checkUnaryRevision, inv_createReply, inv_loadCredentials, inv_loadVBucket.
  all: try (by apply inv_markUnsynchronized).
  all: try (by constructor; cbn; apply I).
  - by apply inv_transition.
  - unfold readCredentials. destruct (store_get _ _ _) as [cc r] eqn:E; simpl.
    apply inv_set_credentials; [done|]. intros k v Hh. left. change cc with (cc, r).1 in Hh.
    rewrite <-E in Hh. by eapply store_get_keeps.
  - unfold readVBucket. destruct (store_get _ _ _) as [vc r] eqn:E; simpl.
    apply inv_set_vbuckets; [done|]. intros k v Hh. left. change vc with (vc, r).1 in Hh.
    rewrite <-E in Hh. by eapply store_get_keeps.
Qed.

Lemma run_app h1 h2 c : run (h1 ++ h2) c = run h2 (run h1 c).
Proof. apply foldl_app. Qed.

Lemma inv_run h c : client_inv c -> Forall event_ok h -> client_inv (run h c).
Proof.
  revert c. induction h as [|e h IH]; intros c I Hh; [done|].
  apply Forall_cons in Hh as [He Hh]. cbn. apply IH; [|done]. by apply inv_step.
Qed.

Lemma inv_new now m cc vc :
  (forall k v, ~ store_holds cc k v) -> (forall k v, ~ store_holds vc k v) ->
  client_inv (newClient now m cc vc).
Proof.
  intros Hc Hv. constructor; cbn; try done; auto; try lia.
  - rewrite map_size_empty. lia.
  - intros k v Hh. by apply Hc in Hh.
  - intros k v Hh. by apply Hv in Hh.
Qed.
End invariant.
