(* ===== verification/ClientHistory.v ===== *)
(** * ClientHistory: readiness, revisions and resolution stamps over histories

    What one step of [Client] does to the revision, the epoch and the readiness, and
    what that means for a request that begins and validates a resolution around any
    interleaving of other steps. *)
From S2P Require Import Prelude GoStrings GoNet Errors Cache Client ClientInv.

Section history.
Context `{Platform} {Cred Conf CC VC : Type}
  `{TimedStoreLaws CC string (cached Cred)} `{TimedStoreLaws VC string (cached Conf)}.

Abbreviation Client := (Client (CC:=CC) (VC:=VC)).
Implicit Types (c : Client) (now rev ep : Z).

(** Readiness and epoch: ready to ready keeps the epoch, leaving readiness advances
    it by one, and nothing else touches it. *)
Definition epoch_step c c' : Prop :=
  (state c = StateReady /\ state c' = StateReady /\ epoch c' = epoch c) \/
  (state c = StateReady /\ state c' <> StateReady /\ epoch c' = u64 (epoch c + 1)) \/
  (state c <> StateReady /\ epoch c' = epoch c).

Record step_rel c c' : Prop := {
  sr_revision : revision c <= revision c';
  sr_epoch : epoch_step c c';
  sr_hosts : state c = StateReady -> state c' = StateReady -> revision c' = revision c ->
             baseHosts c' = baseHosts c;
  sr_shutdown : state c = StateShutdown -> state c' = StateShutdown
}.

(** A step within readiness, or away from it, that keeps the revision. *)
Lemma step_same c c' :
  revision c' = revision c -> baseHosts c' = baseHosts c ->
  state c' = state c -> epoch c' = epoch c -> step_rel c c'.
Proof.
  intros Hr Hb Hs He. constructor; try congruence; [lia|]. unfold epoch_step. rewrite Hs, He.
  destruct (decide (state c = StateReady)); auto.
Qed.

Lemma step_transition now s c c' :
  state c' = state c -> epoch c' = epoch c -> revision c' = revision c ->
  baseHosts c' = baseHosts c -> step_rel c (transitionLocked now s c').
Proof.
  intros Hs He Hr Hb. constructor.
  - rewrite transitionLocked_revision. lia.
  - unfold epoch_step. rewrite transitionLocked_state, transitionLocked_epoch, Hs, He.
    destruct (decide (state c = StateReady)) as [E|E].
    + rewrite E, bool_decide_false, (bool_decide_true (StateReady = StateReady)) by done. simpl.
      case_bool_decide; simpl; auto.
    + rewrite (bool_decide_false (state c = StateReady)) by done. auto.
  - intros _ _ _. by rewrite transitionLocked_baseHosts.
  - intros E. rewrite transitionLocked_state, Hs, E. by rewrite bool_decide_true.
Qed.

Lemma step_trans c c1 c2 :
  step_rel c c1 -> step_rel c1 c2 ->
  (state c1 = StateReady -> state c = StateReady) ->
  (state c = StateReady -> state c1 <> StateReady -> state c2 <> StateReady) ->
  step_rel c c2.
Proof.
  intros [Hr1 He1 Hb1 Hs1] [Hr2 He2 Hb2 Hs2] Hin Hn. constructor.
  - lia.
  - unfold epoch_step in *. destruct (decide (state c1 = StateReady)) as [E|E].
    + destruct He1 as [(?&?&E1)|[(?&?&?)|(?&E1)]]; [|done|by specialize (Hin E)].
      destruct He2 as [(?&?&E2)|[(?&?&E2)|(?&?)]]; rewrite ?E1 in *; auto; done.
    + destruct He2 as [(?&?&?)|[(?&?&?)|(_&E2)]]; [done|done|]. rewrite E2.
      destruct He1 as [(?&?&?)|[(?&?&?)|(?&?)]]; [done| |by auto].
      right. left. auto.
  - intros E0 E2 Er. destruct (decide (state c1 = StateReady)) as [E|E].
    + rewrite Hb2, Hb1; auto; lia.
    + by destruct (Hn E0 E).
  - auto.
Qed.

(** [c1] differs from [c] only in fields the relation does not see, and a transition
    to a state other than ready follows. *)
Ltac leave c1 := apply (step_transition _ _ _ c1); cbn; auto.

Lemma step_resync now c : step_rel c (requestResyncLocked now c).
Proof.
  unfold requestResyncLocked. case_bool_decide; [by apply step_same|].
  assert (step_rel c (transitionLocked now StateDisconnected (set_barrierRequired true c))) as Hs.
  { by apply step_transition. }
  destruct Hs. constructor; cbn; auto.
Qed.

Lemma step_unsync now s c : step_rel c (markUnsynchronized now s c).
Proof.
  assert (step_rel c (transitionLocked now s c)) as Hs by (by apply step_transition).
  destruct Hs. constructor; cbn; auto.
Qed.

Lemma step_disconnected now r c : step_rel c (markDisconnected now r c).
Proof.
  unfold markDisconnected.
  assert (step_rel c (transitionLocked now StateDisconnected
    (set_lastDisconnectReason (disconnectReason r) c))) as Hs by (by apply step_transition).
  destruct Hs. constructor; cbn; auto.
Qed.

Lemma step_unary now rev expected c : step_rel c (checkUnaryRevision now rev expected c).1.
Proof.
  unfold checkUnaryRevision. destruct (rev =? expected); [by apply step_same|].
  case_bool_decide; [by apply step_same|]. cbn [fst].
  destruct (rev <? expected); [apply step_resync|].
  destruct (revision c <? rev); [|by apply step_same]. cbv zeta.
  destruct (bool_decide _); [by apply step_transition|by apply step_same].
Qed.

Lemma step_create now rev resp c : step_rel c (createReply now rev resp c).1.
Proof.
  unfold createReply. destruct resp as [r|]; [|apply step_resync].
  destruct (_ || _); [apply step_resync|]. case_bool_decide; [by apply step_same|].
  destruct (revision c <? r); [|by apply step_same]. cbv zeta.
  destruct (_ || _); [by apply step_transition|by apply step_same].
Qed.

Lemma step_load_resync {A} now (r : load_result A) c c' :
  step_rel c c' -> state c' = state c -> epoch c' = epoch c -> step_rel c (load_resync now r c').
Proof.
  intros Hs E1 E2. destruct r; simpl; auto.
  apply (step_trans c c'); [done|apply step_resync|congruence|congruence].
Qed.

Lemma step_loadCredentials now key rev ep respRev parsed c :
  step_rel c (loadCredentials now key rev ep respRev parsed c).1.
Proof.
  unfold loadCredentials. pose proof (step_unary now respRev rev c) as Hu.
  destruct (checkUnaryRevision now respRev rev c) as [c1 [err|]] eqn:E; [done|].
  assert (c1 = c) as ->.
  { unfold checkUnaryRevision in E. destruct (respRev =? rev); [congruence|].
    destruct (bool_decide _); discriminate. }
  destruct parsed as [cand|]; [|done]. unfold admitCredentials.
  destruct (_ || _); [done|]. destruct (admitEntry _ _ _ _ _ _) as [cc r]. simpl.
  apply step_load_resync; [by apply step_same|done|done].
Qed.

Lemma step_loadVBucket now key rev ep respRev parsed c :
  step_rel c (loadVBucket now key rev ep respRev parsed c).1.
Proof.
  unfold loadVBucket. pose proof (step_unary now respRev rev c) as Hu.
  destruct (checkUnaryRevision now respRev rev c) as [c1 [err|]] eqn:E; [done|].
  assert (c1 = c) as ->.
  { unfold checkUnaryRevision in E. destruct (respRev =? rev); [congruence|].
    destruct (bool_decide _); discriminate. }
  destruct parsed as [cand|]; [|done]. unfold admitVBucket.
  destruct (_ || _); [done|]. destruct (admitEntry _ _ _ _ _ _) as [vc r]. simpl.
  apply step_load_resync; [by apply step_same|done|done].
Qed.
(** A step from a state that is not ready. *)
Lemma step_not_ready c c' :
  state c <> StateReady -> state c <> StateShutdown -> revision c <= revision c' ->
  epoch c' = epoch c -> step_rel c c'.
Proof. intros Hs Hd Hr He. constructor; try done. right. right. auto. Qed.

(** A step that stays ready. *)
Lemma step_ready c c' :
  state c = StateReady -> state c' = StateReady -> epoch c' = epoch c ->
  revision c <= revision c' -> (revision c' = revision c -> baseHosts c' = baseHosts c) ->
  step_rel c c'.
Proof.
  intros Hs Hs' He Hr Hb. constructor; auto; [left; auto|congruence].
Qed.

Lemma epoch_transition_not_ready now s c :
  state c <> StateReady -> epoch (transitionLocked now s c) = epoch c.
Proof. intros Hs. by rewrite transitionLocked_epoch, bool_decide_false. Qed.

(** The outcome of the body of [processWatch]: a step, and an error never enters
    readiness. *)
Definition body_rel c (r : Client * option error) : Prop :=
  step_rel c r.1 /\ (r.2 <> None -> state r.1 = StateReady -> state c = StateReady).

Lemma body_fails msg c : body_rel c (fails msg c).
Proof. split; [by apply step_same|done]. Qed.

Lemma body_ok c c' : step_rel c c' -> body_rel c (c', None).
Proof. split; [done|]. intros []; done. Qed.

Lemma body_begin now d c : body_rel c (beginSnapshot now d c).
Proof.
  unfold beginSnapshot. case_bool_decide; [apply body_fails|].
  destruct (_ || _ || _); [apply body_fails|]. cbv zeta. apply body_ok.
  assert (step_rel c (transitionLocked now StateSynchronizing c)) as Hs by (by apply step_transition).
  destruct Hs. constructor; cbn; auto.
Qed.

Lemma settle_epoch now c : state c <> StateReady -> epoch (settle now c) = epoch c.
Proof. intros. unfold settle. case_match; by rewrite epoch_transition_not_ready. Qed.

Lemma settle_revision now c : revision (settle now c) = revision c.
Proof. unfold settle. case_match; by rewrite transitionLocked_revision. Qed.

Lemma body_snapshotBarrier now d sn c :
  client_inv c -> snapshot c = Some sn -> state c <> StateShutdown ->
  body_rel c (snapshotBarrier now d sn c).
Proof.
  intros I Hs Hd. unfold snapshotBarrier. destruct (negb _) eqn:E; [apply body_fails|].
  destruct (_ && _); [apply body_fails|]. destruct (_ && _ && _); [apply body_fails|].
  bool_to_prop. cbv zeta. apply body_ok.
  destruct (inv_snapshot c I sn Hs) as (? & _).
  assert (state c <> StateReady) as Hnr.
  { intros Hr. destruct (inv_ready c I Hr) as (_ & ? & _). congruence. }
  apply step_not_ready; auto.
  - rewrite settle_revision. destruct (_ && _); cbn; lia.
  - rewrite settle_epoch; destruct (_ && _); done.
Qed.

Lemma body_resumeBarrier now d c :
  client_inv c -> state c <> StateShutdown -> body_rel c (resumeBarrier now d c).
Proof.
  intros I Hd. unfold resumeBarrier. destruct (_ || _); [apply body_fails|]. cbv zeta.
  destruct (_ || _); apply body_ok; by apply step_transition.
Qed.

Lemma body_entry d e sn c : body_rel c (snapshotEntry d e sn c).
Proof.
  unfold snapshotEntry. destruct (_ || _ || _); [apply body_fails|].
  destruct e as [| | |?|b|?]; try apply body_fails.
  destruct (baseHostDeltaDomain b) as [domain|err]; [|by split; [apply step_same|]].
  destruct (default false _); [apply body_fails|]. case_bool_decide; [apply body_fails|].
  destruct (_ <=? _); [apply body_fails|]. apply body_ok. by apply step_same.
Qed.

Lemma body_live now d e c :
  client_inv c -> state c <> StateShutdown -> body_rel c (liveMutation now d e c).
Proof.
  intros I Hd. unfold liveMutation. destruct (_ || _); [apply body_fails|].
  destruct (we_Revision d <=? revision c) eqn:E1.
  { split; [by apply step_transition|]. cbn. rewrite transitionLocked_state. by case_bool_decide. }
  apply Z.leb_gt in E1. destruct (_ || _ || _).
  { split; [by apply step_transition|]. cbn. rewrite transitionLocked_state. by case_bool_decide. }
  pose proof (applyEntityLocked_applied now e (we_Revision d) c) as A.
  destruct (applyEntityLocked now e (we_Revision d) c) as [c1 [err|]]; simpl in A.
  { split; cbn.
    - apply step_transition; [apply A..|]. by apply (ap_error _ _ _ _ A).
    - rewrite transitionLocked_state. by case_bool_decide. }
  cbv zeta. destruct A as [As Ar _ Ae _ Aq Ab _ _ _ _ _].
  destruct (decide (state c = StateReady)) as [Hr|Hr].
  - destruct (inv_ready c I Hr) as (? & _ & Hq & _).
    assert (requiredRevision c1 = 0) as Hq1 by congruence.
    cbn [requiredRevision set_cursor set_revision]. rewrite Hq1, Z.eqb_refl. simpl.
    apply body_ok, step_ready; cbn; try congruence; lia.
  - assert (forall c2, state c2 <> StateReady -> epoch (transitionLocked now StateReady c2) = epoch c2)
      as Het by (intros; by apply epoch_transition_not_ready).
    destruct (_ && _); [destruct (negb _)|]; apply body_ok, step_not_ready;
      rewrite ?transitionLocked_revision; cbn; auto; try lia.
    rewrite Het; cbn; congruence.
Qed.
Lemma body_watch now d e c : client_inv c -> body_rel c (watchBody now d e c).
Proof.
  intros I. unfold watchBody. destruct (_ && _) eqn:E; [by split; [apply step_same|]|].
  assert (state c <> StateShutdown) as Hd.
  { intros Hs. rewrite Hs, !bool_decide_false in E by done. done. }
  destruct e; [apply body_begin| | |destruct (snapshot c) as [sn|] eqn:Es..];
    auto using body_live, body_entry.
  - unfold acceptBarrier. destruct (_ || _); [apply body_fails|].
    destruct (snapshot c) eqn:Es; [by apply body_snapshotBarrier|by apply body_resumeBarrier].
  - unfold acceptHeartbeat. destruct (_ || _); [apply body_fails|].
    apply body_ok. by apply step_same.
Qed.

Lemma step_watch now d c : client_inv c -> step_rel c (processWatch now d c).1.
Proof.
  intros I. unfold processWatch. destruct d as [d|]; [|by apply step_same].
  destruct (we_Event d) as [e|]; [|by apply step_same].
  destruct (body_watch now d e c I) as [Hs Hr].
  destruct (watchBody now d e c) as [c1 [err|]]; cbn in *; [|done].
  apply (step_trans c c1); [done|by apply step_transition|by apply Hr|].
  intros _ _. rewrite transitionLocked_state. by case_bool_decide.
Qed.

Lemma step_rel_step e c : client_inv c -> step_rel c (step e c).
Proof.
  intros I. destruct e as [now e]. destruct e; cbn;
    auto using step_unsync, step_watch, step_disconnected, step_resync, step_unary, step_create,
      step_loadCredentials, step_loadVBucket.
  all: try (by apply step_same).
  - by apply step_transition.
  - unfold readCredentials. destruct (store_get _ _ _). by apply step_same.
  - unfold readVBucket. destruct (store_get _ _ _). by apply step_same.
Qed.

(** ** Histories *)

Definition epoch_ok c : Prop := 0 <= epoch c < 2 ^ 64.

Lemma epoch_ok_step c c' : step_rel c c' -> epoch_ok c -> epoch_ok c'.
Proof.
  intros Hs He. unfold epoch_ok in *.
  destruct (sr_epoch _ _ Hs) as [(_ & _ & ->)|[(_ & _ & ->)|(_ & ->)]]; auto using u64_range.
Qed.

(** The epoch counts the departures from readiness; without one a ready client is
    ready after every prefix. *)
Lemma run_epoch h c :
  client_inv c -> Forall event_ok h -> epoch_ok c ->
  exists n : nat, (n <= length h)%nat /\ epoch (run h c) = u64 (epoch c + Z.of_nat n) /\
    (n = 0%nat -> state c = StateReady ->
     forall h1 h2, h = h1 ++ h2 -> state (run h1 c) = StateReady /\ epoch (run h1 c) = epoch c).
Proof.
  revert c. induction h as [|e h IH]; intros c I Hh He.
  - exists 0%nat. cbn. rewrite Z.add_0_r, u64_small by done. split_and!; auto.
    intros _ Hs h1 h2 Heq. symmetry in Heq. apply app_nil in Heq as [-> ->]. done.
  - apply Forall_cons in Hh as [Hok Hh]. pose proof (step_rel_step e c I) as Hs.
    destruct (IH (step e c)) as (n & Hn & Hep & Hall);
      [by apply inv_step|done|by eapply epoch_ok_step|].
    assert (forall h1 h2, e :: h = h1 ++ h2 ->
      h1 = [] \/ exists h1', h1 = e :: h1' /\ h = h1' ++ h2) as Hsplit.
    { intros [|e' h1] h2 Heq; [by left|]. right. simplify_eq/=. eauto. }
    change (run (e :: h) c) with (run h (step e c)).
    destruct (sr_epoch _ _ Hs) as [(Hr & Hr' & E)|[(Hr & Hr' & E)|(Hr & E)]]; rewrite E in Hep.
    + exists n. cbn [length]. split_and!; [lia|done|]. intros Hn0 _ h1 h2 Heq.
      destruct (Hsplit h1 h2 Heq) as [->|(h1' & -> & ->)]; [done|].
      rewrite <-E. by eapply Hall.
    + exists (S n). cbn [length]. split_and!; [lia| |done]. rewrite Hep. unfold u64.
      rewrite Zplus_mod_idemp_l. f_equal. lia.
    + exists n. cbn [length]. split_and!; [lia|done|done].
Qed.

Lemma run_revision h c : client_inv c -> Forall event_ok h -> revision c <= revision (run h c).
Proof.
  revert c. induction h as [|e h IH]; intros c I Hh; [cbn; lia|].
  apply Forall_cons in Hh as [Hok Hh]. pose proof (sr_revision _ _ (step_rel_step e c I)).
  specialize (IH (step e c) (inv_step e c I Hok) Hh).
  change (run (e :: h) c) with (run h (step e c)). lia.
Qed.

(** A history that stays ready at one revision keeps the registry. *)
Lemma run_hosts h c :
  client_inv c -> Forall event_ok h ->
  (forall h1 h2, h = h1 ++ h2 -> state (run h1 c) = StateReady) ->
  revision (run h c) = revision c -> baseHosts (run h c) = baseHosts c.
Proof.
  revert c. induction h as [|e h IH]; intros c I Hh Hall Hr; [done|].
  apply Forall_cons in Hh as [Hok Hh].
  pose proof (step_rel_step e c I) as Hs. pose proof (inv_step e c I Hok) as I1.
  pose proof (run_revision h (step e c) I1 Hh) as Hle. pose proof (sr_revision _ _ Hs) as Hle1.
  change (run (e :: h) c) with (run h (step e c)) in *.
  rewrite IH; auto; [|intros h1 h2 ->; apply (Hall (e :: h1) h2); done|lia].
  apply (sr_hosts _ _ Hs); [by apply (Hall [] (e :: h))|by apply (Hall [e] h)|lia].
Qed.
(** ** Confirmed writes

    A write the control plane confirmed at revision [r] is pending until the client
    has accepted [r]. *)
Definition pending (r : Z) c : Prop := r <= revision c \/ r <= requiredRevision c.

Lemma pending_frame r c c' :
  pending r c -> revision c <= revision c' -> requiredRevision c <= requiredRevision c' ->
  pending r c'.
Proof. unfold pending. lia. Qed.

Lemma pending_transition r now s c : pending r c -> pending r (transitionLocked now s c).
Proof.
  intros Hp. apply (pending_frame r c); auto;
    rewrite ?transitionLocked_revision, ?transitionLocked_requiredRevision; lia.
Qed.

Lemma pending_resync r now c : pending r c -> pending r (requestResyncLocked now c).
Proof.
  intros Hp. unfold requestResyncLocked. destruct (bool_decide _); [done|].
  apply (pending_transition r now StateDisconnected (set_barrierRequired true c)). exact Hp.
Qed.

Lemma pending_unary r now rev expected c :
  pending r c -> pending r (checkUnaryRevision now rev expected c).1.
Proof.
  intros Hp. unfold checkUnaryRevision. destruct (rev =? expected); [done|].
  destruct (bool_decide _); [done|]. cbn [fst].
  destruct (rev <? expected); [by apply pending_resync|].
  destruct (revision c <? rev); [|done]. cbv zeta.
  assert (pending r (set_requiredRevision (Z.max (requiredRevision c) rev) c)) as Hq.
  { apply (pending_frame r c); cbn; auto; lia. }
  destruct (bool_decide _); [by apply pending_transition|done].
Qed.

Lemma pending_create r now rev resp c :
  pending r c -> pending r (createReply now rev resp c).1.
Proof.
  intros Hp. unfold createReply. destruct resp as [r'|]; [|by apply pending_resync].
  destruct (_ || _); [by apply pending_resync|]. destruct (bool_decide _); [done|].
  destruct (revision c <? r'); [|done]. cbv zeta.
  assert (pending r (set_requiredRevision (Z.max (requiredRevision c) r') c)) as Hq.
  { apply (pending_frame r c); cbn; auto; lia. }
  destruct (_ || _); [by apply pending_transition|done].
Qed.

Lemma pending_barrier r now d c :
  client_inv c -> pending r c -> pending r (acceptBarrier now d c).1.
Proof.
  intros I Hp. unfold acceptBarrier. destruct (_ || _); [done|].
  destruct (snapshot c) as [sn|] eqn:Es.
  - destruct (inv_snapshot c I sn Es) as (? & _). unfold snapshotBarrier.
    destruct (negb _) eqn:E; [done|]. destruct (_ && _); [done|].
    destruct (_ && _ && _); [done|]. cbv zeta. bool_to_prop.
    assert (forall c1, pending r c1 -> pending r (settle now c1)) as Hset.
    { intros c1 ?. unfold settle. case_match; by apply pending_transition. }
    apply Hset. unfold pending in *. destruct (_ && _) eqn:Eq; cbn in *; bool_to_prop; lia.
  - unfold resumeBarrier. destruct (_ || _); [done|]. cbv zeta.
    destruct (_ || _) eqn:Eq; apply pending_transition; [|exact Hp].
    unfold pending in *. cbn in *. bool_to_prop. destruct Eq; bool_to_prop;
      pose proof (inv_revision c I); lia.
Qed.

Lemma pending_live r now d e c :
  pending r c -> pending r (liveMutation now d e c).1.
Proof.
  intros Hp. unfold liveMutation. destruct (_ || _); [done|].
  destruct (we_Revision d <=? revision c) eqn:E1; [by apply pending_transition|].
  destruct (_ || _ || _); [by apply pending_transition|]. bool_to_prop.
  pose proof (applyEntityLocked_applied now e (we_Revision d) c) as A.
  assert (pending r (applyEntityLocked now e (we_Revision d) c).1) as Hp1.
  { unfold pending. rewrite (ap_revision _ _ _ _ A), (ap_required _ _ _ _ A). exact Hp. }
  pose proof (ap_revision _ _ _ _ A) as Er.
  destruct (applyEntityLocked now e (we_Revision d) c) as [c1 [err|]]; cbn in *;
    [by apply pending_transition|].
  cbv zeta. unfold pending in *.
  destruct (_ && _) eqn:Eq; cbn in *; [destruct (barrierRequired c1)|]; cbn;
    rewrite ?transitionLocked_revision, ?transitionLocked_requiredRevision; cbn;
    bool_to_prop; lia.
Qed.

Lemma pending_watch r now d c : client_inv c -> pending r c -> pending r (processWatch now d c).1.
Proof.
  intros I Hp. unfold processWatch. destruct d as [d|]; [|done].
  destruct (we_Event d) as [e|]; [|done].
  assert (pending r (watchBody now d e c).1) as Hb.
  { unfold watchBody. destruct (_ && _); [done|].
    assert (pending r (match snapshot c with Some sn => snapshotEntry d e sn c
                       | None => liveMutation now d e c end).1) as Hm.
    { destruct (snapshot c) as [sn|]; [|by apply pending_live].
      unfold snapshotEntry. destruct (_ || _ || _); [done|]. destruct e; try done.
      destruct (baseHostDeltaDomain _); [|done]. destruct (default false _); [done|].
      destruct (bool_decide _); [done|]. by destruct (_ <=? _). }
    destruct e; auto using pending_barrier.
    - unfold beginSnapshot. destruct (bool_decide _); [done|]. destruct (_ || _ || _); [done|].
      apply (pending_frame r c); cbn; auto;
        rewrite ?transitionLocked_revision, ?transitionLocked_requiredRevision; lia.
    - unfold acceptHeartbeat. by destruct (_ || _). }
  destruct (watchBody now d e c) as [c1 [err|]]; [|done].
  apply (pending_transition r now StateDisconnected (set_barrierRequired true c1)). exact Hb.
Qed.

Lemma pending_load_resync {A} r now (l : load_result A) c :
  pending r c -> pending r (load_resync now l c).
Proof. intros Hp. destruct l; simpl; auto using pending_resync. Qed.

Lemma pending_step r e c : client_inv c -> pending r c -> pending r (step e c).
Proof.
  intros I Hp. destruct e as [now e].
  destruct e; cbn; auto using pending_watch, pending_resync, pending_unary, pending_create,
    pending_transition.
  - apply (pending_frame r c); cbn; auto;
      rewrite ?transitionLocked_revision, ?transitionLocked_requiredRevision; lia.
  - apply (pending_frame r c); cbn; auto;
      rewrite ?transitionLocked_revision, ?transitionLocked_requiredRevision; lia.
  - apply (pending_frame r c); cbn; auto;
      rewrite ?transitionLocked_revision, ?transitionLocked_requiredRevision; cbn; lia.
  - unfold loadCredentials. pose proof (pending_unary r now respRev rev c Hp) as Hu.
    destruct (checkUnaryRevision _ _ _ _) as [c1 [err|]]; [done|]. destruct parsed; [|done].
    unfold admitCredentials. destruct (_ || _); [done|]. destruct (admitEntry _ _ _ _ _ _).
    by apply pending_load_resync.
  - unfold loadVBucket. pose proof (pending_unary r now respRev rev c Hp) as Hu.
    destruct (checkUnaryRevision _ _ _ _) as [c1 [err|]]; [done|]. destruct parsed; [|done].
    unfold admitVBucket. destruct (_ || _); [done|]. destruct (admitEntry _ _ _ _ _ _).
    by apply pending_load_resync.
  - unfold readCredentials. by destruct (store_get _ _ _).
  - unfold readVBucket. by destruct (store_get _ _ _).
Qed.

Lemma pending_run r h c : client_inv c -> Forall event_ok h -> pending r c -> pending r (run h c).
Proof.
  revert c. induction h as [|e h IH]; intros c I Hh Hp; [done|].
  apply Forall_cons in Hh as [? ?]. apply (IH (step e c)); auto using inv_step, pending_step.
Qed.

(** ** Stamps *)

Lemma lookupSnapshot_Ok c stamp :
  lookupSnapshot c = Ok stamp -> state c = StateReady /\ stamp = (revision c, epoch c).
Proof.
  unfold lookupSnapshot. case_bool_decide; simpl; [|done]. destruct (connected c); [|done].
  simpl. intros [=<-]. auto.
Qed.

Lemma ValidateResolution_Ok stamp c :
  ValidateResolution stamp c = Ok tt ->
  state c = StateReady /\ revision c = stamp.1 /\ epoch c = stamp.2.
Proof.
  unfold ValidateResolution, stillCurrent. destruct (_ && _ && _) eqn:E; [|done].
  intros _. bool_to_prop. auto.
Qed.

(** A revision that is the same at both ends was the same throughout. *)
Lemma stamp_revision h1 h2 c stamp :
  client_inv c -> Forall event_ok (h1 ++ h2) ->
  BeginResolution c = Ok stamp -> ValidateResolution stamp (run (h1 ++ h2) c) = Ok tt ->
  revision (run h1 c) = stamp.1.
Proof.
  intros I [Hh1 Hh2]%Forall_app [_ ->]%lookupSnapshot_Ok (_ & Hr' & _)%ValidateResolution_Ok.
  simpl in *. pose proof (run_revision h1 c I Hh1).
  pose proof (run_revision h2 (run h1 c) (inv_run h1 c I Hh1) Hh2) as Hr2.
  rewrite <-run_app, Hr' in Hr2. lia.
Qed.

Lemma stamp_stable h1 h2 c stamp :
  client_inv c -> epoch_ok c -> Forall event_ok (h1 ++ h2) ->
  Z.of_nat (length (h1 ++ h2)) < 2 ^ 64 ->
  BeginResolution c = Ok stamp -> ValidateResolution stamp (run (h1 ++ h2) c) = Ok tt ->
  state (run h1 c) = StateReady /\ revision (run h1 c) = stamp.1 /\
  epoch (run h1 c) = stamp.2 /\ baseHosts (run h1 c) = baseHosts c.
Proof.
  intros I Hep Hh Hlen Hb Hv. pose proof (stamp_revision h1 h2 c stamp I Hh Hb Hv) as Hr1.
  apply lookupSnapshot_Ok in Hb as [Hs ->]. apply ValidateResolution_Ok in Hv as (_ & _ & He').
  simpl in *.
  destruct (run_epoch (h1 ++ h2) c I Hh Hep) as (n & Hn & En & Hall).
  assert (n = 0%nat) as ->.
  { rewrite He' in En. unfold u64 in En. unfold epoch_ok in Hep.
    apply Nat2Z.inj. assert (Z.of_nat n < 2 ^ 64) by lia.
    destruct (Z_lt_dec (epoch c + Z.of_nat n) (2 ^ 64)).
    - rewrite Z.mod_small in En; lia.
    - rewrite (Z.mod_eq _ (2 ^ 64)) in En by lia.
      assert ((epoch c + Z.of_nat n) / 2 ^ 64 = 1) as Hd; [|lia].
      symmetry. apply (Z.div_unique _ _ _ (epoch c + Z.of_nat n - 2 ^ 64)); lia. }
  specialize (Hall eq_refl Hs). apply Forall_app in Hh as [Hh1 Hh2].
  destruct (Hall h1 h2 eq_refl). split_and!; [done|done|done|].
  apply run_hosts; auto. intros h1' h1'' ->. apply (Hall h1' (h1'' ++ h2)). by rewrite app_assoc.
Qed.

Lemma run_shutdown h c :
  client_inv c -> Forall event_ok h -> state c = StateShutdown -> state (run h c) = StateShutdown.
Proof.
  revert c. induction h as [|e h IH]; intros c I Hh Hs; [done|].
  apply Forall_cons in Hh as [? ?]. apply (IH (step e c)); [by apply inv_step|done|].
  by apply (sr_shutdown _ _ (step_rel_step e c I)).
Qed.

(** A reply that confirms revision [r] leaves it pending, unless the client is shut
    down. *)
Lemma createReply_pending now rev r c :
  (createReply now rev (Some r) c).2 = None ->
  r <> 0 /\ (pending r (createReply now rev (Some r) c).1 \/ state c = StateShutdown).
Proof.
  unfold createReply. destruct (_ || _) eqn:E; [done|]. bool_to_prop. split; [done|].
  case_bool_decide; [auto|]. left. unfold pending.
  destruct (revision c <? r) eqn:Er; bool_to_prop; cbv zeta; [|cbn; lia].
  destruct (_ || _); rewrite ?transitionLocked_revision, ?transitionLocked_requiredRevision; cbn;
    rewrite ?transitionLocked_revision, ?transitionLocked_requiredRevision; cbn; lia.
Qed.

(** ** The properties of histories *)

Section properties.
Context (now0 m : Z) (cc0 : CC) (vc0 : VC).
Context (cc0_empty : forall k v, ~ store_holds cc0 k v)
        (vc0_empty : forall k v, ~ store_holds vc0 k v).

Abbreviation reachable h := (run h (newClient now0 m cc0 vc0)).

Lemma reachable_inv h : Forall event_ok h -> client_inv (reachable h).
Proof. intros. apply inv_run; [|done]. by apply inv_new. Qed.

Lemma reachable_epoch h : Forall event_ok h -> epoch_ok (reachable h).
Proof.
  intros Hh. destruct (run_epoch h (newClient now0 m cc0 vc0)) as (n & _ & E & _);
    [by apply inv_new|done|by split|]. unfold epoch_ok. rewrite E. apply u64_range.
Qed.

(** C15. After any interleaving of watch events, connection changes and unary replies,
    a client that reports ready has passed its synchronization barrier, is not in the
    middle of a snapshot, waits for no confirmed write, and has accepted a revision
    with its cursor; the host registry respects its bound and no cached entry is
    newer than the accepted revision. *)
Theorem ready_is_synchronized (h : list (Z * event)) (Hh : Forall event_ok h) :
  let c := reachable h in
  (Ready c = true ->
     barrierRequired c = false /\ snapshot c = None /\ requiredRevision c = 0 /\
     revision c <> 0 /\ cursor c <> "") /\
  baseHostCount c <= Z.max 0 (baseHostMax c) /\
  (forall k v, store_holds (credentials c) k v -> ce_Revision v <= revision c) /\
  (forall k v, store_holds (vbuckets c) k v -> ce_Revision v <= revision c).
Proof.
  pose proof (reachable_inv h Hh) as I. split_and!; [|apply I..].
  intros Hr%bool_decide_eq_true. destruct (inv_ready _ I Hr) as (? & ? & ? & ?).
  split_and!; auto. by intros ?%(inv_cursor _ I).
Qed.

(** The accepted revision never goes back, and a client that was shut down stays
    so, whatever follows. *)
Theorem revision_monotone (h1 h2 : list (Z * event)) (Hh : Forall event_ok (h1 ++ h2)) :
  revision (reachable h1) <= revision (reachable (h1 ++ h2)) /\
  (state (reachable h1) = StateShutdown -> state (reachable (h1 ++ h2)) = StateShutdown).
Proof.
  apply Forall_app in Hh as [Hh1 Hh2]. rewrite run_app.
  pose proof (reachable_inv h1 Hh1) as I. split; [by apply run_revision|by apply run_shutdown].
Qed.

(** C14. If a stamp taken by [BeginResolution] still validates after fewer than 2^64
    further steps, then the client was ready, at the stamped revision and epoch and
    with the same host registry, at every moment in between: the epoch's wrap-around
    and readiness lost and regained cannot go unnoticed. *)
Theorem resolution_stable (h0 h1 h2 : list (Z * event)) (stamp : Z * Z)
    (Hh : Forall event_ok (h0 ++ h1 ++ h2)) (Hlen : Z.of_nat (length (h1 ++ h2)) < 2 ^ 64)
    (Hbegin : BeginResolution (reachable h0) = Ok stamp)
    (Hvalid : ValidateResolution stamp (reachable (h0 ++ h1 ++ h2)) = Ok tt) :
  let c := reachable (h0 ++ h1) in
  state c = StateReady /\ revision c = stamp.1 /\ epoch c = stamp.2 /\
  baseHosts c = baseHosts (reachable h0).
Proof.
  apply Forall_app in Hh as [Hh0 Hh]. rewrite !run_app in *.
  rewrite <-run_app in Hvalid. apply (stamp_stable h1 h2); auto using reachable_inv, reachable_epoch.
Qed.

(** C19. A bucket creation the control plane confirmed at revision [r] is visible to
    every later lookup: from the reply on, the client is ready only at revisions that
    include it. *)
Theorem read_your_writes (h0 h : list (Z * event)) (now rev r : Z)
    (Hh : Forall event_ok (h0 ++ h)) (Hr : 0 <= r)
    (Hok : (createReply now rev (Some r) (reachable h0)).2 = None) :
  let c := run h (createReply now rev (Some r) (reachable h0)).1 in
  Ready c = true -> r <= revision c.
Proof.
  apply Forall_app in Hh as [Hh0 Hh]. pose proof (reachable_inv h0 Hh0) as I.
  set (c0 := reachable h0) in *. intros c Hready%bool_decide_eq_true.
  pose proof (inv_createReply now rev (Some r) c0 I) as I1.
  destruct (inv_ready _ (inv_run h _ I1 Hh) Hready) as (_ & _ & Hq & _).
  destruct (createReply_pending now rev r c0 Hok) as [Hr0 [Hp|Hs]].
  - destruct (pending_run r h _ I1 Hh Hp) as [?|Hq']; [done|]. lia.
  - exfalso. assert (state c = StateShutdown) as Hc; [|congruence].
    apply run_shutdown; [done|done|]. by apply (sr_shutdown _ _ (step_create now rev (Some r) c0)).
Qed.
End properties.
End history.

(** ** A concrete history *)

Module Example.
#[local] Instance platform : Platform := {|
  EffectiveTLDPlusOne_ok := fun d => negb (String.eqb d "com");
  Duration := Z;
  CheckValid := fun _ => true;
  AsDuration := fun d => d
|}.

Abbreviation store := (LocalCache.localCache string (cached Z)).

Definition empty_store : store := LocalCache.newLocalCache 8 (Some 0%nat).

Lemma empty_store_holds k v : ~ store_holds empty_store k v.
Proof. cbn. by rewrite lookup_empty. Qed.

Definition watch (rev : Z) (cur : string) (p : watch_payload) : event (Cred:=Z) (Conf:=Z) :=
  EvWatch (Some (mkWatchEvent (Some p) rev cur)).

(** Connect, take a snapshot at revision 5, and become ready. *)
Definition synchronize : list (Z * event (Cred:=Z) (Conf:=Z)) :=
  [(0, EvConnecting); (1, EvTransport true); (2, EvOpenWatch);
   (3, watch 5 "" SnapshotBegin);
   (4, watch 3 "" (BaseHostEvent (Some (mkBaseHostDelta false "S3.Example.COM."))));
   (5, watch 5 "c5" SynchronizationBarrier)].

(** A heartbeat, and a read of the cache. *)
Definition quiet : list (Z * event (Cred:=Z) (Conf:=Z)) :=
  [(6, watch 5 "c5" Heartbeat); (7, EvReadCredentials "AKIA")].

Ltac check_history :=
  cbn; repeat (apply Forall_cons_2;
    [first [exact I | intros ? [=<-]; unfold u64_range_ok; cbn; lia]|]);
  apply Forall_nil_2.

Lemma ready_is_synchronized_witness :
  let c := run synchronize (newClient 0 4 empty_store empty_store) in
  Ready c = true /\ revision c <> 0 /\ baseHosts c = {["s3.example.com" := 3]}.
Proof.
  split; [vm_compute; reflexivity|]. split; [|vm_compute; reflexivity].
  assert (Forall event_ok synchronize) as Hh by check_history.
  destruct (ready_is_synchronized 0 4 empty_store empty_store empty_store_holds
              empty_store_holds synchronize Hh) as [Hr _].
  apply Hr. vm_compute. reflexivity.
Defined.

Lemma revision_monotone_witness :
  revision (run synchronize (newClient 0 4 empty_store empty_store)) <=
  revision (run (synchronize ++ quiet) (newClient 0 4 empty_store empty_store)).
Proof.
  assert (Forall event_ok (synchronize ++ quiet)) as Hh by check_history.
  exact (proj1 (revision_monotone 0 4 empty_store empty_store empty_store_holds
                  empty_store_holds synchronize quiet Hh)).
Defined.

Lemma resolution_stable_witness :
  let c := run (synchronize ++ quiet) (newClient 0 4 empty_store empty_store) in
  state c = StateReady /\ revision c = 5 /\ epoch c = 0.
Proof.
  assert (Forall event_ok (synchronize ++ quiet ++ quiet)) as Hh by check_history.
  destruct (resolution_stable 0 4 empty_store empty_store empty_store_holds empty_store_holds
              synchronize quiet quiet (5, 0) Hh) as (? & ? & ? & _);
    [cbn; lia|vm_compute; reflexivity|vm_compute; reflexivity|auto].
Defined.

(** The reply to a creation at revision 6, then the delta that brings it. *)
Lemma read_your_writes_witness :
  let c := run [(9, watch 6 "c6" (VbucketEvent (Some (mkVBucketDelta "AKIA" "b" false None))))]
             (createReply 8 5 (Some 6)
                (run synchronize (newClient 0 4 empty_store empty_store))).1 in
  Ready c = true /\ 6 <= revision c.
Proof.
  split; [vm_compute; reflexivity|].
  assert (Forall event_ok (synchronize ++
    [(9, watch 6 "c6" (VbucketEvent (Some (mkVBucketDelta "AKIA" "b" false None))))])) as Hh
    by check_history.
  apply (read_your_writes 0 4 empty_store empty_store empty_store_holds empty_store_holds
           synchronize _ 8 5 6 Hh); [lia|vm_compute; reflexivity|vm_compute; reflexivity].
Defined.
End Example.
