(* ===== verification/ClientCoherence.v ===== *)
(** * ClientCoherence: the caches against the control plane's own state

    The control plane is a function from revisions to its state.  If its deltas name
    what they change and its replies report the revision they were read at, every
    entry a reader can obtain is the control plane's state at the client's accepted
    revision: a revoked key or a moved bucket is never served from the cache. *)
From S2P Require Import Prelude GoStrings GoNet Errors Cache Client ClientInv ClientHistory.

Section coherence.
Context `{Platform} {Cred Conf CC VC : Type}
  `{TimedStoreLaws CC string (cached Cred)} `{TimedStoreLaws VC string (cached Conf)}.

Abbreviation Client := (Client (CC:=CC) (VC:=VC)).
Implicit Types (c : Client) (now rev ep : Z).

(** The control plane: credentials by access key, mappings by cache key, at each
    revision. *)
Context (srv_cred : Z -> string -> option Cred) (srv_conf : Z -> string -> option Conf).

(** What an entry tells its reader. *)
Definition payload {A} (v : cached A) : option A := if ce_Found v then ce_value v else None.

Definition unchanged {A} (srv : Z -> string -> option A) rev : Prop :=
  forall k, srv rev k = srv (rev - 1) k.

Definition unchanged_but {A} (srv : Z -> string -> option A) rev (key : string) : Prop :=
  forall k, k <> key -> srv rev k = srv (rev - 1) k.

(** A delta at [rev] describes the step of the control plane from [rev - 1]. *)
Definition faithful_delta (e : watch_payload) rev : Prop :=
  match e with
  | CredentialsEvent (Some d) =>
      unchanged_but srv_cred rev (cd_AccessKeyId d) /\ unchanged srv_conf rev /\
      (cd_Remove d = true -> srv_cred rev (cd_AccessKeyId d) = None)
  | BaseHostEvent _ => unchanged srv_cred rev /\ unchanged srv_conf rev
  | VbucketEvent (Some d) =>
      let key := vbucketCacheKey (vd_AccessKeyId d) (vd_BucketName d) in
      unchanged srv_cred rev /\ unchanged_but srv_conf rev key /\
      (vd_Remove d = true -> srv_conf rev key = None)
  | _ => True
  end.

Definition faithful_reply {A} (srv : Z -> string -> option A) (key : string) (respRev : Z)
    (parsed : result error (cached A)) : Prop :=
  match parsed with
  | Ok candidate => ce_Revision candidate = respRev /\ payload candidate = srv respRev key
  | Err _ => True
  end.

Definition faithful (e : Z * event (Cred:=Cred) (Conf:=Conf)) : Prop :=
  match e.2 with
  | EvWatch (Some d) =>
      match we_Event d with Some p => faithful_delta p (we_Revision d) | None => True end
  | EvLoadCredentials key _ _ respRev parsed => faithful_reply srv_cred key respRev parsed
  | EvLoadVBucket key _ _ respRev parsed => faithful_reply srv_conf key respRev parsed
  | _ => True
  end.

(** Every entry of a store is the state at [rev]. *)
Definition current {S A} `{TimedStore S string (cached A)} (srv : Z -> string -> option A)
    (rev : Z) (s : S) : Prop :=
  forall k v, store_holds s k v -> payload v = srv rev k.

Definition coherent c : Prop :=
  current srv_cred (revision c) (credentials c) /\ current srv_conf (revision c) (vbuckets c).

Lemma coherent_frame c c' :
  coherent c -> revision c' = revision c ->
  (forall k v, store_holds (credentials c') k v -> store_holds (credentials c) k v) ->
  (forall k v, store_holds (vbuckets c') k v -> store_holds (vbuckets c) k v) ->
  coherent c'.
Proof.
  intros [Hc Hv] Hr Hcc Hvc. split; rewrite Hr; intros k v Hh; auto.
Qed.

Lemma current_get {S A} `{TimedStoreLaws S string (cached A)} srv rev now key (s : S) :
  current srv rev s -> current srv rev (store_get now key s).1.
Proof. intros Hs k v Hh%store_get_keeps. auto. Qed.

(** The effect of a removal or an invalidation of [key] on its store. *)
Definition revoke {S A} `{TimedStore S string (cached A)} now rev (key : string)
    (negative : option Z) (s : S) : S :=
  let (s, hot) := store_get now key s in
  match hot, negative with
  | None, _ => s
  | Some _, Some ttl => store_set now key (mkCached None false rev ttl) ttl s
  | Some _, None => store_invalidate key s
  end.

Lemma revoke_current {S A} `{TimedStoreLaws S string (cached A)} (srv : Z -> string -> option A)
    now rev key negative (s : S) :
  current srv (rev - 1) s -> unchanged_but srv rev key ->
  (forall ttl, negative = Some ttl -> 0 < ttl /\ srv rev key = None) ->
  current srv rev (revoke now rev key negative s).
Proof.
  intros Hs Hu Hn k v. unfold revoke.
  destruct (store_get now key s) as [s1 hot] eqn:E.
  assert (forall k v, store_holds s1 k v -> store_holds s k v) as Hk.
  { intros k' v'. change s1 with (s1, hot).1. rewrite <-E. apply store_get_keeps. }
  destruct hot as [hot|].
  - destruct negative as [ttl|].
    + destruct (Hn ttl eq_refl) as [Httl Hnone].
      intros [[-> ->]|[Hne Hh]]%store_set_holds; [by rewrite Hnone| |done].
      rewrite Hu by done. auto.
    + intros [Hne Hh]%store_invalidate_holds. rewrite Hu by done. auto.
  - intros Hh. rewrite Hu; [auto|]. intros ->. revert Hh. change s1 with (s1, @None (cached A)).1.
    rewrite <-E. apply store_get_miss. by rewrite E.
Qed.
(** An accepted delta revokes exactly its key. *)
Lemma applyCredentials_revokes now rev d c c' :
  applyCredentials now rev d c = (c', None) ->
  exists cd negative, d = Some cd /\ vbuckets c' = vbuckets c /\
    credentials c' = revoke now rev (cd_AccessKeyId cd) negative (credentials c) /\
    (forall ttl, negative = Some ttl -> 0 < ttl /\ cd_Remove cd = true).
Proof.
  unfold applyCredentials. destruct d as [cd|]; [|done]. destruct (String.eqb _ _); [done|].
  destruct (store_get now (cd_AccessKeyId cd) (credentials c)) as [cc hot] eqn:E.
  destruct (cd_Remove cd) eqn:Er.
  - destruct (cacheTTL _ _) as [ttl|] eqn:Et; [|done]. apply cacheTTL_positive in Et.
    intros Heq. exists cd, (Some ttl). split; [done|]. unfold revoke. rewrite E.
    destruct hot; simplify_eq/=; (split_and!; [done|done|]); intros ? [=<-]; auto.
  - destruct (bool_decide (is_Some (cd_NegativeTtl cd))); [done|].
    intros Heq. exists cd, None. split; [done|]. unfold revoke. rewrite E.
    destruct hot; simplify_eq/=; split_and!; done.
Qed.

Lemma applyVBucket_revokes now rev d c c' :
  applyVBucket now rev d c = (c', None) ->
  exists vd negative, d = Some vd /\ credentials c' = credentials c /\
    vbuckets c' = revoke now rev (vbucketCacheKey (vd_AccessKeyId vd) (vd_BucketName vd))
                    negative (vbuckets c) /\
    (forall ttl, negative = Some ttl -> 0 < ttl /\ vd_Remove vd = true).
Proof.
  unfold applyVBucket. destruct d as [vd|]; [|done]. destruct (_ || _); [done|].
  set (key := vbucketCacheKey _ _).
  destruct (store_get now key (vbuckets c)) as [vc hot] eqn:E.
  destruct (vd_Remove vd) eqn:Er.
  - destruct (cacheTTL _ _) as [ttl|] eqn:Et; [|done]. apply cacheTTL_positive in Et.
    intros Heq. exists vd, (Some ttl). split; [done|]. unfold revoke. fold key. rewrite E.
    destruct hot; simplify_eq/=; (split_and!; [done|done|]); intros ? [=<-]; auto.
  - destruct (bool_decide (is_Some (vd_NegativeTtl vd))); [done|].
    intros Heq. exists vd, None. split; [done|]. unfold revoke. fold key. rewrite E.
    destruct hot; simplify_eq/=; split_and!; done.
Qed.

Lemma current_unchanged {S A} `{TimedStore S string (cached A)} (srv : Z -> string -> option A)
    rev (s : S) :
  unchanged srv rev -> current srv (rev - 1) s -> current srv rev s.
Proof. intros Hu Hs k v Hh. rewrite Hu. auto. Qed.

Lemma applyEntity_current now e rev c c' :
  applyEntityLocked now e rev c = (c', None) -> faithful_delta e rev ->
  current srv_cred (rev - 1) (credentials c) -> current srv_conf (rev - 1) (vbuckets c) ->
  current srv_cred rev (credentials c') /\ current srv_conf rev (vbuckets c').
Proof.
  intros Ha Hf Hc Hv. destruct e as [| | |d|d|d]; try done; cbn in Ha.
  - apply applyCredentials_revokes in Ha as (cd & neg & -> & -> & -> & Hneg).
    destruct Hf as (Hu & Hub & Hrm). split; [|by apply current_unchanged].
    apply revoke_current; auto. intros ttl [? ?]%Hneg. auto.
  - destruct Hf as [Hu Hub].
    assert (credentials c' = credentials c /\ vbuckets c' = vbuckets c) as [-> ->].
    { unfold applyBaseHost in Ha. destruct (baseHostDeltaDomain d); [|done].
      destruct (default false _); [by simplify_eq/=|].
      destruct (_ && _); [done|by simplify_eq/=]. }
    split; by apply current_unchanged.
  - apply applyVBucket_revokes in Ha as (vd & neg & -> & -> & -> & Hneg).
    destruct Hf as (Hu & Hub & Hrm). split; [by apply current_unchanged|].
    apply revoke_current; auto. intros ttl [? ?]%Hneg. auto.
Qed.
(** ** Steps *)

Lemma coherent_transition now s c : coherent c -> coherent (transitionLocked now s c).
Proof.
  intros Hc. apply (coherent_frame c); auto;
    by rewrite ?transitionLocked_revision, ?transitionLocked_credentials,
      ?transitionLocked_vbuckets.
Qed.

Lemma coherent_resync now c : coherent c -> coherent (requestResyncLocked now c).
Proof.
  intros Hc. unfold requestResyncLocked. destruct (bool_decide _); [done|].
  apply (coherent_transition now StateDisconnected (set_barrierRequired true c)). exact Hc.
Qed.

Lemma coherent_settle now c : coherent c -> coherent (settle now c).
Proof. intros. unfold settle. case_match; by apply coherent_transition. Qed.

Lemma coherent_begin now d c : coherent c -> coherent (beginSnapshot now d c).1.
Proof.
  intros Hc. unfold beginSnapshot. destruct (bool_decide _); [done|].
  destruct (_ || _ || _); [done|]. cbv zeta.
  apply (coherent_frame c); cbn; auto.
  - by rewrite transitionLocked_revision.
  - intros k v Hh. by apply store_clear_holds in Hh.
  - intros k v Hh. by apply store_clear_holds in Hh.
Qed.

Lemma coherent_barrier now d c : client_inv c -> coherent c -> coherent (acceptBarrier now d c).1.
Proof.
  intros I Hc. unfold acceptBarrier. destruct (_ || _); [done|].
  destruct (snapshot c) as [sn|] eqn:Es.
  - destruct (inv_snapshot c I sn Es) as (_ & _ & _ & Hnc & Hnv).
    unfold snapshotBarrier. destruct (negb _); [done|]. destruct (_ && _); [done|].
    destruct (_ && _ && _); [done|]. cbv zeta. apply coherent_settle.
    split; intros k v Hh; exfalso; destruct (_ && _); by first [apply Hnc in Hh|apply Hnv in Hh].
  - unfold resumeBarrier. destruct (_ || _); [done|]. cbv zeta.
    destruct (_ || _); by apply coherent_transition.
Qed.

Lemma coherent_live now d e c :
  client_inv c -> coherent c -> faithful_delta e (we_Revision d) ->
  coherent (liveMutation now d e c).1.
Proof.
  intros I Hc Hf. unfold liveMutation. destruct (_ || _) eqn:E0; [done|].
  destruct (we_Revision d <=? revision c) eqn:E1; [by apply coherent_transition|].
  destruct (_ || _ || _) eqn:E2; [by apply coherent_transition|].
  bool_to_prop. pose proof (applyEntityLocked_applied now e (we_Revision d) c) as A.
  destruct (applyEntityLocked now e (we_Revision d) c) as [c1 [err|]] eqn:Ea; simpl in A.
  - apply (coherent_transition now StateDisconnected). apply (coherent_frame c); auto.
    + apply A.
    + intros k v [?|[? _]]%(ap_credentials _ _ _ _ A); done.
    + intros k v [?|[? _]]%(ap_vbuckets _ _ _ _ A); done.
  - assert (we_Revision d - 1 = revision c) as Hprev.
    { pose proof (inv_revision c I).
      destruct (Z.eq_dec (revision c + 1) (2 ^ 64)) as [E|E].
      - assert (u64 (revision c + 1) = 0) as Hz by (rewrite E; done). lia.
      - rewrite u64_small in *; lia. }
    destruct Hc as [Hcc Hcv]. rewrite <-Hprev in Hcc, Hcv.
    destruct (applyEntity_current _ _ _ _ _ Ea Hf Hcc Hcv) as [Hcc' Hcv'].
    assert (coherent (set_cursor (we_Cursor d) (set_revision (we_Revision d) c1))) as Hco
      by (by split).
    cbv zeta. destruct (_ && _); [|done]. destruct (negb _); [|done].
    by apply coherent_transition.
Qed.

Lemma coherent_watch now d c :
  client_inv c -> coherent c -> faithful (now, EvWatch d) -> coherent (processWatch now d c).1.
Proof.
  intros I Hc Hf. unfold processWatch. destruct d as [d|]; [|done]. cbn in Hf.
  destruct (we_Event d) as [e|]; [|done].
  assert (coherent (watchBody now d e c).1) as Hb.
  { unfold watchBody. destruct (_ && _); [done|].
    assert (coherent (match snapshot c with Some sn => snapshotEntry d e sn c
                      | None => liveMutation now d e c end).1) as Hm.
    { destruct (snapshot c) as [sn|]; [|by apply coherent_live].
      unfold snapshotEntry. destruct (_ || _ || _); [done|]. destruct e; try done.
      destruct (baseHostDeltaDomain _); [|done]. destruct (default false _); [done|].
      destruct (bool_decide _); [done|]. by destruct (_ <=? _). }
    destruct e; auto using coherent_begin, coherent_barrier.
    unfold acceptHeartbeat. by destruct (_ || _). }
  destruct (watchBody now d e c) as [c1 [err|]]; [|done].
  apply (coherent_transition now StateDisconnected (set_barrierRequired true c1)). exact Hb.
Qed.
(** ** Loads *)

Lemma admitEntry_current {S A} `{TimedStoreLaws S string (cached A)}
    (srv : Z -> string -> option A) now key rev cur candidate (s : S) :
  current srv cur s -> payload candidate = srv (ce_Revision candidate) key ->
  current srv cur (admitEntry now key rev cur candidate s).1 /\
  (forall v, (admitEntry now key rev cur candidate s).2 = LoadEntry v -> payload v = srv cur key).
Proof.
  intros Hs Hcand. split.
  { intros k v [Hh|(-> & -> & <- & _)]%admitEntry_holds; auto. }
  intros v. unfold admitEntry. destruct (store_get now key s) as [s1 newer] eqn:E.
  assert (forall n, newer = Some n -> payload n = srv cur key) as Hnew.
  { intros n ->. apply Hs. eapply (store_get_holds now). by rewrite E. }
  assert (current srv cur s1) as Hs1.
  { change s1 with (s1, newer).1. rewrite <-E. by apply current_get. }
  set (arb := if cur <? _ then _ else _).
  assert (arb.2 = LoadEntry v -> payload v = srv cur key) as Harb.
  { subst arb. destruct (cur <? _); [done|]. destruct (_ || _) eqn:Eq; [done|]. bool_to_prop.
    unfold insertEntry. destruct (store_get now key s1) as [s2 again] eqn:E'.
    destruct again as [n|]; [destruct (_ <=? _)|]; simpl; intros [=<-]; try congruence.
    apply Hs1. eapply (store_get_holds now). by rewrite E'. }
  destruct newer as [n|]; [destruct (_ && _)|]; simpl; auto. intros [=<-]. auto.
Qed.

Lemma coherent_load_resync {A} now (r : load_result A) c : coherent c -> coherent (load_resync now r c).
Proof. intros Hc. destruct r; simpl; auto using coherent_resync. Qed.

Lemma coherent_unary now rev expected c : coherent c -> coherent (checkUnaryRevision now rev expected c).1.
Proof.
  intros Hc. unfold checkUnaryRevision. destruct (rev =? expected); [done|].
  destruct (bool_decide _); [done|]. cbn [fst]. destruct (rev <? expected); [by apply coherent_resync|].
  destruct (revision c <? rev); [|done]. cbv zeta. destruct (bool_decide _); [|done].
  by apply coherent_transition.
Qed.

Lemma coherent_create now rev resp c : coherent c -> coherent (createReply now rev resp c).1.
Proof.
  intros Hc. unfold createReply. destruct resp as [r|]; [|by apply coherent_resync].
  destruct (_ || _); [by apply coherent_resync|]. destruct (bool_decide _); [done|].
  destruct (revision c <? r); [|done]. cbv zeta. destruct (_ || _); [|done].
  by apply coherent_transition.
Qed.

(** A load leaves a coherent state, and the entry it returns is current there. *)
Lemma coherent_loadCredentials now key rev ep respRev parsed c :
  coherent c -> faithful_reply srv_cred key respRev parsed ->
  let r := loadCredentials now key rev ep respRev parsed c in
  coherent r.1 /\ (forall v, r.2 = Ok v -> payload v = srv_cred (revision c) key).
Proof.
  intros Hc Hf. unfold loadCredentials. pose proof (coherent_unary now respRev rev c Hc) as Hu.
  destruct (checkUnaryRevision now respRev rev c) as [c1 [err|]] eqn:E; [done|].
  assert (c1 = c) as ->.
  { unfold checkUnaryRevision in E. destruct (respRev =? rev); [congruence|].
    destruct (bool_decide _); discriminate. }
  destruct parsed as [cand|]; [|done]. destruct Hf as [<- Hp]. unfold admitCredentials.
  destruct (_ || _); [done|].
  destruct (admitEntry_current srv_cred now key rev (revision c) cand (credentials c)
              (proj1 Hc) Hp) as [Hs Hv].
  destruct (admitEntry _ _ _ _ _ _) as [cc r]. cbn in *. split.
  - apply coherent_load_resync. by split; [|apply Hc].
  - intros v. destruct r; simpl; [|done..]. intros [=<-]. auto.
Qed.

Lemma coherent_loadVBucket now key rev ep respRev parsed c :
  coherent c -> faithful_reply srv_conf key respRev parsed ->
  let r := loadVBucket now key rev ep respRev parsed c in
  coherent r.1 /\ (forall v, r.2 = Ok v -> payload v = srv_conf (revision c) key).
Proof.
  intros Hc Hf. unfold loadVBucket. pose proof (coherent_unary now respRev rev c Hc) as Hu.
  destruct (checkUnaryRevision now respRev rev c) as [c1 [err|]] eqn:E; [done|].
  assert (c1 = c) as ->.
  { unfold checkUnaryRevision in E. destruct (respRev =? rev); [congruence|].
    destruct (bool_decide _); discriminate. }
  destruct parsed as [cand|]; [|done]. destruct Hf as [<- Hp]. unfold admitVBucket.
  destruct (_ || _); [done|].
  destruct (admitEntry_current srv_conf now key rev (revision c) cand (vbuckets c)
              (proj2 Hc) Hp) as [Hs Hv].
  destruct (admitEntry _ _ _ _ _ _) as [vc r]. cbn in *. split.
  - apply coherent_load_resync. by split; [apply Hc|].
  - intros v. destruct r; simpl; [|done..]. intros [=<-]. auto.
Qed.

Lemma coherent_step e c : client_inv c -> coherent c -> faithful e -> coherent (step e c).
Proof.
  intros I Hc Hf. destruct e as [now e].
  destruct e; cbn; auto using coherent_resync, coherent_unary, coherent_create, coherent_watch.
  - apply (coherent_frame c); cbn; auto; by rewrite ?transitionLocked_revision,
      ?transitionLocked_credentials, ?transitionLocked_vbuckets.
  - apply (coherent_frame c); cbn; auto; by rewrite ?transitionLocked_revision,
      ?transitionLocked_credentials, ?transitionLocked_vbuckets.
  - by apply coherent_transition.
  - apply (coherent_frame c); cbn; auto; by rewrite ?transitionLocked_revision,
      ?transitionLocked_credentials, ?transitionLocked_vbuckets.
  - by apply coherent_loadCredentials.
  - by apply coherent_loadVBucket.
  - unfold readCredentials. destruct (store_get now key (credentials c)) as [cc r] eqn:E.
    split; [|apply Hc]. change cc with (cc, r).1. rewrite <-E. apply current_get, Hc.
  - unfold readVBucket. destruct (store_get now key (vbuckets c)) as [vc r] eqn:E.
    split; [apply Hc|]. change vc with (vc, r).1. rewrite <-E. apply current_get, Hc.
Qed.

Lemma coherent_run h c :
  client_inv c -> coherent c -> Forall event_ok h -> Forall faithful h -> coherent (run h c).
Proof.
  revert c. induction h as [|e h IH]; intros c I Hc Ho Hf; [done|].
  apply Forall_cons in Ho as [? ?]. apply Forall_cons in Hf as [? ?].
  apply (IH (step e c)); auto using inv_step, coherent_step.
Qed.
(** ** The properties *)

Section properties.
Context (now0 m : Z) (cc0 : CC) (vc0 : VC).
Context (cc0_empty : forall k v, ~ store_holds cc0 k v)
        (vc0_empty : forall k v, ~ store_holds vc0 k v).

Abbreviation reachable h := (run h (newClient now0 m cc0 vc0)).

Lemma coherent_reachable h :
  Forall event_ok h -> Forall faithful h -> coherent (reachable h).
Proof.
  intros Ho Hf. apply coherent_run; auto using inv_new.
  split; intros k v Hh; exfalso; [by apply (cc0_empty k v)|by apply (vc0_empty k v)].
Qed.

(** C10. Cache coherence: after any interleaving, whatever a cache still holds, found or
    negative, is the control plane's state at the client's accepted revision; in
    particular no entry survives the delta that revokes it or the snapshot that jumps
    over it. *)
Theorem caches_coherent (h : list (Z * event)) (Ho : Forall event_ok h)
    (Hf : Forall faithful h) :
  let c := reachable h in
  (forall k v, store_holds (credentials c) k v -> payload v = srv_cred (revision c) k) /\
  (forall k v, store_holds (vbuckets c) k v -> payload v = srv_conf (revision c) k).
Proof. exact (coherent_reachable h Ho Hf). Qed.

(** What a validated request resolved: every credential or mapping that was read
    from the caches, or returned by a load, between [BeginResolution] and a successful
    [ValidateResolution] is the control plane's state at the stamped revision. *)
Theorem validated_resolution_current (h0 h1 h2 : list (Z * event)) (stamp : Z * Z)
    (Ho : Forall event_ok (h0 ++ h1 ++ h2)) (Hf : Forall faithful (h0 ++ h1 ++ h2))
    (Hbegin : BeginResolution (reachable h0) = Ok stamp)
    (Hvalid : ValidateResolution stamp (reachable (h0 ++ h1 ++ h2)) = Ok tt) :
  let c := reachable (h0 ++ h1) in
  (forall now key v, (readCredentials now key c).2 = Some v ->
     payload v = srv_cred stamp.1 key) /\
  (forall now key v, (readVBucket now key c).2 = Some v ->
     payload v = srv_conf stamp.1 key) /\
  (forall now key rev ep respRev parsed v,
     faithful_reply srv_cred key respRev parsed ->
     (loadCredentials now key rev ep respRev parsed c).2 = Ok v ->
     payload v = srv_cred stamp.1 key) /\
  (forall now key rev ep respRev parsed v,
     faithful_reply srv_conf key respRev parsed ->
     (loadVBucket now key rev ep respRev parsed c).2 = Ok v ->
     payload v = srv_conf stamp.1 key).
Proof.
  assert (revision (reachable (h0 ++ h1)) = stamp.1) as Hrev.
  { apply Forall_app in Ho as [Ho0 Ho]. rewrite !run_app in *. rewrite <-run_app in Hvalid.
    apply (stamp_revision h1 h2 (reachable h0)); auto using reachable_inv. }
  rewrite app_assoc in Ho, Hf. apply Forall_app in Ho as [Ho _]. apply Forall_app in Hf as [Hf _].
  pose proof (coherent_reachable (h0 ++ h1) Ho Hf) as Hc.
  intros c. rewrite <-Hrev. fold c in Hc |- *. split_and!.
  - intros now key v. unfold readCredentials.
    destruct (store_get now key (credentials c)) as [cc r] eqn:E. simpl. intros ->.
    apply Hc. eapply (store_get_holds now). by rewrite E.
  - intros now key v. unfold readVBucket.
    destruct (store_get now key (vbuckets c)) as [vc r] eqn:E. simpl. intros ->.
    apply Hc. eapply (store_get_holds now). by rewrite E.
  - intros now key rev ep respRev parsed v Hp.
    by apply (coherent_loadCredentials now key rev ep respRev parsed c Hc Hp).
  - intros now key rev ep respRev parsed v Hp.
    by apply (coherent_loadVBucket now key rev ep respRev parsed c Hc Hp).
Qed.
End properties.
End coherence.

(** ** A concrete history *)

Module CoherenceExample.
Import ClientHistory.Example.
#[local] Existing Instance platform.

(** The key [AKIA] has secret 7 up to revision 5 and is revoked at revision 6. *)
Definition srv (rev : Z) (key : string) : option Z :=
  if String.eqb key "AKIA" && (rev <? 6) then Some 7 else None.
Definition srv_none (rev : Z) (key : string) : option Z := None.

(** Loaded at revision 5, then read. *)
Definition use : list (Z * event (Cred:=Z) (Conf:=Z)) :=
  [(6, EvLoadCredentials "AKIA" 5 0 5 (Ok (mkCached (Some 7) true 5 100)));
   (7, EvReadCredentials "AKIA")].

Definition revoke_delta : list (Z * event (Cred:=Z) (Conf:=Z)) :=
  [(8, watch 6 "c6" (CredentialsEvent (Some (mkCredentialsDelta "AKIA" true (Some 50)))))].

Lemma srv_step k : k <> "AKIA" -> srv 6 k = srv (6 - 1) k.
Proof. intros Hk. unfold srv. by rewrite (proj2 (String.eqb_neq _ _) Hk). Qed.

Lemma example_faithful : Forall (faithful srv srv_none) (synchronize ++ use ++ revoke_delta).
Proof.
  cbn. repeat apply Forall_cons_2; try apply Forall_nil_2; cbn; auto.
  - split; intros k; [|done]. unfold srv. by destruct (String.eqb k "AKIA").
  - split_and!; [intros k; apply srv_step|done|done].
Qed.

(** The revoked key is still in the cache, as a negative entry. *)
Lemma caches_coherent_witness :
  let c := run (synchronize ++ use ++ revoke_delta) (newClient 0 4 empty_store empty_store) in
  revision c = 6 /\
  store_holds (credentials c) "AKIA" (mkCached None false 6 50) /\
  payload (A:=Z) (mkCached None false 6 50) = srv 6 "AKIA".
Proof.
  assert (Forall event_ok (synchronize ++ use ++ revoke_delta)) as Ho by check_history.
  destruct (caches_coherent srv srv_none 0 4 empty_store empty_store empty_store_holds
              empty_store_holds _ Ho example_faithful) as [Hc _].
  split_and!; [vm_compute; reflexivity|vm_compute; reflexivity|].
  apply (Hc "AKIA"). vm_compute. reflexivity.
Defined.

Lemma validated_resolution_current_witness :
  let c := run (synchronize ++ use) (newClient 0 4 empty_store empty_store) in
  (readCredentials 9 "AKIA" c).2 = Some (mkCached (Some 7) true 5 100) /\
  payload (mkCached (Some 7) true 5 100) = srv 5 "AKIA".
Proof.
  split; [vm_compute; reflexivity|].
  assert (Forall event_ok (synchronize ++ use ++ [])) as Ho by check_history.
  assert (Forall (faithful srv srv_none) (synchronize ++ use ++ [])) as Hf.
  { pose proof example_faithful as Hf. rewrite app_assoc in Hf. apply Forall_app in Hf as [Hf _].
    by rewrite app_nil_r. }
  destruct (validated_resolution_current srv srv_none 0 4 empty_store empty_store
              empty_store_holds empty_store_holds synchronize use [] (5, 0) Ho Hf)
    as [Hr _]; [vm_compute; reflexivity|vm_compute; reflexivity|].
  apply (Hr 9). vm_compute. reflexivity.
Defined.
End CoherenceExample.
