(* ===== verification/ClientHosts.v ===== *)
(** * ClientHosts: the host registry

    [LookupBaseHost] finds the longest registered domain of a request host, and a
    snapshot the control plane sends in full replaces the registry and makes the client
    ready. *)
From S2P Require Import Prelude GoStrings GoNet Errors Cache Client ClientInv ClientHistory.

(** ** Domains and their suffixes *)

(** [host] is [b] or a subdomain of it. *)
Definition subdomain (host b : string) : Prop := host = b \/ exists p, host = p +:+ "." +:+ b.

Definition no_dot (label : string) : Prop := Contains label "." = false.

Lemma subdomain_trans a b c : subdomain a b -> subdomain b c -> subdomain a c.
Proof.
  intros [->|[p ->]] [->|[q ->]]; [by left|right; eauto|right; eauto|].
  right. exists (p +:+ "." +:+ q). by rewrite !app_assoc_str.
Qed.

Lemma Join_drop_suffix L i :
  (i < length L)%nat -> subdomain (Join L ".") (Join (drop i L) ".").
Proof.
  revert i. induction L as [|l L IH]; intros i Hi; [simpl in Hi; lia|].
  destruct i as [|i]; [by left|]. simpl in Hi.
  apply (subdomain_trans _ (Join L ".")); [|apply (IH i); lia].
  right. exists l. rewrite Join_cons; [done|]. intros ->. simpl in Hi. lia.
Qed.

Lemma subdomain_Join L b :
  L <> [] -> Forall no_dot L -> subdomain (Join L ".") b ->
  exists i, (i < length L)%nat /\ b = Join (drop i L) ".".
Proof.
  intros Hne HL. induction HL as [|l L Hl HL IH]; [done|].
  intros [<-|[p Hp]]; [by exists 0%nat; simpl; split; [lia|]|].
  destruct L as [|l' L].
  { exfalso. simpl in Hp. apply not_true_iff_false in Hl. apply Hl, Contains_true. eauto. }
  rewrite Join_cons in Hp by done.
  pose proof (Cut_app_byte l (Join (l' :: L) ".") "." Hl) as Hc.
  change (String "." (Join (l' :: L) ".")) with ("." +:+ Join (l' :: L) ".") in Hc.
  rewrite Hp in Hc. destruct (Cut p ".") as [[p1 p2]|] eqn:Ep.
  - assert (Contains p1 "." = false) as Hp1 by (by eapply Cut_first). apply Cut_Some in Ep as ->.
    rewrite app_assoc_str in Hc.
    change ("." +:+ p2) with (String "." p2) in Hc. rewrite app_cons_str in Hc.
    rewrite Cut_app_byte in Hc by done.
    assert (Join (l' :: L) "." = p2 +:+ "." +:+ b) as Hj by congruence.
    destruct IH as (i & Hi & ->); [done|right; eauto|].
    exists (S i). split; [simpl in *; lia|done].
  - apply Cut_None in Ep. change ("." +:+ b) with (String "." b) in Hc.
    rewrite Cut_app_byte in Hc by done.
    exists 1%nat. split; [simpl; lia|]. change (b = Join (l' :: L) "."). congruence.
Qed.

Section hosts.
Context `{Platform} {Cred Conf CC VC : Type}
  `{TimedStoreLaws CC string (cached Cred)} `{TimedStoreLaws VC string (cached Conf)}.
Abbreviation Client := (Client (CC:=CC) (VC:=VC)).
Implicit Types (c : Client).

Definition canonical_host (hostname : string) : string :=
  ToLower (TrimSuffix (TrimSpace hostname) ".").

Lemma host_candidates (host : string) b :
  b ∈ (fun i => Join (drop i (Split host ".")) ".") <$> seq 0 (length (Split host ".")) <->
  subdomain host b.
Proof.
  rewrite list_elem_of_fmap. split.
  - intros (i & -> & Hi). apply elem_of_seq in Hi.
    rewrite <-(Join_Split host ".") at 1 by done. apply Join_drop_suffix. lia.
  - intros Hs. rewrite <-(Join_Split host ".") in Hs by done.
    apply subdomain_Join in Hs as (i & Hi & ->).
    + exists i. split; [done|]. apply elem_of_seq. lia.
    + by apply Split_nonnil.
    + by apply Split_pieces.
Qed.

Lemma label_ok_nonempty label : label_ok label = true -> label <> "".
Proof. intros Hl ->. by vm_compute in Hl. Qed.

Lemma Join_nonempty L : L <> [] -> Forall (fun l => l <> "") L -> Join L "." <> "".
Proof.
  intros Hne HL. destruct HL as [|l L Hl HL]; [done|]. destruct L; [done|].
  rewrite Join_cons by done. by destruct l.
Qed.

(** The registered domain a lookup answers is the most specific one: it is
    registered, the host equals it or is a subdomain of it, and so is it of every other
    registered domain of the host; a lookup that finds none was for an IP address or
    for a host outside every registered domain. *)
Theorem LookupBaseHost_longest (c : Client) (hostname best : string) (found : bool)
    (Hl : LookupBaseHost hostname c = Ok (best, found)) :
  let host := canonical_host hostname in
  if found
  then is_Some (baseHosts c !! best) /\ subdomain host best /\
       (forall b, is_Some (baseHosts c !! b) -> subdomain host b -> subdomain best b)
  else best = "" /\
       (is_ip host = true \/
        forall b, b <> "" -> is_Some (baseHosts c !! b) -> ~ subdomain host b).
Proof.
  revert Hl. unfold LookupBaseHost. destruct (negb _); [done|]. cbv zeta.
  fold (canonical_host hostname). set (host := canonical_host hostname).
  destruct (is_ip host) eqn:Eip; [intros [=<- <-]; auto|].
  destruct (_ || _); [done|]. destruct (negb _) eqn:Elab; [done|].
  apply negb_false_iff in Elab. rewrite forallb_elem_of in Elab.
  pose proof (host_candidates host) as Hcand.
  set (L := Split host ".") in *. set (cands := _ <$> _) in *.
  destruct (list_find _ cands) as [[i b]|] eqn:Ef.
  - apply list_find_Some in Ef as (Hi & Hb & Hfirst).
    assert (subdomain host b) as Hsub by (apply Hcand, list_elem_of_lookup; eauto).
    apply list_lookup_fmap_Some in Hi as (i' & -> & [-> Hlen]%lookup_seq).
    rewrite Nat.add_0_l in *.
    destruct (String.eqb_spec (Join (drop i L) ".") "") as [He|_].
    { exfalso. apply (Join_nonempty (drop i L)); [| |done].
      - intros E%(f_equal length). rewrite length_drop in E. simpl in E. lia.
      - apply Forall_drop, Forall_forall. intros l Hl. by apply label_ok_nonempty, Elab. }
    intros [=<- <-]. split_and!; [done|done|]. intros b' Hreg Hs'.
    apply Hcand, list_elem_of_lookup in Hs' as [j Hj].
    assert (i <= j)%nat as Hij.
    { destruct (decide (i <= j)%nat); [done|]. exfalso. apply (Hfirst j b'); [done|lia|done]. }
    apply list_lookup_fmap_Some in Hj as (j' & -> & [-> Hj]%lookup_seq).
    rewrite Nat.add_0_l in *. replace j with (i + (j - i))%nat by lia. rewrite <-drop_drop.
    apply Join_drop_suffix. rewrite length_drop. lia.
  - intros [=<- <-]. split; [done|]. right. intros b _ Hreg Hs.
    apply list_find_None in Ef. rewrite Forall_forall in Ef.
    apply (Ef b); [by apply Hcand|done].
Qed.
(** ** A complete snapshot *)

(** A host as the control plane sends it, the domain it denotes, its revision. *)
Record host_entry := mkHost { h_raw : string; h_domain : string; h_rev : Z }.

Definition host_ok (r : Z) (h : host_entry) : Prop :=
  normalizeBaseDomain (h_raw h) = Ok (h_domain h) /\ 0 < h_rev h <= r.

Definition watch_event (rev : Z) (cur : string) (p : watch_payload)
    : event (Cred:=Cred) (Conf:=Conf) :=
  EvWatch (Some (mkWatchEvent (Some p) rev cur)).

Definition host_event (now : Z) (h : host_entry) : Z * event (Cred:=Cred) (Conf:=Conf) :=
  (now, watch_event (h_rev h) "" (BaseHostEvent (Some (mkBaseHostDelta false (h_raw h))))).

Definition snapshot_history (now r : Z) (cur : string) (hosts : list host_entry)
    : list (Z * event (Cred:=Cred) (Conf:=Conf)) :=
  (now, watch_event r "" SnapshotBegin) ::
  (host_event now <$> hosts) ++ [(now, watch_event r cur SynchronizationBarrier)].

Definition with_hosts (m : gmap string Z) (sn : snapshotState) : snapshotState :=
  mkSnapshot (sn_revision sn) (sn_expectedCursor sn) (sn_previousCursor sn) m.

(** A watch event accepted while synchronizing. *)
Lemma watch_step now rev cur p c c' :
  state c = StateSynchronizing ->
  match p with
  | SnapshotBegin => beginSnapshot now (mkWatchEvent (Some p) rev cur) c
  | SynchronizationBarrier => acceptBarrier now (mkWatchEvent (Some p) rev cur) c
  | Heartbeat => acceptHeartbeat (mkWatchEvent (Some p) rev cur) c
  | _ => match snapshot c with
         | Some sn => snapshotEntry (mkWatchEvent (Some p) rev cur) p sn c
         | None => liveMutation now (mkWatchEvent (Some p) rev cur) p c
         end
  end = (c', None) ->
  step (now, watch_event rev cur p) c = c'.
Proof.
  intros Hst Hb. cbn [step watch_event snd fst]. unfold processWatch. cbn [we_Event].
  unfold watchBody. rewrite Hst, bool_decide_false, bool_decide_true by done. cbn [negb andb].
  by rewrite Hb.
Qed.

Lemma run_entries now r sn hosts c :
  state c = StateSynchronizing -> snapshot c = Some sn -> sn_revision sn = r ->
  Forall (host_ok r) hosts -> NoDup (h_domain <$> hosts) ->
  (forall h, h ∈ hosts -> sn_baseHosts sn !! h_domain h = None) ->
  Z.of_nat (size (sn_baseHosts sn)) + Z.of_nat (length hosts) <= baseHostMax c ->
  exists m, run (host_event now <$> hosts) c = set_snapshot (Some (with_hosts m sn)) c /\
    forall d v, m !! d = Some v <-> (sn_baseHosts sn !! d = Some v \/
                                     exists h, h ∈ hosts /\ h_domain h = d /\ h_rev h = v).
Proof.
  revert c sn. induction hosts as [|h hosts IH]; intros c sn Hst Hsn Hr Hok Hnd Hfresh Hsz.
  { exists (sn_baseHosts sn). split.
    - destruct sn, c; simpl in *. by subst.
    - intros d v. split; [auto|]. intros [?|(? & ?%not_elem_of_nil & _)]; done. }
  apply Forall_cons in Hok as [[Hnorm Hrev] Hok].
  rewrite fmap_cons, NoDup_cons in Hnd. destruct Hnd as [Hnin Hnd].
  set (m1 := <[h_domain h := h_rev h]> (sn_baseHosts sn)).
  set (c1 := set_snapshot (Some (with_hosts m1 sn)) c).
  assert (sn_baseHosts sn !! h_domain h = None) as Hh by (apply Hfresh; set_solver).
  assert (step (host_event now h) c = c1) as Hstep.
  { apply watch_step; [done|].
    rewrite Hsn. unfold snapshotEntry. cbn [we_Revision we_Cursor String.eqb negb].
    rewrite Hr, (proj2 (Z.eqb_neq _ _)), (proj2 (Z.ltb_ge _ _)) by lia. cbn [orb].
    unfold baseHostDeltaDomain. cbn [bh_BaseHost]. rewrite Hnorm. cbn [default fmap option_fmap option_map bh_Remove].
    rewrite bool_decide_false by (rewrite Hh; by intros []).
    rewrite (proj2 (Z.leb_gt _ _)) by (simpl in Hsz; lia).
    subst c1. unfold with_hosts. by rewrite Hr. }
  destruct (IH c1 (with_hosts m1 sn)) as (m & Hrun & Hm); auto; cbn.
  { intros h' Hh'. subst m1. rewrite lookup_insert_ne; [apply Hfresh; set_solver|].
    intros E. apply Hnin. rewrite E. by apply list_elem_of_fmap_2. }
  { subst m1. rewrite map_size_insert, Hh. simpl in *. lia. }
  exists m. split.
  - transitivity (run (host_event now <$> hosts) (step (host_event now h) c)); [done|].
    by rewrite Hstep, Hrun.
  - intros d v. rewrite Hm. cbn [sn_baseHosts with_hosts]. subst m1. rewrite lookup_insert.
    setoid_rewrite elem_of_cons. case_decide as Hd.
    + subst d. rewrite Hh. split; [intros [[=<-]|(h' & ? & ? & ?)]; eauto 6|].
      intros [?|(h' & [->|?] & Hd' & <-)]; [done|auto|eauto].
    + split; [intros [?|(h' & ? & ? & ?)]; eauto 6|].
      intros [?|(h' & [->|?] & Hd' & ?)]; [auto|done|eauto].
Qed.

Lemma snapshotBarrier_accepts now d sn c :
  state c = StateSynchronizing -> we_Revision d = sn_revision sn ->
  (sn_expectedCursor sn = "" \/ we_Cursor d = sn_expectedCursor sn) ->
  (revision c < sn_revision sn -> we_Cursor d <> sn_previousCursor sn) ->
  requiredRevision c <= we_Revision d ->
  exists c', snapshotBarrier now d sn c = (c', None) /\ state c' = StateReady /\
    revision c' = we_Revision d /\ cursor c' = we_Cursor d /\ baseHosts c' = sn_baseHosts sn /\
    credentials c' = credentials c /\ vbuckets c' = vbuckets c.
Proof.
  intros Hst Hrev Hexp Hprev Hreq. unfold snapshotBarrier.
  rewrite (proj2 (Z.eqb_eq _ _) Hrev). cbn [negb].
  assert (negb (String.eqb (sn_expectedCursor sn) "")
          && negb (String.eqb (we_Cursor d) (sn_expectedCursor sn)) = false) as ->.
  { destruct Hexp as [-> | ->]; [done|]. by rewrite String.eqb_refl, andb_false_r. }
  assert ((revision c <? sn_revision sn) && negb (String.eqb (sn_previousCursor sn) "")
          && String.eqb (we_Cursor d) (sn_previousCursor sn) = false) as ->.
  { destruct (revision c <? sn_revision sn) eqn:E; [|done]. apply Z.ltb_lt, Hprev in E.
    by rewrite (proj2 (String.eqb_neq _ _) E), andb_false_r. }
  cbv zeta. eexists. split; [done|]. set (c1 := set_barrierRequired false _).
  set (c2 := if negb (requiredRevision c1 =? 0) && _ then _ else _).
  assert (requiredRevision c2 = 0 /\ state c2 = StateSynchronizing /\
    revision c2 = we_Revision d /\ cursor c2 = we_Cursor d /\ baseHosts c2 = sn_baseHosts sn /\
    credentials c2 = credentials c /\ vbuckets c2 = vbuckets c) as (Hq & Hs & ? & ? & ? & ? & ?).
  { subst c2. destruct (_ && _) eqn:E; cbn in E |- *; split_and!; auto.
    apply andb_false_iff in E as [E|E]; bool_to_prop; [done|lia]. }
  unfold settle. rewrite Hq. cbn [Z.eqb].
  rewrite transitionLocked_state, Hs, transitionLocked_revision, transitionLocked_cursor,
    transitionLocked_baseHosts, transitionLocked_credentials, transitionLocked_vbuckets.
  rewrite bool_decide_false by done. by split_and!.
Qed.

(** A complete snapshot is accepted: begun while synchronizing at a revision not
    below the accepted one, with distinct valid domains within the bound and closed by
    a barrier with the revision's own cursor, it makes the client ready at that
    revision, with exactly those domains registered and the caches empty. *)
Theorem snapshot_synchronizes (c : Client) (now r : Z) (cur : string) (hosts : list host_entry)
    (Hst : state c = StateSynchronizing) (Hsn : snapshot c = None)
    (Hr : revision c <= r) (Hr0 : r <> 0) (Hcur : cur <> "")
    (Hsame : r = revision c -> cursor c <> "" -> cur = cursor c)
    (Hnew : revision c < r -> cur <> cursor c)
    (Hreq : requiredRevision c <= r)
    (Hok : Forall (host_ok r) hosts) (Hnd : NoDup (h_domain <$> hosts))
    (Hsz : Z.of_nat (length hosts) <= baseHostMax c) :
  let c' := run (snapshot_history now r cur hosts) c in
  state c' = StateReady /\ revision c' = r /\ cursor c' = cur /\
  (forall d v, baseHosts c' !! d = Some v <->
     exists h, h ∈ hosts /\ h_domain h = d /\ h_rev h = v) /\
  (forall k v, ~ store_holds (credentials c') k v) /\
  (forall k v, ~ store_holds (vbuckets c') k v).
Proof.
  unfold snapshot_history.
  set (sn := mkSnapshot r (if r =? revision c then cursor c else "") (cursor c) ∅).
  set (c1 := set_snapshot (Some sn) (set_vbuckets (store_clear (vbuckets c))
               (set_credentials (store_clear (credentials c)) (set_barrierRequired true c)))).
  assert (step (now, watch_event r "" SnapshotBegin) c = c1) as Hbegin.
  { apply watch_step; [done|]. unfold beginSnapshot. rewrite Hsn. cbn.
    rewrite (proj2 (Z.eqb_neq _ _)), (proj2 (Z.ltb_ge _ _)) by lia. cbn.
    unfold transitionLocked. rewrite Hst, bool_decide_false, bool_decide_true by done. done. }
  destruct (run_entries now r sn hosts c1) as (m & Hrun & Hm); [done..| |].
  { cbn. rewrite map_size_empty. lia. }
  cbv zeta.
  assert (run ((now, watch_event r "" SnapshotBegin) ::
               (host_event now <$> hosts) ++ [(now, watch_event r cur SynchronizationBarrier)]) c =
          step (now, watch_event r cur SynchronizationBarrier)
            (set_snapshot (Some (with_hosts m sn)) c1)) as ->.
  { transitivity (run ((host_event now <$> hosts) ++
      [(now, watch_event r cur SynchronizationBarrier)])
      (step (now, watch_event r "" SnapshotBegin) c)); [done|].
    rewrite Hbegin, run_app, Hrun. done. }
  destruct (snapshotBarrier_accepts now (mkWatchEvent (Some SynchronizationBarrier) r cur)
              (with_hosts m sn) (set_snapshot (Some (with_hosts m sn)) c1))
    as (c' & Hb & ? & ? & ? & Hh & Hcc & Hvc); [exact Hst|done| |exact Hnew|exact Hreq|].
  { cbn. destruct (Z.eqb_spec r (revision c)) as [E|]; [|by left].
    destruct (String.eqb_spec (cursor c) "") as [->|]; auto. }
  assert (step (now, watch_event r cur SynchronizationBarrier)
            (set_snapshot (Some (with_hosts m sn)) c1) = c') as ->.
  { apply watch_step; [done|]. unfold acceptBarrier. cbn.
    by rewrite (proj2 (Z.eqb_neq r 0)), (proj2 (String.eqb_neq cur "")) by done. }
  split_and!; auto.
  - intros d v. rewrite Hh. cbn. rewrite Hm. cbn. rewrite lookup_empty.
    split; [intros [?|?]; done|auto].
  - intros k v. rewrite Hcc. apply store_clear_holds.
  - intros k v. rewrite Hvc. apply store_clear_holds.
Qed.
End hosts.

(** ** A concrete registry *)

Module HostsExample.
Import ClientHistory.Example.
#[local] Existing Instance platform.

Definition synced : Client (CC:=store) (VC:=store) :=
  run synchronize (newClient 0 4 empty_store empty_store).

Lemma LookupBaseHost_longest_witness :
  LookupBaseHost "Photos.s3.example.com" synced = Ok ("s3.example.com", true) /\
  subdomain "photos.s3.example.com" "s3.example.com".
Proof.
  assert (LookupBaseHost "Photos.s3.example.com" synced = Ok ("s3.example.com", true)) as Hl
    by (vm_compute; reflexivity).
  split; [exact Hl|].
  destruct (LookupBaseHost_longest synced _ _ _ Hl) as (_ & Hs & _). exact Hs.
Defined.

Definition connecting : Client (CC:=store) (VC:=store) :=
  run [(0, EvConnecting (Cred:=Z) (Conf:=Z)); (1, EvOpenWatch)]
    (newClient 0 4 empty_store empty_store).

Definition two_hosts : list host_entry :=
  [mkHost "A.example.com" "a.example.com" 2; mkHost "b.example.com" "b.example.com" 7].

Lemma two_hosts_ok : Forall (host_ok 7) two_hosts.
Proof.
  repeat apply Forall_cons_2; [split; [vm_compute; reflexivity|cbn; lia]..|apply Forall_nil_2].
Qed.

Lemma two_hosts_distinct : NoDup (h_domain <$> two_hosts).
Proof. apply (bool_decide_unpack _). vm_compute. exact I. Qed.

Lemma snapshot_synchronizes_witness :
  state (run (snapshot_history (Cred:=Z) (Conf:=Z) 9 7 "c7" two_hosts) connecting) = StateReady.
Proof.
  refine (proj1 (snapshot_synchronizes connecting 9 7 "c7" two_hosts _ _ _ _ _ _ _ _
                   two_hosts_ok two_hosts_distinct _)).
  - vm_compute. reflexivity.
  - vm_compute. reflexivity.
  - vm_compute. discriminate.
  - discriminate.
  - discriminate.
  - intros E. vm_compute in E. discriminate E.
  - intros _. vm_compute. discriminate.
  - vm_compute. discriminate.
  - vm_compute. discriminate.
Defined.
End HostsExample.
