(* ===== verification/Watch.v ===== *)
(** * Watch: the goroutine that keeps the client synchronized ([controlplane/watch.go])

    [Run] and [connect] as a machine: a place in the code, the local variables that are
    live there, and the client it shares with the requests.  A move is a step of the
    goroutine, with what decides it (the case a [select] takes, the answer of a call, the
    random number), a message on the stream, the end of the context, or a section of a
    request.  Each move carries the reading of the monotonic clock; a timer's channel is
    ready from its deadline on. *)
From Stdlib Require Import SpecFloat.
From S2P Require Import Prelude GoStrings Errors Cache Client Flight.

(** ** Options ([controlplane/client.go]) *)

Record ClientOptions := mkClientOptions {
  UnaryTimeout : Z;
  WatchSilenceTimeout : Z;
  SynchronizationTimeout : Z;
  ReconnectMinBackoff : Z;
  ReconnectMaxBackoff : Z;
  CredentialMissRate : spec_float;
  CredentialMissBurst : Z;
  CredentialMissInFlight : Z;
  VBucketMissRate : spec_float;
  VBucketMissBurst : Z;
  VBucketMissInFlight : Z
}.

Definition Millisecond : Z := 1000000.
Definition Second : Z := 1000 * Millisecond.

Definition defaultClientOptions : ClientOptions :=
  mkClientOptions (2 * Second) (10 * Second) (30 * Second) (250 * Millisecond) (30 * Second)
    (Float64.of_Z 100) 100 32 (Float64.of_Z 100) 100 32.

Definition positive_or (x default : Z) : Z := if x <=? 0 then default else x.

Definition positive_rate_or (x default : spec_float) : spec_float :=
  if SFleb x (S754_zero false) then default else x.

(** The options [NewClientWithOptions] runs with. *)
Definition effectiveOptions (opts : ClientOptions) : ClientOptions :=
  let defaults := defaultClientOptions in
  let minimum := positive_or (ReconnectMinBackoff opts) (ReconnectMinBackoff defaults) in
  let maximum := positive_or (ReconnectMaxBackoff opts) (ReconnectMaxBackoff defaults) in
  mkClientOptions
    (positive_or (UnaryTimeout opts) (UnaryTimeout defaults))
    (positive_or (WatchSilenceTimeout opts) (WatchSilenceTimeout defaults))
    (positive_or (SynchronizationTimeout opts) (SynchronizationTimeout defaults))
    minimum
    (if maximum <? minimum then minimum else maximum)
    (positive_rate_or (CredentialMissRate opts) (CredentialMissRate defaults))
    (positive_or (CredentialMissBurst opts) (CredentialMissBurst defaults))
    (positive_or (CredentialMissInFlight opts) (CredentialMissInFlight defaults))
    (positive_rate_or (VBucketMissRate opts) (VBucketMissRate defaults))
    (positive_or (VBucketMissBurst opts) (VBucketMissBurst defaults))
    (positive_or (VBucketMissInFlight opts) (VBucketMissInFlight defaults)).

(** ** Backoff *)

Definition minDuration (a b : Z) : Z := if a <? b then a else b.

(** [int64(x)] of a float in range: the fraction is dropped. *)
Definition float_trunc (x : spec_float) : Z :=
  match x with
  | S754_finite s m e =>
      let v := if 0 <=? e then Z.pos m * 2 ^ e else Z.pos m / 2 ^ (- e) in
      if s then - v else v
  | _ => 0
  end.

(** [rand.Float64] of [math/rand/v2]: 53 random bits over [2^53]. *)
Definition randFloat (bits : Z) : spec_float :=
  Float64.div (Float64.of_Z (bits mod 2 ^ 53)) (Float64.of_Z (2 ^ 53)).

(** [time.Duration(float64(backoff) * (0.5 + c.randFloat()))] *)
Definition jittered (backoff bits : Z) : Z :=
  let jitter := Float64.add (Float64.div (Float64.of_Z 1) (Float64.of_Z 2)) (randFloat bits) in
  float_trunc (Float64.mul (Float64.of_Z backoff) jitter).

Section watch.
Context `{Platform} {Cred Conf CC VC : Type}
  `{TimedStore CC string (cached Cred)} `{TimedStore VC string (cached Conf)}.
Abbreviation Client := (Client (CC:=CC) (VC:=VC)).
Abbreviation event := (event (Cred:=Cred) (Conf:=Conf)).

(** ** The machine *)

(** What [stream.Recv] returns. *)
Abbreviation received := (result error (option WatchEvent)).

(** The variables of [connect]'s loop: timers by their deadlines, [st_sync] nil when
    [syncTimerC] is; [st_received] is the channel of capacity one, [st_open] that the
    receiving goroutine has not met an error. *)
Record stream := mkStreamState {
  st_synced : bool;
  st_silence : Z;
  st_sync : option Z;
  st_received : option received;
  st_open : bool
}.

(** Where the goroutine is: in [Run], in [connect] up to the stream, in its loop, in the
    deferred functions with the results of [connect], and back in [Run]. *)
Inductive place :=
| Looping
| Draining
| Dialing
| Publishing
| Opening
| Streaming (resumeCursor : string) (afterRevision : Z)
| Selecting (l : stream)
| Noting (l : stream)
| Refreshing (l : stream)
| Leaving (synced : bool) (returnErr : error) (conn : bool)
| Closing (synced : bool) (returnErr : error)
| Returned (synced : bool) (returnErr : error)
| Sleeping (deadline : Z)
| Stopping
| Stopped.

(** [w_ctx] is [ctx.Err()]. *)
Record Watcher := mkWatcher {
  w_client : Client;
  w_ctx : option error;
  w_backoff : Z;
  w_reconnects : Z;
  w_at : place
}.

Definition goes (p : place) (w : Watcher) : Watcher :=
  mkWatcher (w_client w) (w_ctx w) (w_backoff w) (w_reconnects w) p.
Definition on_client (f : Client -> Client) (w : Watcher) : Watcher :=
  mkWatcher (f (w_client w)) (w_ctx w) (w_backoff w) (w_reconnects w) (w_at w).

Definition newWatcher (opts : ClientOptions) (c : Client) : Watcher :=
  mkWatcher c None (ReconnectMinBackoff opts) 0 Looping.

Inductive select_case := CaseDone | CaseStateChanged | CaseResync | CaseSilence | CaseSync | CaseReceived | CaseTimer.

(** [buildDialOptions] or [grpc.NewClient] fail, or the connection is made. *)
Inductive dialed := DialOptionsError (err : error) | NewClientError (err : error) | Dialed.

(** What decides a step of the goroutine. *)
Inductive decision :=
| Next
| Dial (d : dialed)
| OpenStream (err : option error)
| Select (c : select_case)
| Jitter (bits : Z).

(** ** [connect] *)

(** [refreshSyncTimer]: [None] is true, the deadline has passed. *)
Definition refreshSyncTimer (opts : ClientOptions) (now : Z) (c : Client) (l : stream)
    : option stream :=
  let with_sync d := mkStreamState (st_synced l) (st_silence l) d (st_received l) (st_open l) in
  match state c with
  | StateReady => Some (with_sync None)
  | StateSynchronizing =>
      let remaining := i64 (SynchronizationTimeout opts - time_sub now (synchronizingSince c)) in
      if remaining <=? 0 then None else Some (with_sync (Some (now + remaining)))
  | _ => Some l
  end.

(** After a message: it is off its channel and the silence timer is reset. *)
Definition taken (opts : ClientOptions) (now : Z) (l : stream) : stream :=
  mkStreamState (st_synced l) (now + WatchSilenceTimeout opts) (st_sync l) None (st_open l).

(** A case of the loop's [select], if its channel is ready. *)
Definition select_step (opts : ClientOptions) (case : select_case) (now : Z) (l : stream)
    (w : Watcher) : option Watcher :=
  let leave err := Some (goes (Leaving (st_synced l) err true) w) in
  let c := w_client w in
  match case with
  | CaseDone => match w_ctx w with Some err => leave err | None => None end
  | CaseStateChanged =>
      if stateChanged c then Some (goes (Refreshing l) (on_client (set_stateChanged false) w)) else None
  | CaseResync =>
      if resync c
      then Some (goes (Leaving (st_synced l) (Named ErrRevisionRace) true) (on_client (set_resync false) w))
      else None
  | CaseSilence => if st_silence l <=? now then leave (Named ErrWatchSilence) else None
  | CaseSync =>
      match st_sync l with
      | Some d => if d <=? now then leave (Named ErrSynchronizationTimeout) else None
      | None => None
      end
  | CaseReceived =>
      match st_received l with
      | None => None
      | Some (Err err) => leave (if Is err IoEOF then Named IoEOF else err)
      | Some (Ok delta) =>
          let (c', err) := processWatch now delta c in
          let w := on_client (fun _ => c') w in
          match err with
          | Some err => Some (goes (Leaving (st_synced l) err true) w)
          | None => Some (goes (Noting (taken opts now l)) w)
          end
      end
  | CaseTimer => None
  end.

(** [if c.Ready() { synced = true }] *)
Definition note_step (l : stream) (w : Watcher) : Watcher :=
  goes (Refreshing (mkStreamState (st_synced l || Ready (w_client w)) (st_silence l) (st_sync l)
                      (st_received l) (st_open l))) w.

Definition refresh_step (opts : ClientOptions) (now : Z) (l : stream) (w : Watcher) : Watcher :=
  match refreshSyncTimer opts now (w_client w) l with
  | Some l => goes (Selecting l) w
  | None => goes (Leaving (st_synced l) (Named ErrSynchronizationTimeout) true) w
  end.

Definition dial_step (d : dialed) (w : Watcher) : Watcher :=
  match d with
  | DialOptionsError err =>
      goes (Leaving false (Errorf "control-plane connection configuration" [err]) false) w
  | NewClientError err => goes (Leaving false (Errorf "create grpc client" [err]) false) w
  | Dialed => goes Publishing w
  end.

Definition open_step (now : Z) (w : Watcher) : Watcher :=
  let (c, request) := openWatch now (w_client w) in
  goes (Streaming request.1 request.2) (on_client (fun _ => c) w).

Definition stream_step (opts : ClientOptions) (err : option error) (now : Z) (w : Watcher) : Watcher :=
  match err with
  | Some err => goes (Leaving false (Errorf "open state watch" [err]) true) w
  | None =>
      goes (Selecting (mkStreamState false (now + WatchSilenceTimeout opts)
                         (Some (now + SynchronizationTimeout opts)) None true)) w
  end.

(** The deferred functions: the first [markDisconnected] to run, then the connection. *)
Definition leave_step (now : Z) (synced : bool) (returnErr : error) (conn : bool) (w : Watcher)
    : Watcher :=
  goes (if conn then Closing synced returnErr else Returned synced returnErr)
    (on_client (markDisconnected now (Some returnErr)) w).

(** ** [Run] *)

Definition loop_step (now : Z) (w : Watcher) : Watcher :=
  match w_ctx w with
  | Some _ => goes Stopping w
  | None => goes Draining (on_client (markUnsynchronized now StateConnecting) w)
  end.

(** After [connect] returns: the end of the context, or a pause. *)
Definition return_step (opts : ClientOptions) (bits now : Z) (synced : bool) (w : Watcher) : Watcher :=
  match w_ctx w with
  | Some _ => goes Stopping w
  | None =>
      let backoff := if synced then ReconnectMinBackoff opts else w_backoff w in
      mkWatcher (w_client w) (w_ctx w) backoff (u64 (w_reconnects w + 1))
        (Sleeping (now + jittered backoff bits))
  end.

Definition wake (opts : ClientOptions) (w : Watcher) : Watcher :=
  mkWatcher (w_client w) (w_ctx w)
    (minDuration (ReconnectMaxBackoff opts) (i64 (w_backoff w * 2))) (w_reconnects w) Looping.

Definition sleep_step (opts : ClientOptions) (case : select_case) (now deadline : Z) (w : Watcher)
    : option Watcher :=
  match case with
  | CaseDone => match w_ctx w with Some _ => Some (wake opts w) | None => None end
  | CaseTimer => if deadline <=? now then Some (wake opts w) else None
  | _ => None
  end.

(** One step of the goroutine; [None] when the decision does not fit the place, or the
    case is not ready. *)
Definition watch_step (opts : ClientOptions) (d : decision) (now : Z) (w : Watcher) : option Watcher :=
  match w_at w, d with
  | Looping, Next => Some (loop_step now w)
  | Draining, Next => Some (goes Dialing (on_client drainResync w))
  | Dialing, Dial d => Some (dial_step d w)
  | Publishing, Next => Some (goes Opening (on_client (publishTransport true) w))
  | Opening, Next => Some (open_step now w)
  | Streaming _ _, OpenStream err => Some (stream_step opts err now w)
  | Selecting l, Select case => select_step opts case now l w
  | Noting l, Next => Some (note_step l w)
  | Refreshing l, Next => Some (refresh_step opts now l w)
  | Leaving synced err conn, Next => Some (leave_step now synced err conn w)
  | Closing synced err, Next => Some (goes (Returned synced err) (on_client (publishTransport false) w))
  | Returned synced _, Jitter bits => Some (return_step opts bits now synced w)
  | Sleeping deadline, Select case => sleep_step opts case now deadline w
  | Stopping, Next => Some (goes Stopped (on_client (markUnsynchronized now StateShutdown) w))
  | _, _ => None
  end.

(** ** The rest of the system *)

(** The sections of the unary calls: what requests do to the client. *)
Definition request_event (e : event) : bool :=
  match e with
  | EvResync | EvUnaryRevision _ _ | EvCreateReply _ _ | EvLoadCredentials _ _ _ _ _
  | EvLoadVBucket _ _ _ _ _ | EvReadCredentials _ | EvReadVBucket _ => true
  | _ => false
  end.

(** The receiving goroutine puts a result on the channel of its stream. *)
Definition deliver (r : received) (l : stream) : option stream :=
  if st_open l then
    match st_received l with
    | None => Some (mkStreamState (st_synced l) (st_silence l) (st_sync l) (Some r)
                      (match r with Ok _ => true | Err _ => false end))
    | Some _ => None
    end
  else None.

Definition receive (r : received) (w : Watcher) : option Watcher :=
  match w_at w with
  | Selecting l => (fun l => goes (Selecting l) w) <$> deliver r l
  | Noting l => (fun l => goes (Noting l) w) <$> deliver r l
  | Refreshing l => (fun l => goes (Refreshing l) w) <$> deliver r l
  | _ => None
  end.

Inductive watch_move :=
| MoveWatch (d : decision)
| MoveReceive (r : received)
| MoveCancel (err : error)
| MoveRequest (e : event).

Definition move_step (opts : ClientOptions) (m : Z * watch_move) (w : Watcher) : option Watcher :=
  let now := m.1 in
  match m.2 with
  | MoveWatch d => watch_step opts d now w
  | MoveReceive r => receive r w
  | MoveCancel err =>
      match w_ctx w with
      | None => Some (mkWatcher (w_client w) (Some err) (w_backoff w) (w_reconnects w) (w_at w))
      | Some _ => None
      end
  | MoveRequest e => if request_event e then Some (on_client (step (now, e)) w) else None
  end.

(** A schedule, if every move of it can be made. *)
Fixpoint watch_run (opts : ClientOptions) (moves : list (Z * watch_move)) (w : Watcher)
    : option Watcher :=
  match moves with
  | [] => Some w
  | m :: moves => match move_step opts m w with Some w => watch_run opts moves w | None => None end
  end.
End watch.
