(* ===== verification/Jitter.v ===== *)
(** * Jitter: how far [time.Duration(float64(backoff) * (0.5 + c.randFloat()))] strays

    A pause lasts between half and one and a half times the backoff, whatever the random
    bits, for backoffs of up to [2 ^ 47] nanoseconds (39 hours); two nanoseconds account for
    the roundings and the truncation. *)
From Stdlib Require Import SpecFloat.
From S2P Require Import Prelude Flight FloatLaws Watch.

Lemma near_weaken c c' x y : 0 <= x -> c <= c' -> near c x y -> near c' x y.
Proof. unfold near. nia. Qed.

Lemma near_unscale c k x y : 0 < k -> near c (x * k) (y * k) -> near c x y.
Proof.
  unfold near. intros Hk [H1 H2]. split; apply (Z.mul_le_mono_pos_r _ _ k); lia.
Qed.

Lemma units_pos m e : -600 <= e -> 0 < units (Z.pos m) e.
Proof. intros. unfold units. apply Z.mul_pos_pos; [lia|apply Z.pow_pos_nonneg; lia]. Qed.

Lemma float_trunc_units m e :
  -600 <= e -> float_trunc (S754_finite false m e) = units (Z.pos m) e / 2 ^ 600.
Proof.
  intros He. unfold float_trunc, units. destruct (Z.leb_spec 0 e).
  - rewrite (Z.pow_add_r 2 e) by lia. rewrite Z.mul_assoc, Z.div_mul by lia. done.
  - replace (2 ^ 600) with (2 ^ (- e) * 2 ^ (e + 600)) by (rewrite <-Z.pow_add_r by lia; f_equal; lia).
    rewrite Z.div_mul_cancel_r; [done|apply Z.pow_nonzero; lia..].
Qed.

(** [rand.Float64] is its 53 bits over [2 ^ 53]. *)
Lemma randFloat_rounds bits :
  0 < bits mod 2 ^ 53 -> rounds (-159) 3 (bits mod 2 ^ 53 * 2 ^ 547) (randFloat bits).
Proof.
  intros Hk. unfold randFloat. pose proof (Z.mod_pos_bound bits (2 ^ 53) ltac:(lia)) as Hb.
  revert Hk Hb. generalize (bits mod 2 ^ 53) as k. intros k Hk Hb.
  destruct (of_Z_rounds k ltac:(lia)) as (m & e & -> & Hm & He & Hn).
  assert (units k 0 = k * 2 ^ 547 * 2 ^ 53) as Ek by (unfold units; lia).
  assert (e + digits (Z.pos m) <= 54) as Hd.
  { apply units_digits; [lia..|]. unfold near in Hn. change (2 ^ (54 + 600)) with (2 ^ 53 * 2 ^ 601). lia. }
  pose proof (digits_pos (Z.pos m) ltac:(lia)).
  destruct (div_rounds m e Hm ltac:(lia) ltac:(lia)) as (m' & e' & -> & Hm' & He' & Hn').
  exists m', e'. split_and!; [done|done|lia|].
  apply (near_trans 1 1 _ (units (Z.pos m) (e - 53))); [lia..| |done].
  apply (near_unscale _ (2 ^ 53)); [lia|]. rewrite <-Ek.
  replace (units (Z.pos m) (e - 53) * 2 ^ 53) with (units (Z.pos m) e); [done|].
  unfold units. replace (e + 600) with (e - 53 + 600 + 53) by lia.
  rewrite (Z.pow_add_r 2 (e - 53 + 600)) by lia. ring.
Qed.

Lemma jitter_rounds bits :
  rounds (-212) 5 (2 ^ 599 + bits mod 2 ^ 53 * 2 ^ 547)
    (Float64.add (Float64.div (Float64.of_Z 1) (Float64.of_Z 2)) (randFloat bits)).
Proof.
  change (Float64.div (Float64.of_Z 1) (Float64.of_Z 2)) with (S754_finite false (2 ^ 52) (-53)).
  pose proof (Z.mod_pos_bound bits (2 ^ 53) ltac:(lia)) as Hb.
  destruct (Z.eq_dec (bits mod 2 ^ 53) 0) as [E|E].
  - unfold randFloat. rewrite E. exists (2 ^ 52)%positive, (-53).
    split_and!; [done|done|lia|]. apply (near_weaken 0); [lia..|]. apply near_refl.
  - destruct (randFloat_rounds bits ltac:(lia)) as (m & e & -> & Hm & He & Hn).
    assert (units (Z.pos (2 ^ 52)) (-53) = 2 ^ 599) as E1 by done.
    destruct (add_rounds (2 ^ 52) (-53) m e) as (m' & e' & -> & Hm' & He' & Hn'); [lia|lia| |].
    { rewrite E1. unfold near in Hn. change (2 ^ 1000) with (2 ^ 601 * 2 ^ 399). lia. }
    exists m', e'. split_and!; [done|done|lia|]. rewrite E1 in Hn'.
    eapply (near_trans 3 1); [lia..|apply near_add; [lia|lia|exact Hn]|done].
Qed.

Theorem jittered_bounds b bits :
  0 < b <= 2 ^ 47 -> b <= 2 * jittered b bits + 2 /\ 2 * jittered b bits <= 3 * b.
Proof.
  intros Hb. unfold jittered. pose proof (Z.mod_pos_bound bits (2 ^ 53) ltac:(lia)) as Hk.
  destruct (jitter_rounds bits) as (mj & ej & -> & _ & Hej & Hnj).
  destruct (of_Z_rounds b ltac:(lia)) as (mb & eb & -> & _ & Heb & Hnb).
  replace (units b 0) with (b * 2 ^ 600) in Hnb by done.
  set (x := 2 ^ 599 + bits mod 2 ^ 53 * 2 ^ 547) in *.
  assert (2 ^ 599 <= x <= 3 * 2 ^ 599) as Hx by (unfold x; lia). clearbody x.
  pose proof (units_pos mj ej ltac:(lia)) as Hpj. pose proof (units_pos mb eb ltac:(lia)) as Hpb.
  destruct (mul_rounds mb eb mj ej) as (m & e & -> & He & Hn); [lia|lia| |].
  { unfold near in Hnj, Hnb. change (2 ^ 1400) with (2 ^ 700 * 2 ^ 700).
    apply Z.mul_lt_mono_nonneg; lia. }
  rewrite float_trunc_units by lia. revert Hn. generalize (units (Z.pos m) e) as r. intros r Hn.
  assert (near 9 (b * x) r) as Hr.
  { apply (near_unscale _ (2 ^ 600)); [lia|].
    apply (near_trans 7 1 _ (units (Z.pos mb) eb * units (Z.pos mj) ej)); [lia..| |done].
    apply (near_trans 5 1 _ (b * 2 ^ 600 * units (Z.pos mj) ej)); [lia..| |].
    - replace (b * x * 2 ^ 600) with (x * (b * 2 ^ 600)) by ring.
      rewrite (Z.mul_comm (b * 2 ^ 600) (units _ _)). apply near_scale; [lia|done].
    - by apply near_scale; [lia|]. }
  pose proof (Z.mul_div_le r (2 ^ 600) ltac:(lia)) as Hlo.
  pose proof (Z.mul_succ_div_gt r (2 ^ 600) ltac:(lia)) as Hhi.
  revert Hlo Hhi. generalize (r / 2 ^ 600) as j. intros j Hlo Hhi. unfold near in Hr.
  assert (b * 2 ^ 599 <= b * x <= b * (3 * 2 ^ 599)) as Hbx by (split; apply Z.mul_le_mono_nonneg_l; lia).
  revert Hbx Hr. generalize (b * x) as y. intros y Hbx Hr. lia.
Qed.
