(* ===== verification/WatchSpec.v ===== *)
(** * WatchSpec: supervision of the connection

    The goroutine of [Watch] interleaved with any requests: it drives the client through
    the histories of [Client], readiness is always backed by a live stream and a running
    silence timer, a synchronization is abandoned at its deadline, and reconnections
    back off exponentially within the configured bounds. *)
From Stdlib Require Import SpecFloat.
From S2P Require Import Prelude GoStrings Errors Cache Client ClientInv ClientHistory Flight Watch Jitter.

Section spec.
Context `{Platform} {Cred Conf CC VC : Type}
  `{TimedStore CC string (cached Cred)} `{TimedStore VC string (cached Conf)}.
Abbreviation Client := (Client (CC:=CC) (VC:=VC)).
Abbreviation event := (event (Cred:=Cred) (Conf:=Conf)).
Abbreviation Watcher := (Watcher (CC:=CC) (VC:=VC)).
Abbreviation watch_move := (watch_move (Cred:=Cred) (Conf:=Conf)).
Implicit Types (c : Client) (w : Watcher) (now : Z).

(** ** What a section does to the timers' inputs *)

(** The transport is untouched, and either the state and the start of its
    synchronization are too, or the change is signalled. *)
Definition ticks now c c' : Prop :=
  connected c' = connected c /\
  ((state c' = state c /\ synchronizingSince c' = synchronizingSince c /\
    stateChanged c' = stateChanged c) \/
   (stateChanged c' = true /\
    (synchronizingSince c' = synchronizingSince c \/ synchronizingSince c' = now) /\
    (state c' = StateSynchronizing -> synchronizingSince c' = now))).

Lemma ticks_same now c c' :
  connected c' = connected c -> state c' = state c ->
  synchronizingSince c' = synchronizingSince c -> stateChanged c' = stateChanged c ->
  ticks now c c'.
Proof. unfold ticks. auto. Qed.

Lemma ticks_trans now c1 c2 c3 : ticks now c1 c2 -> ticks now c2 c3 -> ticks now c1 c3.
Proof.
  intros [C1 R1] [C2 R2]. split; [congruence|].
  destruct R1 as [(S1 & T1 & U1)|(U1 & T1 & D1)], R2 as [(S2 & T2 & U2)|(U2 & T2 & D2)];
    [left|right..]; rewrite ?S2, ?U2; split_and!; try congruence; try tauto; intuition congruence.
Qed.

Lemma ticks_transition now s c : ticks now c (transitionLocked now s c).
Proof.
  split; [apply transitionLocked_connected|]. unfold transitionLocked.
  repeat case_bool_decide; simpl; auto; right; split_and!; auto; congruence.
Qed.

(** A transition between writes of other fields. *)
Lemma ticks_via now s c c1 c2 :
  ticks now c c1 ->
  connected c2 = connected (transitionLocked now s c1) ->
  state c2 = state (transitionLocked now s c1) ->
  synchronizingSince c2 = synchronizingSince (transitionLocked now s c1) ->
  stateChanged c2 = stateChanged (transitionLocked now s c1) -> ticks now c c2.
Proof.
  intros Ht ? ? ? ?. eapply ticks_trans; [exact Ht|]. eapply ticks_trans; [apply ticks_transition|].
  by apply ticks_same.
Qed.

Ltac tick :=
  first
    [ by apply ticks_same
    | by eapply ticks_via; [|reflexivity..]; first [by apply ticks_same | eassumption] ].

Lemma ticks_applyEntity now e rev c : ticks now c (applyEntityLocked now e rev c).1.
Proof.
  destruct e as [| | |d|d|d]; try by apply ticks_same.
  - destruct d as [d|]; cbn; [|tick]. repeat case_match; cbn [fst]; tick.
  - cbn. unfold applyBaseHost. repeat case_match; cbn [fst]; tick.
  - destruct d as [d|]; cbn; [|tick]. repeat case_match; cbn [fst]; tick.
Qed.

Lemma ticks_watchBody now d e c : ticks now c (watchBody now d e c).1.
Proof.
  unfold watchBody. destruct (_ && _); [tick|].
  assert (ticks now c (liveMutation now d e c).1) as Hlive.
  { unfold liveMutation. pose proof (ticks_applyEntity now e (we_Revision d) c) as Ha.
    destruct (_ || _); [tick|]. destruct (_ <=? _); [tick|]. destruct (_ || _ || _); [tick|].
    destruct (applyEntityLocked _ _ _ _) as [c1 [err|]]; cbn [fst] in Ha; [tick|].
    repeat case_match; cbn [fst]; first [tick | eapply ticks_trans; [exact Ha|]; tick]. }
  assert (forall sn, ticks now c (snapshotEntry d e sn c).1) as Hsnap.
  { intros sn. unfold snapshotEntry. repeat case_match; cbn [fst]; tick. }
  destruct e; try (destruct (snapshot c); by auto).
  - unfold beginSnapshot. repeat case_match; cbn [fst]; tick.
  - unfold acceptBarrier, snapshotBarrier, resumeBarrier, settle. cbv zeta.
    repeat case_match; cbn [fst]; tick.
  - unfold acceptHeartbeat. repeat case_match; cbn [fst]; tick.
Qed.

Lemma ticks_processWatch now d c : ticks now c (processWatch now d c).1.
Proof.
  unfold processWatch. destruct d as [d|]; [|tick]. destruct (we_Event d) as [e|]; [|tick].
  pose proof (ticks_watchBody now d e c) as Hb. destruct (watchBody now d e c) as [c1 [err|]]; [|done].
  cbn in *. eapply ticks_trans; [exact Hb|]. tick.
Qed.
(** ** Requests *)

(** Neither ready nor synchronizing: no stream is believed in. *)
Definition idle c : Prop := state c <> StateReady /\ state c <> StateSynchronizing.

(** A request never makes the client ready, nor an idle one synchronizing. *)
Definition no_gain c c' : Prop :=
  (state c <> StateReady -> state c' <> StateReady) /\ (idle c -> idle c').

Lemma no_gain_same c c' : state c' = state c -> no_gain c c'.
Proof. unfold no_gain, idle. by intros ->. Qed.

Lemma no_gain_trans c1 c2 c3 : no_gain c1 c2 -> no_gain c2 c3 -> no_gain c1 c3.
Proof. unfold no_gain. tauto. Qed.

Definition request_frame now c c' : Prop := ticks now c c' /\ no_gain c c'.

Lemma frame_same now c c' :
  connected c' = connected c -> state c' = state c ->
  synchronizingSince c' = synchronizingSince c -> stateChanged c' = stateChanged c ->
  request_frame now c c'.
Proof. intros. split; [by apply ticks_same|by apply no_gain_same]. Qed.

Lemma frame_trans now c1 c2 c3 :
  request_frame now c1 c2 -> request_frame now c2 c3 -> request_frame now c1 c3.
Proof. intros [? ?] [? ?]. split; [by eapply ticks_trans|by eapply no_gain_trans]. Qed.

Lemma frame_transition now s c c1 :
  connected c1 = connected c -> state c1 = state c ->
  synchronizingSince c1 = synchronizingSince c -> stateChanged c1 = stateChanged c ->
  s <> StateReady ->
  (s = StateSynchronizing -> state c = StateReady \/ state c = StateSynchronizing) ->
  request_frame now c (transitionLocked now s c1).
Proof.
  intros Hc Hs Ht Hu Hr Hg. split.
  - eapply ticks_trans; [by apply ticks_same|apply ticks_transition].
  - split; [|intros [? ?]; split]; rewrite transitionLocked_state, Hs; case_bool_decide; try done.
    intros ->. by destruct Hg.
Qed.

Lemma frame_resync now c : request_frame now c (requestResyncLocked now c).
Proof.
  unfold requestResyncLocked. case_bool_decide; [by apply frame_same|].
  eapply frame_trans; [by apply (frame_transition now StateDisconnected c (set_barrierRequired true c))|].
  by apply frame_same.
Qed.

Lemma frame_unary now rev expected c : request_frame now c (checkUnaryRevision now rev expected c).1.
Proof.
  unfold checkUnaryRevision. destruct (_ =? _); [by apply frame_same|].
  case_bool_decide; [by apply frame_same|]. cbn [fst].
  destruct (rev <? expected); [apply frame_resync|]. destruct (_ <? _); [|by apply frame_same].
  cbv zeta. case_bool_decide; [|by apply frame_same]. apply frame_transition; auto.
Qed.

Lemma frame_create now rev resp c : request_frame now c (createReply now rev resp c).1.
Proof.
  unfold createReply. destruct resp as [r|]; [|apply frame_resync].
  destruct (_ || _); [apply frame_resync|]. case_bool_decide; [by apply frame_same|].
  destruct (_ <? _); [|by apply frame_same]. cbv zeta. cbn [state set_requiredRevision].
  repeat case_bool_decide; cbn [orb fst]; try (by apply frame_same); apply frame_transition; auto.
Qed.

Lemma frame_loaded {A} now (r : load_result A) c c1 :
  connected c1 = connected c -> state c1 = state c ->
  synchronizingSince c1 = synchronizingSince c -> stateChanged c1 = stateChanged c ->
  request_frame now c (load_resync now r c1).
Proof.
  intros. eapply frame_trans; [by apply (frame_same now c c1)|].
  destruct r; try by apply frame_same. apply frame_resync.
Qed.

Lemma frame_loadCredentials now key rev ep respRev parsed c :
  request_frame now c (loadCredentials now key rev ep respRev parsed c).1.
Proof.
  unfold loadCredentials. pose proof (frame_unary now respRev rev c) as Hu.
  destruct (checkUnaryRevision _ _ _ _) as [c1 [err|]]; [done|]. destruct parsed; [|done].
  eapply frame_trans; [exact Hu|]. unfold admitCredentials.
  destruct (_ || _); [by apply frame_same|]. destruct (admitEntry _ _ _ _ _ _). by apply frame_loaded.
Qed.

Lemma frame_loadVBucket now key rev ep respRev parsed c :
  request_frame now c (loadVBucket now key rev ep respRev parsed c).1.
Proof.
  unfold loadVBucket. pose proof (frame_unary now respRev rev c) as Hu.
  destruct (checkUnaryRevision _ _ _ _) as [c1 [err|]]; [done|]. destruct parsed; [|done].
  eapply frame_trans; [exact Hu|]. unfold admitVBucket.
  destruct (_ || _); [by apply frame_same|]. destruct (admitEntry _ _ _ _ _ _). by apply frame_loaded.
Qed.

Lemma request_step now (e : event) c : request_event e = true -> request_frame now c (step (now, e) c).
Proof.
  destruct e; intros He; try discriminate He; unfold step; cbn [fst snd];
    auto using frame_resync, frame_unary, frame_create, frame_loadCredentials, frame_loadVBucket.
  - unfold readCredentials. destruct (store_get _ _ _). by apply frame_same.
  - unfold readVBucket. destruct (store_get _ _ _). by apply frame_same.
Qed.
(** ** The goroutine drives the client through histories *)

Variable opts : ClientOptions.

(** A message waiting on the stream's channel. *)
Definition waiting w : option (result error (option WatchEvent)) :=
  match w_at w with
  | Selecting l | Noting l | Refreshing l => st_received l
  | _ => None
  end.

(** What a move may do to the client: a request's own section, a message that was
    waiting, or a step of [Run] and [connect]. *)
Definition caused (m : Z * watch_move) w (e : Z * event) : Prop :=
  e.1 = m.1 /\
  match m.2 with
  | MoveRequest e' => e.2 = e' /\ request_event e' = true
  | MoveWatch _ =>
      request_event e.2 = false /\
      match e.2 with EvWatch d => waiting w = Some (Ok d) | _ => True end
  | _ => False
  end.

Lemma run_one now e c : run [(now, e)] c = step (now, e) c.
Proof. done. Qed.

Lemma select_history case now l w w' :
  w_at w = Selecting l -> select_step opts case now l w = Some w' ->
  exists h, w_client w' = run h (w_client w) /\
    Forall (caused (now, MoveWatch (Select case)) w) h.
Proof.
  intros Hat Hs. destruct case; cbn in Hs.
  - exists []. destruct (w_ctx w); by simplify_eq.
  - exists [(now, EvTakeStateChanged)]. destruct (stateChanged _); simplify_eq.
    split; [done|]. by repeat constructor.
  - exists [(now, EvDrainResync)]. destruct (resync _); simplify_eq.
    split; [done|]. by repeat constructor.
  - exists []. destruct (_ <=? _); by simplify_eq.
  - exists []. destruct (st_sync l); [|done]. destruct (_ <=? _); by simplify_eq.
  - destruct (st_received l) as [[delta|err]|] eqn:Er; [|exists []; by simplify_eq|done].
    exists [(now, EvWatch delta)]. split.
    + rewrite run_one. unfold step; cbn [fst snd].
      destruct (processWatch now delta (w_client w)) as [c1 [err|]]; by simplify_eq.
    + repeat constructor. unfold waiting. cbn. by rewrite Hat.
  - done.
Qed.

Lemma goroutine_history d now w w' :
  watch_step opts d now w = Some w' ->
  exists h, w_client w' = run h (w_client w) /\ Forall (caused (now, MoveWatch d) w) h.
Proof.
  assert (forall e, request_event e = false -> match e with EvWatch _ => False | _ => True end ->
    Forall (caused (now, MoveWatch d) w) [(now, e)]) as Hone.
  { intros e He Hn. repeat constructor; [done|]. by destruct e. }
  unfold watch_step. destruct (w_at w) eqn:Hat, d; intros Hs; try discriminate Hs;
    try (by eapply select_history); try injection Hs as <-.
  - unfold loop_step. destruct (w_ctx w); [by exists []|exists [(now, EvConnecting)]; auto].
  - exists [(now, EvDrainResync)]; auto.
  - exists []. by destruct d.
  - exists [(now, EvTransport true)]; auto.
  - exists [(now, EvOpenWatch)]; auto.
  - exists []. by destruct err.
  - by exists [].
  - exists []. unfold refresh_step. by destruct (refreshSyncTimer _ _ _ _).
  - exists [(now, EvDisconnected (Some returnErr))]; auto.
  - exists [(now, EvTransport false)]; auto.
  - exists []. unfold return_step. by destruct (w_ctx w).
  - exists []. unfold sleep_step in Hs. repeat case_match; by simplify_eq.
  - exists [(now, EvShutdown)]; auto.
Qed.

Lemma move_history m w w' :
  move_step opts m w = Some w' ->
  exists h, w_client w' = run h (w_client w) /\ Forall (caused m w) h.
Proof.
  destruct m as [now [d|r|err|e]]; cbn.
  - apply goroutine_history.
  - intros Hs. exists []. unfold receive in Hs. split; [|done].
    destruct (w_at w); try discriminate Hs; destruct (deliver r l); by simplify_eq/=.
  - intros Hs. exists []. destruct (w_ctx w); by simplify_eq.
  - intros Hs. destruct (request_event e) eqn:He; simplify_eq. exists [(now, e)]. by repeat constructor.
Qed.

(** Messages come from the stream. *)
Lemma waiting_step m w w' r :
  move_step opts m w = Some w' -> waiting w' = Some r ->
  waiting w = Some r \/ m.2 = MoveReceive r.
Proof.
  destruct m as [now [d|r'|err|e]]; cbn; intros Hs Hr.
  - left. unfold watch_step in Hs. unfold waiting in *.
    destruct (w_at w) eqn:Hat, d; try discriminate Hs.
    all: try (injection Hs as <-; cbn in Hr; discriminate Hr).
    + injection Hs as <-. unfold loop_step in Hr. by destruct (w_ctx w).
    + injection Hs as <-. by destruct d.
    + injection Hs as <-. by destruct err.
    + destruct c; cbn in Hs; repeat case_match; simplify_eq/=; done.
    + by injection Hs as <-.
    + injection Hs as <-. unfold refresh_step, refreshSyncTimer in Hr. cbv zeta in Hr.
      repeat case_match; simplify_eq/=; done.
    + injection Hs as <-. unfold leave_step in Hr. by destruct conn.
    + injection Hs as <-. unfold return_step in Hr. by destruct (w_ctx w).
    + unfold sleep_step in Hs. repeat case_match; by simplify_eq/=.
  - unfold receive, deliver in Hs. unfold waiting in *.
    destruct (w_at w) eqn:Hat; try discriminate Hs; repeat case_match; simplify_eq/=; auto.
  - left. destruct (w_ctx w); by simplify_eq.
  - left. destruct (request_event e); by simplify_eq.
Qed.
(** ** Runs *)

Lemma watch_run_snoc moves m w :
  watch_run opts (moves ++ [m]) w = watch_run opts moves w ≫= move_step opts m.
Proof.
  revert w. induction moves as [|m' moves IH]; intros w; cbn; [by destruct (move_step _ _ _)|].
  destruct (move_step opts m' w) as [w'|]; [apply IH|done].
Qed.

Lemma watch_run_ind (P : list (Z * watch_move) -> Watcher -> Prop) w0 :
  P [] w0 ->
  (forall moves m w w', P moves w -> move_step opts m w = Some w' -> P (moves ++ [m]) w') ->
  forall moves w, watch_run opts moves w0 = Some w -> P moves w.
Proof.
  intros H0' Hs moves. induction moves as [|m moves IH] using rev_ind; intros w Hr.
  - by injection Hr as <-.
  - rewrite watch_run_snoc in Hr. destruct (watch_run opts moves w0) as [w1|]; [|done]. eauto.
Qed.

(** An event of the history a schedule causes: a message the stream delivered, a section
    of a request of the schedule, or a step of the goroutine. *)
Definition from_moves (moves : list (Z * watch_move)) (e : Z * event) : Prop :=
  match e.2 with
  | EvWatch d => exists t, (t, MoveReceive (Ok d)) ∈ moves
  | _ => request_event e.2 = true -> (e.1, MoveRequest e.2) ∈ moves
  end.

Lemma from_moves_app moves moves' e : from_moves moves e -> from_moves (moves ++ moves') e.
Proof.
  unfold from_moves. destruct e as [t e]; destruct e; cbn; try (intros Hin Hr; by apply elem_of_app, or_introl, Hin).
  intros [t' Hin]. exists t'. by apply elem_of_app, or_introl.
Qed.

Lemma caused_from moves m w e :
  (forall r, waiting w = Some r -> exists t, (t, MoveReceive r) ∈ moves) ->
  caused m w e -> from_moves (moves ++ [m]) e.
Proof.
  destruct m as [now mv], e as [t e]. unfold caused; cbn. intros Hw [-> Hc].
  destruct mv as [d|r|err|e']; [| done | done |].
  - destruct Hc as [Hr Hd]. apply from_moves_app. destruct e; cbn in *; try (by rewrite ?Hr); auto.
  - destruct Hc as [<- He].
    destruct e; try discriminate He; intros _; apply elem_of_app; right; by constructor.
Qed.

Lemma runs_history c0 moves w :
  watch_run opts moves (newWatcher opts c0) = Some w ->
  (exists h, w_client w = run h c0 /\ Forall (from_moves moves) h) /\
  (forall r, waiting w = Some r -> exists t, (t, MoveReceive r) ∈ moves).
Proof.
  apply (watch_run_ind (fun moves w =>
    (exists h, w_client w = run h c0 /\ Forall (from_moves moves) h) /\
    (forall r, waiting w = Some r -> exists t, (t, MoveReceive r) ∈ moves))).
  - split; [by exists []|done].
  - clear moves w. intros moves m w w' [(h & Hc & Hh) Hw] Hs. split.
    + destruct (move_history _ _ _ Hs) as (h' & Hc' & Hh'). exists (h ++ h'). split.
      * by rewrite run_app, <-Hc.
      * apply Forall_app. split; eapply Forall_impl; eauto using from_moves_app, caused_from.
    + intros r Hr. destruct (waiting_step _ _ _ _ Hs Hr) as [Hr'|Hm].
      * destruct (Hw r Hr') as [t Ht]. exists t. by apply elem_of_app, or_introl.
      * exists m.1. rewrite <-Hm, <-surjective_pairing. apply elem_of_app. right. by constructor.
Qed.
(** ** Supervision *)

(** When a move takes a message from a stream. *)
Definition taken_at (m : Z * watch_move) : option Z :=
  match m.2 with MoveWatch (Select CaseReceived) => Some m.1 | _ => None end.

(** The last time a schedule takes one. *)
Definition last_taken (moves : list (Z * watch_move)) : option Z := list.last (omap taken_at moves).

Lemma last_taken_snoc moves m :
  last_taken (moves ++ [m]) = match taken_at m with Some t => Some t | None => last_taken moves end.
Proof.
  unfold last_taken. rewrite omap_app. cbn. destruct (taken_at m); [apply last_snoc|by rewrite app_nil_r].
Qed.

(** The silence timer runs since the last message was taken. *)
Definition heard (moves : list (Z * watch_move)) (l : stream) : Prop :=
  exists t, last_taken moves = Some t /\ st_silence l = t + WatchSilenceTimeout opts.

(** The synchronization timer is armed for the deadline, or about to be. *)
Definition sync_armed c (l : stream) : Prop :=
  state c = StateSynchronizing ->
  stateChanged c = true \/ st_sync l = Some (synchronizingSince c + SynchronizationTimeout opts).

Definition supervised (moves : list (Z * watch_move)) w : Prop :=
  let c := w_client w in
  match w_at w with
  | Streaming _ _ =>
      connected c = true /\ state c <> StateReady /\
      (state c = StateSynchronizing -> stateChanged c = true)
  | Selecting l =>
      connected c = true /\ (state c = StateReady -> heard moves l /\ st_sync l = None) /\
      sync_armed c l
  | Noting l | Refreshing l => connected c = true /\ (state c = StateReady -> heard moves l)
  | Leaving _ _ true => connected c = true
  | Opening => idle c /\ connected c = true
  | _ => idle c
  end.

(** Clock readings are nanoseconds of a monotonic clock: far from the limits of int64. *)
Definition clock_ok (t : Z) : Prop := 0 <= t < 2 ^ 62.

Definition timeouts_ok : Prop := 0 < SynchronizationTimeout opts < 2 ^ 62.

(** A move that takes no message leaves the timer's account alone. *)
Lemma heard_snoc moves m l l' :
  taken_at m = None -> st_silence l' = st_silence l -> heard moves l -> heard (moves ++ [m]) l'.
Proof. intros Hm Hl (t & Ht & E). exists t. rewrite last_taken_snoc, Hm. split; [done|congruence]. Qed.

Lemma remaining_exact now since :
  clock_ok now -> clock_ok since -> timeouts_ok ->
  i64 (SynchronizationTimeout opts - time_sub now since)
  = SynchronizationTimeout opts - (now - since).
Proof.
  unfold clock_ok, timeouts_ok, i64, time_sub, min_int64, max_int64. intros.
  rewrite Z.min_r, Z.max_r by lia. rewrite Z.mod_small by lia. lia.
Qed.

Lemma refresh_supervised moves now l w :
  clock_ok now -> clock_ok (synchronizingSince (w_client w)) -> timeouts_ok ->
  connected (w_client w) = true -> (state (w_client w) = StateReady -> heard moves l) ->
  supervised moves (refresh_step opts now l w).
Proof.
  intros Hn Hs Ht Hc Hh. unfold refresh_step, refreshSyncTimer. cbv zeta.
  rewrite remaining_exact by done. unfold supervised, sync_armed, heard in *.
  destruct (state (w_client w)) eqn:Est; try (destruct (_ <=? _)); cbn; rewrite ?Est;
    split_and?; try done; intros; try discriminate; auto.
  right. f_equal. lia.
Qed.

Lemma idle_transition now s c : s <> StateReady -> s <> StateSynchronizing -> idle (transitionLocked now s c).
Proof. intros. split; rewrite transitionLocked_state; by case_bool_decide. Qed.

Lemma open_supervised moves now w :
  idle (w_client w) -> connected (w_client w) = true -> supervised moves (open_step now w).
Proof.
  intros [Hr Hs] Hc. unfold open_step, openWatch. cbn.
  destruct (ticks_transition now StateSynchronizing (w_client w)) as [Hc' Ht]. split; [congruence|].
  split; [rewrite transitionLocked_state; by case_bool_decide|].
  intros Es. destruct Ht as [(E & _)|(Hu & _)]; [congruence|done].
Qed.

Lemma select_supervised moves case now l w w' :
  w_at w = Selecting l -> supervised moves w -> select_step opts case now l w = Some w' ->
  supervised (moves ++ [(now, MoveWatch (Select case))]) w'.
Proof.
  unfold supervised at 1. intros -> (Hc & Hr & Ha) Hs.
  destruct case; cbn in Hs.
  - by destruct (w_ctx w); simplify_eq.
  - destruct (stateChanged _); simplify_eq. split; [done|]. intros Es. by eapply heard_snoc, Hr.
  - by destruct (resync _); simplify_eq.
  - by destruct (_ <=? _); simplify_eq.
  - destruct (st_sync l); [|done]. by destruct (_ <=? _); simplify_eq.
  - destruct (st_received l) as [[delta|err]|]; [|by simplify_eq|done].
    pose proof (ticks_processWatch now delta (w_client w)) as [Hc' _].
    destruct (processWatch now delta (w_client w)) as [c1 [err|]]; cbn in Hc'; simplify_eq.
    + cbn. congruence.
    + split; [cbn; congruence|]. intros _. exists now. by rewrite last_taken_snoc.
  - done.
Qed.

Lemma idle_markDisconnected now err c : idle (markDisconnected now err c).
Proof. by apply (idle_transition now StateDisconnected (set_lastDisconnectReason _ c)). Qed.

Lemma goroutine_supervised moves d now w w' :
  clock_ok now -> clock_ok (synchronizingSince (w_client w)) -> timeouts_ok ->
  supervised moves w -> watch_step opts d now w = Some w' ->
  supervised (moves ++ [(now, MoveWatch d)]) w'.
Proof.
  intros Hn Hsince Ht Hw Hs. unfold watch_step in Hs.
  destruct (w_at w) eqn:Hat, d; try discriminate Hs; try (by eapply select_supervised);
    unfold supervised in Hw; rewrite Hat in Hw.
  all: try injection Hs as <-.
  - unfold loop_step. destruct (w_ctx w); [done|]. by apply (idle_transition now StateConnecting).
  - done.
  - by destruct d.
  - done.
  - destruct Hw. by apply open_supervised.
  - destruct Hw as (Hc & Hr & Hu). destruct err; [done|]. split; [done|]. split; [by intros ?%Hr|].
    intros Es. left. auto.
  - destruct Hw as [Hc Hh]. split; [done|]. intros Es. by eapply heard_snoc, (Hh Es).
  - destruct Hw as [Hc Hh]. apply refresh_supervised; try done. intros Es. by eapply heard_snoc, (Hh Es).
  - unfold leave_step. destruct conn; apply idle_markDisconnected.
  - done.
  - unfold return_step. by destruct (w_ctx w).
  - unfold sleep_step in Hs. repeat case_match; by simplify_eq.
  - by apply (idle_transition now StateShutdown).
Qed.

Lemma receive_supervised moves m r w w' :
  taken_at m = None -> supervised moves w -> receive r w = Some w' -> supervised (moves ++ [m]) w'.
Proof.
  intros Hm. pose proof (fun l l' => heard_snoc moves m l l' Hm) as Hh.
  unfold receive, supervised. intros Hw Hs.
  destruct (w_at w) as [| | | | | |l|l|l| | | | | |]; try discriminate Hs;
    apply fmap_Some in Hs as (l' & Hd & ->); unfold deliver in Hd;
    destruct (st_open l), (st_received l); simplify_eq; cbn; unfold sync_armed in *; cbn.
  - destruct Hw as (? & Hr & ?). split_and!; [done| |done]. intros Es. destruct (Hr Es).
    split; [by eapply Hh|done].
  - destruct Hw as [? Hr]. split; [done|]. intros Es. by eapply Hh, Hr.
  - destruct Hw as [? Hr]. split; [done|]. intros Es. by eapply Hh, Hr.
Qed.

Lemma request_supervised moves m now e w :
  taken_at m = None -> request_event e = true -> supervised moves w ->
  supervised (moves ++ [m]) (on_client (step (now, e)) w).
Proof.
  intros Hm He. destruct (request_step now e (w_client w) He) as [[Hc Ht] [Hr Hi]].
  pose proof (fun l => heard_snoc moves m l l Hm eq_refl) as Hkeep.
  unfold supervised, sync_armed. cbn. destruct (w_at w).
  all: try by auto.
  - intros [Hid ?]. split; [auto|congruence].
  - intros (? & ? & Hu). split_and!; [congruence|auto|].
    intros Es. destruct Ht as [(E & _ & ->)|[? _]]; [apply Hu; congruence|done].
  - intros (? & Hh & Ha). split_and!; [congruence| |].
    + intros Es. destruct (decide (state (w_client w) = StateReady)) as [E|E]; [|by destruct (Hr E)].
      destruct (Hh E). auto.
    + intros Es. destruct Ht as [(E & -> & ->)|[? _]]; [apply Ha; congruence|auto].
  - intros [? Hh]. split; [congruence|]. intros Es. apply Hkeep, Hh.
    destruct (decide (state (w_client w) = StateReady)) as [E|E]; [done|]. by destruct (Hr E).
  - intros [? Hh]. split; [congruence|]. intros Es. apply Hkeep, Hh.
    destruct (decide (state (w_client w) = StateReady)) as [E|E]; [done|]. by destruct (Hr E).
  - destruct conn; [congruence|auto].
Qed.

Lemma since_step e c :
  synchronizingSince (step e c) = synchronizingSince c \/ synchronizingSince (step e c) = e.1.
Proof.
  assert (forall c', ticks e.1 c c' ->
    synchronizingSince c' = synchronizingSince c \/ synchronizingSince c' = e.1) as Ht.
  { intros c' [_ [(_ & ? & _)|(_ & ? & _)]]; auto. }
  destruct e as [now e]; cbn [fst] in *. destruct (request_event e) eqn:He.
  { apply Ht, request_step, He. }
  destruct e; try discriminate He; unfold step; cbn [fst snd]; auto; apply Ht.
  - eapply (ticks_via now StateConnecting); [by apply ticks_same|done..].
  - eapply (ticks_via now StateShutdown); [by apply ticks_same|done..].
  - apply ticks_transition.
  - apply ticks_processWatch.
  - eapply (ticks_via now StateDisconnected); [|done..]. by apply ticks_same.
Qed.

Lemma since_move m w w' :
  clock_ok m.1 -> clock_ok (synchronizingSince (w_client w)) -> move_step opts m w = Some w' ->
  clock_ok (synchronizingSince (w_client w')).
Proof.
  intros Hm Hw (h & -> & Hh)%move_history. revert Hw. generalize (w_client w). intros c.
  revert c. induction Hh as [|e h He Hh IH]; intros c Hc; [done|]. apply (IH (step e c)).
  destruct He as [He _]. destruct (since_step e c) as [->| ->]; congruence.
Qed.

Lemma move_supervised moves m w w' :
  timeouts_ok -> clock_ok m.1 -> clock_ok (synchronizingSince (w_client w)) ->
  supervised moves w -> move_step opts m w = Some w' -> supervised (moves ++ [m]) w'.
Proof.
  intros Ht Hm Hcl Hsup Hs. destruct m as [now [d|r|err|e]]; cbn in Hs, Hm.
  - by eapply goroutine_supervised.
  - by eapply receive_supervised.
  - destruct (w_ctx w); simplify_eq. unfold supervised in *. cbn.
    destruct (w_at w); try done; destruct Hsup; intuition auto; by eapply heard_snoc; auto.
  - destruct (request_event e) eqn:He; simplify_eq. by apply request_supervised.
Qed.

(** What every schedule from a client that never ran maintains. *)
Definition supervision (moves : list (Z * watch_move)) w : Prop :=
  Forall (fun m => clock_ok m.1) moves ->
  supervised moves w /\ clock_ok (synchronizingSince (w_client w)).

Lemma supervision_move moves m w w' :
  timeouts_ok -> supervision moves w -> move_step opts m w = Some w' -> supervision (moves ++ [m]) w'.
Proof.
  intros Ht IH Hs [Hms Hm]%Forall_app. rewrite Forall_singleton in Hm.
  destruct (IH Hms) as [Hsup Hcl].
  split; [by apply (move_supervised moves m w)|exact (since_move m w w' Hm Hcl Hs)].
Qed.

Lemma runs_supervised c0 moves w :
  timeouts_ok -> idle c0 -> clock_ok (synchronizingSince c0) ->
  watch_run opts moves (newWatcher opts c0) = Some w -> supervision moves w.
Proof.
  intros Ht Hi Hc0. apply (watch_run_ind supervision); [by intros _|].
  intros. by eapply supervision_move.
Qed.

(** ** The synchronization deadline *)

(** A wait or a stream not yet opened is for a synchronization that ends after [T]. *)
Definition on_time (T : Z) w : Prop :=
  match w_at w with
  | Selecting _ | Streaming _ _ =>
      state (w_client w) = StateSynchronizing ->
      T < synchronizingSince (w_client w) + SynchronizationTimeout opts
  | _ => True
  end.

Lemma on_time_refresh T now l w :
  timeouts_ok -> clock_ok now -> clock_ok (synchronizingSince (w_client w)) -> T <= now ->
  on_time T (refresh_step opts now l w).
Proof.
  intros Ht Hn Hc HT. unfold refresh_step, refreshSyncTimer. cbv zeta.
  rewrite remaining_exact by done. unfold on_time.
  destruct (state (w_client w)) eqn:Es; try (destruct (Z.leb_spec
    (SynchronizationTimeout opts - (now - synchronizingSince (w_client w))) 0)); cbn; try done;
    rewrite ?Es; intros; try discriminate; lia.
Qed.

Lemma on_time_request T now e w :
  timeouts_ok -> T <= now -> request_event e = true -> on_time T w ->
  on_time T (on_client (step (now, e)) w).
Proof.
  intros [? ?] HT He. destruct (request_step now e (w_client w) He) as [[_ Ht] _].
  unfold on_time. cbn. destruct (w_at w); try done; intros Hw Es;
    (destruct Ht as [(E & -> & _)|(_ & _ & E)]; [apply Hw; congruence|rewrite E by done; lia]).
Qed.

Lemma on_time_step T d now w w' moves :
  timeouts_ok -> clock_ok now -> clock_ok (synchronizingSince (w_client w)) -> T <= now ->
  supervised moves w -> on_time T w -> watch_step opts d now w = Some w' -> on_time T w'.
Proof.
  intros Ht Hn Hc HT Hsup Hw Hs. unfold watch_step in Hs.
  destruct (w_at w) eqn:Hat, d; try discriminate Hs; try injection Hs as <-; try done.
  - unfold loop_step. by destruct (w_ctx w).
  - by destruct d.
  - unfold supervised in Hsup. rewrite Hat in Hsup. destruct Hsup as [[_ Hi] _].
    unfold open_step, openWatch, on_time. cbn. intros Es.
    destruct (ticks_transition now StateSynchronizing (w_client w)) as [_ [(E & _)|(_ & _ & E)]];
      [congruence|]. rewrite E by done. destruct Ht. lia.
  - unfold on_time in *. rewrite Hat in Hw. by destruct err.
  - destruct c; cbn in Hs; repeat case_match; by simplify_eq.
  - by apply on_time_refresh.
  - unfold leave_step. by destruct conn.
  - unfold return_step. by destruct (w_ctx w).
  - unfold sleep_step in Hs. repeat case_match; by simplify_eq.
Qed.

Lemma on_time_move T m w w' moves :
  timeouts_ok -> clock_ok m.1 -> clock_ok (synchronizingSince (w_client w)) -> T <= m.1 ->
  supervised moves w -> on_time T w -> move_step opts m w = Some w' -> on_time T w'.
Proof.
  intros Ht Hm Hcl HT Hsup Hw Hs. destruct m as [now [d|r|err|e]]; cbn in Hs, Hm, HT.
  - by eapply (on_time_step T d now w w' moves).
  - unfold receive in Hs. unfold on_time in *.
    destruct (w_at w); try discriminate Hs; apply fmap_Some in Hs as (l' & _ & ->); done.
  - by destruct (w_ctx w); simplify_eq.
  - destruct (request_event e) eqn:He; simplify_eq. by apply on_time_request.
Qed.
(** After a case of the select there is no wait. *)
Lemma on_time_left T d t w w' l :
  w_at w = Selecting l -> move_step opts (t, MoveWatch d) w = Some w' -> on_time T w'.
Proof.
  intros Hat Hs. cbn in Hs. unfold watch_step in Hs. rewrite Hat in Hs.
  destruct d; try discriminate Hs. destruct c; cbn in Hs; repeat case_match; by simplify_eq.
Qed.

(** ** Backoff *)

(** How each [connect] that was followed by a pause went. *)
Definition outcome_of (m : Z * watch_move) w : list bool :=
  match w_at w, m.2, w_ctx w with
  | Returned synced _, MoveWatch (Jitter _), None => [synced]
  | _, _, _ => []
  end.

Fixpoint outcomes (moves : list (Z * watch_move)) w : list bool :=
  match moves with
  | [] => []
  | m :: moves =>
      outcome_of m w ++ match move_step opts m w with Some w => outcomes moves w | None => [] end
  end.

Lemma outcomes_snoc moves m w w' :
  watch_run opts moves w = Some w' -> outcomes (moves ++ [m]) w = outcomes moves w ++ outcome_of m w'.
Proof.
  revert w. induction moves as [|m' moves IH]; intros w; cbn.
  - intros [= ->]. destruct (move_step _ _ _); by rewrite ?app_nil_r.
  - destruct (move_step opts m' w) as [w1|]; [|done]. intros Hr. by rewrite (IH w1 Hr), app_assoc.
Qed.

(** Failures since the last synchronization, or since the start less one: how often the
    minimum has been doubled. *)
Definition doublings (os : list bool) : Z :=
  foldl (fun n (synced : bool) => if synced then 0 else n + 1) (-1) os.

Definition backoff_bound (n : Z) : Z :=
  Z.min (ReconnectMaxBackoff opts) (ReconnectMinBackoff opts * 2 ^ n).

Definition pausing w : bool := match w_at w with Sleeping _ => true | _ => false end.

(** The exponent of the current backoff: it is doubled when a pause ends. *)
Definition exponent (os : list bool) w : Z := doublings os + (if pausing w then 0 else 1).

Definition backoff_at (os : list bool) w : Prop :=
  0 <= exponent os w /\ w_backoff w = backoff_bound (exponent os w).

Definition backoff_ok : Prop :=
  0 < ReconnectMinBackoff opts <= ReconnectMaxBackoff opts /\ ReconnectMaxBackoff opts < 2 ^ 62.

Lemma doublings_snoc os b : doublings (os ++ [b]) = if b then 0 else doublings os + 1.
Proof. unfold doublings. by rewrite foldl_app. Qed.

Lemma doublings_ge os : -1 <= doublings os.
Proof.
  induction os as [|b os IH] using rev_ind; [done|]. rewrite doublings_snoc. destruct b; lia.
Qed.

Lemma backoff_double n :
  backoff_ok -> 0 <= n ->
  minDuration (ReconnectMaxBackoff opts) (i64 (backoff_bound n * 2)) = backoff_bound (n + 1).
Proof.
  unfold backoff_ok, backoff_bound, minDuration, i64. intros [[? ?] ?] Hn.
  rewrite Z.pow_add_r by lia. pose proof (Z.pow_pos_nonneg 2 n).
  rewrite Z.mod_small by nia. case Z.ltb_spec; nia.
Qed.

Lemma backoff_zero : backoff_ok -> backoff_bound 0 = ReconnectMinBackoff opts.
Proof. unfold backoff_ok, backoff_bound. intros. rewrite Z.pow_0_r. lia. Qed.

Lemma backoff_positive n : backoff_ok -> 0 <= n -> 0 < backoff_bound n.
Proof. unfold backoff_ok, backoff_bound. intros. pose proof (Z.pow_pos_nonneg 2 n). nia. Qed.

(** A move pauses after [connect], ends a pause, or does neither. *)
Lemma pause_cases m w w' :
  move_step opts m w = Some w' ->
  (exists synced err bits, w_at w = Returned synced err /\ m.2 = MoveWatch (Jitter bits) /\
     outcome_of m w = [synced] /\
     w_backoff w' = (if synced then ReconnectMinBackoff opts else w_backoff w) /\
     w_at w' = Sleeping (m.1 + jittered (w_backoff w') bits)) \/
  (pausing w = true /\ w' = wake opts w /\ outcome_of m w = []) \/
  (w_backoff w' = w_backoff w /\ pausing w' = pausing w /\ outcome_of m w = [] /\
   (pausing w = true -> w_at w' = w_at w)).
Proof.
  destruct m as [now [d|r|err|e]]; cbn; intros Hs; unfold outcome_of, pausing.
  - unfold watch_step in Hs. destruct (w_at w) eqn:Hat, d; try discriminate Hs.
    all: try (right; right; injection Hs as <-;
      cbv [dial_step loop_step leave_step refresh_step stream_step]; repeat case_match; by simplify_eq/=).
    + right; right. destruct c; cbn in Hs; repeat case_match; by simplify_eq/=.
    + injection Hs as <-. unfold return_step. destruct (w_ctx w) eqn:Ec; [by right; right|].
      left. by eexists _, _, _.
    + right; left. unfold sleep_step in Hs. repeat case_match; by simplify_eq/=.
  - right; right. unfold receive in Hs.
    destruct (w_at w) eqn:Hat; try discriminate Hs; by apply fmap_Some in Hs as (l' & _ & ->).
  - right; right. destruct (w_ctx w) eqn:Ec; simplify_eq. cbn. by destruct (w_at w).
  - right; right. destruct (request_event e); simplify_eq. cbn. by destruct (w_at w).
Qed.

Lemma backoff_move m os w w' :
  backoff_ok -> backoff_at os w -> move_step opts m w = Some w' ->
  backoff_at (os ++ outcome_of m w) w'.
Proof.
  intros Hok [Hn Hb] Hs. destruct (pause_cases _ _ _ Hs)
    as [(synced & err & bits & Hat & _ & -> & Hw & Hat')|[(Hp & -> & ->)|(Hw & Hp & -> & _)]].
  - unfold backoff_at, exponent in *. assert (pausing w' = true) as -> by (unfold pausing; by rewrite Hat').
    assert (pausing w = false) as Ep by (unfold pausing; by rewrite Hat). rewrite Ep in *.
    rewrite doublings_snoc, Z.add_0_r, Hw. destruct synced; [by rewrite backoff_zero|]. by rewrite Hb.
  - unfold backoff_at, exponent in *. rewrite Hp, Z.add_0_r in *. cbn. rewrite app_nil_r. split; [lia|].
    rewrite Hb. by apply backoff_double.
  - unfold backoff_at, exponent in *. by rewrite Hp, Hw, app_nil_r.
Qed.

(** A pause in progress began at a move of the schedule. *)
Definition paused (moves : list (Z * watch_move)) w : Prop :=
  forall deadline, w_at w = Sleeping deadline ->
    exists t bits, (t, MoveWatch (Jitter bits)) ∈ moves /\ deadline = t + jittered (w_backoff w) bits.

Lemma paused_move moves m w w' :
  paused moves w -> move_step opts m w = Some w' -> paused (moves ++ [m]) w'.
Proof.
  intros Hp Hs deadline Hd. destruct (pause_cases _ _ _ Hs)
    as [(synced & err & bits & _ & Hm & _ & _ & Hat')|[(_ & -> & _)|(Hw & Hq & _ & Hk)]].
  - exists m.1, bits. rewrite <-Hm, <-surjective_pairing. split; [|congruence].
    apply elem_of_app. right. by constructor.
  - discriminate Hd.
  - assert (pausing w' = true) as Ep by (unfold pausing; by rewrite Hd).
    rewrite Hq in Ep. rewrite (Hk Ep) in Hd. destruct (Hp _ Hd) as (t & bits & Hin & ->).
    exists t, bits. rewrite Hw. split; [by apply elem_of_app, or_introl|done].
Qed.

Lemma runs_backoff c0 moves w :
  backoff_ok -> watch_run opts moves (newWatcher opts c0) = Some w ->
  backoff_at (outcomes moves (newWatcher opts c0)) w /\ paused moves w.
Proof.
  intros Hok Hr. cut (watch_run opts moves (newWatcher opts c0) = Some w /\
    backoff_at (outcomes moves (newWatcher opts c0)) w /\ paused moves w); [by intros [_ ?]|].
  revert moves w Hr. apply (watch_run_ind (fun moves w =>
    watch_run opts moves (newWatcher opts c0) = Some w /\
    backoff_at (outcomes moves (newWatcher opts c0)) w /\ paused moves w)).
  - split_and!; [done| |done]. split; [done|]. exact (eq_sym (backoff_zero Hok)).
  - intros moves m w w' (Hr & Hb & Hp) Hs. split_and!.
    + by rewrite watch_run_snoc, Hr.
    + rewrite (outcomes_snoc _ _ _ _ Hr). by apply backoff_move.
    + by eapply paused_move.
Qed.
End spec.

(** ** The program *)

Lemma effective_timeouts o : SynchronizationTimeout o < 2 ^ 62 -> timeouts_ok (effectiveOptions o).
Proof.
  unfold timeouts_ok. cbn. unfold positive_or, Second, Millisecond. intros.
  case Z.leb_spec; lia.
Qed.

Lemma effective_backoff o :
  ReconnectMinBackoff o < 2 ^ 62 -> ReconnectMaxBackoff o < 2 ^ 62 -> backoff_ok (effectiveOptions o).
Proof.
  unfold backoff_ok. cbn. unfold positive_or, Second, Millisecond. intros.
  do 2 case Z.leb_spec; intros; case Z.ltb_spec; lia.
Qed.

Section program.
Context `{Platform} {Cred Conf CC VC : Type}
  `{TimedStore CC string (cached Cred)} `{TimedStore VC string (cached Conf)}.
Variable (o : ClientOptions) (now0 maxBaseHosts : Z) (cc : CC) (vc : VC).
Abbreviation opts := (effectiveOptions o).
Abbreviation start := (newWatcher opts (newClient now0 maxBaseHosts cc vc)).
Abbreviation watch_move := (watch_move (Cred:=Cred) (Conf:=Conf)).

Lemma start_supervised (moves : list (Z * watch_move)) (w : Watcher (CC:=CC) (VC:=VC)) :
  timeouts_ok opts -> watch_run opts moves start = Some w -> supervision opts moves w.
Proof.
  intros Ht Hr. eapply (runs_supervised opts (newClient now0 maxBaseHosts cc vc)); [done|by split| |done].
  done.
Qed.

(** [Run] refines the histories of the client: whatever the schedule of the
    goroutine, the stream, cancellation and requests, the client is where some history
    of critical sections takes it, in which every watch message was delivered by a
    stream and every section of a request is a move of the schedule.  What is proved of
    histories therefore holds of the running program. *)
Theorem run_refines_histories (moves : list (Z * watch_move)) (w : Watcher (CC:=CC) (VC:=VC))
    (Hrun : watch_run opts moves start = Some w) :
  exists h, w_client w = run h (newClient now0 maxBaseHosts cc vc) /\ Forall (from_moves moves) h.
Proof. by destruct (runs_history opts _ _ _ Hrun) as [Hh _]. Qed.

(** C16. Readiness is supervised: whenever the client is ready its transport is set and
    the goroutine holds a stream; while it waits in the select, the synchronization timer
    is off, the silence timer is due exactly [WatchSilenceTimeout] after the last message
    the schedule took, and from then on its case can be taken, which leaves the stream;
    while it handles that message, the silence timer is so set already.  Clock readings
    and the synchronization timeout are below 2^62 nanoseconds. *)
Theorem readiness_supervised (moves : list (Z * watch_move)) (w : Watcher (CC:=CC) (VC:=VC))
    (Hsync : SynchronizationTimeout o < 2 ^ 62) (Hclock : Forall (fun m => clock_ok m.1) moves)
    (Hrun : watch_run opts moves start = Some w)
    (Hready : state (w_client w) = StateReady) :
  connected (w_client w) = true /\
  match w_at w with
  | Selecting l =>
      st_sync l = None /\
      exists t, last_taken moves = Some t /\ st_silence l = t + WatchSilenceTimeout opts /\
        forall T, t + WatchSilenceTimeout opts <= T ->
          watch_step opts (Select CaseSilence) T w
          = Some (goes (Leaving (st_synced l) (Named ErrWatchSilence) true) w)
  | Noting l | Refreshing l =>
      exists t, last_taken moves = Some t /\ st_silence l = t + WatchSilenceTimeout opts
  | Leaving _ _ conn => conn = true
  | _ => False
  end.
Proof.
  destruct (start_supervised moves w (effective_timeouts o Hsync) Hrun Hclock) as [Hs _].
  unfold supervised, idle in Hs. destruct (w_at w) as [| | | | | |l|l|l|? ? conn| | | | |] eqn:Hat;
    try (by destruct Hs); try tauto; try (destruct Hs as [? Hh]; split; [done|]; by apply Hh).
  - destruct Hs as (Hc & Hh & _). destruct (Hh Hready) as [(t & Ht & E) Hn].
    split; [done|]. split; [done|]. exists t. split_and!; [done..|]. intros T HT.
    unfold watch_step. rewrite Hat. cbn [select_step]. by rewrite (proj2 (Z.leb_le _ _)) by lia.
  - destruct conn; [done|]. by destruct Hs.
Qed.

(** C17. A synchronization is abandoned at its deadline: if the goroutine waits on a
    stream and the client has been synchronizing for [SynchronizationTimeout], a case of
    the select is ready, and whatever case is taken and whatever happens next, the
    goroutine never again waits for a synchronization that is overdue: it has left the
    stream, or the client has become ready. *)
Theorem synchronization_deadline (moves : list (Z * watch_move)) (w : Watcher (CC:=CC) (VC:=VC))
    (l : stream) (T : Z)
    (Hsync : SynchronizationTimeout o < 2 ^ 62) (Hclock : Forall (fun m => clock_ok m.1) moves)
    (Hrun : watch_run opts moves start = Some w)
    (Hat : w_at w = Selecting l) (Hstate : state (w_client w) = StateSynchronizing)
    (Hdue : synchronizingSince (w_client w) + SynchronizationTimeout opts <= T) :
  (exists case w', watch_step opts (Select case) T w = Some w') /\
  (forall d t more w', Forall (fun m => clock_ok m.1 /\ T <= m.1) ((t, MoveWatch d) :: more) ->
     watch_run opts ((t, MoveWatch d) :: more) w = Some w' ->
     forall l', w_at w' = Selecting l' -> state (w_client w') = StateSynchronizing ->
       T < synchronizingSince (w_client w') + SynchronizationTimeout opts).
Proof.
  pose proof (effective_timeouts o Hsync) as Ht.
  pose proof (start_supervised moves w Ht Hrun) as Hsup.
  destruct (Hsup Hclock) as [Hs Hc]. split.
  - unfold supervised in Hs. rewrite Hat in Hs. destruct Hs as (_ & _ & Ha).
    unfold watch_step. rewrite Hat. destruct (Ha Hstate) as [Hu|Hd].
    + exists CaseStateChanged. eexists. cbn. by rewrite Hu.
    + exists CaseSync. eexists. cbn [select_step]. rewrite Hd.
      by rewrite (proj2 (Z.leb_le _ _) Hdue).
  - intros d t more w' Hm Hr l' Hl' Hs'. cbn [watch_run] in Hr.
    destruct (move_step opts (t, MoveWatch d) w) as [w1|] eqn:Hs1; [|done].
    rewrite Forall_cons in Hm. destruct Hm as [[Ht1 _] Hm].
    cut (supervision opts (moves ++ [(t, MoveWatch d)] ++ more) w' /\ on_time opts T w').
    { intros [_ Ho]. unfold on_time in Ho. rewrite Hl' in Ho. auto. }
    clear Hl' Hs'. revert Hm. revert more w' Hr.
    apply (watch_run_ind opts (fun more w' => Forall (fun m => clock_ok m.1 /\ T <= m.1) more ->
      supervision opts (moves ++ [(t, MoveWatch d)] ++ more) w' /\ on_time opts T w')).
    + intros _. rewrite app_nil_r. split; [by eapply supervision_move|].
      eapply on_time_left; [exact Hat|exact Hs1].
    + intros more m w2 w3 IH Hs2 [Hmore Hm]%Forall_app. rewrite Forall_singleton in Hm.
      destruct Hm as [Hcm HTm]. destruct (IH Hmore) as [IHs IHo].
      destruct IHs as [Hs3 Hc3].
      { rewrite !Forall_app, Forall_singleton. split_and!; [done|done|].
        eapply Forall_impl; [exact Hmore|]. by intros ? [? _]. }
      split; [|by eapply on_time_move].
      rewrite !app_assoc. eapply supervision_move; [done| |exact Hs2]. rewrite <-!app_assoc.
      by intros _.
Qed.

(** C24. Reconnections back off exponentially: a pause lasts the jittered value of
    [ReconnectMinBackoff] doubled once per failure since the last time a connection was
    synchronized, capped at [ReconnectMaxBackoff], from the moment it began; jitter keeps it between half
    and one and a half times that value. *)
Theorem reconnect_backoff (moves : list (Z * watch_move)) (w : Watcher (CC:=CC) (VC:=VC))
    (deadline : Z)
    (Hmin : ReconnectMinBackoff o < 2 ^ 62) (Hmax : ReconnectMaxBackoff o < 2 ^ 62)
    (Hrun : watch_run opts moves start = Some w) (Hat : w_at w = Sleeping deadline) :
  let n := doublings (outcomes opts moves start) in
  0 <= n /\
  w_backoff w = Z.min (ReconnectMaxBackoff opts) (ReconnectMinBackoff opts * 2 ^ n) /\
  exists t bits, (t, MoveWatch (Jitter bits)) ∈ moves /\ deadline = t + jittered (w_backoff w) bits /\
    (w_backoff w <= 2 ^ 47 ->
     w_backoff w <= 2 * (deadline - t) + 2 /\ 2 * (deadline - t) <= 3 * w_backoff w).
Proof.
  destruct (runs_backoff opts _ moves w (effective_backoff o Hmin Hmax) Hrun) as [[Hn Hb] Hp].
  unfold exponent, pausing in *. rewrite Hat, Z.add_0_r in *. split_and!; [done|done|].
  destruct (Hp _ Hat) as (t & bits & Hin & ->). exists t, bits.
  split_and!; [done|done|]. intros Hle. rewrite Z.add_simpl_l. apply jittered_bounds.
  split; [|done]. rewrite Hb. apply backoff_positive; [by apply effective_backoff|done].
Qed.
End program.

(** ** A concrete schedule *)

Module WatchExample.
Import ClientHistory.Example.
#[local] Existing Instance platform.

Abbreviation move := (watch_move (Cred:=Z) (Conf:=Z)).

Definition message (rev : Z) (cursor : string) (e : watch_payload) : move :=
  MoveReceive (Ok (Some (mkWatchEvent (Some e) rev cursor))).

Definition steps (t : Z) (ds : list decision) : list (Z * move) := map (fun d => (t, MoveWatch d)) ds.

(** Connecting up to the loop, and handling one message there. *)
Definition dial : list (Z * move) := steps 1 [Next; Next; Dial Dialed; Next; Next; OpenStream None].

Definition handle (t : Z) (m : move) : list (Z * move) :=
  [(t, m); (t, MoveWatch (Select CaseReceived)); (t, MoveWatch Next); (t, MoveWatch Next)].

Definition synchronizing : list (Z * move) :=
  dial ++ handle 2 (message 5 "" SnapshotBegin) ++ steps 3 [Select CaseStateChanged; Next].

Definition ready : list (Z * move) :=
  synchronizing ++ handle 4 (message 5 "c5" SynchronizationBarrier)
  ++ [(6, MoveRequest (EvUnaryRevision 5 5))].

(** Two failed attempts, the first pause over. *)
Definition failing : list (Z * move) :=
  steps 1 [Next; Next; Dial (NewClientError (Errorf "refused" [])); Next; Jitter 0]
  ++ steps 200000000
       [Select CaseTimer; Next; Next; Dial (NewClientError (Errorf "refused" [])); Next; Jitter (2 ^ 52)].

Definition start : Watcher :=
  newWatcher (effectiveOptions defaultClientOptions) (newClient 0 4 empty_store empty_store).

(** What the schedule comes to, without its caches. *)
Definition ends (moves : list (Z * move)) : option (State * Z * place) :=
  (fun w => (state (w_client w), synchronizingSince (w_client w), w_at w)) <$> watch_run (effectiveOptions defaultClientOptions) moves start.

Example synchronizing_ends :
  ends synchronizing = Some (StateSynchronizing, 1,
    Selecting (mkStreamState false (2 + 10 * Second) (Some (1 + 30 * Second)) None true)).
Proof. vm_compute. reflexivity. Qed.

Example ready_ends :
  ends ready = Some (StateReady, 1, Selecting (mkStreamState true (4 + 10 * Second) None None true)).
Proof. vm_compute. reflexivity. Qed.

Example failing_ends : ends failing = Some (StateDisconnected, 0, Sleeping (200000000 + 500 * Millisecond)).
Proof. vm_compute. reflexivity. Qed.

Ltac clocks := apply Forall_forall; let Hm := fresh in intros ? Hm;
  repeat (apply elem_of_cons in Hm as [->|Hm]; [split; vm_compute; congruence|]);
  by apply not_elem_of_nil in Hm.

Lemma ends_Some moves st since at_ :
  ends moves = Some (st, since, at_) ->
  exists w, watch_run (effectiveOptions defaultClientOptions) moves start = Some w /\
    state (w_client w) = st /\ synchronizingSince (w_client w) = since /\ w_at w = at_.
Proof. unfold ends. intros (w & Hr & [=])%fmap_Some. by exists w. Qed.

Lemma run_refines_histories_witness :
  exists w h, watch_run (effectiveOptions defaultClientOptions) ready start = Some w /\
    w_client w = run h (newClient 0 4 empty_store empty_store) /\ Forall (from_moves ready) h.
Proof.
  destruct (ends_Some _ _ _ _ ready_ends) as (w & Hr & _). exists w.
  destruct (run_refines_histories defaultClientOptions 0 4 empty_store empty_store ready w Hr)
    as (h & Hc & Hh). by exists h.
Defined.

Lemma readiness_supervised_witness :
  exists w, watch_run (effectiveOptions defaultClientOptions) ready start = Some w /\
    state (w_client w) = StateReady /\ connected (w_client w) = true.
Proof.
  destruct (ends_Some _ _ _ _ ready_ends) as (w & Hr & Hs & _). exists w. split; [done|]. split; [done|].
  refine (proj1 (readiness_supervised defaultClientOptions 0 4 empty_store empty_store ready w
    _ _ Hr Hs)); [vm_compute; reflexivity|clocks].
Defined.

Lemma synchronization_deadline_witness :
  exists w case w', watch_run (effectiveOptions defaultClientOptions) synchronizing start = Some w /\
    watch_step (effectiveOptions defaultClientOptions) (Select case) (1 + 30 * Second) w = Some w'.
Proof.
  destruct (ends_Some _ _ _ _ synchronizing_ends) as (w & Hr & Hs & Ht & Ha). exists w.
  destruct (proj1 (synchronization_deadline defaultClientOptions 0 4 empty_store empty_store
    synchronizing w _ (1 + 30 * Second) ltac:(vm_compute; reflexivity) ltac:(clocks) Hr Ha Hs
    ltac:(rewrite Ht; vm_compute; congruence))) as (case & w' & E).
  by exists case, w'.
Defined.

Lemma reconnect_backoff_witness :
  exists w, watch_run (effectiveOptions defaultClientOptions) failing start = Some w /\
    w_backoff w = 500 * Millisecond /\
    exists t deadline, w_at w = Sleeping deadline /\ 500 * Millisecond <= 2 * (deadline - t) + 2.
Proof.
  destruct (ends_Some _ _ _ _ failing_ends) as (w & Hr & _ & _ & Ha). exists w. split; [done|].
  destruct (reconnect_backoff defaultClientOptions 0 4 empty_store empty_store failing w _
    ltac:(vm_compute; reflexivity) ltac:(vm_compute; reflexivity) Hr Ha) as (_ & Hb & t & bits & _ & _ & Hj).
  assert (w_backoff w = 500 * Millisecond) as E by (rewrite Hb; vm_compute; reflexivity).
  split; [exact E|]. rewrite E in Hj. exists t. eexists. split; [exact Ha|].
  apply Hj. vm_compute. congruence.
Defined.
End WatchExample.
