(* ===== verification/Config.v ===== *)
(** * Config: process configuration and the control-plane transport

    [env/env.go] ([Load], [Validate]) and the choices of [controlplane/transport.go].  The
    environment is a function; files are the class [Files]. *)
From Stdlib Require Import SpecFloat.
From S2P Require Import Prelude GoStrings GoNet Errors Flight Watch.

(** ** [time.ParseDuration]; [None] is an error *)

Definition digit (c : ascii) : bool := in_range 48 57 (byte_val c).

(** [leadingInt]: at most [2^63] *)
Fixpoint leadingInt (x : Z) (s : string) : option (Z * string) :=
  match s with
  | String c s' =>
      if digit c then
        if 2 ^ 63 / 10 <? x then None
        else
          let x := x * 10 + (byte_val c - 48) in
          if 2 ^ 63 <? x then None else leadingInt x s'
      else Some (x, s)
  | "" => Some (x, s)
  end.

(** [leadingFraction]: digits that no longer fit are dropped. *)
Fixpoint leadingFraction (x : Z) (scale : spec_float) (overflow : bool) (s : string)
    : Z * spec_float * string :=
  match s with
  | String c s' =>
      if digit c then
        if overflow || ((2 ^ 63 - 1) / 10 <? x) then leadingFraction x scale true s'
        else
          let y := x * 10 + (byte_val c - 48) in
          if 2 ^ 63 <? y then leadingFraction x scale true s'
          else leadingFraction y (Float64.mul scale (Float64.of_Z 10)) false s'
      else (x, scale, s)
  | "" => (x, scale, s)
  end.

Fixpoint unit_name (s : string) : string * string :=
  match s with
  | String c s' =>
      if Ascii.eqb c "." || digit c then ("", s)
      else let (u, rest) := unit_name s' in (String c u, rest)
  | "" => ("", "")
  end.

Definition unit_value (u : string) : option Z :=
  if bool_decide (u = "ns") then Some 1
  else if bool_decide (u = "us" \/ u = String "194" (String "181" "s") \/ u = String "206" (String "188" "s"))
       then Some 1000
  else if bool_decide (u = "ms") then Some Millisecond
  else if bool_decide (u = "s") then Some Second
  else if bool_decide (u = "m") then Some (60 * Second)
  else if bool_decide (u = "h") then Some (3600 * Second)
  else None.

(** One number with its unit. *)
Definition duration_part (s : string) : option (Z * string) :=
  match s with
  | "" => None
  | String c _ =>
      if negb (Ascii.eqb c "." || digit c) then None
      else match leadingInt 0 s with
           | None => None
           | Some (v, rest) =>
               let pre := negb (String.length s =? String.length rest)%nat in
               let '(f, scale, rest', post) :=
                 match rest with
                 | String "." t =>
                     let '(f, scale, rest') := leadingFraction 0 (Float64.of_Z 1) false t in
                     (f, scale, rest', negb (String.length t =? String.length rest')%nat)
                 | _ => (0, Float64.of_Z 1, rest, false)
                 end in
               if negb pre && negb post then None
               else
                 let (u, rest) := unit_name rest' in
                 match unit_value u with
                 | None => None
                 | Some unit =>
                     if 2 ^ 63 / unit <? v then None
                     else
                       let v := v * unit in
                       if 0 <? f then
                         let v := u64 (v + float_trunc
                           (Float64.mul (Float64.of_Z f) (Float64.div (Float64.of_Z unit) scale))) in
                         if 2 ^ 63 <? v then None else Some (v, rest)
                       else Some (v, rest)
                 end
           end
  end.

(** Each part takes at least a byte. *)
Fixpoint duration_parts (fuel : nat) (d : Z) (s : string) : option Z :=
  match s, fuel with
  | "", _ => Some d
  | _, O => None
  | _, S fuel =>
      match duration_part s with
      | None => None
      | Some (v, rest) =>
          let d := u64 (d + v) in
          if 2 ^ 63 <? d then None else duration_parts fuel d rest
      end
  end.

Definition ParseDuration (s : string) : option Z :=
  let (neg, s) := match s with
                  | String "-" s => (true, s)
                  | String "+" s => (false, s)
                  | _ => (false, s)
                  end in
  if String.eqb s "0" then Some 0
  else if String.eqb s "" then None
  else match duration_parts (String.length s) 0 s with
       | None => None
       | Some d =>
           if neg then Some (i64 (- i64 d))
           else if 2 ^ 63 - 1 <? d then None else Some d
       end.

Example ParseDuration_examples :
  ParseDuration "15m" = Some (900 * Second) /\ ParseDuration "1h2m3.5s" = Some (3723 * Second + 500 * Millisecond) /\
  ParseDuration "-1.5ms" = Some (-1500000) /\ ParseDuration "+0" = Some 0 /\ ParseDuration ".5s" = Some (500 * Millisecond) /\
  ParseDuration "10" = None /\ ParseDuration "" = None /\ ParseDuration "." = None /\ ParseDuration "1x" = None /\
  ParseDuration "9223372036854775807ns" = Some max_int64 /\ ParseDuration "9223372036854775808ns" = None /\
  ParseDuration "-9223372036854775808ns" = Some min_int64.
Proof. vm_compute. repeat split; reflexivity. Qed.

(** ** [Config] *)

Record HTTPConfig := mkHTTPConfig {
  Address : string; AdminAddress : string;
  ReadHeaderTimeout : Z; IdleTimeout : Z; ReadTimeout : Z; WriteTimeout : Z
}.

Record S3Config := mkS3Config { SigV4MaxClockSkew : Z }.

Record UpstreamConfig := mkUpstreamConfig {
  DialTimeout : Z; TLSHandshakeTimeout : Z; ResponseHeaderTimeout : Z; ExpectContinueTimeout : Z;
  IdleConnTimeout : Z; MaxIdleConns : Z; MaxIdleConnsPerHost : Z
}.

Record CacheConfig := mkCacheConfig { MaxCredentials : Z; MaxBaseHosts : Z; MaxVBuckets : Z }.

Record ControlPlaneConfig := mkControlPlaneConfig {
  URL : string; SecurityMode : string; TLSCAFile : string; TLSServerName : string;
  TLSCertFile : string; TLSKeyFile : string; AuthBearerToken : string
}.

Record Config := mkConfig {
  HTTP : HTTPConfig; S3 : S3Config; Upstream : UpstreamConfig; CacheOf : CacheConfig;
  ControlPlane : ControlPlaneConfig
}.

Definition Minute : Z := 60 * Second.

Definition Defaults : Config :=
  mkConfig
    (mkHTTPConfig ":8080" "127.0.0.1:8081" (10 * Second) (2 * Minute) 0 0)
    (mkS3Config (15 * Minute))
    (mkUpstreamConfig (30 * Second) (10 * Second) (30 * Second) Second (90 * Second) 100 100)
    (mkCacheConfig 10000 10000 10000)
    (mkControlPlaneConfig "" "insecure" "" "" "" "" "").

(** ** Settings: the name of a variable and the field it points to *)

Record setting (A : Type) := mkSetting {
  s_name : string;
  s_get : Config -> A;
  s_put : A -> Config -> Config
}.
Global Arguments mkSetting {A} _ _ _.
Global Arguments s_name {A} _.
Global Arguments s_get {A} _ _.
Global Arguments s_put {A} _ _ _.

Definition on_http (f : HTTPConfig -> HTTPConfig) (c : Config) : Config :=
  mkConfig (f (HTTP c)) (S3 c) (Upstream c) (CacheOf c) (ControlPlane c).
Definition on_upstream (f : UpstreamConfig -> UpstreamConfig) (c : Config) : Config :=
  mkConfig (HTTP c) (S3 c) (f (Upstream c)) (CacheOf c) (ControlPlane c).
Definition on_cache (f : CacheConfig -> CacheConfig) (c : Config) : Config :=
  mkConfig (HTTP c) (S3 c) (Upstream c) (f (CacheOf c)) (ControlPlane c).
Definition on_control (f : ControlPlaneConfig -> ControlPlaneConfig) (c : Config) : Config :=
  mkConfig (HTTP c) (S3 c) (Upstream c) (CacheOf c) (f (ControlPlane c)).

Definition security_mode : setting string :=
  mkSetting "CONTROL_PLANE_SECURITY_MODE" (fun c => SecurityMode (ControlPlane c))
    (fun v => on_control (fun p => mkControlPlaneConfig (URL p) v (TLSCAFile p) (TLSServerName p) (TLSCertFile p) (TLSKeyFile p) (AuthBearerToken p))).

Definition string_settings : list (setting string) :=
  [ mkSetting "HTTP_ADDRESS" (fun c => Address (HTTP c))
      (fun v => on_http (fun h => mkHTTPConfig v (AdminAddress h) (ReadHeaderTimeout h) (IdleTimeout h) (ReadTimeout h) (WriteTimeout h)));
    mkSetting "ADMIN_ADDRESS" (fun c => AdminAddress (HTTP c))
      (fun v => on_http (fun h => mkHTTPConfig (Address h) v (ReadHeaderTimeout h) (IdleTimeout h) (ReadTimeout h) (WriteTimeout h)));
    mkSetting "CONTROL_PLANE_URL" (fun c => URL (ControlPlane c))
      (fun v => on_control (fun p => mkControlPlaneConfig v (SecurityMode p) (TLSCAFile p) (TLSServerName p) (TLSCertFile p) (TLSKeyFile p) (AuthBearerToken p)));
    security_mode;
    mkSetting "CONTROL_PLANE_TLS_CA_FILE" (fun c => TLSCAFile (ControlPlane c))
      (fun v => on_control (fun p => mkControlPlaneConfig (URL p) (SecurityMode p) v (TLSServerName p) (TLSCertFile p) (TLSKeyFile p) (AuthBearerToken p)));
    mkSetting "CONTROL_PLANE_TLS_SERVER_NAME" (fun c => TLSServerName (ControlPlane c))
      (fun v => on_control (fun p => mkControlPlaneConfig (URL p) (SecurityMode p) (TLSCAFile p) v (TLSCertFile p) (TLSKeyFile p) (AuthBearerToken p)));
    mkSetting "CONTROL_PLANE_TLS_CERT_FILE" (fun c => TLSCertFile (ControlPlane c))
      (fun v => on_control (fun p => mkControlPlaneConfig (URL p) (SecurityMode p) (TLSCAFile p) (TLSServerName p) v (TLSKeyFile p) (AuthBearerToken p)));
    mkSetting "CONTROL_PLANE_TLS_KEY_FILE" (fun c => TLSKeyFile (ControlPlane c))
      (fun v => on_control (fun p => mkControlPlaneConfig (URL p) (SecurityMode p) (TLSCAFile p) (TLSServerName p) (TLSCertFile p) v (AuthBearerToken p)));
    mkSetting "CONTROL_PLANE_AUTH_BEARER_TOKEN" (fun c => AuthBearerToken (ControlPlane c))
      (fun v => on_control (fun p => mkControlPlaneConfig (URL p) (SecurityMode p) (TLSCAFile p) (TLSServerName p) (TLSCertFile p) (TLSKeyFile p) v)) ].

(** [Config.durations]; true where zero is allowed. *)
Definition durations : list (setting Z * bool) :=
  [ (mkSetting "SIGV4_MAX_CLOCK_SKEW" (fun c => SigV4MaxClockSkew (S3 c))
       (fun v c => mkConfig (HTTP c) (mkS3Config v) (Upstream c) (CacheOf c) (ControlPlane c)), false);
    (mkSetting "HTTP_READ_HEADER_TIMEOUT" (fun c => ReadHeaderTimeout (HTTP c))
       (fun v => on_http (fun h => mkHTTPConfig (Address h) (AdminAddress h) v (IdleTimeout h) (ReadTimeout h) (WriteTimeout h))), false);
    (mkSetting "HTTP_IDLE_TIMEOUT" (fun c => IdleTimeout (HTTP c))
       (fun v => on_http (fun h => mkHTTPConfig (Address h) (AdminAddress h) (ReadHeaderTimeout h) v (ReadTimeout h) (WriteTimeout h))), false);
    (mkSetting "HTTP_READ_TIMEOUT" (fun c => ReadTimeout (HTTP c))
       (fun v => on_http (fun h => mkHTTPConfig (Address h) (AdminAddress h) (ReadHeaderTimeout h) (IdleTimeout h) v (WriteTimeout h))), true);
    (mkSetting "HTTP_WRITE_TIMEOUT" (fun c => WriteTimeout (HTTP c))
       (fun v => on_http (fun h => mkHTTPConfig (Address h) (AdminAddress h) (ReadHeaderTimeout h) (IdleTimeout h) (ReadTimeout h) v)), true);
    (mkSetting "UPSTREAM_DIAL_TIMEOUT" (fun c => DialTimeout (Upstream c))
       (fun v => on_upstream (fun u => mkUpstreamConfig v (TLSHandshakeTimeout u) (ResponseHeaderTimeout u) (ExpectContinueTimeout u) (IdleConnTimeout u) (MaxIdleConns u) (MaxIdleConnsPerHost u))), false);
    (mkSetting "UPSTREAM_TLS_HANDSHAKE_TIMEOUT" (fun c => TLSHandshakeTimeout (Upstream c))
       (fun v => on_upstream (fun u => mkUpstreamConfig (DialTimeout u) v (ResponseHeaderTimeout u) (ExpectContinueTimeout u) (IdleConnTimeout u) (MaxIdleConns u) (MaxIdleConnsPerHost u))), false);
    (mkSetting "UPSTREAM_RESPONSE_HEADER_TIMEOUT" (fun c => ResponseHeaderTimeout (Upstream c))
       (fun v => on_upstream (fun u => mkUpstreamConfig (DialTimeout u) (TLSHandshakeTimeout u) v (ExpectContinueTimeout u) (IdleConnTimeout u) (MaxIdleConns u) (MaxIdleConnsPerHost u))), false);
    (mkSetting "UPSTREAM_EXPECT_CONTINUE_TIMEOUT" (fun c => ExpectContinueTimeout (Upstream c))
       (fun v => on_upstream (fun u => mkUpstreamConfig (DialTimeout u) (TLSHandshakeTimeout u) (ResponseHeaderTimeout u) v (IdleConnTimeout u) (MaxIdleConns u) (MaxIdleConnsPerHost u))), false);
    (mkSetting "UPSTREAM_IDLE_CONN_TIMEOUT" (fun c => IdleConnTimeout (Upstream c))
       (fun v => on_upstream (fun u => mkUpstreamConfig (DialTimeout u) (TLSHandshakeTimeout u) (ResponseHeaderTimeout u) (ExpectContinueTimeout u) v (MaxIdleConns u) (MaxIdleConnsPerHost u))), false) ].

(** [Config.integers] *)
Definition integers : list (setting Z) :=
  [ mkSetting "UPSTREAM_MAX_IDLE_CONNS" (fun c => MaxIdleConns (Upstream c))
      (fun v => on_upstream (fun u => mkUpstreamConfig (DialTimeout u) (TLSHandshakeTimeout u) (ResponseHeaderTimeout u) (ExpectContinueTimeout u) (IdleConnTimeout u) v (MaxIdleConnsPerHost u)));
    mkSetting "UPSTREAM_MAX_IDLE_CONNS_PER_HOST" (fun c => MaxIdleConnsPerHost (Upstream c))
      (fun v => on_upstream (fun u => mkUpstreamConfig (DialTimeout u) (TLSHandshakeTimeout u) (ResponseHeaderTimeout u) (ExpectContinueTimeout u) (IdleConnTimeout u) (MaxIdleConns u) v));
    mkSetting "CACHE_MAX_CREDENTIALS" (fun c => MaxCredentials (CacheOf c))
      (fun v => on_cache (fun k => mkCacheConfig v (MaxBaseHosts k) (MaxVBuckets k)));
    mkSetting "CACHE_MAX_BASE_HOSTS" (fun c => MaxBaseHosts (CacheOf c))
      (fun v => on_cache (fun k => mkCacheConfig (MaxCredentials k) v (MaxVBuckets k)));
    mkSetting "CACHE_MAX_VBUCKETS" (fun c => MaxVBuckets (CacheOf c))
      (fun v => on_cache (fun k => mkCacheConfig (MaxCredentials k) (MaxBaseHosts k) v)) ].

(** ** [Validate] *)

(** Errors are their messages. *)
Abbreviation checked := (result string unit).

Definition address_ok (address : string) : bool :=
  match SplitHostPort address with
  | Some (_, port) =>
      match Atoi port with Some n => negb ((n <? 0) || (65535 <? n)) | None => false end
  | None => false
  end.

(** The two addresses are visited in map order; which one an error names depends on it. *)
Definition validate_address (p : string * string) : checked :=
  if address_ok p.2 then Ok tt else Err (p.1 +:+ " must be a host:port listen address").

Definition validate_duration (c : Config) (p : setting Z * bool) : checked :=
  let value := s_get p.1 c in
  if (value <? 0) || (negb p.2 && (value =? 0)) then Err (s_name p.1 +:+ " has an invalid timeout")
  else Ok tt.

Definition validate_integer (c : Config) (s : setting Z) : checked :=
  if s_get s c <=? 0 then Err (s_name s +:+ " must be positive") else Ok tt.

Definition blank (s : string) : bool := String.eqb s "".

Definition validate_security (cp : ControlPlaneConfig) : checked :=
  if String.eqb (SecurityMode cp) "insecure" then
    reject negb (blank (TLSCAFile cp)) || negb (blank (TLSServerName cp))
           || negb (blank (TLSCertFile cp)) || negb (blank (TLSKeyFile cp))
      with "control-plane TLS options cannot be used in insecure mode" ;;
    Ok tt
  else if String.eqb (SecurityMode cp) "tls" then
    reject negb (blank (TLSCertFile cp)) || negb (blank (TLSKeyFile cp))
      with "control-plane client certificate requires mtls mode" ;;
    Ok tt
  else if String.eqb (SecurityMode cp) "mtls" then
    reject blank (TLSCertFile cp) || blank (TLSKeyFile cp)
      with "control-plane mtls requires both certificate and key" ;;
    Ok tt
  else Err "unsupported CONTROL_PLANE_SECURITY_MODE".

Definition Validate (c : Config) : checked :=
  reject blank (URL (ControlPlane c)) with "CONTROL_PLANE_URL is required" ;;
  let? _ := res_iter validate_address
              [("HTTP_ADDRESS", Address (HTTP c)); ("ADMIN_ADDRESS", AdminAddress (HTTP c))] in
  let? _ := res_iter (validate_duration c) durations in
  let? _ := res_iter (validate_integer c) integers in
  validate_security (ControlPlane c).

(** ** [Load] *)

Definition load_string (lookup : string -> option string) (c : Config) (s : setting string) : Config :=
  match lookup (s_name s) with Some value => s_put s (TrimSpace value) c | None => c end.

(** The two loops over parsed settings; an error stops with what was set so far. *)
Fixpoint load_parsed {A} (lookup : string -> option string) (parse : string -> option A)
    (complaint : string) (ss : list (setting A)) (c : Config) : Config * option string :=
  match ss with
  | [] => (c, None)
  | s :: ss =>
      match lookup (s_name s) with
      | None => load_parsed lookup parse complaint ss c
      | Some value =>
          match parse value with
          | None => (c, Some (s_name s +:+ complaint))
          | Some parsed => load_parsed lookup parse complaint ss (s_put s parsed c)
          end
      end
  end.

Definition Load (lookup : string -> option string) : Config * option string :=
  let c := foldl (load_string lookup) Defaults string_settings in
  let c := s_put security_mode (ToLower (s_get security_mode c)) c in
  match load_parsed lookup ParseDuration " must be a duration" (fst <$> durations) c with
  | (c, Some err) => (c, Some err)
  | (c, None) =>
      match load_parsed lookup Atoi " must be an integer" integers c with
      | (c, Some err) => (c, Some err)
      | (c, None) => (c, match Validate c with Ok _ => None | Err err => Some err end)
      end
  end.

(** ** The transport to the control plane ([controlplane/transport.go]) *)

Record controlPlaneDialConfig := mkDialConfig {
  dc_SecurityMode : string; dc_TLSCAFile : string; dc_TLSServerName : string;
  dc_TLSCertFile : string; dc_TLSKeyFile : string; dc_BearerToken : string
}.

Definition controlPlaneDialConfigFromEnv (c : Config) : controlPlaneDialConfig :=
  let cp := ControlPlane c in
  mkDialConfig (SecurityMode cp) (TLSCAFile cp) (TLSServerName cp) (TLSCertFile cp) (TLSKeyFile cp)
    (AuthBearerToken cp).

Definition normalizeSecurityMode (mode : string) : string :=
  let mode := TrimSpace (ToLower mode) in
  if String.eqb mode "" then "insecure" else mode.

(** What the transport asks of files: their bytes, whether they hold a PEM certificate,
    and whether a certificate and a key load as a pair. *)
Class Files := {
  ReadFile : string -> option string;
  AppendCertsFromPEM : string -> bool;
  LoadX509KeyPair : string -> string -> bool
}.

(** The credentials of the connection; TLS has a server name, root certificates other
    than the system's, and a client certificate, each if set. *)
Inductive transport_credentials :=
| Insecure
| TLS (ServerName : option string) (RootCAs : option string) (Certificate : option (string * string)).

Section transport.
Context `{Files}.

Definition load_roots (file : string) : result string (option string) :=
  if blank file then Ok None
  else match ReadFile file with
       | None => Err "read control plane CA file"
       | Some caPEM =>
           if AppendCertsFromPEM caPEM then Ok (Some caPEM)
           else Err "parse control plane CA file: no valid certificates found"
       end.

Definition load_certificate (cfg : controlPlaneDialConfig) : result string (option (string * string)) :=
  if String.eqb (normalizeSecurityMode (dc_SecurityMode cfg)) "mtls" then
    reject blank (dc_TLSCertFile cfg) || blank (dc_TLSKeyFile cfg)
      with "CONTROL_PLANE_TLS_CERT_FILE and CONTROL_PLANE_TLS_KEY_FILE are required for mtls mode" ;;
    if LoadX509KeyPair (dc_TLSCertFile cfg) (dc_TLSKeyFile cfg)
    then Ok (Some (dc_TLSCertFile cfg, dc_TLSKeyFile cfg))
    else Err "load control plane client certificate"
  else Ok None.

Definition buildTransportCredentials (cfg : controlPlaneDialConfig) : result string transport_credentials :=
  let mode := normalizeSecurityMode (dc_SecurityMode cfg) in
  if String.eqb mode "insecure" then Ok Insecure
  else if String.eqb mode "tls" || String.eqb mode "mtls" then
    let name := if blank (dc_TLSServerName cfg) then None else Some (dc_TLSServerName cfg) in
    let? roots := load_roots (dc_TLSCAFile cfg) in
    let? certificate := load_certificate cfg in
    Ok (TLS name roots certificate)
  else Err "unsupported CONTROL_PLANE_SECURITY_MODE".

(** The options of a connection: its credentials, and the token both interceptors send. *)
Definition buildDialOptions (cfg : controlPlaneDialConfig)
    : result string (transport_credentials * option string) :=
  let? credentials := buildTransportCredentials cfg in
  let token := TrimSpace (dc_BearerToken cfg) in
  Ok (credentials, if blank token then None else Some token).

(** [withBearerToken]: the metadata a call carries. *)
Definition withBearerToken (metadata : list (string * string)) (token : string) : list (string * string) :=
  metadata ++ [("authorization", "Bearer " +:+ token)].
End transport.

(** ** Settings are independent *)

Definition indep {A B} (g : Config -> B) (s : setting A) : Prop := forall v c, g (s_put s v c) = g c.

Fixpoint separate {A} (ss : list (setting A)) : Prop :=
  match ss with
  | [] => True
  | s :: ss =>
      (forall v c, s_get s (s_put s v c) = v) /\ Forall (indep (s_get s)) ss /\
      Forall (fun t => indep (s_get t) s) ss /\ separate ss
  end.

(** What a loaded setting holds: its variable, parsed, or what it held. *)
Definition loaded {A} (lookup : string -> option string) (parse : string -> option A)
    (c c' : Config) (s : setting A) : Prop :=
  match lookup (s_name s) with
  | Some value => parse value = Some (s_get s c')
  | None => s_get s c' = s_get s c
  end.

Section loading.
Context {A : Type} (lookup : string -> option string) (parse : string -> option A) (complaint : string).

Lemma load_parsed_frame {B} (g : Config -> B) ss c c' e :
  Forall (indep g) ss -> load_parsed lookup parse complaint ss c = (c', e) -> g c' = g c.
Proof.
  revert c. induction ss as [|s ss IH]; intros c Hg; cbn; [congruence|].
  apply Forall_cons in Hg as [Hs Hss].
  destruct (lookup (s_name s)) as [v|]; [|by apply IH]. destruct (parse v) as [a|]; [|congruence].
  intros E. rewrite (IH _ Hss E). apply Hs.
Qed.

Lemma load_parsed_sets ss c c' :
  separate ss -> load_parsed lookup parse complaint ss c = (c', None) ->
  Forall (loaded lookup parse c c') ss.
Proof.
  revert c. induction ss as [|s ss IH]; intros c; cbn; [done|]. intros (Hs & Hf & Hb & Hss).
  unfold loaded. destruct (lookup (s_name s)) as [v|] eqn:El; cycle 1.
  { intros E. constructor; [|by apply IH]. rewrite El. by apply (load_parsed_frame _ ss _ _ _ Hf E). }
  destruct (parse v) as [a|] eqn:Ep; [|done]. intros E. constructor.
  - by rewrite El, Ep, (load_parsed_frame _ ss _ _ _ Hf E), Hs.
  - pose proof (IH _ Hss E) as Ht. rewrite Forall_forall in *. intros t Hin. specialize (Ht t Hin).
    unfold loaded in Ht. destruct (lookup (s_name t)); [done|]. by rewrite Ht, (Hb t Hin).
Qed.
End loading.

(** The loop over strings is the same loop with a parser that cannot fail. *)
Lemma load_strings lookup ss c :
  load_parsed lookup (fun v => Some (TrimSpace v)) "" ss c = (foldl (load_string lookup) c ss, None).
Proof.
  revert c. induction ss as [|s ss IH]; intros c; cbn; [done|]. unfold load_string at 2.
  destruct (lookup (s_name s)); apply IH.
Qed.

Ltac independent := repeat first [exact I | split | apply Forall_cons_2 | apply Forall_nil_2 | (intros ? ?; reflexivity)].

Lemma strings_separate : separate string_settings.
Proof. independent. Qed.

Lemma durations_separate : separate (fst <$> durations).
Proof. independent. Qed.

Lemma integers_separate : separate integers.
Proof. independent. Qed.

(** Later loops leave earlier settings alone, and the defaults of later ones. *)
Lemma strings_kept :
  Forall (fun s => Forall (indep (s_get s)) (fst <$> durations) /\ Forall (indep (s_get s)) integers)
    string_settings.
Proof. independent. Qed.

Lemma durations_kept :
  Forall (fun s => Forall (indep (s_get s)) string_settings /\ Forall (indep (s_get s)) integers)
    (fst <$> durations).
Proof. independent. Qed.

Lemma integers_kept :
  Forall (fun s => Forall (indep (s_get s)) string_settings /\ Forall (indep (s_get s)) (fst <$> durations))
    integers.
Proof. independent. Qed.

(** ** Valid configurations *)

Definition listens (address : string) : Prop :=
  exists host port n, SplitHostPort address = Some (host, port) /\ Atoi port = Some n /\ 0 <= n <= 65535.

(** Which files each mode takes. *)
Inductive secured (cp : ControlPlaneConfig) : Prop :=
| secured_insecure :
    SecurityMode cp = "insecure" -> TLSCAFile cp = "" -> TLSServerName cp = "" ->
    TLSCertFile cp = "" -> TLSKeyFile cp = "" -> secured cp
| secured_tls :
    SecurityMode cp = "tls" -> TLSCertFile cp = "" -> TLSKeyFile cp = "" -> secured cp
| secured_mtls :
    SecurityMode cp = "mtls" -> TLSCertFile cp <> "" -> TLSKeyFile cp <> "" -> secured cp.

Record valid_config (c : Config) : Prop := {
  vc_url : URL (ControlPlane c) <> "";
  vc_address : listens (Address (HTTP c));
  vc_admin : listens (AdminAddress (HTTP c));
  vc_durations : Forall (fun p : setting Z * bool => if p.2 then 0 <= s_get p.1 c else 0 < s_get p.1 c) durations;
  vc_integers : Forall (fun s : setting Z => 0 < s_get s c) integers;
  vc_security : secured (ControlPlane c)
}.

Lemma blank_true s : blank s = true <-> s = "".
Proof. apply String.eqb_eq. Qed.

Lemma blank_false s : blank s = false <-> s <> "".
Proof. apply String.eqb_neq. Qed.

Lemma address_listens address : address_ok address = true <-> listens address.
Proof.
  unfold address_ok, listens. split.
  - destruct (SplitHostPort address) as [[h p]|]; [|done]. destruct (Atoi p) as [n|] eqn:En; [|done].
    intros Hn%negb_true_iff. apply orb_false_iff in Hn as [?%Z.ltb_ge ?%Z.ltb_ge]. eauto 10.
  - intros (h & p & n & -> & -> & ?). apply negb_true_iff, orb_false_iff.
    split; apply Z.ltb_ge; lia.
Qed.

Lemma validate_security_ok cp : validate_security cp = Ok tt <-> secured cp.
Proof.
  unfold validate_security. split.
  - destruct (String.eqb_spec (SecurityMode cp) "insecure") as [E|_].
    { destruct (blank (TLSCAFile cp)) eqn:?, (blank (TLSServerName cp)) eqn:?, (blank (TLSCertFile cp)) eqn:?,
        (blank (TLSKeyFile cp)) eqn:?; try discriminate. intros _.
      apply secured_insecure; auto; by apply blank_true. }
    destruct (String.eqb_spec (SecurityMode cp) "tls") as [E|_].
    { destruct (blank (TLSCertFile cp)) eqn:?, (blank (TLSKeyFile cp)) eqn:?; try discriminate. intros _.
      apply secured_tls; auto; by apply blank_true. }
    destruct (String.eqb_spec (SecurityMode cp) "mtls") as [E|_]; [|done].
    destruct (blank (TLSCertFile cp)) eqn:?, (blank (TLSKeyFile cp)) eqn:?; try discriminate. intros _.
    apply secured_mtls; auto; by apply blank_false.
  - intros [Hm -> -> -> ->|Hm -> ->|Hm Hc%blank_false Hk%blank_false]; rewrite Hm; [done..|].
    by rewrite Hc, Hk.
Qed.

Lemma Validate_ok c : Validate c = Ok tt <-> valid_config c.
Proof.
  unfold Validate.
  assert (res_iter validate_address [("HTTP_ADDRESS", Address (HTTP c)); ("ADMIN_ADDRESS", AdminAddress (HTTP c))]
    = Ok tt <-> listens (Address (HTTP c)) /\ listens (AdminAddress (HTTP c))) as Ha.
  { rewrite res_iter_Ok, Forall_cons, Forall_singleton. unfold validate_address. cbn.
    rewrite <-!address_listens. destruct (address_ok (Address _)), (address_ok (AdminAddress _)); naive_solver. }
  assert (res_iter (validate_duration c) durations = Ok tt <->
    Forall (fun p : setting Z * bool => if p.2 then 0 <= s_get p.1 c else 0 < s_get p.1 c) durations) as Hd.
  { rewrite res_iter_Ok. apply Forall_iff. intros [s z]. unfold validate_duration. cbn.
    destruct (Z.ltb_spec (s_get s c) 0), z, (Z.eqb_spec (s_get s c) 0); cbn; split; try done; lia. }
  assert (res_iter (validate_integer c) integers = Ok tt <-> Forall (fun s : setting Z => 0 < s_get s c) integers) as Hi.
  { rewrite res_iter_Ok. apply Forall_iff. intros s. unfold validate_integer.
    destruct (Z.leb_spec (s_get s c) 0); split; try done; lia. }
  split.
  - destruct (blank (URL (ControlPlane c))) eqn:Hu; [done|].
    destruct (res_iter validate_address _) as [[]|]; [|done].
    destruct (res_iter (validate_duration c) _) as [[]|]; [|done].
    destruct (res_iter (validate_integer c) _) as [[]|]; [|done].
    intros Hs. constructor; [by apply blank_false|by apply Ha|by apply Ha|by apply Hd|by apply Hi|].
    by apply validate_security_ok.
  - intros [Hu Ha1 Ha2 Hds His Hs]. rewrite (proj2 (blank_false _) Hu), (proj2 Ha (conj Ha1 Ha2)).
    rewrite (proj2 Hd Hds), (proj2 Hi His). by apply validate_security_ok.
Qed.

(** ** Loading *)

(** The security mode is lower-cased after it is read. *)
Definition adjusted (s : setting string) (v : string) : string :=
  if String.eqb (s_name s) (s_name security_mode) then ToLower v else v.

Definition string_value (lookup : string -> option string) (s : setting string) : string :=
  adjusted s (match lookup (s_name s) with Some v => TrimSpace v | None => s_get s Defaults end).

Lemma lower_mode c :
  let c' := s_put security_mode (ToLower (s_get security_mode c)) c in
  Forall (fun s => s_get s c' = adjusted s (s_get s c)) string_settings.
Proof. repeat (apply Forall_cons_2; [reflexivity|]). apply Forall_nil_2. Qed.

(** The parsed settings do not see the security mode. *)
Lemma mode_indep :
  Forall (fun s => indep (s_get s) security_mode) (fst <$> durations) /\
  Forall (fun s => indep (s_get s) security_mode) integers.
Proof. independent. Qed.

Definition config_files_ok `{Files} (cp : ControlPlaneConfig) : Prop :=
  (TLSCAFile cp = "" \/ exists pem, ReadFile (TLSCAFile cp) = Some pem /\ AppendCertsFromPEM pem = true) /\
  (SecurityMode cp = "mtls" -> LoadX509KeyPair (TLSCertFile cp) (TLSKeyFile cp) = true).

(** The credentials a configuration stands for: in TLS the roots are the contents of the
    root file, and the system's only where none is named. *)
Definition credentials_of `{Files} (cp : ControlPlaneConfig) : transport_credentials :=
  if String.eqb (SecurityMode cp) "insecure" then Insecure
  else TLS (if blank (TLSServerName cp) then None else Some (TLSServerName cp))
         (if blank (TLSCAFile cp) then None else ReadFile (TLSCAFile cp))
         (if String.eqb (SecurityMode cp) "mtls" then Some (TLSCertFile cp, TLSKeyFile cp) else None).

Lemma load_roots_spec `{Files} file roots :
  load_roots file = Ok roots <->
  (file = "" \/ exists pem, ReadFile file = Some pem /\ AppendCertsFromPEM pem = true) /\
  roots = if blank file then None else ReadFile file.
Proof.
  unfold load_roots. destruct (blank file) eqn:Hb.
  { apply blank_true in Hb. split; [intros [= <-]; auto|]. by intros [_ ->]. }
  apply blank_false in Hb. destruct (ReadFile file) as [pem|] eqn:Hr.
  - destruct (AppendCertsFromPEM pem) eqn:Hp; split.
    + intros [= <-]. eauto.
    + by intros [_ ->].
    + done.
    + intros [[?|(pem' & [= <-] & ?)] _]; congruence.
  - split; [done|]. intros [[?|(pem & ? & _)] _]; congruence.
Qed.

Lemma secured_credentials `{Files} cp t :
  secured cp ->
  buildTransportCredentials
    (mkDialConfig (SecurityMode cp) (TLSCAFile cp) (TLSServerName cp) (TLSCertFile cp) (TLSKeyFile cp)
       (AuthBearerToken cp)) = Ok t <-> config_files_ok cp /\ t = credentials_of cp.
Proof.
  intros Hs. unfold buildTransportCredentials, load_certificate, credentials_of, config_files_ok.
  cbn [dc_SecurityMode dc_TLSCAFile dc_TLSServerName dc_TLSCertFile dc_TLSKeyFile].
  destruct Hs as [-> -> _ _ _| -> _ _| -> ->%blank_false ->%blank_false].
  - change (normalizeSecurityMode "insecure") with "insecure". cbn [String.eqb Ascii.eqb Bool.eqb].
    split; [intros [= <-]; split_and!; auto; done|]. by intros [_ ->].
  - change (normalizeSecurityMode "tls") with "tls". cbn [String.eqb Ascii.eqb Bool.eqb orb].
    pose proof (load_roots_spec (TLSCAFile cp)) as Hr. destruct (load_roots _) as [roots|].
    + destruct (proj1 (Hr roots) eq_refl) as [Hf ->]. split; [intros [= <-]|by intros [_ ->]].
      by split_and!.
    + split; [done|]. intros [[Hf _] _]. by specialize (proj2 (Hr _) (conj Hf eq_refl)).
  - change (normalizeSecurityMode "mtls") with "mtls". cbn [String.eqb Ascii.eqb Bool.eqb orb].
    pose proof (load_roots_spec (TLSCAFile cp)) as Hr. destruct (load_roots _) as [roots|].
    + destruct (proj1 (Hr roots) eq_refl) as [Hf ->].
      destruct (LoadX509KeyPair _ _) eqn:Hk; split.
      * intros [= <-]. by split_and!.
      * by intros [_ ->].
      * done.
      * intros [[_ Hc] _]. by specialize (Hc eq_refl).
    + split; [done|]. intros [[Hf _] _]. by specialize (proj2 (Hr _) (conj Hf eq_refl)).
Qed.

Lemma loaded_parsed {A} lookup (parse : string -> option A) complaint ss c0 c c' c'' :
  separate ss -> load_parsed lookup parse complaint ss c = (c', None) ->
  Forall (fun s => s_get s c = s_get s c0) ss -> Forall (fun s => s_get s c'' = s_get s c') ss ->
  Forall (loaded lookup parse c0 c'') ss.
Proof.
  intros Hs Hl%load_parsed_sets Hb Ha; [|done]. rewrite Forall_forall in *. intros s Hin.
  specialize (Hl s Hin). unfold loaded in *. rewrite Ha by done.
  destruct (lookup (s_name s)); [done|]. rewrite Hl. by apply Hb.
Qed.

(** C25. A configuration that loads is the environment's, setting by setting: trimmed
    strings, parsed durations and integers, the default where a variable is absent.  It
    is valid, and the connection's options are built exactly when its files are good (a
    named root file holds a certificate, in mtls mode the key pair loads): they are then
    the credentials it stands for, mode, server name, roots and client certificate, and
    the trimmed bearer token. *)
Theorem loaded_configuration (lookup : string -> option string) (c : Config)
    (Hload : Load lookup = (c, None)) :
  Forall (fun s => s_get s c = string_value lookup s) string_settings /\
  Forall (fun p : setting Z * bool => loaded lookup ParseDuration Defaults c p.1) durations /\
  Forall (loaded lookup Atoi Defaults c) integers /\
  valid_config c /\
  forall `(Files) t token,
    buildDialOptions (controlPlaneDialConfigFromEnv c) = Ok (t, token) <->
    config_files_ok (ControlPlane c) /\ t = credentials_of (ControlPlane c) /\
    token = let token := TrimSpace (AuthBearerToken (ControlPlane c)) in
            if blank token then None else Some token.
Proof.
  unfold Load in Hload.
  pose proof (load_strings lookup string_settings Defaults) as H1.
  set (c1 := foldl _ _ _) in *. set (c2 := s_put security_mode _ _) in *.
  destruct (load_parsed lookup ParseDuration _ _ c2) as [c3 [e|]] eqn:H3; [done|].
  destruct (load_parsed lookup Atoi _ _ c3) as [c4 [e|]] eqn:H4; [done|].
  destruct (Validate c4) as [[]|] eqn:H5; [|done]. injection Hload as <-.
  apply Validate_ok in H5. destruct mode_indep as [Hmd Hmi].
  assert (Forall (fun s => s_get s c4 = s_get s c2) string_settings) as Hs42.
  { eapply Forall_impl; [exact strings_kept|]. cbn. intros s [Hd Hi].
    by rewrite (load_parsed_frame _ _ _ _ _ _ _ _ Hi H4), (load_parsed_frame _ _ _ _ _ _ _ _ Hd H3). }
  split_and!; [| | |done|].
  - pose proof (load_parsed_sets _ _ _ _ _ _ strings_separate H1) as Hs.
    pose proof (lower_mode c1) as Hl. cbv zeta in Hl. fold c2 in Hl. rewrite Forall_forall in *.
    intros s Hin. rewrite Hs42, Hl by done. unfold string_value. f_equal.
    specialize (Hs s Hin). unfold loaded in Hs. destruct (lookup (s_name s)); congruence.
  - apply Forall_fmap with (f := fst) (P := loaded lookup ParseDuration Defaults c4).
    eapply loaded_parsed; [apply durations_separate|exact H3| |].
    + rewrite Forall_forall in *. intros s Hin. transitivity (s_get s c1); [by apply Hmd|].
      destruct (proj1 (Forall_forall _ _) durations_kept s Hin) as [Hk _].
      exact (load_parsed_frame _ _ _ _ _ _ _ _ Hk H1).
    + eapply Forall_impl; [exact durations_kept|]. cbn. intros s [_ Hk].
      exact (load_parsed_frame _ _ _ _ _ _ _ _ Hk H4).
  - eapply loaded_parsed; [apply integers_separate|exact H4| |by apply Forall_forall].
    eapply Forall_impl; [apply Forall_and; split; [exact integers_kept|exact Hmi]|].
    cbn. intros s [[Hs Hd] Hm].
    rewrite (load_parsed_frame _ _ _ _ _ _ _ _ Hd H3). unfold c2. rewrite (Hm _ c1).
    exact (load_parsed_frame _ _ _ _ _ _ _ _ Hs H1).
  - intros Hf t token. pose proof (secured_credentials _ t (vc_security _ H5)) as Ht.
    unfold buildDialOptions, controlPlaneDialConfigFromEnv. cbn [dc_BearerToken].
    destruct (buildTransportCredentials _) as [t'|e]; split.
    + intros [= -> <-]. by destruct (proj1 Ht eq_refl).
    + intros (Hf' & -> & ->). by injection (proj2 Ht (conj Hf' eq_refl)) as ->.
    + done.
    + intros (Hf' & -> & _). by pose proof (proj2 Ht (conj Hf' eq_refl)).
Qed.

Module ConfigExample.
Definition environment (name : string) : option string :=
  if String.eqb name "CONTROL_PLANE_URL" then Some " cp.internal:443 "
  else if String.eqb name "CONTROL_PLANE_SECURITY_MODE" then Some "MTLS"
  else if String.eqb name "CONTROL_PLANE_TLS_CERT_FILE" then Some "/tls/crt"
  else if String.eqb name "CONTROL_PLANE_TLS_KEY_FILE" then Some "/tls/key"
  else if String.eqb name "SIGV4_MAX_CLOCK_SKEW" then Some "5m"
  else None.

Lemma loaded_configuration_witness :
  exists c, Load environment = (c, None) /\ URL (ControlPlane c) = "cp.internal:443" /\ valid_config c.
Proof.
  destruct (Load environment) as [c e] eqn:E.
  assert (e = None) as -> by (change e with (c, e).2; rewrite <-E; vm_compute; reflexivity).
  exists c. split; [reflexivity|].
  destruct (loaded_configuration environment c E) as (Hs & _ & _ & Hv & _). split; [|exact Hv].
  do 2 apply Forall_inv_tail in Hs. apply Forall_inv in Hs. etransitivity; [exact Hs|]. vm_compute. reflexivity.
Defined.
End ConfigExample.
