(* ===== verification/Readiness.v ===== *)
(** * Readiness: what the admin server answers ([http_server/server.go])

    [Stats], [Status] and [ReadinessSnapshot] of [controlplane/client.go] copy the
    client's fields and counters; [ReadinessCheck] and [HealthCheck] answer from the copy,
    as JSON.  The counters are values of their own ([metricCounters]): [observeRPC] is the
    only operation on them that is more than an increment.  A gRPC code's name is the
    library's, and the wall-clock time of a reading of the clock is a parameter. *)
From stdpp Require Import pretty.
From S2P Require Import Prelude GoStrings GoTime TimeLaws Json Utf8 JsonEncode.
From S2P Require Import Errors Cache Client ClientInv ClientHistory Flight.

(** ** Counters *)

(** The gap counter is a field of the client ([watchGaps]). *)
Record metricCounters := mkMetricCounters {
  cacheHits : Z;
  cacheMisses : Z;
  negativeHits : Z;
  evictions : Z;
  loadCoalesced : Z;
  rejectedMisses : Z;
  rejectedVBucketMisses : Z;
  watchReconnects : Z;
  rpcCalls : Z;
  rpcFailures : Z;
  rpcLatencyNanos : Z;
  lastRPCCode : string
}.

(** An RPC started at [start] ended at [now] in [err], whose code has the name [code]. *)
Definition observeRPC (now start : Z) (code : string) (err : option error) (m : metricCounters)
    : metricCounters :=
  mkMetricCounters (cacheHits m) (cacheMisses m) (negativeHits m) (evictions m) (loadCoalesced m)
    (rejectedMisses m) (rejectedVBucketMisses m) (watchReconnects m) (u64 (rpcCalls m + 1))
    (match err with Some _ => u64 (rpcFailures m + 1) | None => rpcFailures m end)
    (Z.max 0 (time_sub now start)) code.

Record ClientStats := mkClientStats {
  st_CacheHits : Z;
  st_CacheMisses : Z;
  st_NegativeHits : Z;
  st_Evictions : Z;
  st_LoadCoalesced : Z;
  st_RejectedCredentialMisses : Z;
  st_RejectedVBucketMisses : Z;
  st_WatchGaps : Z;
  st_WatchReconnects : Z;
  st_RPCCalls : Z;
  st_RPCFailures : Z;
  st_LastRPCLatency : Z;
  st_LastRPCCode : string;
  st_CredentialEntries : Z;
  st_BaseHostEntries : Z;
  st_VBucketEntries : Z
}.

Section readiness.
Context `{Platform} {Cred Conf CC VC : Type}
  `{TimedStore CC string (cached Cred)} `{TimedStore VC string (cached Conf)}.

(** The lock is not held while the fields are read: each reads the client of its own
    moment. *)
Record moments := mkMoments {
  at_gaps : Client (CC:=CC) (VC:=VC);
  at_credentials : Client (CC:=CC) (VC:=VC);
  at_baseHosts : Client (CC:=CC) (VC:=VC);
  at_vbuckets : Client (CC:=CC) (VC:=VC)
}.

Definition Stats (m : metricCounters) (at_ : moments) : ClientStats :=
  mkClientStats (cacheHits m) (cacheMisses m) (negativeHits m) (evictions m) (loadCoalesced m)
    (rejectedMisses m) (rejectedVBucketMisses m) (watchGaps (at_gaps at_)) (watchReconnects m)
    (rpcCalls m) (rpcFailures m) (rpcLatencyNanos m) (lastRPCCode m)
    (store_len (credentials (at_credentials at_))) (baseHostCount (at_baseHosts at_))
    (store_len (vbuckets (at_vbuckets at_))).

Record SyncStatus := mkSyncStatus {
  ss_State : State;
  ss_Ready : bool;
  ss_Revision : Z;
  ss_CursorPresent : bool;
  ss_BarrierRequired : bool;
  ss_LastGapRevision : Z;
  ss_RequiredRevision : Z;
  ss_LastTransitionUTC : Z;
  ss_LastDisconnectReason : string;
  ss_Stats : ClientStats
}.

(** [syncMu] is released before [Stats]. *)
Definition Status (m : metricCounters) (c : Client (CC:=CC) (VC:=VC)) (later : moments) : SyncStatus :=
  mkSyncStatus (state c) (bool_decide (state c = StateReady)) (revision c)
    (negb (String.eqb (cursor c) "")) (barrierRequired c) (lastGap c) (requiredRevision c)
    (lastTransition c) (lastDisconnectReason c) (Stats m later).

Definition State_string (s : State) : string :=
  match s with
  | StateStartup => "startup" | StateConnecting => "connecting"
  | StateSynchronizing => "synchronizing" | StateReady => "ready"
  | StateDisconnected => "disconnected" | StateShutdown => "shutdown"
  end.

Record ReadinessSnapshot := mkReadinessSnapshot {
  rs_Ready : bool;
  rs_State : string;
  rs_Revision : Z;
  rs_CursorPresent : bool;
  rs_BarrierRequired : bool;
  rs_RequiredRevision : Z;
  rs_LastGapRevision : Z;
  rs_LastTransitionUTC : Z;
  rs_LastDisconnectReason : string;
  rs_Stats : ClientStats
}.

Definition snapshot_of (m : metricCounters) (c : Client (CC:=CC) (VC:=VC)) (later : moments)
    : ReadinessSnapshot :=
  let status := Status m c later in
  mkReadinessSnapshot (ss_Ready status) (State_string (ss_State status)) (ss_Revision status)
    (ss_CursorPresent status) (ss_BarrierRequired status) (ss_RequiredRevision status)
    (ss_LastGapRevision status) (ss_LastTransitionUTC status) (ss_LastDisconnectReason status)
    (ss_Stats status).

(** ** JSON *)

(** [time.Time.MarshalJSON] of a UTC time: a year of four digits. *)
Definition time_json (t : Time) : option json :=
  let '(year, _, _) := civil (t_sec t / 86400) in
  if in_range 0 9999 year then Some (JString (FormatRFC3339Nano t)) else None.

Definition number (z : Z) : json := JNumber (FormatInt z).

(** [omitempty] *)
Definition omit (empty : bool) (key : string) (v : json) : list (string * json) :=
  if empty then [] else [(key, v)].

Definition stats_json (s : ClientStats) : json := JObject
  [("cache_hits", number (st_CacheHits s)); ("cache_misses", number (st_CacheMisses s));
   ("negative_hits", number (st_NegativeHits s)); ("evictions", number (st_Evictions s));
   ("load_coalesced", number (st_LoadCoalesced s));
   ("rejected_credential_misses", number (st_RejectedCredentialMisses s));
   ("rejected_vbucket_misses", number (st_RejectedVBucketMisses s));
   ("watch_gaps", number (st_WatchGaps s)); ("watch_reconnects", number (st_WatchReconnects s));
   ("rpc_calls", number (st_RPCCalls s)); ("rpc_failures", number (st_RPCFailures s));
   ("last_rpc_latency", number (st_LastRPCLatency s));
   ("last_rpc_code", JString (st_LastRPCCode s));
   ("credential_entries", number (st_CredentialEntries s));
   ("base_host_entries", number (st_BaseHostEntries s));
   ("vbucket_entries", number (st_VBucketEntries s))].

Definition snapshot_members (transition : json) (s : ReadinessSnapshot) : list (string * json) :=
  [("ready", JBool (rs_Ready s)); ("state", JString (rs_State s));
   ("revision", number (rs_Revision s)); ("cursor_present", JBool (rs_CursorPresent s));
   ("barrier_required", JBool (rs_BarrierRequired s))]
  ++ omit (rs_RequiredRevision s =? 0) "required_revision" (number (rs_RequiredRevision s))
  ++ omit (rs_LastGapRevision s =? 0) "last_gap_revision" (number (rs_LastGapRevision s))
  ++ [("last_transition_utc", transition)]
  ++ omit (String.eqb (rs_LastDisconnectReason s) "") "last_disconnect_reason"
       (JString (rs_LastDisconnectReason s))
  ++ [("stats", stats_json (rs_Stats s))].

(** [wall] is the time of a reading of the clock. *)
Definition snapshot_json (wall : Z -> Time) (s : ReadinessSnapshot) : option json :=
  match time_json (wall (rs_LastTransitionUTC s)) with
  | None => None
  | Some transition => Some (JObject (snapshot_members transition s))
  end.

(** A status, the content type, and the body: empty when the value does not encode. *)
Record admin_answer := mkAnswer { an_status : Z; an_type : string; an_body : string }.

Definition writeJSON (status : Z) (data : option json) : admin_answer :=
  mkAnswer status "application/json" (match data with Some v => Encode v | None => "" end).

(** No provider is [None].  A map's keys are written in order. *)
Definition ReadinessCheck (wall : Z -> Time) (readiness : option ReadinessSnapshot) : admin_answer :=
  match readiness with
  | None => writeJSON 200 (Some (JObject [("state", JString "standalone"); ("status", JString "ready")]))
  | Some snapshot => writeJSON (if rs_Ready snapshot then 200 else 503) (snapshot_json wall snapshot)
  end.

Definition HealthCheck : admin_answer := writeJSON 200 (Some (JObject [("status", JString "ok")])).

(** ** What a ready answer means *)

Lemma State_string_inj s s' : State_string s = State_string s' -> s = s'.
Proof. by destruct s, s'. Qed.

Lemma State_string_ascii s : str_forallb is_ascii (State_string s) = true.
Proof. by destruct s. Qed.

(** A readable time *)
Definition wall_ok (t : Time) : Prop := in_years t /\ 0 <= t_nsec t < 1000000000.

Lemma time_json_ok t : wall_ok t -> time_json t = Some (JString (FormatRFC3339Nano t)).
Proof.
  intros [Ht _]. pose proof (time_fields t Ht) as Hf. unfold time_json.
  destruct (civil _) as [[y m] d]. destruct Hf as [Hy _]. by rewrite in_range_true by lia.
Qed.

Lemma FormatInt_inj z z' : FormatInt z = FormatInt z' -> z = z'.
Proof. apply (inj pretty). Qed.

Lemma integral_number z : integral (number z).
Proof. apply int_number. Qed.

Lemma stats_integral s : integral (stats_json s).
Proof. apply int_object. repeat constructor; apply integral_number. Qed.

Lemma omit_integral b k v : integral v -> Forall (fun kv => integral kv.2) (omit b k v).
Proof. intros Hv. destruct b; by repeat constructor. Qed.

Lemma snapshot_integral t s : integral (JObject (snapshot_members (JString t) s)).
Proof.
  apply int_object. unfold snapshot_members.
  repeat (apply Forall_app; split); try (apply omit_integral);
    repeat constructor; try apply integral_number; apply stats_integral.
Qed.

Lemma snapshot_height t s : (height (JObject (snapshot_members (JString t) s)) <= 2)%nat.
Proof.
  unfold snapshot_members, omit.
  destruct (_ =? 0), (_ =? 0), (String.eqb _ _); cbn; lia.
Qed.

(** Every key the server writes is ASCII, so reading back does not change it. *)
Lemma object_get_coerced ms key :
  Forall (fun kv => str_forallb is_ascii kv.1 = true) ms ->
  object_get (map coerced_member ms) key = option_map coerced (object_get ms key).
Proof.
  induction ms as [|[k v] ms IH]; intros Hk; [done|]. apply Forall_cons_1 in Hk as [Hk Hms].
  cbn [map]. unfold coerced_member at 1. cbn [object_get fst snd] in *.
  rewrite coerce_utf8_ascii, IH by done.
  destruct (object_get ms key); [done|]. by destruct (String.eqb k key).
Qed.

Lemma snapshot_keys t s :
  Forall (fun kv => str_forallb is_ascii kv.1 = true) (snapshot_members t s).
Proof.
  unfold snapshot_members, omit.
  destruct (_ =? 0), (_ =? 0), (String.eqb _ _); repeat constructor.
Qed.

(** The body of an answer, read back: [get] looks a key of it up. *)
Lemma ready_answer_members wall s :
  wall_ok (wall (rs_LastTransitionUTC s)) ->
  let t := FormatRFC3339Nano (wall (rs_LastTransitionUTC s)) in
  decode_single (an_body (ReadinessCheck wall (Some s)))
  = Ok (JObject (map coerced_member (snapshot_members (JString t) s))).
Proof.
  intros Hw t. cbn [ReadinessCheck writeJSON an_body].
  unfold snapshot_json. rewrite time_json_ok by done. fold t.
  rewrite decode_Encode; [done|apply snapshot_integral|].
  pose proof (snapshot_height t s). change maxNestingDepth with 10000. lia.
Qed.

(** Every field of the body, read back *)
Definition snapshot_fields (ms : list (string * json)) (t : string) (s : ReadinessSnapshot) : Prop :=
  let get := object_get ms in
  get "ready" = Some (JBool (rs_Ready s)) /\
  get "state" = Some (JString (rs_State s)) /\
  get "revision" = Some (number (rs_Revision s)) /\
  get "cursor_present" = Some (JBool (rs_CursorPresent s)) /\
  get "barrier_required" = Some (JBool (rs_BarrierRequired s)) /\
  get "required_revision"
    = (if rs_RequiredRevision s =? 0 then None else Some (number (rs_RequiredRevision s))) /\
  get "last_gap_revision"
    = (if rs_LastGapRevision s =? 0 then None else Some (number (rs_LastGapRevision s))) /\
  get "last_transition_utc" = Some (JString t) /\
  get "last_disconnect_reason"
    = (if String.eqb (rs_LastDisconnectReason s) "" then None
       else Some (JString (coerce_utf8 (rs_LastDisconnectReason s)))) /\
  get "stats" = Some (coerced (stats_json (rs_Stats s))).

Ltac read_field :=
  rewrite object_get_coerced by apply snapshot_keys; unfold snapshot_members, omit;
  destruct (_ =? 0), (_ =? 0), (String.eqb (rs_LastDisconnectReason _) "");
  cbn [app object_get String.eqb Ascii.eqb Bool.eqb option_map coerced number];
  rewrite ?coerce_utf8_ascii by done; reflexivity.

Lemma snapshot_read t s :
  str_forallb is_ascii t = true -> str_forallb is_ascii (rs_State s) = true ->
  snapshot_fields (map coerced_member (snapshot_members (JString t) s)) t s.
Proof. intros Ht Hs. unfold snapshot_fields. cbv zeta. split_and!; read_field. Qed.

Lemma answer_status m wall (c : Client (CC:=CC) (VC:=VC)) later :
  let answer := ReadinessCheck wall (Some (snapshot_of m c later)) in
  (an_status answer = 200 <-> state c = StateReady) /\
  (an_status answer = 503 <-> state c <> StateReady).
Proof.
  cbn. destruct (bool_decide_reflect (state c = StateReady)); split; split; (done || congruence).
Qed.

Context `{!TimedStoreLaws CC string (cached Cred)} `{!TimedStoreLaws VC string (cached Conf)}.
Variables (now0 max : Z) (cc0 : CC) (vc0 : VC).
Hypothesis cc0_empty : forall k v, ~ store_holds cc0 k v.
Hypothesis vc0_empty : forall k v, ~ store_holds vc0 k v.

(** C18. Whatever a probe reads from [/ready] is the client: the status says whether the
    client is ready; the body is JSON that decodes, each field to the client's value, a
    field left out standing for zero or the empty string, the transition time parsed to
    the moment of the last change of state; and a body that says ready never names a
    required revision or a barrier, and names a revision and a cursor.  The counts of the
    statistics are the client's of the moments they were read, which other steps may
    separate from the status and from each other. *)
Theorem ready_answer_decodes (m : metricCounters) (wall : Z -> Time)
    (h gaps creds hosts vbs : list (Z * event)) (Hh : Forall event_ok h) :
  let c := run h (newClient now0 max cc0 vc0) in
  let c1 := run gaps c in let c2 := run creds c1 in let c3 := run hosts c2 in
  let c4 := run vbs c3 in
  let answer := ReadinessCheck wall (Some (snapshot_of m c (mkMoments c1 c2 c3 c4))) in
  wall_ok (wall (lastTransition c)) ->
  (an_status answer = 200 <-> state c = StateReady) /\
  (an_status answer = 503 <-> state c <> StateReady) /\
  exists ms stats time, decode_single (an_body answer) = Ok (JObject ms) /\
    let get := object_get ms in
    get "ready" = Some (JBool (Ready c)) /\
    get "state" = Some (JString (State_string (state c))) /\
    get "revision" = Some (number (revision c)) /\
    get "cursor_present" = Some (JBool (negb (String.eqb (cursor c) ""))) /\
    get "barrier_required" = Some (JBool (barrierRequired c)) /\
    get "required_revision"
      = (if requiredRevision c =? 0 then None else Some (number (requiredRevision c))) /\
    get "last_gap_revision" = (if lastGap c =? 0 then None else Some (number (lastGap c))) /\
    get "last_transition_utc" = Some (JString time) /\
    ParseRFC3339 time = Some (wall (lastTransition c)) /\
    get "last_disconnect_reason"
      = (if String.eqb (lastDisconnectReason c) "" then None
         else Some (JString (coerce_utf8 (lastDisconnectReason c)))) /\
    get "stats" = Some (JObject stats) /\
    object_get stats "credential_entries" = Some (number (store_len (credentials c2))) /\
    object_get stats "base_host_entries" = Some (number (baseHostCount c3)) /\
    object_get stats "vbucket_entries" = Some (number (store_len (vbuckets c4))) /\
    object_get stats "watch_gaps" = Some (number (watchGaps c1)) /\
    object_get stats "rpc_calls" = Some (number (rpcCalls m)) /\
    (get "ready" = Some (JBool true) ->
       get "required_revision" = None /\ get "barrier_required" = Some (JBool false) /\
       get "cursor_present" = Some (JBool true) /\ get "revision" <> Some (number 0)).
Proof.
  intros c c1 c2 c3 c4 answer Hw.
  pose proof (reachable_inv now0 max cc0 vc0 cc0_empty vc0_empty h Hh : client_inv c) as I.
  destruct (answer_status m wall c (mkMoments c1 c2 c3 c4)) as [H200 H503]. split_and!; [done|done|].
  pose proof (ready_answer_members wall (snapshot_of m c (mkMoments c1 c2 c3 c4)) Hw) as Hd.
  pose proof (snapshot_read (FormatRFC3339Nano (wall (lastTransition c))) (snapshot_of m c (mkMoments c1 c2 c3 c4))
    (FormatRFC3339Nano_ascii _ (proj1 Hw) (proj2 Hw)) (State_string_ascii (state c))) as F.
  unfold snapshot_fields in F. cbv zeta in F.
  destruct F as (F1 & F2 & F3 & F4 & F5 & F6 & F7 & F8 & F9 & F10).
  eexists _, _, _. split; [exact Hd|]. cbv zeta.
  split; [exact F1|]. split; [exact F2|]. split; [exact F3|]. split; [exact F4|].
  split; [exact F5|]. split; [exact F6|]. split; [exact F7|]. split; [exact F8|].
  split; [by apply ParseRFC3339_Nano; apply Hw|]. split; [exact F9|]. split; [exact F10|].
  do 5 (split; [reflexivity|]).
  intros Hg. assert (state c = StateReady) as Hr.
  { apply (bool_decide_eq_true_1 (state c = StateReady)).
    pose proof (eq_trans (eq_sym F1) Hg) as E. by injection E. }
  destruct (inv_ready _ I Hr) as (Hb & _ & Hq & Hv). pose proof (inv_cursor _ I) as Hc.
  split_and!.
  - refine (eq_trans F6 _). by change (rs_RequiredRevision _) with (requiredRevision c); rewrite Hq.
  - refine (eq_trans F5 _). by change (rs_BarrierRequired _) with (barrierRequired c); rewrite Hb.
  - refine (eq_trans F4 _). change (rs_CursorPresent _) with (negb (String.eqb (cursor c) "")).
    destruct (String.eqb_spec (cursor c) "") as [e|]; [by apply Hc in e|done].
  - intros Hz.
    pose proof (eq_trans (eq_sym F3) Hz) as E. injection E as E.
    by apply (FormatInt_inj (revision c) 0) in E.
Qed.

End readiness.

Module ReadinessExample.
Import ClientHistory.Example.

Definition counters : metricCounters := mkMetricCounters 7 2 0 0 1 0 0 1 3 1 4000000 "OK".

(** The clock counts seconds of March 2025. *)
Definition wall (n : Z) : Time := mkTime (63876643200 + n) 250000000.

Lemma ready_answer_decodes_witness :
  let c := run synchronize (newClient 0 4 empty_store empty_store) in
  let c1 := run quiet c in let c2 := run quiet c1 in let c3 := run quiet c2 in
  let c4 := run quiet c3 in
  let answer := ReadinessCheck wall (Some (snapshot_of counters c (mkMoments c1 c2 c3 c4))) in
  an_status answer = 200 /\
  exists ms, decode_single (an_body answer) = Ok (JObject ms) /\
    object_get ms "revision" = Some (JNumber "5") /\ object_get ms "required_revision" = None.
Proof.
  assert (Forall event_ok synchronize) as Hh by check_history.
  destruct (ready_answer_decodes 0 4 empty_store empty_store empty_store_holds empty_store_holds
    counters wall synchronize quiet quiet quiet quiet Hh) as (Hs & _ & ms & stats & time & Hd & G);
    [vm_compute; intuition congruence|].
  cbv zeta in G. destruct G as (_ & _ & Hr & _ & _ & Hq & _).
  split; [apply Hs; vm_compute; reflexivity|]. exists ms. split; [exact Hd|].
  split; [rewrite Hr; vm_compute; reflexivity|rewrite Hq; vm_compute; reflexivity].
Defined.
End ReadinessExample.
