(* ===== verification/Process.v ===== *)
(** * Process: the servers, the logger and the life of the process

    [http_server/server.go] ([NewServer], [NewAdminServer]), the transport of
    [s3_proxy.go], [gologger] and [main.go].  Routing, listening and graceful shutdown are
    net/http's and chi's: a server is what the code configures, and the process is a
    machine driven by what its listeners return, the signal and what [Shutdown] returns.
    The goroutine of the control-plane client, which the same signal cancels, is [Watch]'s. *)
From S2P Require Import Prelude GoStrings Errors Flight Watch Config.

(** ** Servers *)

(** chi's middlewares *)
Inductive chi_middleware := Logger | Recoverer | RequestID.

(** The handlers of the routes: [handleS3Request] behind [S3Auth], [HealthCheck],
    [ReadinessCheck]. *)
Inductive endpoint := S3Endpoint | HealthEndpoint | ReadinessEndpoint.

(** No method is any method. *)
Record Route := mkRoute { rt_method : option string; rt_pattern : string; rt_handler : endpoint }.

Record Router := mkRouter { ro_middlewares : list chi_middleware; ro_routes : list Route }.

Definition NewRouter : Router := mkRouter [] [].
Definition Use (m : chi_middleware) (r : Router) : Router :=
  mkRouter (ro_middlewares r ++ [m]) (ro_routes r).
Definition Handle (route : Route) (r : Router) : Router :=
  mkRouter (ro_middlewares r) (ro_routes r ++ [route]).
Definition Get (pattern : string) (h : endpoint) : Router -> Router :=
  Handle (mkRoute (Some "GET") pattern h).

Record Server := mkServer {
  sv_Addr : string;
  sv_Handler : Router;
  sv_ReadHeaderTimeout : Z;
  sv_IdleTimeout : Z;
  sv_ReadTimeout : Z;
  sv_WriteTimeout : Z
}.

Definition newHTTPServer (current : Config) (addr : string) (handler : Router) : Server :=
  mkServer addr handler (ReadHeaderTimeout (HTTP current)) (IdleTimeout (HTTP current))
    (ReadTimeout (HTTP current)) (WriteTimeout (HTTP current)).

Definition RegisterS3Routes : Router -> Router := Handle (mkRoute None "/*" S3Endpoint).

Definition NewServer (current : Config) (addr : string) (registerRoutes : option (Router -> Router))
    : Server :=
  let r := Use RequestID (Use Recoverer (Use Logger NewRouter)) in
  let r := match registerRoutes with Some register => register r | None => r end in
  newHTTPServer current addr r.

Definition NewAdminServer (current : Config) (addr : string) : Server :=
  let r := Get "/ready" ReadinessEndpoint (Get "/hc" HealthEndpoint NewRouter) in
  newHTTPServer current addr r.

(** [proxyClient]: redirects are returned, and the transport's settings. *)
Record Transport := mkTransport {
  tr_followRedirects : bool;
  tr_DialTimeout : Z;
  tr_KeepAlive : Z;
  tr_ForceAttemptHTTP2 : bool;
  tr_DisableCompression : bool;
  tr_MaxIdleConns : Z;
  tr_MaxIdleConnsPerHost : Z;
  tr_IdleConnTimeout : Z;
  tr_TLSHandshakeTimeout : Z;
  tr_ExpectContinueTimeout : Z;
  tr_ResponseHeaderTimeout : Z
}.

Definition proxyClient (current : Config) : Transport :=
  let u := Upstream current in
  mkTransport false (DialTimeout u) (30 * Second) true true (MaxIdleConns u) (MaxIdleConnsPerHost u)
    (IdleConnTimeout u) (TLSHandshakeTimeout u) (ExpectContinueTimeout u) (ResponseHeaderTimeout u).

(** ** The logger ([gologger/gologger.go]) *)

Inductive log_level := TraceLevel | DebugLevel | InfoLevel | WarnLevel | ErrorLevel.

Definition LvlForErr (err : error) : log_level :=
  if Is err ContextCanceled then WarnLevel else ErrorLevel.

(** [strings.LastIndex(s, sep)] for one byte; [-1] when there is none. *)
Fixpoint LastIndexByte (s : string) (sep : ascii) : Z :=
  match s with
  | "" => -1
  | String c s =>
      let i := LastIndexByte s sep in
      if 0 <=? i then i + 1 else if Ascii.eqb c sep then 0 else -1
  end.

(** [CallerMarshalFunc]; [fun_] is [runtime.FuncForPC(pc)]'s name, if there is one. *)
Definition caller (fun_ : option string) (file : string) (line : Z) : string :=
  let function :=
    match fun_ with
    | Some funName =>
        let slash := LastIndexByte funName "/" in
        let funName := if 0 <? slash
                       then String.substring (Z.to_nat (slash + 1)) (String.length funName) funName
                       else funName in
        " " +:+ funName +:+ "()"
    | None => ""
    end in
  file +:+ ":" +:+ FormatInt line +:+ function.

Record logger_settings := mkLogger {
  lg_LevelFieldName : string;
  lg_TimestampFieldName : string;
  lg_console : bool;
  lg_level : log_level
}.

(** [os.Getenv]: a variable that is not set is empty. *)
Definition Getenv (lookup : string -> option string) (name : string) : string :=
  default "" (lookup name).

Definition NewLogger (lookup : string -> option string) : logger_settings :=
  let lvlKey := Getenv lookup "LOG_LEVEL_KEY" in
  mkLogger (if negb (String.eqb lvlKey "") then lvlKey else "level") "time"
    (String.eqb (Getenv lookup "LOG_JSON") "")
    (if String.eqb (Getenv lookup "TRACE") "1" then TraceLevel
     else if String.eqb (Getenv lookup "DEBUG") "0" then InfoLevel else DebugLevel).

(** ** [main] *)

Definition ValidateTransportConfig `{Files} (current : Config) : option string :=
  match buildDialOptions (controlPlaneDialConfigFromEnv current) with
  | Ok _ => None
  | Err err => Some err
  end.

(** A listener's goroutine, and the shutdown of its server. *)
Inductive listener := Listening | Returned.
Inductive shutdown := NotStopped | Stopped | ForceClosed.

Record server_run := mkRunning { rn_server : Server; rn_listener : listener; rn_shutdown : shutdown }.

(** [Fatal] exits with 1. *)
Inductive phase := Serving | Draining | Exited (code : Z).

Record process := mkProcess { ps_phase : phase; ps_servers : list server_run }.

Definition start (s : Server) : server_run := mkRunning s Listening NotStopped.

Definition main `{Files} (lookup : string -> option string) : process :=
  let (current, loadError) := Load lookup in
  match loadError with
  | Some _ => mkProcess (Exited 1) []
  | None =>
      match ValidateTransportConfig current with
      | Some _ => mkProcess (Exited 1) []
      | None =>
          mkProcess Serving (start <$>
            [NewServer current (Address (HTTP current)) (Some RegisterS3Routes);
             NewAdminServer current (AdminAddress (HTTP current))])
      end
  end.

(** What [ListenAndServe] returned: nothing, [http.ErrServerClosed], another error. *)
Inductive listen_result := NoError | ErrServerClosed | ListenError.

Inductive process_event :=
| Signal
| ListenReturns (i : nat) (r : listen_result)
| ShutdownReturns (i : nat) (failed : bool).

Definition set_listener (l : listener) (r : server_run) : server_run :=
  mkRunning (rn_server r) l (rn_shutdown r).
Definition set_shutdown (d : shutdown) (r : server_run) : server_run :=
  mkRunning (rn_server r) (rn_listener r) d.

Definition stopped (r : server_run) : bool :=
  match rn_shutdown r with NotStopped => false | _ => true end.

(** A server that did not shut down in time is closed; [main] returns when every
    [Shutdown] has. *)
Definition process_step (e : process_event) (p : process) : process :=
  match ps_phase p, e with
  | Exited _, _ => p
  | Serving, Signal => mkProcess Draining (ps_servers p)
  | Draining, Signal => p
  | phase, ListenReturns i r =>
      match ps_servers p !! i with
      | Some s =>
          match rn_listener s, r with
          | Returned, _ => p
          | Listening, ListenError => mkProcess (Exited 1) (ps_servers p)
          | Listening, _ => mkProcess phase (alter (set_listener Returned) i (ps_servers p))
          end
      | None => p
      end
  | Serving, ShutdownReturns _ _ => p
  | Draining, ShutdownReturns i failed =>
      match ps_servers p !! i with
      | Some s =>
          if stopped s then p
          else
            let servers := alter (set_shutdown (if failed then ForceClosed else Stopped)) i
                             (ps_servers p) in
            mkProcess (if forallb stopped servers then Exited 0 else Draining) servers
      | None => p
      end
  end.

Definition process_run (es : list process_event) (p : process) : process :=
  foldl (fun p e => process_step e p) p es.

Example caller_examples :
  caller (Some "github.com/danthegoodman1/vbuckets/controlplane.(*Client).Run") "watch.go" 71
  = "watch.go:71 controlplane.(*Client).Run()" /\
  caller (Some "main.main") "main.go" 21 = "main.go:21 main.main()" /\
  caller None "main.go" 21 = "main.go:21".
Proof. vm_compute. auto. Qed.

(** ** The life of the process *)

Lemma process_run_snoc es e p : process_run (es ++ [e]) p = process_step e (process_run es p).
Proof. apply (foldl_snoc (fun p e => process_step e p)). Qed.

Lemma process_run_app es es' p : process_run (es ++ es') p = process_run es' (process_run es p).
Proof. apply (foldl_app (fun p e => process_step e p)). Qed.

Lemma servers_alter f i (l : list server_run) :
  (forall r, rn_server (f r) = rn_server r) -> rn_server <$> alter f i l = rn_server <$> l.
Proof.
  intros Hf. revert i. induction l as [|r l IH]; intros [|i]; [done..| |]; cbn.
  - by rewrite Hf.
  - f_equal. apply IH.
Qed.

(** No step changes which servers there are. *)
Lemma process_servers e p :
  rn_server <$> ps_servers (process_step e p) = rn_server <$> ps_servers p.
Proof.
  unfold process_step. destruct (ps_phase p), e; try done;
    destruct (ps_servers p !! i) as [s|]; try done.
  - destruct (rn_listener s), r; try done; by apply servers_alter.
  - destruct (rn_listener s), r; try done; by apply servers_alter.
  - destruct (stopped s); [done|]. by apply servers_alter.
Qed.

Lemma process_run_servers es p :
  rn_server <$> ps_servers (process_run es p) = rn_server <$> ps_servers p.
Proof.
  induction es as [|e es IH] using rev_ind; [done|]. by rewrite process_run_snoc, process_servers.
Qed.

(** How far a process that started is, after the events [es]. *)
Definition phase_ok (es : list process_event) (p : process) : Prop :=
  match ps_phase p with
  | Serving => (Signal ∉ es) /\ forallb stopped (ps_servers p) = false
  | Draining => Signal ∈ es /\ forallb stopped (ps_servers p) = false
  | Exited code =>
      (code = 0 /\ Signal ∈ es /\ forallb stopped (ps_servers p) = true) \/
      (code = 1 /\ exists i, ListenReturns i ListenError ∈ es)
  end.

Lemma stopped_listener i l : forallb stopped (alter (set_listener Returned) i l) = forallb stopped l.
Proof. revert i. induction l as [|r l IH]; intros [|i]; [done..|]. cbn. f_equal. apply IH. Qed.

Lemma phase_ok_step es e p : phase_ok es p -> phase_ok (es ++ [e]) (process_step e p).
Proof.
  assert (forall i, ListenReturns i ListenError ∈ (es ++ [ListenReturns i ListenError])) as Hlast
    by set_solver.
  unfold phase_ok, process_step. destruct (ps_phase p) eqn:Ep.
  - intros [Hs Hn]. destruct e as [|i r|i failed]; cbn; [set_solver| |].
    + destruct (ps_servers p !! i) as [s|]; [|rewrite Ep; set_solver].
      destruct (rn_listener s), r; cbn; rewrite ?Ep, ?stopped_listener;
        first [set_solver | right; split; [done|exists i; apply Hlast]].
    + rewrite Ep. set_solver.
  - intros [Hs Hn]. destruct e as [|i r|i failed]; cbn; [rewrite Ep; set_solver| |].
    + destruct (ps_servers p !! i) as [s|]; [|rewrite Ep; set_solver].
      destruct (rn_listener s), r; cbn; rewrite ?Ep, ?stopped_listener;
        first [set_solver | right; split; [done|exists i; apply Hlast]].
    + destruct (ps_servers p !! i) as [s|]; [|rewrite Ep; set_solver].
      destruct (stopped s); [rewrite Ep; set_solver|]. cbn.
      destruct (forallb stopped (alter _ i _)) eqn:Ea; [left|]; set_solver.
  - intros H. rewrite Ep. destruct H as [(? & ? & ?)|(? & i & ?)]; [left|right; split; [done|exists i]];
      set_solver.
Qed.

Lemma phase_ok_run es p : phase_ok [] p -> phase_ok es (process_run es p).
Proof.
  intros Hp. induction es as [|e es IH] using rev_ind; [done|].
  rewrite process_run_snoc. by apply phase_ok_step.
Qed.

Lemma Load_valid lookup c : Load lookup = (c, None) -> valid_config c.
Proof.
  unfold Load. destruct (load_parsed _ _ _ _ _) as [c1 [?|]]; [done|].
  destruct (load_parsed _ _ _ _ _) as [c2 [?|]]; [done|].
  destruct (Validate c2) as [[]|] eqn:Ev; [|done]. intros [= <-]. by apply Validate_ok.
Qed.

(** A server that no peer can hold open before its request is read, or idle, for ever. *)
Definition timed (s : Server) : Prop :=
  0 < sv_ReadHeaderTimeout s /\ 0 < sv_IdleTimeout s /\ 0 <= sv_ReadTimeout s /\ 0 <= sv_WriteTimeout s.

Lemma newHTTPServer_timed c addr h : valid_config c -> timed (newHTTPServer c addr h).
Proof.
  intros Hv. pose proof (vc_durations _ Hv) as Hd. unfold durations in Hd.
  rewrite !Forall_cons in Hd. unfold timed. cbn in *. tauto.
Qed.

Lemma alter_stopped f i j (l : list server_run) s :
  (forall r, stopped r = true -> stopped (f r) = true) -> alter f i l !! j = Some s ->
  exists s0, l !! j = Some s0 /\ (stopped s0 = true -> stopped s = true).
Proof.
  intros Hf. rewrite list_lookup_alter. case_decide as E; [subst j|by eauto].
  destruct (l !! i) as [s0|]; [|done]. intros [= <-]. exists s0. auto.
Qed.

(** The events from the signal on, none a failing listener's. *)
Lemma draining_run es p :
  ps_phase p = Draining -> forallb stopped (ps_servers p) = false ->
  (forall i, ListenReturns i ListenError ∉ es) ->
  let q := process_run es p in
  (ps_phase q = Exited 0 /\ forallb stopped (ps_servers q) = true) \/
  (ps_phase q = Draining /\ forallb stopped (ps_servers q) = false /\
   forall i failed s, ShutdownReturns i failed ∈ es -> ps_servers q !! i = Some s -> stopped s = true).
Proof.
  intros Hp Hn. induction es as [|e es IH] using rev_ind; intros Hes.
  { right. split_and!; [done..|]. intros i failed s Hin. by apply elem_of_nil in Hin. }
  cbv zeta. rewrite process_run_snoc.
  destruct IH as [[Hq Ha]|(Hq & Ha & Hall)]; [set_solver| |].
  { left. unfold process_step. by rewrite Hq. }
  set (q := process_run es p) in *. unfold process_step. rewrite Hq. destruct e as [|j r|j failed].
  - right. split_and!; [done..|]. intros i failed s Hin. apply (Hall i failed). set_solver.
  - assert (forall i failed, ShutdownReturns i failed ∈ es ++ [ListenReturns j r] ->
              ShutdownReturns i failed ∈ es) as Hback by set_solver.
    assert (r <> ListenError) as Hr by (intros ->; apply (Hes j); set_solver).
    right. destruct (ps_servers q !! j) as [t|] eqn:Ej; [|by eauto 6].
    destruct (rn_listener t), r; try done; try by eauto 6.
    all: cbn; split_and!; [done|by rewrite stopped_listener|].
    all: intros i failed s Hin (s0 & Hs & Hst)%alter_stopped; [apply Hst; eauto|done].
  - destruct (ps_servers q !! j) as [t|] eqn:Ej.
    2:{ right. split_and!; [done..|]. intros i failed' s [Hin|Hin%list_elem_of_singleton]%elem_of_app Hs;
          [by eapply Hall|]. injection Hin as -> ->. congruence. }
    assert (forall i b s, ShutdownReturns i b ∈ es ++ [ShutdownReturns j failed] -> i <> j ->
              ps_servers q !! i = Some s -> stopped s = true) as Hold.
    { intros i b s [Hin|[= -> _]%list_elem_of_singleton]%elem_of_app; [|done]. by intros _; eapply Hall. }
    destruct (stopped t) eqn:Et.
    { right. split_and!; [done..|]. intros i b s Hin Hs. destruct (decide (i = j)) as [->|]; [congruence|].
      by eapply Hold. }
    cbn. destruct (forallb stopped (alter _ j _)) eqn:Ea; [by left|right]. split_and!; [done..|].
    intros i b s Hin Hs. destruct (decide (i = j)) as [->|Hij].
    + rewrite list_lookup_alter_eq, Ej in Hs. injection Hs as <-. by destruct failed.
    + rewrite list_lookup_alter_ne in Hs by congruence. by eapply Hold.
Qed.

(** The two servers that a configuration stands for *)
Definition servers_of (c : Config) : list Server :=
  [NewServer c (Address (HTTP c)) (Some RegisterS3Routes); NewAdminServer c (AdminAddress (HTTP c))].

Lemma main_cases `{Files} lookup :
  (main lookup = mkProcess (Exited 1) [] /\
     ((Load lookup).2 <> None \/ ValidateTransportConfig (Load lookup).1 <> None)) \/
  exists c, Load lookup = (c, None) /\ ValidateTransportConfig c = None /\
    main lookup = mkProcess Serving (start <$> servers_of c).
Proof.
  unfold main. destruct (Load lookup) as [c [e|]]; [left; split; [done|by left]|].
  destruct (ValidateTransportConfig c) eqn:Et; [left; split; [done|right; cbn; congruence]|right; eauto].
Qed.

Lemma all_stopped l : forallb stopped l = true <-> Forall (fun r => stopped r = true) l.
Proof. by rewrite Forall_forall, forallb_forall; setoid_rewrite list_elem_of_In. Qed.

Lemma exited_run es p code : ps_phase p = Exited code -> process_run es p = p.
Proof.
  intros Hp. induction es as [|e es IH] using rev_ind; [done|].
  rewrite process_run_snoc, IH. unfold process_step. by rewrite Hp.
Qed.

(** A signal, and the shutdown of every server, end a process none of whose listeners
    fails. *)
Lemma process_stops es1 es2 p0 :
  phase_ok [] p0 -> (forall i, ListenReturns i ListenError ∉ es1 ++ Signal :: es2) ->
  (forall i, (i < length (ps_servers p0))%nat -> exists failed, ShutdownReturns i failed ∈ es2) ->
  ps_phase (process_run (es1 ++ Signal :: es2) p0) = Exited 0.
Proof.
  intros H0 Hes Hall. change (Signal :: es2) with ([Signal] ++ es2) in *.
  assert (forall es, length (ps_servers (process_run es p0)) = length (ps_servers p0)) as Hlen.
  { intros es. rewrite <-!(length_fmap rn_server). by rewrite process_run_servers. }
  pose proof (phase_ok_run es1 p0 H0) as H1. rewrite app_assoc, process_run_app, process_run_snoc.
  unfold phase_ok in H1. destruct (ps_phase (process_run es1 p0)) as [| |code] eqn:E1; cycle 2.
  { destruct H1 as [(-> & _)|(_ & i & Hi)]; [|exfalso; apply (Hes i); set_solver].
    unfold process_step. by rewrite E1, (exited_run _ _ 0). }
  all: set (q := process_step Signal (process_run es1 p0)).
  all: assert (ps_phase q = Draining /\ ps_servers q = ps_servers (process_run es1 p0)) as [Hq Hs]
    by (unfold q, process_step; by rewrite E1).
  all: destruct (draining_run es2 q Hq) as [[H _]|(_ & Hn & Hd)];
    [rewrite Hs; by apply H1|set_solver|done|].
  all: apply not_true_iff_false in Hn; destruct Hn; apply all_stopped, Forall_lookup; intros i s Hi.
  all: assert (i < length (ps_servers p0))%nat as Hb; [|destruct (Hall i Hb) as [b Hin]; by eapply Hd].
  all: rewrite <-(Hlen es1), <-Hs, <-(length_fmap rn_server), <-(process_run_servers es2), length_fmap;
    by eapply lookup_lt_Some.
Qed.

(** C26. The life of the process, whatever its environment, its files, its listeners and
    the signals do.  It has listeners only if its configuration loaded, is valid and has
    a usable transport: then exactly two, an S3 listener that routes every path to the S3
    handler and nothing else, and an admin listener with no S3 route, each on its valid
    address with bounded header and idle times; otherwise it exits with 1 and never
    listens.  It exits with 0 only after a signal and with every server shut down or
    closed; with 1, once listening, only if a listener failed.  And it does exit with 0:
    once a signal came, as soon as the shutdown of both servers has returned, in any
    order and with any outcome, unless a listener fails. *)
Theorem process_lifecycle `{Files} (lookup : string -> option string) (es : list process_event) :
  let p := process_run es (main lookup) in
  (p = mkProcess (Exited 1) [] /\
     ((Load lookup).2 <> None \/ ValidateTransportConfig (Load lookup).1 <> None)) \/
  (exists c s3 admin, Load lookup = (c, None) /\ valid_config c /\ ValidateTransportConfig c = None /\
     rn_server <$> ps_servers p = [s3; admin] /\
     sv_Addr s3 = Address (HTTP c) /\ sv_Addr admin = AdminAddress (HTTP c) /\ timed s3 /\ timed admin /\
     ro_routes (sv_Handler s3) = [mkRoute None "/*" S3Endpoint] /\
     Forall (fun route => rt_handler route <> S3Endpoint) (ro_routes (sv_Handler admin)) /\
     (forall code, ps_phase p = Exited code ->
        (code = 0 /\ Signal ∈ es /\ Forall (fun r => stopped r = true) (ps_servers p)) \/
        (code = 1 /\ exists i, ListenReturns i ListenError ∈ es)) /\
     (forall es1 es2, es = es1 ++ Signal :: es2 -> (forall i, ListenReturns i ListenError ∉ es) ->
        (forall i, (i < 2)%nat -> exists failed, ShutdownReturns i failed ∈ es2) ->
        ps_phase p = Exited 0)).
Proof.
  intros p. destruct (main_cases lookup) as [[Hm Hr]|(c & Hl & Ht & Hm)].
  { left. split; [|done]. subst p. rewrite Hm. induction es as [|e es IH] using rev_ind; [done|].
    by rewrite process_run_snoc, IH. }
  right. pose proof (Load_valid _ _ Hl) as Hv. unfold servers_of in Hm.
  assert (phase_ok es p) as Hp.
  { apply phase_ok_run. rewrite Hm. split; [apply not_elem_of_nil|done]. }
  exists c, (NewServer c (Address (HTTP c)) (Some RegisterS3Routes)),
    (NewAdminServer c (AdminAddress (HTTP c))).
  split_and!; [done..| | | |by apply newHTTPServer_timed|by apply newHTTPServer_timed| | | |].
  - subst p. by rewrite process_run_servers, Hm.
  - done.
  - done.
  - done.
  - by repeat constructor.
  - intros code E. unfold phase_ok in Hp. rewrite E in Hp.
    destruct Hp as [(? & ? & ?%all_stopped)|?]; auto.
  - intros es1 es2 -> Hes Hall. subst p. apply process_stops; [|done|].
    + rewrite Hm. split; [apply not_elem_of_nil|done].
    + by rewrite Hm.
Qed.

Module ProcessExample.
#[local] Instance files : Files := {|
  ReadFile := fun _ => None;
  AppendCertsFromPEM := fun _ => false;
  LoadX509KeyPair := fun certificate key => String.eqb certificate "/tls/crt" && String.eqb key "/tls/key"
|}.

Definition life : list process_event :=
  [Signal; ShutdownReturns 1 true; ListenReturns 0 ErrServerClosed; ShutdownReturns 0 false].

(** The admin server does not drain in time and is closed. *)
Lemma process_lifecycle_witness :
  ps_phase (process_run life (main ConfigExample.environment)) = Exited 0.
Proof.
  destruct (process_lifecycle ConfigExample.environment life)
    as [[_ [Hr|Hr]]|(c & s3 & admin & _ & _ & _ & _ & _ & _ & _ & _ & _ & _ & _ & Hstop)].
  - exfalso. apply Hr. vm_compute. reflexivity.
  - exfalso. apply Hr. vm_compute. reflexivity.
  - apply (Hstop [] (tail life)); [reflexivity| |].
    + intros i Hi. unfold life in Hi. repeat (apply elem_of_cons in Hi as [Hi|Hi]; [discriminate Hi|]).
      by apply elem_of_nil in Hi.
    + intros [|[|i]] Hi; [exists false|exists true|lia]; cbn;
        repeat first [apply list_elem_of_here | apply list_elem_of_further].
Defined.
End ProcessExample.
