(* ===== verification/Names.v ===== *)
(** * Names: the syntactic checks on names and credentials

    [isValidBucketName] of [http_server/s3_middleware.go], [accessKeyIDPattern] of
    [http_server/s3_auth.go], [backendRegionPattern], [printableASCII] and
    [noASCIIControls] of [http_server/vbucket.go].  The regular expressions are the
    boolean tests they denote: a class, repeated between two bounds. *)
From S2P Require Import Prelude GoStrings GoUrl.

Definition is_lower_alnum (c : ascii) : bool :=
  in_range 97 122 (byte_val c) || in_range 48 57 (byte_val c).

Definition last_byte (s : string) : option ascii :=
  match s with "" => None | _ => String.get (String.length s - 1) s end.

(** [^class{lo,hi}$] *)
Definition class_repeat (class : ascii -> bool) (lo hi : Z) (s : string) : bool :=
  in_range lo hi (str_len s) && str_forallb class s.

(** [^[a-z0-9][a-z0-9.-]{1,61}[a-z0-9]$] *)
Definition bucketNamePattern (s : string) : bool :=
  class_repeat (fun c => is_lower_alnum c || Ascii.eqb c "." || Ascii.eqb c "-") 3 63 s
  && match s with "" => false | String c _ => is_lower_alnum c end
  && match last_byte s with Some c => is_lower_alnum c | None => false end.

Definition isValidBucketName (bucket : string) : bool :=
  if negb (bucketNamePattern bucket) then false
  else if Contains bucket ".." || Contains bucket ".-" || Contains bucket "-." then false
  else true.

(** [^[A-Za-z0-9._-]{1,128}$] *)
Definition accessKeyIDPattern (s : string) : bool :=
  class_repeat (fun c => is_alnum c || existsb (Ascii.eqb c) ["."; "_"; "-"]%char) 1 128 s.

(** [^[A-Za-z0-9-]{1,64}$] *)
Definition backendRegionPattern (s : string) : bool :=
  class_repeat (fun c => is_alnum c || Ascii.eqb c "-") 1 64 s.

Definition printableASCII (value : string) : bool :=
  if String.eqb value "" then false
  else forallb (fun character => negb ((character <? 33) || (126 <? character)))
         (rune_values value).

Definition noASCIIControls (value : string) : bool :=
  if negb (ValidString value) then false
  else forallb (fun character => negb (IsControl character)) (rune_values value).

Example bucket_names :
  isValidBucketName "my-bucket.01" = true /\ isValidBucketName "ab" = false /\
  isValidBucketName "a..b" = false /\ isValidBucketName "-ab" = false /\
  isValidBucketName "Abc" = false /\ isValidBucketName "a.-b" = false.
Proof. vm_compute. auto 6. Qed.

(** ** What the checks give *)

Lemma isValidBucketName_bytes bucket :
  isValidBucketName bucket = true ->
  3 <= str_len bucket <= 63 /\
  str_forallb (fun c => is_lower_alnum c || Ascii.eqb c "." || Ascii.eqb c "-") bucket = true.
Proof.
  unfold isValidBucketName, bucketNamePattern, class_repeat.
  destruct (_ && _) eqn:E; [|done]. intros _. apply andb_true_iff in E as [[E _]%andb_true_iff _].
  apply andb_true_iff in E as [E ->]. apply andb_true_iff in E as [?%Z.leb_le ?%Z.leb_le]. done.
Qed.

(** The bytes of a bucket name are ASCII and none of [/], [*], [?]. *)
Definition bucket_byte (c : ascii) : bool :=
  is_ascii c && negb (existsb (Ascii.eqb c) ["/"; "*"; "?"]%char).

Lemma isValidBucketName_plain bucket :
  isValidBucketName bucket = true -> str_forallb bucket_byte bucket = true.
Proof.
  intros [_ Hb]%isValidBucketName_bytes. eapply str_forallb_impl; [|exact Hb].
  intros c. destruct c as [[] [] [] [] [] [] [] []]; vm_compute; congruence.
Qed.

Lemma bucket_bytes_runes s r :
  str_forallb bucket_byte s = true -> r ∈ rune_values s -> r <> 47 /\ r <> 42 /\ r <> 63.
Proof.
  induction s as [|c s IH]; [by intros _ ?%not_elem_of_nil|].
  cbn [str_forallb]. intros [Hc Hs]%andb_true_iff.
  assert (is_ascii c = true) as Ha by (by apply andb_true_iff in Hc as [? _]).
  rewrite rune_values_ascii by done. intros [->|Hr]%elem_of_cons; [|auto]. clear -Hc.
  destruct c as [[] [] [] [] [] [] [] []]; vm_compute in Hc |- *; split_and!; congruence.
Qed.

Lemma bucket_bytes_ascii s : str_forallb bucket_byte s = true -> str_forallb is_ascii s = true.
Proof. apply str_forallb_impl. by intros c [? _]%andb_true_iff. Qed.
