(* ===== verification/CopySource.v ===== *)
(** * CopySource: object keys and copy sources

    [validateVirtualObjectKey] of [http_server/s3_operation.go], the copy-source
    header of [http_server/s3_copy.go]. *)
From S2P Require Import Prelude GoStrings GoUrl Names.

(** ** Object keys *)

Definition key_error (msg : string) : result string unit := Err msg.

Definition validateVirtualObjectKey (objectKey : string) : result string unit :=
  if negb (ValidString objectKey) then key_error "object key must be valid UTF-8"
  else if Contains objectKey (chr 0) || Contains objectKey "\"
  then key_error "NUL and backslash are not supported"
  else if existsb IsControl (rune_values objectKey)
  then key_error "control characters are not supported"
  else if existsb (fun segment => String.eqb segment "." || String.eqb segment "..")
            (Split objectKey "/")
  then key_error "dot path segments are not supported"
  else Ok tt.

(** ** Copy sources *)

Record copySource := mkCopySource { cs_Bucket : string; cs_Key : string; cs_VersionID : string }.

Definition of_option {A} (o : option A) (msg : string) : result string A :=
  match o with Some a => Ok a | None => Err msg end.

(** The query part: absent, or exactly one non-empty [versionId]. *)
Definition parse_version (rawQuery : string) : result string string :=
  if String.eqb rawQuery "" then Ok ""
  else
    let (query, ok) := ParseQuery rawQuery in
    reject negb ok with "parse copy source query" ;;
    reject existsb (fun kv => negb (String.eqb kv.1 "versionId")) (map_to_list query)
      with "unsupported copy source query parameter" ;;
    match default [] (query !! "versionId") with
    | [versionID] =>
        reject String.eqb versionID "" with "copy source versionId must not be empty" ;;
        Ok versionID
    | _ => Err "copy source must include exactly one versionId"
    end.

Definition parseCopySource (raw expectedBucket : string) : result string copySource :=
  let raw := TrimSpace raw in
  reject String.eqb raw "" with "copy source is required" ;;
  let lower := ToLower raw in
  reject Contains lower "://" || HasPrefix lower "arn:"
    with "copy source must be a bucket/key path" ;;
  let raw := TrimPrefix raw "/" in
  let (pathPart, rawQuery) := match Cut raw "?" with Some pq => pq | None => (raw, "") end in
  reject String.eqb pathPart "" with "copy source path is required" ;;
  match Cut pathPart "/" with
  | None => Err "copy source must include bucket and key"
  | Some (bucketPart, keyPart) =>
      reject String.eqb keyPart "" with "copy source must include bucket and key" ;;
      reject Contains bucketPart ":" with "copy source bucket is invalid" ;;
      let? bucket := of_option (PathUnescape bucketPart) "decode copy source bucket" in
      let? key := of_option (PathUnescape keyPart) "decode copy source key" in
      let? _ := res_map_err (fun _ => "copy source key is unsafe") (validateVirtualObjectKey key) in
      reject negb (String.eqb bucket expectedBucket)
        with "copy source bucket does not match destination bucket" ;;
      let? versionID := parse_version rawQuery in
      Ok (mkCopySource bucket key versionID)
  end.

Definition buildCopySource (bucket key versionID : string) : string :=
  let escaped := TrimPrefix (EscapedPath ("/" +:+ bucket +:+ "/" +:+ key)) "/" in
  if String.eqb versionID "" then escaped
  else escaped +:+ "?" +:+ Encode (Values_Set ∅ "versionId" versionID).

(** [realBucket] is the mapping's [RealBucket].  Only a test calls it: the proxy itself
    opens the version's token in between, see [outbound_copy_source] of [Proxy]. *)
Definition rewriteCopySource (raw virtualBucket realBucket normalizedPrefix : string)
    : result string string :=
  let? source := parseCopySource raw virtualBucket in
  Ok (buildCopySource realBucket (normalizedPrefix +:+ cs_Key source) (cs_VersionID source)).

(** ** Valid keys *)

Lemma validateVirtualObjectKey_Ok key :
  validateVirtualObjectKey key = Ok tt <->
  ValidString key = true /\ Contains key (chr 0) = false /\ Contains key "\" = false /\
  (forall r, r ∈ rune_values key -> IsControl r = false) /\
  (forall s, s ∈ Split key "/" -> s <> "." /\ s <> "..").
Proof.
  unfold validateVirtualObjectKey, key_error.
  destruct (ValidString key); simpl; [|intuition congruence].
  destruct (Contains key (chr 0)), (Contains key "\"); simpl; try intuition congruence.
  destruct (existsb IsControl (rune_values key)) eqn:Ec.
  { split; [done|]. intros (_ & _ & _ & Hn & _). apply existsb_elem_of in Ec as (r & Hr & Hc).
    rewrite Hn in Hc; done. }
  apply not_true_iff_false in Ec. rewrite existsb_elem_of in Ec.
  destruct (existsb _ (Split key "/")) eqn:Es.
  { split; [done|]. intros (_ & _ & _ & _ & Hn). apply existsb_elem_of in Es as (s & Hs & Hd).
    destruct (Hn s Hs). apply orb_true_iff in Hd as [E|E]; apply String.eqb_eq in E; done. }
  apply not_true_iff_false in Es. rewrite existsb_elem_of in Es.
  split; [|done]. intros _. split_and!; try done.
  - intros r Hr. apply not_true_iff_false. intros Hc. apply Ec. eauto.
  - intros s Hs. split; intros ->; apply Es; eexists; (split; [exact Hs|done]).
Qed.

(** An object key the proxy accepts cannot climb out of its prefix: prefixed with
    any path, its segments are those of the prefix followed by its own, none of which
    is a dot segment, and the bytes are valid UTF-8 without control characters or
    backslashes. *)
Theorem prefixed_key_segments (prefix key : string)
    (Hk : validateVirtualObjectKey key = Ok tt) :
  Split (prefix +:+ "/" +:+ key) "/" = Split prefix "/" ++ Split key "/" /\
  (forall s, s ∈ Split key "/" -> s <> "." /\ s <> "..") /\
  ValidString key = true /\ Contains key "\" = false /\
  (forall r, r ∈ rune_values key -> IsControl r = false).
Proof.
  apply validateVirtualObjectKey_Ok in Hk as (? & _ & ? & ? & ?).
  split_and!; auto. apply (Split_app_byte prefix key "/").
Qed.

Lemma prefixed_key_segments_witness :
  Split ("tenant/a" +:+ "/" +:+ "x//y.txt") "/" = ["tenant"; "a"; "x"; ""; "y.txt"].
Proof.
  rewrite (proj1 (prefixed_key_segments "tenant/a" "x//y.txt" ltac:(vm_compute; reflexivity))).
  vm_compute. reflexivity.
Defined.

(** ** Building a copy source *)

Lemma escape_path_no_question s : Contains (escape_path s) "?" = false.
Proof.
  induction s as [|c s IH]; [done|]. cbn [escape_path]. rewrite Contains_app_byte, IH, orb_false_r.
  destruct (path_safe c) eqn:E.
  - cbn [Contains HasPrefix]. rewrite andb_true_r, orb_false_r. apply Ascii.eqb_neq.
    intros <-. by vm_compute in E.
  - apply (Contains_byte_forallb (fun a => negb (Ascii.eqb "?" a))); [|done].
    assert (Forall (fun z => negb (Ascii.eqb "?" (upperhex z)) = true) (seqZ 0 16)) as Hall
      by (apply (bool_decide_unpack _); vm_compute; exact I).
    rewrite Forall_forall in Hall. unfold pct. cbn [str_forallb]. pose proof (byte_val_range c).
    rewrite !Hall; [done|..]; apply elem_of_seqZ.
    + split; [apply Z.mod_pos_bound; lia|]. apply Z.mod_pos_bound. lia.
    + split; [apply Z.div_pos; lia|]. apply Z.div_lt_upper_bound; lia.
Qed.

(** What a copy-source value says, by the documented syntax of the header and not by the
    parser: [bucket/key], each part percent-encoded, perhaps after a slash, then perhaps
    one [versionId]. *)
Definition names_source (value bucket key version : string) : Prop :=
  exists path query b k,
    (value = path /\ query = "" \/ value = path +:+ "?" +:+ query) /\ Contains path "?" = false /\
    (path = b +:+ "/" +:+ k \/ path = "/" +:+ b +:+ "/" +:+ k) /\ Contains b "/" = false /\
    PathUnescape b = Some bucket /\ PathUnescape k = Some key /\
    (query = "" /\ version = "" \/
     version <> "" /\ ParseQuery query = ({["versionId" := [version]]}, true)).

Lemma parse_version_Ok query v :
  parse_version query = Ok v ->
  query = "" /\ v = "" \/ v <> "" /\ ParseQuery query = ({["versionId" := [v]]}, true).
Proof.
  unfold parse_version. destruct (String.eqb_spec query "") as [->|].
  { intros <-%Ok_inj. by left. }
  destruct (ParseQuery query) as [q []]; [|done]. cbn [negb].
  destruct (existsb _ (map_to_list q)) eqn:E; [done|].
  destruct (q !! "versionId") as [[|v' [|]]|] eqn:Hq; cbn [default id]; try done.
  destruct (String.eqb_spec v' ""); [done|]. intros <-%Ok_inj. right. split; [done|]. f_equal.
  apply map_eq. intros k. rewrite lookup_singleton. case_decide as Hk; [by subst k|].
  apply eq_None_not_Some. intros [vs Hvs]. apply not_true_iff_false in E. apply E, existsb_elem_of.
  exists (k, vs). rewrite elem_of_map_to_list. split; [done|]. apply negb_true_iff, String.eqb_neq.
  cbn. congruence.
Qed.

Lemma ParseQuery_version v :
  ParseQuery (Encode (Values_Set ∅ "versionId" v)) = ({["versionId" := [v]]}, true).
Proof.
  unfold Values_Set.
  change (<["versionId" := [v]]> ∅ : Values) with ({["versionId" := [v]]} : Values).
  assert (values_ok {["versionId" := [v]]}) as Hok.
  { split.
    - intros k vs. rewrite lookup_singleton. case_decide; [by intros [=<-]|done].
    - unfold sorted_values. rewrite map_to_list_singleton. unfold defaultMaxParams. cbn. lia. }
  by rewrite (ParseQuery_Encode _ Hok).
Qed.

Lemma escape_path_app s t : escape_path (s +:+ t) = escape_path s +:+ escape_path t.
Proof.
  induction s as [|c s IH]; [done|]. rewrite app_cons_str. cbn [escape_path].
  by rewrite IH, app_assoc_str.
Qed.

Definition bucket_char (c : ascii) : bool := is_lower_alnum c || Ascii.eqb c "." || Ascii.eqb c "-".

Lemma escape_path_bucket s : str_forallb bucket_char s = true -> escape_path s = s.
Proof.
  induction s as [|c s IH]; [done|]. cbn [str_forallb escape_path].
  intros [Hc Hs]%andb_true_iff. rewrite IH by done.
  assert (path_safe c = true) as ->; [|done].
  destruct c as [[] [] [] [] [] [] [] []]; vm_compute in Hc |- *; congruence.
Qed.

(** The header built for a bucket, a key and a version names them. *)
Lemma names_buildCopySource bucket key version :
  isValidBucketName bucket = true ->
  names_source (buildCopySource bucket key version) bucket key version.
Proof.
  intros [_ Hb]%isValidBucketName_bytes. unfold buildCopySource.
  assert (TrimPrefix (EscapedPath ("/" +:+ bucket +:+ "/" +:+ key)) "/" =
          bucket +:+ "/" +:+ escape_path key) as ->.
  { unfold EscapedPath. cbn. rewrite !escape_path_app, (escape_path_bucket bucket) by done.
    by rewrite <-(TrimPrefix_app "/" (bucket +:+ "/" +:+ escape_path key)). }
  assert (PathUnescape bucket = Some bucket) as Hu.
  { rewrite <-(escape_path_bucket bucket) at 1 by done. apply PathUnescape_escape_path. }
  assert (forall c : ascii, bucket_char c = false -> Contains bucket (String c "") = false) as Hc
    by (intros c; by apply Contains_byte_forallb).
  exists (bucket +:+ "/" +:+ escape_path key),
    (if String.eqb version "" then "" else Encode (Values_Set ∅ "versionId" version)),
    bucket, (escape_path key). split_and!; try done.
  - destruct (String.eqb_spec version ""); [by left|by right].
  - by rewrite !Contains_app_byte, escape_path_no_question, Hc.
  - by left.
  - by apply Hc.
  - apply PathUnescape_escape_path.
  - destruct (String.eqb_spec version ""); [by left|right]. split; [done|apply ParseQuery_version].
Qed.

(** ** Parsing *)

Lemma unescape_nonempty q s t : unescape q s = Some t -> s <> "" -> t <> "".
Proof.
  destruct s as [|c s]; [done|]. intros Hu _ ->.
  destruct c as [[] [] [] [] [] [] [] []]; cbn in Hu;
    repeat (match type of Hu with context [match ?x with _ => _ end] => destruct x end);
    discriminate.
Qed.

Lemma parseCopySource_Ok raw bucket src :
  parseCopySource raw bucket = Ok src ->
  cs_Bucket src = bucket /\ cs_Key src <> "" /\ validateVirtualObjectKey (cs_Key src) = Ok tt.
Proof.
  unfold parseCopySource. cbv zeta. destruct (String.eqb _ _); [done|].
  destruct (_ || _); [done|].
  destruct (match Cut _ "?" with Some pq => pq | None => _ end) as [pathPart rawQuery].
  destruct (String.eqb pathPart ""); [done|].
  destruct (Cut pathPart "/") as [[bucketPart keyPart]|]; [|done].
  destruct (String.eqb_spec keyPart "") as [|Hk]; [done|].
  destruct (Contains bucketPart ":"); [done|].
  destruct (PathUnescape bucketPart) as [b|]; [|done]. cbn [of_option].
  destruct (PathUnescape keyPart) as [k|] eqn:Ek; [|done]. cbn [of_option].
  destruct (validateVirtualObjectKey k) as [[]|] eqn:Ev; [|done]. cbn [res_map_err].
  destruct (String.eqb_spec b bucket) as [->|]; [|done]. cbn [negb].
  destruct (parse_version rawQuery) as [v|]; [|done]. intros [=<-]. cbn.
  split_and!; [done| |done]. by eapply unescape_nonempty.
Qed.

Lemma parseCopySource_names raw bucket src :
  parseCopySource raw bucket = Ok src ->
  names_source (TrimSpace raw) bucket (cs_Key src) (cs_VersionID src).
Proof.
  unfold parseCopySource. cbv zeta. generalize (TrimSpace raw). clear raw. intros raw.
  destruct (String.eqb raw ""); [done|]. destruct (_ || _); [done|].
  destruct (match Cut _ "?" with Some pq => pq | None => _ end) as [path query] eqn:Ec.
  assert ((TrimPrefix raw "/" = path /\ query = "" \/ TrimPrefix raw "/" = path +:+ "?" +:+ query) /\
          Contains path "?" = false) as [Hraw Hq].
  { destruct (Cut (TrimPrefix raw "/") "?") as [[a b]|] eqn:E; injection Ec as <- <-.
    - split; [right; by apply Cut_Some|by apply Cut_first in E].
    - split; [by left|by apply Cut_None]. }
  destruct (String.eqb path ""); [done|].
  destruct (Cut path "/") as [[b k]|] eqn:Ep; [|done].
  destruct (String.eqb k ""); [done|]. destruct (Contains b ":"); [done|].
  destruct (PathUnescape b) as [b'|] eqn:Eb; [|done]. cbn [of_option].
  destruct (PathUnescape k) as [k'|] eqn:Ek; [|done]. cbn [of_option].
  destruct (validateVirtualObjectKey k') as [[]|]; [|done]. cbn [res_map_err].
  destruct (String.eqb_spec b' bucket) as [->|]; [|done]. cbn [negb].
  destruct (parse_version query) as [v|] eqn:Ev; [|done]. intros <-%Ok_inj. cbn [cs_Key cs_VersionID].
  apply parse_version_Ok in Ev. pose proof (Cut_first path "/" b k ltac:(done) Ep) as Hb.
  apply Cut_Some in Ep. destruct (HasPrefix raw "/") eqn:Es.
  - exists ("/" +:+ path), query, b, k. apply TrimPrefix_restore in Es. split_and!; try done.
    + destruct Hraw as [[E ->]|E]; rewrite E in Es; [by left|right].
      by rewrite app_assoc_str.
    + right. by rewrite Ep.
  - exists path, query, b, k. unfold TrimPrefix in Hraw. rewrite Es in Hraw. split_and!; auto.
Qed.

Lemma rewriteCopySource_names raw virtualBucket realBucket prefix out :
  isValidBucketName realBucket = true ->
  rewriteCopySource raw virtualBucket realBucket prefix = Ok out ->
  exists key version, names_source (TrimSpace raw) virtualBucket key version /\
    names_source out realBucket (prefix +:+ key) version.
Proof.
  intros Hb. unfold rewriteCopySource. destruct (parseCopySource raw virtualBucket) as [src|] eqn:E; [|done].
  intros <-%Ok_inj. exists (cs_Key src), (cs_VersionID src).
  split; [by apply parseCopySource_names|by apply names_buildCopySource].
Qed.
