(* ===== verification/Operation.v ===== *)
(** * Operation: classifying a request as one S3 operation

    [http_server/s3_operation.go]: the headers, query and body a request may carry, the
    operation it denotes, and the IAM checks that operation needs. *)
From S2P Require Import Prelude GoStrings GoTime GoUrl GoHttp Iam CopySource.

(** ** Data *)

Inductive S3OperationKind :=
| operationListBuckets
| operationCreateBucket
| operationHeadBucket
| operationListObjects
| operationListObjectsV2
| operationListMultipartUploads
| operationGetObject
| operationHeadObject
| operationGetObjectVersion
| operationHeadObjectVersion
| operationPutObject
| operationPutObjectACL
| operationPutObjectTagging
| operationCopyObject
| operationDeleteObject
| operationDeleteObjectVersion
| operationCreateMultipartUpload
| operationUploadPart
| operationListParts
| operationCompleteMultipartUpload
| operationAbortMultipartUpload.

Inductive S3ResponseProfile :=
| responseListBuckets
| responseCreateBucket
| responseSafeHeaders
| responseStreamObject
| responseListObjects
| responseListMultipartUploads
| responseCreateMultipart
| responseListParts
| responseCompleteMultipart
| responseCopyObject.

Inductive s3BodyKind :=
| bodyEmpty
| bodyStreaming
| bodyCreateBucketConfiguration
| bodyCompleteMultipartXML.

#[export] Instance S3OperationKind_eq_dec : EqDecision S3OperationKind.
Proof. solve_decision. Defined.
#[export] Instance s3BodyKind_eq_dec : EqDecision s3BodyKind.
Proof. solve_decision. Defined.

Record S3OperationPlan := mkPlan {
  p_kind : S3OperationKind;
  p_bucket : string;
  p_objectKey : string;
  p_rawQuery : string;
  p_responseProfile : S3ResponseProfile;
  p_iamChecks : list Request;
  p_copySource : option copySource;
  p_isVHost : bool;
  p_locationConstraint : string;
  p_bodyKind : s3BodyKind;
  p_controlBody : string;
  p_method : string;
  p_contentLength : Z;
  p_forwardHeaders : Header;
  p_query : Values;
  p_secureTransport : bool;
  p_signedAt : string;
  p_iamContext : gmap string (list string);
  p_authorizationReady : bool
}.

(** Of a nil plan both are the empty string, which names none of the constants. *)
Definition Kind (p : option S3OperationPlan) : option S3OperationKind := p_kind <$> p.
Definition ResponseProfile (p : option S3OperationPlan) : option S3ResponseProfile :=
  p_responseProfile <$> p.

(** The two classes of rejection, with the fixed part of the reason. *)
Inductive plan_error :=
| ErrMalformedS3Request (msg : string)
| ErrUnsupportedS3Operation (msg : string).

(** ** Headers *)

Definition copySourceHeader : string := "x-amz-copy-source".

(** The values of every field whose name equals [name] up to case. *)
Definition allHeaderValues (headers : Header) (name : string) : list string :=
  mbind (fun kv => if EqualFold kv.1 name then kv.2 else []) (map_to_list headers).

Definition firstHeaderValue (headers : Header) (name : string) : string :=
  match allHeaderValues headers name with v :: _ => v | [] => "" end.

Definition hasHeader (r : HttpRequest) (key : string) : bool :=
  negb (bool_decide (allHeaderValues (r_Header r) key = [])).

Definition isCopyObjectRequest (r : HttpRequest) : bool := hasHeader r copySourceHeader.

Definition singleHeaderValue (r : HttpRequest) (name : string) : string :=
  match Header_Values (r_Header r) name with [v] => v | _ => "" end.

(** Fields whose names differ only in case are merged. *)
Definition canonicalHeaderClone (headers : Header) : Header :=
  foldl (fun clone kv => let canonical := CanonicalHeaderKey kv.1 in
           <[canonical := default [] (clone !! canonical) ++ kv.2]> clone)
    ∅ (map_to_list headers).

Definition checksumValueAlgorithms : list (string * string) :=
  [("x-amz-checksum-crc32", "CRC32"); ("x-amz-checksum-crc32c", "CRC32C");
   ("x-amz-checksum-crc64nvme", "CRC64NVME"); ("x-amz-checksum-sha1", "SHA1");
   ("x-amz-checksum-sha256", "SHA256")].

Definition one_of (name : string) (l : list string) : bool := existsb (String.eqb name) l.

Definition knownChecksumValueHeader (name : string) : bool :=
  one_of name checksumValueAlgorithms.*1.

Definition knownChecksumHeader (name : string) : bool :=
  knownChecksumValueHeader name || String.eqb name "x-amz-sdk-checksum-algorithm"
  || String.eqb name "x-amz-checksum-algorithm" || String.eqb name "x-amz-checksum-type".

Definition validChecksumAlgorithm (value : string) : bool :=
  one_of value checksumValueAlgorithms.*2.

Definition sse_customer_headers : list string :=
  ["x-amz-server-side-encryption-customer-algorithm";
   "x-amz-server-side-encryption-customer-key";
   "x-amz-server-side-encryption-customer-key-md5"].

Definition knownSSEHeader (name : string) : bool :=
  String.eqb name "x-amz-server-side-encryption" || one_of name sse_customer_headers.

Definition knownGrantHeader (name : string) : bool :=
  one_of name ["x-amz-grant-full-control"; "x-amz-grant-read"; "x-amz-grant-read-acp";
               "x-amz-grant-write"; "x-amz-grant-write-acp"].

Definition validCannedACL (value : string) : bool :=
  one_of value ["private"; "public-read"; "public-read-write"; "authenticated-read";
                "aws-exec-read"; "bucket-owner-read"; "bucket-owner-full-control";
                "log-delivery-write"].

Definition header_names (headers : Header) : list string := (map_to_list headers).*1.

Definition validateACLHeaderCombination (headers : Header) : result string unit :=
  if String.eqb (firstHeaderValue headers "x-amz-acl") "" then Ok tt
  else if existsb (fun name => HasPrefix (ToLower name) "x-amz-grant-") (header_names headers)
  then Err "x-amz-acl cannot be combined with x-amz-grant-* headers"
  else Ok tt.

Definition validateSSECustomerHeaders (headers : Header) : result string unit :=
  let present :=
    length (filter (fun name => firstHeaderValue headers name <> "") sse_customer_headers) in
  if (present =? 0)%nat then Ok tt
  else
    reject negb (present =? 3)%nat with "SSE-C requires algorithm, key, and key MD5 headers" ;;
    reject negb (String.eqb (firstHeaderValue headers
                               "x-amz-server-side-encryption-customer-algorithm") "AES256")
      with "SSE-C algorithm must be AES256" ;;
    reject negb (String.eqb (firstHeaderValue headers "x-amz-server-side-encryption") "")
      with "SSE-S3 and SSE-C headers cannot be combined" ;;
    Ok tt.

(** The declared algorithm: that of the two algorithm headers, which must agree. *)
Definition declared_algorithm (headers : Header) : result string string :=
  let check (algorithm name : string) : result string string :=
    let value := firstHeaderValue headers name in
    if String.eqb value "" then Ok algorithm
    else
      reject negb (validChecksumAlgorithm value) with "unsupported checksum algorithm" ;;
      reject negb (String.eqb algorithm "") && negb (String.eqb algorithm value)
        with "checksum algorithm headers conflict" ;;
      Ok value in
  let? algorithm := check "" "x-amz-sdk-checksum-algorithm" in
  check algorithm "x-amz-checksum-algorithm".

Definition validateChecksumHeaders (headers : Header) : result string unit :=
  let? algorithm := declared_algorithm headers in
  let given := filter (fun na => firstHeaderValue headers na.1 <> "") checksumValueAlgorithms in
  reject (2 <=? length given)%nat with "only one checksum value header is supported" ;;
  let valueAlgorithm := match given with na :: _ => na.2 | [] => "" end in
  reject negb (String.eqb algorithm "") && negb (String.eqb valueAlgorithm "")
         && negb (String.eqb algorithm valueAlgorithm)
    with "checksum algorithm does not match checksum value header" ;;
  let value := firstHeaderValue headers "x-amz-checksum-type" in
  reject negb (String.eqb value "") && negb (String.eqb value "COMPOSITE")
         && negb (String.eqb value "FULL_OBJECT")
    with "unsupported checksum type" ;;
  Ok tt.

Definition base_singletons : list string :=
  [copySourceHeader; "x-amz-acl"; "x-amz-tagging"; "x-amz-storage-class";
   "x-amz-server-side-encryption"; "x-amz-metadata-directive"; "x-amz-tagging-directive";
   "x-amz-sdk-checksum-algorithm"; "x-amz-checksum-algorithm"; "x-amz-checksum-type"]
  ++ sse_customer_headers.

Definition extra_singleton (lower : string) : bool :=
  knownGrantHeader lower || HasPrefix lower "x-amz-meta-" || knownChecksumValueHeader lower.

Definition unsupported_header (lower : string) : bool :=
  HasPrefix lower "x-amz-object-lock-"
  || HasPrefix lower "x-amz-server-side-encryption-aws-kms-"
  || String.eqb lower "x-amz-server-side-encryption-context"
  || String.eqb lower "x-amz-server-side-encryption-bucket-key-enabled".

Definition check_singleton (headers : Header) (header : string) : result string unit :=
  match allHeaderValues headers header with
  | [] => Ok tt
  | [v] => reject String.eqb (TrimSpace v) "" with "header must not be empty" ;; Ok tt
  | _ => Err "header must occur at most once"
  end.

Definition check_directive (headers : Header) (directive : string) : result string unit :=
  let value := firstHeaderValue headers directive in
  reject negb (String.eqb value "") && negb (String.eqb value "COPY")
         && negb (String.eqb value "REPLACE")
    with "header must be COPY or REPLACE" ;;
  Ok tt.

Definition validateOperationHeaders (r : HttpRequest) : result string unit :=
  let headers := r_Header r in
  let lowers := ToLower <$> header_names headers in
  let singletons := base_singletons ++ filter (fun l => extra_singleton l = true) lowers in
  reject existsb unsupported_header lowers with "header is not supported" ;;
  let? _ := res_iter (check_singleton headers) singletons in
  let sse := firstHeaderValue headers "x-amz-server-side-encryption" in
  reject negb (String.eqb sse "") && negb (String.eqb sse "AES256")
    with "server-side encryption mode is not supported" ;;
  let acl := firstHeaderValue headers "x-amz-acl" in
  reject negb (String.eqb acl "") && negb (validCannedACL acl) with "unsupported canned ACL" ;;
  let? _ := validateACLHeaderCombination headers in
  let? _ := validateSSECustomerHeaders headers in
  let? _ := validateChecksumHeaders headers in
  res_iter (check_directive headers) ["x-amz-metadata-directive"; "x-amz-tagging-directive"].

(** ** Headers of an operation *)

Definition objectReadHeaderAllowed (kind : S3OperationKind) (header : string) : bool :=
  match kind with
  | operationGetObject | operationGetObjectVersion | operationHeadObject
  | operationHeadObjectVersion =>
      one_of header ["Range"; "If-Match"; "If-Modified-Since"; "If-None-Match";
                     "If-Unmodified-Since"; "If-Range"]
  | _ => false
  end.

Definition objectBodyHeaderAllowed (kind : S3OperationKind) (header : string) : bool :=
  match kind with
  | operationCreateBucket | operationPutObject | operationPutObjectACL
  | operationPutObjectTagging | operationCopyObject | operationCreateMultipartUpload
  | operationUploadPart | operationCompleteMultipartUpload =>
      one_of header ["Cache-Control"; "Content-Disposition"; "Content-Encoding";
                     "Content-Language"; "Content-Md5"; "Content-Type"; "Expect"; "Expires"]
  | _ => false
  end.

(** [s3_proxy.go] and [s3_response.go] *)
Definition operationReadsObject (kind : S3OperationKind) : bool :=
  match kind with
  | operationGetObject | operationGetObjectVersion | operationHeadObject
  | operationHeadObjectVersion => true
  | _ => false
  end.

Definition safeOutboundRequestHeader (name : string) (kind : S3OperationKind) : bool :=
  if HasPrefix (ToLower name) "x-amz-" then true
  else if one_of name ["Accept"; "User-Agent"] then true
  else if String.eqb name "Accept-Encoding" then operationReadsObject kind
  else objectReadHeaderAllowed kind name || objectBodyHeaderAllowed kind name.

Definition allowPutHeaders (kind : S3OperationKind) : bool :=
  match kind with
  | operationPutObject | operationCopyObject | operationCreateMultipartUpload => true
  | _ => false
  end.

Definition checksumHeaderAllowed (kind : S3OperationKind) (name : string) : bool :=
  if String.eqb name "x-amz-sdk-checksum-algorithm" then
    bool_decide (kind ∈ [operationPutObject; operationUploadPart])
  else if String.eqb name "x-amz-checksum-algorithm" then
    bool_decide (kind = operationCreateMultipartUpload)
  else if String.eqb name "x-amz-checksum-type" then
    bool_decide (kind ∈ [operationCreateMultipartUpload; operationCompleteMultipartUpload])
  else if knownChecksumValueHeader name then
    bool_decide (kind ∈ [operationPutObject; operationUploadPart;
                         operationCompleteMultipartUpload])
  else false.

Definition validateChecksumHeadersForOperation (headers : Header) : result string unit :=
  if negb (String.eqb (firstHeaderValue headers "x-amz-sdk-checksum-algorithm") "") then
    let hasValue := existsb (fun name => negb (String.eqb (firstHeaderValue headers name) ""))
                      checksumValueAlgorithms.*1 in
    reject negb hasValue
      with "x-amz-sdk-checksum-algorithm requires a concrete checksum value header" ;;
    Ok tt
  else Ok tt.

(** Whether an [x-amz-] field, by its lower-case name, may accompany the operation. *)
Definition amz_header_allowed (kind : S3OperationKind) (lower : string) : bool :=
  let put := allowPutHeaders kind in
  let acl := put || bool_decide (kind = operationPutObjectACL) in
  String.eqb lower "x-amz-content-sha256" || String.eqb lower "x-amz-date"
  || (String.eqb lower copySourceHeader && bool_decide (kind = operationCopyObject))
  || ((String.eqb lower "x-amz-acl" || knownGrantHeader lower) && acl)
  || (String.eqb lower "x-amz-tagging" && put)
  || ((String.eqb lower "x-amz-tagging-directive" || String.eqb lower "x-amz-metadata-directive")
      && bool_decide (kind = operationCopyObject))
  || ((HasPrefix lower "x-amz-meta-" || String.eqb lower "x-amz-storage-class"
       || knownSSEHeader lower) && put)
  || (knownChecksumHeader lower && checksumHeaderAllowed kind lower).

Definition transport_headers : list string :=
  ["Authorization"; "Accept"; "Accept-Encoding"; "User-Agent"; "Content-Length";
   "Connection"; "Keep-Alive"; "Te"; "Trailer"; "Transfer-Encoding"; "Upgrade";
   "Amz-Sdk-Invocation-Id"; "Amz-Sdk-Request"; "Traceparent"; "Tracestate"].

Definition forbidden_headers : list string :=
  ["Cookie"; "Cookie2"; "Forwarded"; "Origin"; "Proxy-Authorization"; "Proxy-Connection";
   "X-Http-Method-Override"; "X-Method-Override"; "X-Original-Url"; "X-Rewrite-Url"].

Definition check_generic_header (kind : S3OperationKind) (name : string) : result string unit :=
  let canonical := CanonicalHeaderKey name in
  let lower := ToLower canonical in
  if HasPrefix lower "x-amz-" then Ok tt
  else if one_of canonical transport_headers then Ok tt
  else if one_of canonical forbidden_headers then Err "header is not supported"
  else if HasPrefix lower "x-forwarded-" then Err "header is not supported"
  else if objectReadHeaderAllowed kind canonical || objectBodyHeaderAllowed kind canonical
  then Ok tt
  else Err "header is not valid for the operation".

Definition validateGenericHeadersForOperation (headers : Header) (kind : S3OperationKind)
    : result string unit :=
  res_iter (check_generic_header kind) (header_names headers).

Definition check_connection_token (kind : S3OperationKind) (token : string) : result string unit :=
  let name := CanonicalHeaderKey (TrimSpace token) in
  reject safeOutboundRequestHeader name kind
         || one_of name ["Authorization"; "Host"; "Content-Length"]
    with "Connection must not nominate end-to-end header" ;;
  Ok tt.

Definition check_amz_header (kind : S3OperationKind) (name : string) : result string unit :=
  let lower := ToLower name in
  if negb (HasPrefix lower "x-amz-") then Ok tt
  else if amz_header_allowed kind lower then Ok tt
  else Err "header is not valid for the operation".

Definition validateHeadersForOperation (r : HttpRequest) (kind : S3OperationKind)
    : result string unit :=
  let headers := r_Header r in
  let? _ := res_iter (fun connection => res_iter (check_connection_token kind)
                                          (Split connection ","))
              (Header_Values headers "Connection") in
  let? _ := validateChecksumHeadersForOperation headers in
  let? _ := res_iter (check_amz_header kind) (header_names headers) in
  validateGenericHeadersForOperation headers kind.

(** ** Query *)

Inductive wanted := WantValue (v : string) | WantNonEmpty.

(** [required] pairs a parameter with the value it must have; any non-empty value is
    the source's NUL. *)
Definition queryMatchesWithValue (query : Values) (xID : string)
    (required : list (string * wanted)) (optional : list string) : bool :=
  forallb (fun kw =>
    match query !! kw.1 with
    | Some [v] => match kw.2 with
                  | WantNonEmpty => negb (String.eqb v "")
                  | WantValue want => String.eqb v want
                  end
    | _ => false
    end) required
  && forallb (fun kv =>
       (one_of kv.1 required.*1 || one_of kv.1 optional || String.eqb kv.1 "x-id")
       && match kv.2 with
          | [v] => negb (String.eqb kv.1 "x-id" && negb (String.eqb v xID))
          | _ => false
          end) (map_to_list query).

Definition queryMatches (query : Values) (xID : string) (requiredFlags optional : list string)
    : bool :=
  queryMatchesWithValue query xID ((fun k => (k, WantValue "")) <$> requiredFlags) optional.

Definition queryMatchesNonEmpty (query : Values) (xID : string) (required optional : list string)
    : bool :=
  queryMatchesWithValue query xID ((fun k => (k, WantNonEmpty)) <$> required) optional.

Definition validateOptionalInteger (query : Values) (name : string) (minValue maxValue : Z)
    : result string unit :=
  match query !! name with
  | None => Ok tt
  | Some [v] =>
      reject String.eqb v "" with "must have exactly one integer value" ;;
      match Atoi v with
      | Some value =>
          reject (value <? minValue) || (maxValue <? value) with "integer out of range" ;; Ok tt
      | None => Err "must be an integer"
      end
  | Some _ => Err "must have exactly one integer value"
  end.

(** [value[0]] of a present parameter; the planner has checked that it has one. *)
Definition query_value (query : Values) (name : string) : option string :=
  match query !! name with Some (v :: _) => Some v | _ => None end.

Definition check_query_key (query : Values) (name : string) : result string unit :=
  match query_value query name with
  | Some v => if String.eqb v "" then Ok tt
              else res_map_err (fun _ => "unsafe virtual key") (validateVirtualObjectKey v)
  | None => Ok tt
  end.

Definition validateQueryForOperation (query : Values) : result string unit :=
  reject bool_decide (is_Some (query !! "encoding-type"))
         && negb (String.eqb (Values_Get query "encoding-type") "url")
    with "encoding-type must be url" ;;
  reject match query_value query "fetch-owner" with
         | Some v => negb (String.eqb v "true") && negb (String.eqb v "false")
         | None => false
         end
    with "fetch-owner must be true or false" ;;
  let? _ := res_iter (check_query_key query) ["prefix"; "marker"; "start-after"; "key-marker"] in
  let? _ := validateOptionalInteger query "max-keys" 0 1000 in
  let? _ := validateOptionalInteger query "max-uploads" 1 1000 in
  let? _ := validateOptionalInteger query "max-parts" 0 1000 in
  let? _ := validateOptionalInteger query "part-number-marker" 0 10000 in
  validateOptionalInteger query "partNumber" 1 10000.

(** ** Body *)

Definition bodyKindForOperation (kind : S3OperationKind) : s3BodyKind :=
  match kind with
  | operationPutObject | operationPutObjectACL | operationPutObjectTagging
  | operationUploadPart => bodyStreaming
  | operationCreateBucket => bodyCreateBucketConfiguration
  | operationCompleteMultipartUpload => bodyCompleteMultipartXML
  | _ => bodyEmpty
  end.

Definition validateBodyForOperation (r : HttpRequest) (kind : s3BodyKind) : result string unit :=
  if negb (bool_decide (kind = bodyEmpty)) then Ok tt
  else if negb (r_ContentLength r =? 0) || negb (bool_decide (r_TransferEncoding r = []))
  then Err "requires an empty body"
  else Ok tt.

(** ** IAM checks ([http_server/iam.go]) *)

Definition newIAMRequest (action resource : string) : Request := mkRequest action resource ∅.

Definition s3BucketARN (bucket : string) : string := "arn:aws:s3:::" +:+ bucket.

Definition s3ObjectARN (bucket key : string) : string :=
  "arn:aws:s3:::" +:+ bucket +:+ "/" +:+ key.

Definition requestUsesACLHeaders (r : HttpRequest) : bool :=
  hasHeader r "x-amz-acl"
  || existsb (fun name => knownGrantHeader (ToLower name)) (header_names (r_Header r)).

Definition appendPutHeaderChecks (r : HttpRequest) (resource : string) : list Request :=
  (if requestUsesACLHeaders r then [newIAMRequest "s3:PutObjectAcl" resource] else [])
  ++ (if hasHeader r "x-amz-tagging" then [newIAMRequest "s3:PutObjectTagging" resource] else []).

Definition copySourceAction (source : copySource) : string :=
  if negb (String.eqb (cs_VersionID source) "") then "s3:GetObjectVersion" else "s3:GetObject".

Definition queryValuesOrDefault (query : Values) (key defaultValue : string) : list string :=
  match query !! key with Some values => values | None => [defaultValue] end.

Definition s3HeaderConditionKeys : list (string * string) :=
  [("x-amz-acl", "s3:x-amz-acl"); ("x-amz-copy-source", "s3:x-amz-copy-source");
   ("x-amz-grant-full-control", "s3:x-amz-grant-full-control");
   ("x-amz-grant-read", "s3:x-amz-grant-read");
   ("x-amz-grant-read-acp", "s3:x-amz-grant-read-acp");
   ("x-amz-grant-write", "s3:x-amz-grant-write");
   ("x-amz-grant-write-acp", "s3:x-amz-grant-write-acp");
   ("x-amz-metadata-directive", "s3:x-amz-metadata-directive");
   ("x-amz-server-side-encryption", "s3:x-amz-server-side-encryption");
   ("x-amz-storage-class", "s3:x-amz-storage-class"); ("x-amz-tagging", "s3:x-amz-tagging");
   ("x-amz-tagging-directive", "s3:x-amz-tagging-directive")].

Definition is_list_kind (kind : S3OperationKind) : bool :=
  match kind with
  | operationListObjects | operationListObjectsV2 | operationListMultipartUploads => true
  | _ => false
  end.

(** A value list under a condition key when the list is there. *)
Definition put_values (key : string) (values : option (list string))
    (ctx : gmap string (list string)) : gmap string (list string) :=
  match values with Some values => <[key := values]> ctx | None => ctx end.

Definition buildS3IAMWireContext (kind : S3OperationKind) (query : Values)
    (forwardHeaders : Header) (secureTransport : bool) : gmap string (list string) :=
  let ctx : gmap string (list string) :=
    {["s3:authtype" := ["REST-HEADER"]; "s3:signatureversion" := ["AWS4-HMAC-SHA256"];
      "aws:securetransport" := [FormatBool secureTransport]]} in
  let ctx :=
    if is_list_kind kind then
      let ctx := <["s3:prefix" := queryValuesOrDefault query "prefix" ""]> ctx in
      let ctx := put_values "s3:delimiter" (query !! "delimiter") ctx in
      put_values "s3:max-keys" (query !! "max-keys") ctx
    else ctx in
  foldl (fun ctx hk =>
           match allHeaderValues forwardHeaders hk.1 with
           | [] => ctx
           | values => <[hk.2 := values]> ctx
           end) ctx s3HeaderConditionKeys.

(** ** Planning *)

(** What the switch on method and query decides. *)
Record shape := mkShape {
  sh_kind : S3OperationKind;
  sh_profile : S3ResponseProfile;
  sh_checks : list Request;
  sh_copySource : option copySource
}.

Definition shape1 (kind : S3OperationKind) (profile : S3ResponseProfile) (action resource : string)
    : shape :=
  mkShape kind profile [newIAMRequest action resource] None.

Definition unsupported {A} (msg : string) : result plan_error A :=
  Err (ErrUnsupportedS3Operation msg).
Definition malformed {A} (msg : string) : result plan_error A := Err (ErrMalformedS3Request msg).

Definition plan_service (r : HttpRequest) (query : Values) : result plan_error shape :=
  if String.eqb (r_Method r) "GET" && queryMatches query "ListBuckets" [] []
  then Ok (shape1 operationListBuckets responseListBuckets "s3:ListAllMyBuckets" "*")
  else unsupported "".

Definition plan_bucket (r : HttpRequest) (query : Values) (bucket : string)
    : result plan_error shape :=
  let resource := s3BucketARN bucket in
  if String.eqb (r_Method r) "PUT" then
    if queryMatches query "CreateBucket" [] [] && negb (isCopyObjectRequest r)
    then Ok (shape1 operationCreateBucket responseCreateBucket "s3:CreateBucket" resource)
    else unsupported ""
  else if String.eqb (r_Method r) "HEAD" then
    if queryMatches query "HeadBucket" [] []
    then Ok (shape1 operationHeadBucket responseSafeHeaders "s3:ListBucket" resource)
    else unsupported ""
  else if String.eqb (r_Method r) "GET" then
    if queryMatches query "ListMultipartUploads" ["uploads"]
         ["delimiter"; "encoding-type"; "key-marker"; "max-uploads"; "prefix"; "upload-id-marker"]
    then Ok (shape1 operationListMultipartUploads responseListMultipartUploads
               "s3:ListBucketMultipartUploads" resource)
    else if queryMatchesWithValue query "ListObjectsV2" [("list-type", WantValue "2")]
              ["prefix"; "delimiter"; "continuation-token"; "fetch-owner"; "max-keys";
               "encoding-type"; "start-after"]
    then Ok (shape1 operationListObjectsV2 responseListObjects "s3:ListBucket" resource)
    else if queryMatches query "ListObjects" []
              ["prefix"; "delimiter"; "marker"; "max-keys"; "encoding-type"]
    then Ok (shape1 operationListObjects responseListObjects "s3:ListBucket" resource)
    else unsupported ""
  else unsupported "".

Definition plan_object_get (query : Values) (resource : string) : result plan_error shape :=
  let allowed := ["response-cache-control"; "response-content-disposition";
                  "response-content-encoding"; "response-content-language";
                  "response-content-type"; "response-expires"; "partNumber"] in
  if queryMatchesNonEmpty query "ListParts" ["uploadId"] ["max-parts"; "part-number-marker"]
  then Ok (shape1 operationListParts responseListParts "s3:ListMultipartUploadParts" resource)
  else if queryMatchesNonEmpty query "GetObject" ["versionId"] allowed
  then Ok (shape1 operationGetObjectVersion responseStreamObject "s3:GetObjectVersion" resource)
  else if queryMatches query "GetObject" [] allowed
  then Ok (shape1 operationGetObject responseStreamObject "s3:GetObject" resource)
  else unsupported "".

Definition plan_object_head (query : Values) (resource : string) : result plan_error shape :=
  if queryMatchesNonEmpty query "HeadObject" ["versionId"] ["partNumber"]
  then Ok (shape1 operationHeadObjectVersion responseSafeHeaders "s3:GetObjectVersion" resource)
  else if queryMatches query "HeadObject" [] ["partNumber"]
  then Ok (shape1 operationHeadObject responseSafeHeaders "s3:GetObject" resource)
  else unsupported "".

Definition plan_object_put (r : HttpRequest) (query : Values) (bucket resource : string)
    : result plan_error shape :=
  let copy := isCopyObjectRequest r in
  if copy && queryMatches query "CopyObject" [] [] then
    match parseCopySource (singleHeaderValue r copySourceHeader) bucket with
    | Err _ => unsupported "invalid copy source"
    | Ok source =>
        Ok (mkShape operationCopyObject responseCopyObject
              ([newIAMRequest "s3:PutObject" resource;
                newIAMRequest (copySourceAction source) (s3ObjectARN bucket (cs_Key source))]
               ++ appendPutHeaderChecks r resource) (Some source))
    end
  else if queryMatches query "PutObjectTagging" ["tagging"] [] && negb copy
  then Ok (shape1 operationPutObjectTagging responseSafeHeaders "s3:PutObjectTagging" resource)
  else if queryMatches query "PutObjectAcl" ["acl"] [] && negb copy
  then Ok (shape1 operationPutObjectACL responseSafeHeaders "s3:PutObjectAcl" resource)
  else if queryMatchesNonEmpty query "UploadPart" ["partNumber"; "uploadId"] [] && negb copy
  then Ok (shape1 operationUploadPart responseSafeHeaders "s3:PutObject" resource)
  else if queryMatches query "PutObject" [] [] && negb copy
  then Ok (mkShape operationPutObject responseSafeHeaders
             ([newIAMRequest "s3:PutObject" resource] ++ appendPutHeaderChecks r resource) None)
  else unsupported "".

Definition plan_object_delete (query : Values) (resource : string) : result plan_error shape :=
  if queryMatchesNonEmpty query "AbortMultipartUpload" ["uploadId"] []
  then Ok (shape1 operationAbortMultipartUpload responseSafeHeaders "s3:AbortMultipartUpload"
             resource)
  else if queryMatchesNonEmpty query "DeleteObject" ["versionId"] []
  then Ok (shape1 operationDeleteObjectVersion responseSafeHeaders "s3:DeleteObjectVersion"
             resource)
  else if queryMatches query "DeleteObject" [] []
  then Ok (shape1 operationDeleteObject responseSafeHeaders "s3:DeleteObject" resource)
  else unsupported "".

Definition plan_object_post (r : HttpRequest) (query : Values) (resource : string)
    : result plan_error shape :=
  if queryMatches query "CreateMultipartUpload" ["uploads"] []
  then Ok (mkShape operationCreateMultipartUpload responseCreateMultipart
             ([newIAMRequest "s3:PutObject" resource] ++ appendPutHeaderChecks r resource) None)
  else if queryMatchesNonEmpty query "CompleteMultipartUpload" ["uploadId"] []
  then Ok (shape1 operationCompleteMultipartUpload responseCompleteMultipart "s3:PutObject"
             resource)
  else unsupported "".

Definition plan_object (r : HttpRequest) (query : Values) (bucket objectKey : string)
    : result plan_error shape :=
  let resource := s3ObjectARN bucket objectKey in
  if String.eqb (r_Method r) "GET" then plan_object_get query resource
  else if String.eqb (r_Method r) "HEAD" then plan_object_head query resource
  else if String.eqb (r_Method r) "PUT" then plan_object_put r query bucket resource
  else if String.eqb (r_Method r) "DELETE" then plan_object_delete query resource
  else if String.eqb (r_Method r) "POST" then plan_object_post r query resource
  else unsupported "".

(** The switch on the level of the request. *)
Definition plan_shape (r : HttpRequest) (query : Values) (bucket objectKey : string)
    : result plan_error shape :=
  if String.eqb bucket "" && String.eqb objectKey "" then plan_service r query
  else if String.eqb objectKey "" then plan_bucket r query bucket
  else plan_object r query bucket objectKey.

(** The deferred part: header, query and body checks for the operation found, and the
    snapshot of the request. *)
Definition finish_plan (r : HttpRequest) (bucket objectKey : string) (query : Values) (sh : shape)
    : result plan_error S3OperationPlan :=
  let? _ := res_map_err ErrUnsupportedS3Operation (validateHeadersForOperation r (sh_kind sh)) in
  let? _ := res_map_err ErrUnsupportedS3Operation (validateQueryForOperation query) in
  let bodyKind := bodyKindForOperation (sh_kind sh) in
  let? _ := res_map_err ErrUnsupportedS3Operation (validateBodyForOperation r bodyKind) in
  let forwardHeaders := canonicalHeaderClone (r_Header r) in
  Ok (mkPlan (sh_kind sh) bucket objectKey (r_RawQuery r) (sh_profile sh) (sh_checks sh)
        (sh_copySource sh) false "" bodyKind "" (r_Method r) (r_ContentLength r) forwardHeaders
        query (r_TLS r) (firstHeaderValue forwardHeaders "x-amz-date")
        (buildS3IAMWireContext (sh_kind sh) query forwardHeaders (r_TLS r)) false).

Definition planS3Operation (r : HttpRequest) (bucket objectKey : string)
    : result plan_error S3OperationPlan :=
  let? _ :=
    if negb (String.eqb objectKey "") then
      res_map_err (fun _ => ErrMalformedS3Request "invalid object key")
        (validateVirtualObjectKey objectKey)
    else if negb (String.eqb bucket "") && HasSuffix (r_Path r) "/"
            && negb (String.eqb (r_Path r) "/")
    then malformed "trailing-slash empty object keys are not supported"
    else Ok tt in
  let (query, ok) := ParseQuery (r_RawQuery r) in
  reject negb ok with ErrMalformedS3Request "invalid query encoding" ;;
  reject existsb (fun kv => negb (length kv.2 =? 1)%nat) (map_to_list query)
    with ErrUnsupportedS3Operation "query parameter must occur exactly once" ;;
  let? _ := res_map_err ErrUnsupportedS3Operation (validateOperationHeaders r) in
  let? sh := plan_shape r query bucket objectKey in
  finish_plan r bucket objectKey query sh.
