(* ===== verification/S3Authz.v ===== *)
(** * S3Authz: from a plan to an authorization decision ([http_server/iam.go])

    The condition keys a policy may use, the context of a request, and the decision on
    a sealed plan.  Cloning a context or a plan copies its maps and slices; on values
    it is the identity ([Sharing] keeps the memory). *)
From S2P Require Import Prelude GoStrings GoTime GoUrl GoHttp Iam CopySource Operation.

Definition s3ConditionKeyTypes : gmap string ConditionValueType := list_to_map
  [("s3:prefix", ConditionValueString); ("s3:delimiter", ConditionValueString);
   ("s3:max-keys", ConditionValueNumeric); ("s3:locationconstraint", ConditionValueString);
   ("s3:authtype", ConditionValueString); ("s3:signatureversion", ConditionValueString);
   ("s3:signatureage", ConditionValueNumeric); ("s3:x-amz-acl", ConditionValueString);
   ("s3:x-amz-copy-source", ConditionValueString);
   ("s3:x-amz-grant-full-control", ConditionValueString);
   ("s3:x-amz-grant-read", ConditionValueString);
   ("s3:x-amz-grant-read-acp", ConditionValueString);
   ("s3:x-amz-grant-write", ConditionValueString);
   ("s3:x-amz-grant-write-acp", ConditionValueString);
   ("s3:x-amz-metadata-directive", ConditionValueString);
   ("s3:x-amz-server-side-encryption", ConditionValueString);
   ("s3:x-amz-storage-class", ConditionValueString); ("s3:x-amz-tagging", ConditionValueString);
   ("s3:x-amz-tagging-directive", ConditionValueString); ("aws:currenttime", ConditionValueDate);
   ("aws:epochtime", ConditionValueNumeric); ("aws:securetransport", ConditionValueBool)].

Definition s3AllowedConditionKeys : gmap string bool := list_to_map
  ((fun k => (k, true)) <$>
   ["s3:prefix"; "s3:delimiter"; "s3:max-keys"; "s3:locationconstraint"; "s3:authtype";
    "s3:signatureversion"; "s3:signatureage"; "s3:x-amz-acl"; "s3:x-amz-copy-source";
    "s3:x-amz-grant-full-control"; "s3:x-amz-grant-read"; "s3:x-amz-grant-read-acp";
    "s3:x-amz-grant-write"; "s3:x-amz-grant-write-acp"; "s3:x-amz-metadata-directive";
    "s3:x-amz-server-side-encryption"; "s3:x-amz-storage-class"; "s3:x-amz-tagging";
    "s3:x-amz-tagging-directive"; "aws:currenttime"; "aws:epochtime"; "aws:securetransport"]).

Definition ParseS3IAMPolicyJSON (policyJSON : string) : result iam_error Policy :=
  ParsePolicyJSON policyJSON (mkOptions s3AllowedConditionKeys s3ConditionKeyTypes).

(** [withRequestMetadata] *)
Definition withRequestMetadata (isVHost : bool) (locationConstraint : string)
    (p : S3OperationPlan) : S3OperationPlan :=
  mkPlan (p_kind p) (p_bucket p) (p_objectKey p) (p_rawQuery p) (p_responseProfile p)
    (p_iamChecks p) (p_copySource p) isVHost locationConstraint (p_bodyKind p)
    (p_controlBody p) (p_method p) (p_contentLength p) (p_forwardHeaders p) (p_query p)
    (p_secureTransport p) (p_signedAt p) (p_iamContext p) (p_authorizationReady p).

Definition age_values (signedAt : string) (now : Time) : option (list string) :=
  match ParseAmzDate signedAt with
  | None => None
  | Some t => Some [FormatInt (Milliseconds (Z.max 0 (Sub now t)))]
  end.

Definition authorization_context (locationConstraint signedAt : string) (now : Time)
    (ctx : gmap string (list string)) : gmap string (list string) :=
  let ctx := <["aws:currenttime" := [FormatRFC3339 now]]> ctx in
  let ctx := <["aws:epochtime" := [FormatInt (unix_of now)]]> ctx in
  let ctx := if negb (String.eqb locationConstraint "")
             then <["s3:locationconstraint" := [locationConstraint]]> ctx else ctx in
  put_values "s3:signatureage" (age_values signedAt now) ctx.

(** Seals the plan: every check gets the context. *)
Definition withAuthorizationContext (locationConstraint : string) (now : Time)
    (p : S3OperationPlan) : S3OperationPlan :=
  let ctx := authorization_context locationConstraint (p_signedAt p) now (p_iamContext p) in
  mkPlan (p_kind p) (p_bucket p) (p_objectKey p) (p_rawQuery p) (p_responseProfile p)
    ((fun check => mkRequest (rq_action check) (rq_resource check) ctx) <$> p_iamChecks p)
    (p_copySource p) (p_isVHost p) locationConstraint (p_bodyKind p) (p_controlBody p)
    (p_method p) (p_contentLength p) (p_forwardHeaders p) (p_query p) (p_secureTransport p)
    (p_signedAt p) ctx true.

Inductive authz_error := AuthzMalformed | AuthzDenied (e : iam_error).

(** A nil plan is [None], a nil policy too. *)
Definition AuthorizeS3Plan (policy : option Policy) (plan : option S3OperationPlan)
    : result authz_error unit :=
  match plan with
  | None => Err AuthzMalformed
  | Some plan =>
      reject negb (p_authorizationReady plan) with AuthzMalformed ;;
      res_iter (fun check => res_map_err AuthzDenied (Authorize policy check)) (p_iamChecks plan)
  end.

(** ** Decisions *)

Lemma Authorize_Ok policy req :
  Authorize policy req = Ok tt <->
  exists p, policy = Some p /\ matching p req effectAllow /\ ~ matching p req effectDeny.
Proof.
  destruct policy as [p|]; simpl.
  - rewrite authorize_loop_ok. unfold matching. split.
    + intros [Hd [?|Ha]]; [done|]. exists p. auto.
    + intros (p' & [=<-] & Ha & Hd). auto.
  - split; [done|]. by intros (? & ? & _).
Qed.

(** Sealing gives every check the same context. *)
Lemma AuthorizeS3Plan_sealed policy loc now p :
  AuthorizeS3Plan policy (Some (withAuthorizationContext loc now p)) = Ok tt <->
  forall check, check ∈ p_iamChecks p ->
    Authorize policy (mkRequest (rq_action check) (rq_resource check)
      (authorization_context loc (p_signedAt p) now (p_iamContext p))) = Ok tt.
Proof.
  unfold AuthorizeS3Plan, withAuthorizationContext.
  cbn [p_authorizationReady p_iamChecks negb].
  generalize (authorization_context loc (p_signedAt p) now (p_iamContext p)); intros ctx.
  rewrite res_iter_Ok, Forall_fmap, Forall_forall. unfold compose.
  split; intros H check Hin; specialize (H check Hin); by destruct (Authorize policy _) as [[]|].
Qed.

(** A plan is authorized exactly when it is sealed and, for every check of the
    operation, some statement of the policy allows it and none denies it. *)
Theorem AuthorizeS3Plan_spec (policy : option Policy) (plan : option S3OperationPlan) :
  AuthorizeS3Plan policy plan = Ok tt <->
  exists pl, plan = Some pl /\ p_authorizationReady pl = true /\
    forall check, check ∈ p_iamChecks pl ->
      exists p, policy = Some p /\ matching p check effectAllow /\ ~ matching p check effectDeny.
Proof.
  destruct plan as [pl|]; simpl; [|split; [done|by intros (? & ? & _)]].
  destruct (p_authorizationReady pl) eqn:Er; simpl.
  - rewrite res_iter_Ok, Forall_forall. split.
    + intros Hall. exists pl. split_and!; [done|done|]. intros check Hc. apply Authorize_Ok.
      specialize (Hall check Hc). by destruct (Authorize policy check) as [[]|].
    + intros (pl' & [=<-] & _ & Hall) check Hc.
      by rewrite (proj2 (Authorize_Ok policy check) (Hall check Hc)).
  - split; [done|]. intros (? & [=<-] & ? & _). congruence.
Qed.
