(* ===== verification/OperationSpec.v ===== *)
(** * OperationSpec: the planner against a table of operations

    One row per operation: its method, level, query parameters and IAM action.  The
    planner accepts a request exactly as the row it satisfies, the rows exclude each
    other, and what an accepted plan carries is what the checks of its row allow. *)
From S2P Require Import Prelude GoStrings GoTime GoUrl GoHttp Iam CopySource Operation S3Authz.

(** ** The table *)

Inductive level := LevelService | LevelBucket | LevelObject.

#[export] Instance level_eq_dec : EqDecision level.
Proof. solve_decision. Defined.

Record row := mkRow {
  row_level : level;
  row_method : string;
  row_xid : string;
  row_required : list (string * wanted);
  row_optional : list string;
  row_profile : S3ResponseProfile;
  row_action : string;
  row_copy : option bool
}.

Definition flag (k : string) : string * wanted := (k, WantValue "").
Definition nonempty (k : string) : string * wanted := (k, WantNonEmpty).

Definition response_overrides : list string :=
  ["response-cache-control"; "response-content-disposition"; "response-content-encoding";
   "response-content-language"; "response-content-type"; "response-expires"; "partNumber"].

Definition table (kind : S3OperationKind) : row :=
  match kind with
  | operationListBuckets =>
      mkRow LevelService "GET" "ListBuckets" [] [] responseListBuckets "s3:ListAllMyBuckets" None
  | operationCreateBucket =>
      mkRow LevelBucket "PUT" "CreateBucket" [] [] responseCreateBucket "s3:CreateBucket"
        (Some false)
  | operationHeadBucket =>
      mkRow LevelBucket "HEAD" "HeadBucket" [] [] responseSafeHeaders "s3:ListBucket" None
  | operationListMultipartUploads =>
      mkRow LevelBucket "GET" "ListMultipartUploads" [flag "uploads"]
        ["delimiter"; "encoding-type"; "key-marker"; "max-uploads"; "prefix"; "upload-id-marker"]
        responseListMultipartUploads "s3:ListBucketMultipartUploads" None
  | operationListObjectsV2 =>
      mkRow LevelBucket "GET" "ListObjectsV2" [("list-type", WantValue "2")]
        ["prefix"; "delimiter"; "continuation-token"; "fetch-owner"; "max-keys";
         "encoding-type"; "start-after"] responseListObjects "s3:ListBucket" None
  | operationListObjects =>
      mkRow LevelBucket "GET" "ListObjects" []
        ["prefix"; "delimiter"; "marker"; "max-keys"; "encoding-type"]
        responseListObjects "s3:ListBucket" None
  | operationListParts =>
      mkRow LevelObject "GET" "ListParts" [nonempty "uploadId"]
        ["max-parts"; "part-number-marker"] responseListParts "s3:ListMultipartUploadParts" None
  | operationGetObjectVersion =>
      mkRow LevelObject "GET" "GetObject" [nonempty "versionId"] response_overrides
        responseStreamObject "s3:GetObjectVersion" None
  | operationGetObject =>
      mkRow LevelObject "GET" "GetObject" [] response_overrides responseStreamObject
        "s3:GetObject" None
  | operationHeadObjectVersion =>
      mkRow LevelObject "HEAD" "HeadObject" [nonempty "versionId"] ["partNumber"]
        responseSafeHeaders "s3:GetObjectVersion" None
  | operationHeadObject =>
      mkRow LevelObject "HEAD" "HeadObject" [] ["partNumber"] responseSafeHeaders
        "s3:GetObject" None
  | operationCopyObject =>
      mkRow LevelObject "PUT" "CopyObject" [] [] responseCopyObject "s3:PutObject" (Some true)
  | operationPutObjectTagging =>
      mkRow LevelObject "PUT" "PutObjectTagging" [flag "tagging"] [] responseSafeHeaders
        "s3:PutObjectTagging" (Some false)
  | operationPutObjectACL =>
      mkRow LevelObject "PUT" "PutObjectAcl" [flag "acl"] [] responseSafeHeaders
        "s3:PutObjectAcl" (Some false)
  | operationUploadPart =>
      mkRow LevelObject "PUT" "UploadPart" [nonempty "partNumber"; nonempty "uploadId"] []
        responseSafeHeaders "s3:PutObject" (Some false)
  | operationPutObject =>
      mkRow LevelObject "PUT" "PutObject" [] [] responseSafeHeaders "s3:PutObject" (Some false)
  | operationAbortMultipartUpload =>
      mkRow LevelObject "DELETE" "AbortMultipartUpload" [nonempty "uploadId"] []
        responseSafeHeaders "s3:AbortMultipartUpload" None
  | operationDeleteObjectVersion =>
      mkRow LevelObject "DELETE" "DeleteObject" [nonempty "versionId"] [] responseSafeHeaders
        "s3:DeleteObjectVersion" None
  | operationDeleteObject =>
      mkRow LevelObject "DELETE" "DeleteObject" [] [] responseSafeHeaders "s3:DeleteObject" None
  | operationCreateMultipartUpload =>
      mkRow LevelObject "POST" "CreateMultipartUpload" [flag "uploads"] []
        responseCreateMultipart "s3:PutObject" None
  | operationCompleteMultipartUpload =>
      mkRow LevelObject "POST" "CompleteMultipartUpload" [nonempty "uploadId"] []
        responseCompleteMultipart "s3:PutObject" None
  end.

Definition level_of (bucket objectKey : string) : level :=
  if String.eqb bucket "" && String.eqb objectKey "" then LevelService
  else if String.eqb objectKey "" then LevelBucket else LevelObject.

Definition row_query (w : row) (query : Values) : bool :=
  queryMatchesWithValue query (row_xid w) (row_required w) (row_optional w).

(** The row describes the request. *)
Definition row_matches (w : row) (r : HttpRequest) (query : Values) (bucket objectKey : string)
    : Prop :=
  row_level w = level_of bucket objectKey /\ row_method w = r_Method r /\
  row_query w query = true /\
  match row_copy w with None => True | Some b => isCopyObjectRequest r = b end.

Definition row_resource (w : row) (bucket objectKey : string) : string :=
  match row_level w with
  | LevelService => "*"
  | LevelBucket => s3BucketARN bucket
  | LevelObject => s3ObjectARN bucket objectKey
  end.

(** The checks an operation needs: its own action, read access to a copy source, and
    the actions of the ACL and tagging headers where it may carry them. *)
Definition row_checks (kind : S3OperationKind) (r : HttpRequest) (bucket objectKey : string)
    (source : option copySource) : list Request :=
  let resource := row_resource (table kind) bucket objectKey in
  [newIAMRequest (row_action (table kind)) resource]
  ++ match source with
     | Some s => [newIAMRequest (copySourceAction s) (s3ObjectARN bucket (cs_Key s))]
     | None => []
     end
  ++ (if allowPutHeaders kind then appendPutHeaderChecks r resource else []).

(** The source a plan carries: that of the header, for a copy and only for a copy. *)
Definition source_ok (kind : S3OperationKind) (r : HttpRequest) (bucket : string)
    (source : option copySource) : Prop :=
  match source with
  | Some s => kind = operationCopyObject /\
              parseCopySource (singleHeaderValue r copySourceHeader) bucket = Ok s
  | None => kind <> operationCopyObject
  end.

(** A shape is the row of its kind. *)
Definition shape_ok (r : HttpRequest) (query : Values) (bucket objectKey : string) (sh : shape)
    : Prop :=
  row_matches (table (sh_kind sh)) r query bucket objectKey /\
  sh_profile sh = row_profile (table (sh_kind sh)) /\
  sh_checks sh = row_checks (sh_kind sh) r bucket objectKey (sh_copySource sh) /\
  source_ok (sh_kind sh) r bucket (sh_copySource sh).

(** Closes a branch of the planner: the branch's tests are the row. *)
Ltac row_done sh :=
  let H := fresh in intros H; injection H as H; subst sh; bool_to_prop;
  split; [split_and!|split_and!]; cbn;
  first [done | congruence | (rewrite ?app_nil_r; reflexivity) | idtac].

Lemma plan_shape_sound r query bucket objectKey sh :
  plan_shape r query bucket objectKey = Ok sh -> shape_ok r query bucket objectKey sh.
Proof.
  unfold plan_shape, shape_ok, row_matches, level_of.
  destruct (String.eqb bucket "" && String.eqb objectKey "") eqn:E1.
  - unfold plan_service.
    destruct (String.eqb (r_Method r) "GET" && _) eqn:E; [|done]. row_done sh.
  - destruct (String.eqb objectKey "") eqn:E2.
    + unfold plan_bucket. cbv zeta.
      destruct (String.eqb_spec (r_Method r) "PUT").
      { destruct (queryMatches query "CreateBucket" [] [] && _) eqn:E; [|done]. row_done sh. }
      destruct (String.eqb_spec (r_Method r) "HEAD").
      { destruct (queryMatches _ _ _ _) eqn:E; [|done]. row_done sh. }
      destruct (String.eqb_spec (r_Method r) "GET"); [|done].
      destruct (queryMatches _ "ListMultipartUploads" _ _) eqn:E3; [row_done sh|].
      destruct (queryMatchesWithValue _ _ _ _) eqn:E4; [row_done sh|].
      destruct (queryMatches _ "ListObjects" _ _) eqn:E5; [row_done sh|done].
    + unfold plan_object. cbv zeta.
      destruct (String.eqb_spec (r_Method r) "GET").
      { unfold plan_object_get. cbv zeta.
        destruct (queryMatchesNonEmpty _ "ListParts" _ _) eqn:E3; [row_done sh|].
        destruct (queryMatchesNonEmpty _ "GetObject" _ _) eqn:E4; [row_done sh|].
        destruct (queryMatches _ "GetObject" _ _) eqn:E5; [row_done sh|done]. }
      destruct (String.eqb_spec (r_Method r) "HEAD").
      { unfold plan_object_head.
        destruct (queryMatchesNonEmpty _ _ _ _) eqn:E3; [row_done sh|].
        destruct (queryMatches _ _ _ _) eqn:E4; [row_done sh|done]. }
      destruct (String.eqb_spec (r_Method r) "PUT").
      { unfold plan_object_put. cbv zeta.
        destruct (isCopyObjectRequest r && queryMatches query "CopyObject" [] []) eqn:E3.
        { destruct (parseCopySource _ _) as [s|] eqn:Es; [|done]. row_done sh. }
        destruct (queryMatches _ "PutObjectTagging" _ _ && _) eqn:E4; [row_done sh|].
        destruct (queryMatches _ "PutObjectAcl" _ _ && _) eqn:E5; [row_done sh|].
        destruct (queryMatchesNonEmpty _ "UploadPart" _ _ && _) eqn:E6; [row_done sh|].
        destruct (queryMatches _ "PutObject" _ _ && _) eqn:E7; [row_done sh|done]. }
      destruct (String.eqb_spec (r_Method r) "DELETE").
      { unfold plan_object_delete.
        destruct (queryMatchesNonEmpty _ "AbortMultipartUpload" _ _) eqn:E3; [row_done sh|].
        destruct (queryMatchesNonEmpty _ "DeleteObject" _ _) eqn:E4; [row_done sh|].
        destruct (queryMatches _ "DeleteObject" _ _) eqn:E5; [row_done sh|done]. }
      destruct (String.eqb_spec (r_Method r) "POST"); [|done].
      unfold plan_object_post.
      destruct (queryMatches _ "CreateMultipartUpload" _ _) eqn:E3; [row_done sh|].
      destruct (queryMatchesNonEmpty _ _ _ _) eqn:E4; [row_done sh|done].
Qed.

(** ** The rows exclude each other *)

(** A parameter one side requires and the other does not allow. *)
Definition clash (required1 required2 : list (string * wanted)) (optional2 : list string) : bool :=
  existsb (fun k => negb (one_of k required2.*1 || one_of k optional2 || String.eqb k "x-id"))
    required1.*1.

Lemma query_required query xid required optional k :
  queryMatchesWithValue query xid required optional = true -> k ∈ required.*1 ->
  exists v, query !! k = Some [v].
Proof.
  unfold queryMatchesWithValue. intros [Hr _]%andb_true_iff ([k' w] & -> & Hin)%list_elem_of_fmap.
  rewrite forallb_elem_of in Hr. specialize (Hr _ Hin). simpl in *.
  destruct (query !! k') as [[|v [|]]|]; try done. eauto.
Qed.

Lemma query_allowed query xid required optional k vs :
  queryMatchesWithValue query xid required optional = true -> query !! k = Some vs ->
  (one_of k required.*1 || one_of k optional || String.eqb k "x-id") = true /\
  exists v, vs = [v] /\ (k = "x-id" -> v = xid).
Proof.
  unfold queryMatchesWithValue. intros [_ Ha]%andb_true_iff Hk.
  rewrite forallb_elem_of in Ha. apply elem_of_map_to_list in Hk. specialize (Ha _ Hk).
  simpl in Ha. apply andb_true_iff in Ha as [Ha Hv]. split; [done|].
  destruct vs as [|v [|]]; try done. exists v. split; [done|]. intros ->.
  apply negb_true_iff in Hv. simpl in Hv. by destruct (String.eqb_spec v xid).
Qed.

Lemma query_clash query xid1 req1 opt1 xid2 req2 opt2 :
  queryMatchesWithValue query xid1 req1 opt1 = true ->
  queryMatchesWithValue query xid2 req2 opt2 = true ->
  clash req1 req2 opt2 || clash req2 req1 opt1 = true -> False.
Proof.
  assert (forall xid1 req1 opt1 xid2 req2 opt2,
    queryMatchesWithValue query xid1 req1 opt1 = true ->
    queryMatchesWithValue query xid2 req2 opt2 = true -> clash req1 req2 opt2 = true -> False) as Hd.
  { clear. intros xid1 req1 opt1 xid2 req2 opt2 H1 H2 Hc.
    apply existsb_elem_of in Hc as (k & Hk & Hn). apply negb_true_iff in Hn.
    destruct (query_required _ _ _ _ k H1 Hk) as [v Hv].
    destruct (query_allowed _ _ _ _ k [v] H2 Hv) as [Ha _]. congruence. }
  intros H1 H2 [Hc|Hc]%orb_true_iff; eauto.
Qed.

(** Rows of the same method and level that do not differ in the copy header clash. *)
Definition rows_exclude (k1 k2 : S3OperationKind) : bool :=
  let w1 := table k1 in let w2 := table k2 in
  bool_decide (k1 = k2)
  || negb (bool_decide (row_level w1 = row_level w2))
  || negb (String.eqb (row_method w1) (row_method w2))
  || match row_copy w1, row_copy w2 with Some a, Some b => negb (Bool.eqb a b) | _, _ => false end
  || clash (row_required w1) (row_required w2) (row_optional w2)
  || clash (row_required w2) (row_required w1) (row_optional w1).

Lemma rows_exclude_all k1 k2 : rows_exclude k1 k2 = true.
Proof. destruct k1, k2; vm_compute; reflexivity. Qed.

Lemma row_unique k1 k2 r query bucket objectKey :
  row_matches (table k1) r query bucket objectKey ->
  row_matches (table k2) r query bucket objectKey -> k1 = k2.
Proof.
  intros (L1 & M1 & Q1 & C1) (L2 & M2 & Q2 & C2). pose proof (rows_exclude_all k1 k2) as He.
  unfold rows_exclude in He. rewrite L1, L2, M1, M2 in He.
  rewrite (bool_decide_true (level_of bucket objectKey = level_of bucket objectKey)),
    String.eqb_refl in He by done. cbn [negb orb] in He. rewrite !orb_false_r in He.
  apply orb_true_iff in He as [He|Hc2]; [apply orb_true_iff in He as [He|Hc1]|].
  - apply orb_true_iff in He as [He%bool_decide_eq_true|He]; [done|].
    destruct (row_copy (table k1)), (row_copy (table k2)); try done. subst.
    by rewrite Bool.eqb_reflx in He.
  - exfalso. eapply query_clash; [exact Q1|exact Q2|]. by rewrite Hc1.
  - exfalso. eapply query_clash; [exact Q1|exact Q2|]. by rewrite Hc2, orb_true_r.
Qed.

(** ** Every row is accepted *)

Lemma level_of_object bucket objectKey :
  level_of bucket objectKey = LevelObject ->
  String.eqb bucket "" && String.eqb objectKey "" = false /\ String.eqb objectKey "" = false.
Proof. unfold level_of. by destruct (_ && _), (String.eqb objectKey ""). Qed.

Lemma level_of_bucket bucket objectKey :
  level_of bucket objectKey = LevelBucket ->
  String.eqb bucket "" && String.eqb objectKey "" = false /\ String.eqb objectKey "" = true.
Proof. unfold level_of. by destruct (_ && _), (String.eqb objectKey ""). Qed.

Lemma level_of_service bucket objectKey :
  level_of bucket objectKey = LevelService -> String.eqb bucket "" && String.eqb objectKey "" = true.
Proof. unfold level_of. by destruct (_ && _), (String.eqb objectKey ""). Qed.

(** One of the tests in a chain of branches that all succeed holds. *)
Ltac chain := repeat (case_match; [by eauto|]); congruence.

Lemma plan_shape_accepts kind r query bucket objectKey :
  row_matches (table kind) r query bucket objectKey ->
  (kind = operationCopyObject ->
   is_ok (parseCopySource (singleHeaderValue r copySourceHeader) bucket) = true) ->
  exists sh, plan_shape r query bucket objectKey = Ok sh.
Proof.
  intros (Hl & Hm & Hq & Hc) Hcopy. unfold plan_shape.
  destruct kind; cbn in Hl, Hm, Hc; symmetry in Hl;
    first [ apply level_of_object in Hl as [-> ->] | apply level_of_bucket in Hl as [-> ->]
          | rewrite (level_of_service _ _ Hl) ];
    unfold plan_service, plan_bucket, plan_object; rewrite <-Hm;
    cbn [String.eqb Ascii.eqb Bool.eqb andb];
    unfold plan_object_get, plan_object_head, plan_object_put, plan_object_delete,
      plan_object_post; cbv zeta; rewrite ?Hc; cbn [andb negb];
    unfold queryMatches, queryMatchesNonEmpty; cbn [fmap list_fmap];
    unfold row_query, table, flag, nonempty, response_overrides in Hq;
    cbn [row_xid row_required row_optional] in Hq; rewrite Hq; cbn [andb negb];
    try (repeat match goal with
         | |- context [if ?b then Ok _ else _] => destruct b; [by eauto|]
         end; by eauto).
  destruct (parseCopySource _ _) as [src|]; [by eauto|]. by specialize (Hcopy eq_refl).
Qed.

(** C35. The planner is the table: a request is planned as an operation exactly when the
    row of that operation describes it, at most one row does, and the plan carries the
    row's profile and IAM checks, with the copy source of the header for a copy only. *)
Theorem plan_shape_table (kind : S3OperationKind) (r : HttpRequest) (query : Values)
    (bucket objectKey : string) :
  (exists sh, plan_shape r query bucket objectKey = Ok sh /\ sh_kind sh = kind /\
     sh_profile sh = row_profile (table kind) /\
     sh_checks sh = row_checks kind r bucket objectKey (sh_copySource sh) /\
     source_ok kind r bucket (sh_copySource sh)) <->
  row_matches (table kind) r query bucket objectKey /\
  (kind = operationCopyObject ->
   is_ok (parseCopySource (singleHeaderValue r copySourceHeader) bucket) = true).
Proof.
  split.
  - intros (sh & Hsh & <- & _ & _ & Hs). split; [by apply plan_shape_sound|].
    intros Hk. rewrite Hk in Hs. destruct (sh_copySource sh); [|done].
    by destruct Hs as [_ ->].
  - intros [Hrow Hcopy]. destruct (plan_shape_accepts _ _ _ _ _ Hrow Hcopy) as [sh Hsh].
    destruct (plan_shape_sound _ _ _ _ _ Hsh) as (Hrow' & Hp & Hc & Hs).
    pose proof (row_unique _ _ _ _ _ _ Hrow Hrow') as ->. by exists sh.
Qed.
