(* ===== verification/PlanSpec.v ===== *)
(** * PlanSpec: what an accepted plan guarantees

    The whole of [planS3Operation]: the parameters, headers, body and key of a request
    that is planned, and what the authorization of its sealed plan means. *)
From S2P Require Import Prelude GoStrings GoTime GoUrl GoHttp Iam Names CopySource Operation.
From S2P Require Import S3Authz OperationSpec.

(** ** Inversion of the planner *)

Lemma res_map_err_Ok {E F A} (f : E -> F) (r : result E A) a :
  res_map_err f r = Ok a <-> r = Ok a.
Proof. destruct r; simpl; split; congruence. Qed.

(** The guard on the key and the path, before anything else is read. *)
Definition key_checked (r : HttpRequest) (bucket objectKey : string) : Prop :=
  (objectKey <> "" -> validateVirtualObjectKey objectKey = Ok tt) /\
  (objectKey = "" -> bucket <> "" -> HasSuffix (r_Path r) "/" = true -> r_Path r = "/").

(** The guards passed by a request that is planned. *)
Record accepted (r : HttpRequest) (bucket objectKey : string) (query : Values) (sh : shape)
    : Prop := {
  acc_key : key_checked r bucket objectKey;
  acc_query : ParseQuery (r_RawQuery r) = (query, true);
  acc_headers : validateOperationHeaders r = Ok tt;
  acc_shape : plan_shape r query bucket objectKey = Ok sh;
  acc_kind_headers : validateHeadersForOperation r (sh_kind sh) = Ok tt;
  acc_kind_query : validateQueryForOperation query = Ok tt;
  acc_body : validateBodyForOperation r (bodyKindForOperation (sh_kind sh)) = Ok tt
}.

Lemma finish_plan_Ok r bucket objectKey query sh p :
  finish_plan r bucket objectKey query sh = Ok p ->
  validateHeadersForOperation r (sh_kind sh) = Ok tt /\ validateQueryForOperation query = Ok tt /\
  validateBodyForOperation r (bodyKindForOperation (sh_kind sh)) = Ok tt /\
  p = mkPlan (sh_kind sh) bucket objectKey (r_RawQuery r) (sh_profile sh) (sh_checks sh)
        (sh_copySource sh) false "" (bodyKindForOperation (sh_kind sh)) "" (r_Method r)
        (r_ContentLength r) (canonicalHeaderClone (r_Header r)) query (r_TLS r)
        (firstHeaderValue (canonicalHeaderClone (r_Header r)) "x-amz-date")
        (buildS3IAMWireContext (sh_kind sh) query (canonicalHeaderClone (r_Header r)) (r_TLS r))
        false.
Proof.
  unfold finish_plan. cbv zeta.
  destruct (validateHeadersForOperation _ _) as [[]|]; [|done].
  destruct (validateQueryForOperation _) as [[]|]; [|done].
  destruct (validateBodyForOperation _ _) as [[]|]; [|done]. cbn [res_map_err].
  intros [=<-]. done.
Qed.

Lemma planS3Operation_Ok r bucket objectKey p :
  planS3Operation r bucket objectKey = Ok p ->
  exists query sh, accepted r bucket objectKey query sh /\
    finish_plan r bucket objectKey query sh = Ok p.
Proof.
  unfold planS3Operation. intros H.
  assert (key_checked r bucket objectKey) as Hk.
  { unfold key_checked. destruct (String.eqb_spec objectKey "") as [->|Hne]; cbn [negb] in H.
    - split; [done|]. intros _ Hb Hs. rewrite (proj2 (String.eqb_neq _ _) Hb), Hs in H.
      cbn [negb andb] in H. by destruct (String.eqb_spec (r_Path r) "/").
    - split; [|done]. intros _. by destruct (validateVirtualObjectKey objectKey) as [[]|]. }
  match type of H with (match ?c with Ok _ => _ | Err _ => _ end = _) => destruct c; [|done] end.
  destruct (ParseQuery (r_RawQuery r)) as [query []] eqn:Hq; [|done]. cbn [negb] in H.
  destruct (existsb _ (map_to_list query)); [done|].
  destruct (validateOperationHeaders r) as [[]|] eqn:Hh; [|done]. cbn [res_map_err] in H.
  destruct (plan_shape r query bucket objectKey) as [sh|] eqn:Hsh; [|done].
  exists query, sh. split; [|done].
  destruct (finish_plan_Ok _ _ _ _ _ _ H) as (? & ? & ? & _). by split.
Qed.

(** ** Parameters *)

Definition integer_parameters : list (string * (Z * Z)) :=
  [("max-keys", (0, 1000)); ("max-uploads", (1, 1000)); ("max-parts", (0, 1000));
   ("part-number-marker", (0, 10000)); ("partNumber", (1, 10000))].

Definition key_parameters : list string := ["prefix"; "marker"; "start-after"; "key-marker"].

(** What the value of a parameter of an operation may be. *)
Definition parameter_ok (w : row) (name value : string) : Prop :=
  (name = "x-id" -> value = row_xid w) /\
  (name = "encoding-type" -> value = "url") /\
  (name = "fetch-owner" -> value = "true" \/ value = "false") /\
  (name ∈ key_parameters -> value = "" \/ validateVirtualObjectKey value = Ok tt) /\
  (forall lo hi, (name, (lo, hi)) ∈ integer_parameters ->
     exists n, Atoi value = Some n /\ lo <= n <= hi).

Lemma validateOptionalInteger_Ok query name lo hi value :
  validateOptionalInteger query name lo hi = Ok tt -> query !! name = Some [value] ->
  exists n, Atoi value = Some n /\ lo <= n <= hi.
Proof.
  unfold validateOptionalInteger. intros H E. rewrite E in H.
  destruct (String.eqb value ""); [done|]. destruct (Atoi value) as [n|]; [|done].
  destruct ((n <? lo) || (hi <? n)) eqn:Er; [done|]. bool_to_prop. exists n. split; [done|lia].
Qed.

Lemma validateQuery_parameter query w name value :
  validateQueryForOperation query = Ok tt -> query !! name = Some [value] ->
  (name = "x-id" -> value = row_xid w) -> parameter_ok w name value.
Proof.
  unfold validateQueryForOperation. intros H E Hx.
  destruct (bool_decide (is_Some (query !! "encoding-type")) && _) eqn:E1; [done|].
  destruct (match query_value query "fetch-owner" with Some _ => _ | None => _ end) eqn:E2; [done|].
  destruct (res_iter _ _) as [[]|] eqn:E3; [|done].
  destruct (validateOptionalInteger query "max-keys" _ _) as [[]|] eqn:I1; [|done].
  destruct (validateOptionalInteger query "max-uploads" _ _) as [[]|] eqn:I2; [|done].
  destruct (validateOptionalInteger query "max-parts" _ _) as [[]|] eqn:I3; [|done].
  destruct (validateOptionalInteger query "part-number-marker" _ _) as [[]|] eqn:I4; [|done].
  split_and!; [done|intros ->..| |].
  - unfold Values_Get in E1. rewrite E in E1. rewrite bool_decide_true in E1 by done.
    cbn in E1. by bool_to_prop.
  - unfold query_value in E2. rewrite E in E2.
    destruct (String.eqb_spec value "true"); [by left|].
    destruct (String.eqb_spec value "false"); [by right|done].
  - intros Hin. apply res_iter_Ok in E3. rewrite Forall_forall in E3. specialize (E3 name Hin).
    unfold check_query_key, query_value in E3. rewrite E in E3.
    destruct (String.eqb_spec value ""); [by left|right]. by apply res_map_err_Ok in E3.
  - intros lo hi Hin. unfold integer_parameters in Hin.
    repeat (apply elem_of_cons in Hin as [[=-> -> ->]|Hin];
            [eapply validateOptionalInteger_Ok; [|exact E]; eassumption|]). by apply not_elem_of_nil in Hin.
Qed.

(** ** Accepted requests *)

(** C36. A planned request is well formed: it is the row of its operation, with the
    row's profile and checks, its key is empty or cannot leave a prefix, each parameter
    occurs once, is one the row names and has a value in its domain, and an operation
    without a body comes without one.  The plan is not yet authorized. *)
Theorem planned_request_wf (r : HttpRequest) (bucket objectKey : string) (p : S3OperationPlan)
    (Hp : planS3Operation r bucket objectKey = Ok p) :
  let w := table (p_kind p) in
  ParseQuery (r_RawQuery r) = (p_query p, true) /\
  row_matches w r (p_query p) bucket objectKey /\
  p_responseProfile p = row_profile w /\
  p_iamChecks p = row_checks (p_kind p) r bucket objectKey (p_copySource p) /\
  source_ok (p_kind p) r bucket (p_copySource p) /\
  (objectKey <> "" -> validateVirtualObjectKey objectKey = Ok tt) /\
  (forall name values, p_query p !! name = Some values ->
     exists value, values = [value] /\ parameter_ok w name value /\
       (name ∈ (row_required w).*1 \/ name ∈ row_optional w \/ name = "x-id")) /\
  (p_bodyKind p = bodyEmpty -> p_contentLength p = 0 /\ r_TransferEncoding r = []) /\
  p_authorizationReady p = false.
Proof.
  destruct (planS3Operation_Ok _ _ _ _ Hp) as (query & sh & Hacc & Hf).
  destruct (plan_shape_sound _ _ _ _ _ (acc_shape _ _ _ _ _ Hacc)) as (Hrow & Hprof & Hch & Hs).
  destruct (finish_plan_Ok _ _ _ _ _ _ Hf) as (_ & Hq & Hb & ->). cbn.
  split_and!; try done.
  - apply (acc_query _ _ _ _ _ Hacc).
  - apply (acc_key _ _ _ _ _ Hacc).
  - intros name values E. destruct Hrow as (_ & _ & Hrow & _).
    destruct (query_allowed _ _ _ _ _ _ Hrow E) as (Ha & v & -> & Hx). exists v.
    split_and!; [done|by apply (validateQuery_parameter query)|].
    apply orb_true_iff in Ha as [[Ha|Ha]%orb_true_iff|Ha%String.eqb_eq]; [left|right;left|auto];
      by apply existsb_elem_of in Ha as (x & ? & ->%String.eqb_eq).
  - intros Hbk. unfold validateBodyForOperation in Hb. rewrite Hbk in Hb.
    rewrite bool_decide_true in Hb by done. cbn [negb] in Hb.
    destruct (negb (r_ContentLength r =? 0) || _) eqn:E; [done|]. by bool_to_prop.
Qed.

(** ** Headers *)

(** A field an operation may come with: an [x-amz-] field of the operation, a field of
    the transport or the SDK, or a read or body field of the operation. *)
Definition permitted (kind : S3OperationKind) (name : string) : Prop :=
  if HasPrefix (ToLower name) "x-amz-" then
    amz_header_allowed kind (ToLower name) = true /\ unsupported_header (ToLower name) = false
  else
    CanonicalHeaderKey name ∈ transport_headers \/
    objectReadHeaderAllowed kind (CanonicalHeaderKey name) = true \/
    objectBodyHeaderAllowed kind (CanonicalHeaderKey name) = true.

Lemma validateHeadersForOperation_Ok r kind :
  validateHeadersForOperation r kind = Ok tt ->
  (forall connection token, connection ∈ Header_Values (r_Header r) "Connection" ->
     token ∈ Split connection "," -> check_connection_token kind token = Ok tt) /\
  (forall name, name ∈ header_names (r_Header r) ->
     check_amz_header kind name = Ok tt /\ check_generic_header kind name = Ok tt).
Proof.
  unfold validateHeadersForOperation. cbv zeta. intros H.
  destruct (res_iter _ (Header_Values _ _)) as [[]|] eqn:E1; [|done].
  destruct (validateChecksumHeadersForOperation _) as [[]|]; [|done].
  destruct (res_iter (check_amz_header kind) _) as [[]|] eqn:E2; [|done].
  apply res_iter_Ok in E1, E2, H. rewrite Forall_forall in E1, E2, H. split; [|auto].
  intros connection token Hc Ht. specialize (E1 _ Hc). apply res_iter_Ok in E1.
  rewrite Forall_forall in E1. auto.
Qed.

Lemma one_of_elem name l : one_of name l = true <-> name ∈ l.
Proof.
  unfold one_of. rewrite existsb_elem_of. split.
  - by intros (x & ? & ->%String.eqb_eq).
  - intros ?. exists name. by rewrite String.eqb_refl.
Qed.

Lemma validateOperationHeaders_supported r name :
  validateOperationHeaders r = Ok tt -> name ∈ header_names (r_Header r) ->
  unsupported_header (ToLower name) = false.
Proof.
  unfold validateOperationHeaders. cbv zeta. intros H Hin.
  destruct (existsb unsupported_header _) eqn:E; [done|].
  destruct (unsupported_header (ToLower name)) eqn:Hu; [|done].
  assert (existsb unsupported_header (ToLower <$> header_names (r_Header r)) = true); [|congruence].
  apply existsb_elem_of. eauto using list_elem_of_fmap_2.
Qed.

Lemma accepted_permitted r bucket objectKey query sh name :
  accepted r bucket objectKey query sh -> name ∈ header_names (r_Header r) ->
  permitted (sh_kind sh) name.
Proof.
  intros Hacc Hin.
  pose proof (validateOperationHeaders_supported _ _ (acc_headers _ _ _ _ _ Hacc) Hin) as Hu.
  destruct (validateHeadersForOperation_Ok _ _ (acc_kind_headers _ _ _ _ _ Hacc)) as [_ Hh].
  destruct (Hh name Hin) as [Ha Hg]. unfold permitted, check_amz_header in *.
  destruct (HasPrefix (ToLower name) "x-amz-") eqn:Ep; cbn [negb] in Ha.
  { by destruct (amz_header_allowed _ _). }
  unfold check_generic_header in Hg. cbv zeta in Hg. rewrite ToLower_CanonicalHeaderKey, Ep in Hg.
  destruct (one_of _ transport_headers) eqn:Et; [left; by apply one_of_elem|].
  destruct (one_of _ forbidden_headers); [done|].
  destruct (HasPrefix _ "x-forwarded-"); [done|].
  destruct (objectReadHeaderAllowed _ _) eqn:Er; [auto|].
  destruct (objectBodyHeaderAllowed _ _) eqn:Eb; [auto|done].
Qed.

(** Merging fields is the identity on canonical names. *)
Definition merge_field (h : Header) (kv : string * list string) : Header :=
  <[kv.1 := default [] (h !! kv.1) ++ kv.2]> h.

Lemma merge_fields_lookup (l : list (string * list string)) (h : Header) :
  NoDup l.*1 -> (forall k, k ∈ l.*1 -> h !! k = None) ->
  foldl merge_field h l = list_to_map l ∪ h.
Proof.
  revert h. induction l as [|[k vs] l IH]; intros h Hnd Hn; cbn [foldl list_to_map foldr].
  { by rewrite (left_id_L ∅ (∪)). }
  cbn in Hnd, Hn. apply NoDup_cons in Hnd as [Hk Hnd].
  assert (merge_field h (k, vs) = <[k := vs]> h) as ->.
  { unfold merge_field. cbn. by rewrite (Hn k) by set_solver. }
  rewrite IH; [|done|].
  - cbn. rewrite <-insert_union_r, insert_union_l; [done|].
    by apply not_elem_of_list_to_map_1.
  - intros k' Hk'. rewrite lookup_insert_ne by set_solver. apply Hn. set_solver.
Qed.

Lemma canonicalHeaderClone_canonical h : canonical_names h -> canonicalHeaderClone h = h.
Proof.
  intros Hc. unfold canonicalHeaderClone.
  transitivity (foldl merge_field ∅ (map_to_list h)).
  - assert (Forall (fun kv => CanonicalHeaderKey kv.1 = kv.1) (map_to_list h)) as Hall.
    { apply Forall_forall. intros [k vs] ?%elem_of_map_to_list. by eapply Hc. }
    generalize (∅ : Header). induction Hall as [|kv l Hkv _ IH]; intros m; [done|].
    cbn [foldl]. rewrite <-IH. unfold merge_field. by rewrite Hkv.
  - rewrite merge_fields_lookup, (right_id_L ∅ (∪)), list_to_map_to_list; [done| |done].
    apply NoDup_fst_map_to_list.
Qed.

(** ** The context of a request *)

Definition header_condition (headers : Header) (ctx : gmap string (list string))
    (hk : string * string) : gmap string (list string) :=
  match allHeaderValues headers hk.1 with [] => ctx | values => <[hk.2 := values]> ctx end.

Lemma header_conditions_other headers l ctx key :
  key ∉ l.*2 -> foldl (header_condition headers) ctx l !! key = ctx !! key.
Proof.
  revert ctx. induction l as [|[h ck] l IH]; intros ctx Hk; [done|]. cbn in Hk. cbn [foldl].
  rewrite IH by set_solver. unfold header_condition. cbn.
  destruct (allHeaderValues headers h); [done|]. rewrite lookup_insert_ne; set_solver.
Qed.

Lemma header_conditions_lookup headers l ctx h key :
  NoDup l.*2 -> (h, key) ∈ l -> ctx !! key = None ->
  foldl (header_condition headers) ctx l !! key =
  match allHeaderValues headers h with [] => None | values => Some values end.
Proof.
  revert ctx. induction l as [|[h' ck] l IH]; intros ctx Hnd Hin Hn; [by apply not_elem_of_nil in Hin|].
  cbn in Hnd. apply NoDup_cons in Hnd as [Hck Hnd]. cbn [foldl].
  apply elem_of_cons in Hin as [[=-> ->]|Hin].
  - rewrite header_conditions_other by done. unfold header_condition. cbn.
    destruct (allHeaderValues headers h'); [done|]. by rewrite lookup_insert_eq.
  - apply IH; [done|done|]. unfold header_condition. cbn.
    destruct (allHeaderValues headers h'); [done|]. rewrite lookup_insert_ne; [done|].
    intros ->. apply Hck. apply list_elem_of_fmap. by exists (h, key).
Qed.

Definition wire_base (kind : S3OperationKind) (query : Values) (tls : bool)
    : gmap string (list string) :=
  let ctx : gmap string (list string) :=
    {["s3:authtype" := ["REST-HEADER"]; "s3:signatureversion" := ["AWS4-HMAC-SHA256"];
      "aws:securetransport" := [FormatBool tls]]} in
  if is_list_kind kind then
    put_values "s3:max-keys" (query !! "max-keys")
      (put_values "s3:delimiter" (query !! "delimiter")
         (<["s3:prefix" := queryValuesOrDefault query "prefix" ""]> ctx))
  else ctx.

Lemma buildS3IAMWireContext_fold kind query headers tls :
  buildS3IAMWireContext kind query headers tls =
  foldl (header_condition headers) (wire_base kind query tls) s3HeaderConditionKeys.
Proof. reflexivity. Qed.

Lemma put_values_lookup key key' values ctx :
  put_values key values ctx !! key' =
  if decide (key' = key) then match values with Some v => Some v | None => ctx !! key' end
  else ctx !! key'.
Proof.
  unfold put_values. destruct values; [rewrite lookup_insert|by case_decide].
  repeat case_decide; congruence.
Qed.

(** Looks up literal keys through the layers of a context. *)
Ltac ctx_lookup :=
  rewrite ?put_values_lookup, ?lookup_insert;
  repeat (rewrite decide_False by discriminate || rewrite decide_True by done);
  rewrite ?lookup_insert;
  repeat (rewrite decide_False by discriminate || rewrite decide_True by done).

Definition base_keys : list string :=
  ["s3:authtype"; "s3:signatureversion"; "aws:securetransport"; "s3:prefix"; "s3:delimiter";
   "s3:max-keys"].

Definition time_keys : list string :=
  ["aws:currenttime"; "aws:epochtime"; "s3:locationconstraint"; "s3:signatureage"].

Lemma wire_base_keys kind query tls key vs :
  wire_base kind query tls !! key = Some vs -> key ∈ base_keys.
Proof.
  unfold wire_base, base_keys. intros H.
  destruct (is_list_kind kind);
    repeat (rewrite put_values_lookup in H; case_decide; [set_solver|]);
    repeat (rewrite lookup_insert in H; case_decide; [set_solver|]);
    rewrite lookup_singleton in H; case_decide; set_solver.
Qed.

Lemma authorization_context_other loc signedAt now ctx key :
  key ∉ time_keys -> authorization_context loc signedAt now ctx !! key = ctx !! key.
Proof.
  unfold authorization_context, time_keys. cbv zeta. intros Hk.
  rewrite put_values_lookup, decide_False by set_solver.
  destruct (negb _); rewrite !lookup_insert_ne by set_solver; done.
Qed.

Lemma authorization_context_keys loc signedAt now ctx key vs :
  authorization_context loc signedAt now ctx !! key = Some vs ->
  key ∈ time_keys \/ ctx !! key = Some vs.
Proof.
  destruct (decide (key ∈ time_keys)); [by left|]. rewrite authorization_context_other; auto.
Qed.

Lemma header_conditions_keys headers l ctx key vs :
  foldl (header_condition headers) ctx l !! key = Some vs -> key ∈ l.*2 \/ ctx !! key = Some vs.
Proof.
  destruct (decide (key ∈ l.*2)); [by left|]. rewrite header_conditions_other; auto.
Qed.

Lemma context_key_lists :
  Forall (fun key => s3AllowedConditionKeys !! key = Some true /\ is_Some (s3ConditionKeyTypes !! key))
    (time_keys ++ s3HeaderConditionKeys.*2 ++ base_keys) /\
  NoDup (s3HeaderConditionKeys.*2) /\
  Forall (fun key => (key ∉ base_keys) /\ (key ∉ time_keys)) (s3HeaderConditionKeys.*2) /\
  Forall (fun key => (key ∉ s3HeaderConditionKeys.*2) /\ (key ∉ time_keys)) base_keys.
Proof. apply (bool_decide_unpack _). vm_compute. exact I. Qed.

Ltac in_list := apply (bool_decide_unpack _); vm_compute; exact I.

Lemma wire_base_lookups kind query tls :
  let listed {A} (v : option A) := if is_list_kind kind then v else None in
  wire_base kind query tls !! "s3:prefix" = listed (Some (default [""] (query !! "prefix"))) /\
  wire_base kind query tls !! "s3:delimiter" = listed (query !! "delimiter") /\
  wire_base kind query tls !! "s3:max-keys" = listed (query !! "max-keys") /\
  wire_base kind query tls !! "aws:securetransport" = Some [if tls then "true" else "false"].
Proof.
  unfold wire_base, queryValuesOrDefault.
  destruct (is_list_kind kind), (query !! "prefix"), (query !! "delimiter"), (query !! "max-keys");
    repeat split; vm_compute; reflexivity.
Qed.

Lemma context_base loc signedAt now kind query headers tls key :
  key ∈ base_keys ->
  authorization_context loc signedAt now (buildS3IAMWireContext kind query headers tls) !! key =
  wire_base kind query tls !! key.
Proof.
  intros Hk. destruct context_key_lists as (_ & _ & _ & Hbk). rewrite Forall_forall in Hbk.
  destruct (Hbk key Hk).
  by rewrite authorization_context_other, buildS3IAMWireContext_fold, header_conditions_other.
Qed.

Lemma wire_context_time kind query headers tls key :
  key ∈ time_keys -> buildS3IAMWireContext kind query headers tls !! key = None.
Proof.
  intros Hk. destruct context_key_lists as (_ & _ & Hhk & Hbk). rewrite Forall_forall in Hhk, Hbk.
  rewrite buildS3IAMWireContext_fold. destruct (_ !! key) as [vs|] eqn:E; [|done]. exfalso.
  apply header_conditions_keys in E as [E|E]; [by destruct (Hhk key E)|].
  apply wire_base_keys in E. by destruct (Hbk key E).
Qed.

Lemma context_header loc signedAt now kind query headers tls header key :
  (header, key) ∈ s3HeaderConditionKeys ->
  authorization_context loc signedAt now (buildS3IAMWireContext kind query headers tls) !! key =
  match allHeaderValues headers header with [] => None | vs => Some vs end.
Proof.
  intros Hin. destruct context_key_lists as (_ & Hnd & Hhk & _). rewrite Forall_forall in Hhk.
  assert (key ∈ s3HeaderConditionKeys.*2) as Hk
    by (apply list_elem_of_fmap; by exists (header, key)).
  destruct (Hhk key Hk). rewrite authorization_context_other, buildS3IAMWireContext_fold by done.
  apply header_conditions_lookup; [done|done|].
  destruct (wire_base _ _ _ !! key) eqn:E; [|done]. by apply wire_base_keys in E.
Qed.

Lemma context_keys loc signedAt now kind query headers tls key vs :
  authorization_context loc signedAt now (buildS3IAMWireContext kind query headers tls) !! key =
  Some vs -> s3AllowedConditionKeys !! key = Some true /\ is_Some (s3ConditionKeyTypes !! key).
Proof.
  intros Hk. destruct context_key_lists as (Hall & _). rewrite Forall_forall in Hall.
  apply Hall, elem_of_app. apply authorization_context_keys in Hk as [Hk|Hk]; [auto|].
  right. apply elem_of_app. rewrite buildS3IAMWireContext_fold in Hk.
  apply header_conditions_keys in Hk as [Hk|Hk]; [auto|]. right. by eapply wire_base_keys.
Qed.

Lemma context_times loc signedAt now ctx :
  (forall key, key ∈ time_keys -> ctx !! key = None) ->
  let ctx' := authorization_context loc signedAt now ctx in
  ctx' !! "aws:currenttime" = Some [FormatRFC3339 now] /\
  ctx' !! "aws:epochtime" = Some [FormatInt (unix_of now)] /\
  ctx' !! "s3:locationconstraint" = (if String.eqb loc "" then None else Some [loc]) /\
  ctx' !! "s3:signatureage" = age_values signedAt now.
Proof.
  intros Hn. unfold authorization_context. cbv zeta.
  destruct (String.eqb loc ""); cbn [negb]; (split_and!; ctx_lookup; [done|done| |]);
    try done; try (apply Hn; in_list); destruct (age_values signedAt now); [done| |done|];
    apply Hn; in_list.
Qed.

(** The context a policy is evaluated in: its keys are ones a policy may name, with
    their types; the list parameters are there for list operations only, a missing
    prefix counting as the empty one; each conditional header is there with the values
    of the request exactly when the request has it; the clock, the location and the age
    of the signature are those of the moment of sealing. *)
Theorem request_context (kind : S3OperationKind) (query : Values) (headers : Header) (tls : bool)
    (loc signedAt : string) (now : Time) :
  let ctx := authorization_context loc signedAt now
               (buildS3IAMWireContext kind query headers tls) in
  let listed {A} (v : option A) := if is_list_kind kind then v else None in
  (forall key vs, ctx !! key = Some vs ->
     s3AllowedConditionKeys !! key = Some true /\ is_Some (s3ConditionKeyTypes !! key)) /\
  ctx !! "s3:prefix" = listed (Some (default [""] (query !! "prefix"))) /\
  ctx !! "s3:delimiter" = listed (query !! "delimiter") /\
  ctx !! "s3:max-keys" = listed (query !! "max-keys") /\
  ctx !! "aws:securetransport" = Some [if tls then "true" else "false"] /\
  (forall header key, (header, key) ∈ s3HeaderConditionKeys ->
     ctx !! key = match allHeaderValues headers header with [] => None | vs => Some vs end) /\
  ctx !! "aws:currenttime" = Some [FormatRFC3339 now] /\
  ctx !! "aws:epochtime" = Some [FormatInt (unix_of now)] /\
  ctx !! "s3:locationconstraint" = (if String.eqb loc "" then None else Some [loc]) /\
  ctx !! "s3:signatureage" =
    match ParseAmzDate signedAt with
    | Some t => Some [FormatInt (Milliseconds (Z.max 0 (Sub now t)))]
    | None => None
    end.
Proof.
  cbv zeta. destruct (wire_base_lookups kind query tls) as (Hp & Hd & Hm & Ht).
  pose proof (context_times loc signedAt now _ (wire_context_time kind query headers tls))
    as (Hc & He & Hl & Hs).
  split_and!; [apply context_keys| | | | |apply context_header|exact Hc|exact He|exact Hl|].
  - rewrite context_base by in_list. exact Hp.
  - rewrite context_base by in_list. exact Hd.
  - rewrite context_base by in_list. exact Hm.
  - rewrite context_base by in_list. exact Ht.
  - exact Hs.
Qed.

(** ** Authorized requests *)

Lemma row_checks_head kind r bucket objectKey source :
  newIAMRequest (row_action (table kind)) (row_resource (table kind) bucket objectKey)
    ∈ row_checks kind r bucket objectKey source.
Proof. unfold row_checks. apply list_elem_of_here. Qed.

(** C9. What authorization of a planned request means: there is a policy, and for the
    operation's own action on its resource, for reading a copy source and for each ACL
    or tagging header, some statement allows it and none denies it, in the context of
    this very request. *)
Theorem authorized_request (r : HttpRequest) (bucket objectKey : string) (p : S3OperationPlan)
    (isVHost : bool) (loc : string) (now : Time) (policy : option Policy)
    (Hp : planS3Operation r bucket objectKey = Ok p)
    (Ha : AuthorizeS3Plan policy
            (Some (withAuthorizationContext loc now (withRequestMetadata isVHost loc p))) = Ok tt) :
  exists pol, policy = Some pol /\
    forall check, check ∈ row_checks (p_kind p) r bucket objectKey (p_copySource p) ->
      let req := mkRequest (rq_action check) (rq_resource check)
                   (authorization_context loc (p_signedAt p) now
                      (buildS3IAMWireContext (p_kind p) (p_query p) (p_forwardHeaders p) (r_TLS r))) in
      matching pol req effectAllow /\ ~ matching pol req effectDeny.
Proof.
  destruct (planS3Operation_Ok _ _ _ _ Hp) as (query & sh & Hacc & Hf).
  destruct (plan_shape_sound _ _ _ _ _ (acc_shape _ _ _ _ _ Hacc)) as (_ & _ & Hch & _).
  destruct (finish_plan_Ok _ _ _ _ _ _ Hf) as (_ & _ & _ & ->).
  rewrite AuthorizeS3Plan_sealed in Ha. unfold withRequestMetadata in Ha.
  cbn [p_iamChecks p_signedAt p_iamContext p_kind p_copySource p_query p_forwardHeaders] in *.
  rewrite Hch in Ha. cbv zeta. setoid_rewrite Authorize_Ok in Ha.
  destruct policy as [pol|]; [|by destruct (Ha _ (row_checks_head _ _ _ _ _)) as (? & ? & _)].
  exists pol. split; [done|]. intros check Hin. destruct (Ha check Hin) as (? & [=<-] & H). exact H.
Qed.

(** ** Resources *)

Lemma split_at_first {A} `{EqDecision A} (x : A) l1 l2 r1 r2 :
  x ∉ l1 -> x ∉ l2 -> l1 ++ x :: r1 = l2 ++ x :: r2 -> l1 = l2 /\ r1 = r2.
Proof.
  revert l2. induction l1 as [|a l1 IH]; intros [|b l2] H1 H2 E; cbn in *; simplify_eq; try set_solver.
  destruct (IH l2) as [-> ->]; set_solver.
Qed.

Lemma lits_of_plain s :
  str_forallb bucket_byte s = true -> wildcardToRegex s = ReLit <$> rune_values s.
Proof.
  intros Hs. unfold wildcardToRegex. apply list_fmap_ext. intros i r Hr.
  apply list_elem_of_lookup_2, bucket_bytes_runes in Hr as (_ & ? & ?); [|done].
  by rewrite !(proj2 (Z.eqb_neq _ _)).
Qed.

Lemma object_arn_runes bucket key :
  str_forallb bucket_byte bucket = true ->
  rune_values (s3ObjectARN bucket key) =
  rune_values "arn:aws:s3:::" ++ rune_values bucket ++ 47 :: rune_values key.
Proof.
  intros Hb. unfold s3ObjectARN. rewrite rune_values_app_ascii by done. f_equal.
  rewrite rune_values_app_ascii by by apply bucket_bytes_ascii. f_equal.
Qed.

(** A statement on the objects of one bucket reaches exactly that bucket: the
    resource [arn:aws:s3:::bucket/*] covers an object the proxy accepts if and only if
    the object's bucket is that very bucket. *)
Theorem object_resource_confined (bucket bucket' key : string)
    (Hb : isValidBucketName bucket = true) (Hb' : isValidBucketName bucket' = true)
    (Hk : validateVirtualObjectKey key = Ok tt) :
  wildcard_matches (compileWildcard (s3ObjectARN bucket "*")) (s3ObjectARN bucket' key) false = true
  <-> bucket = bucket'.
Proof.
  apply isValidBucketName_plain in Hb, Hb'.
  apply validateVirtualObjectKey_Ok in Hk as (_ & _ & _ & Hk & _).
  unfold wildcard_matches, compileWildcard. cbn [w_re].
  assert (wildcardToRegex (s3ObjectARN bucket "*") =
          (ReLit <$> (rune_values "arn:aws:s3:::" ++ rune_values bucket ++ [47])) ++ [ReDotStar]) as ->.
  { unfold wildcardToRegex. rewrite object_arn_runes by done. rewrite !fmap_app, fmap_cons.
    pose proof (lits_of_plain bucket Hb) as E. unfold wildcardToRegex in E. rewrite E.
    rewrite <-!(assoc_L (++)). reflexivity. }
  rewrite re_match_lits_star, object_arn_runes by done. split.
  - intros (rest & E & _). rewrite <-!(assoc_L (++)) in E. apply (app_inv_head _) in E.
    cbn [app] in E. apply split_at_first in E as [E _].
    + symmetry. apply rune_values_inj; [by apply bucket_bytes_ascii..|done].
    + intros Hin. by apply bucket_bytes_runes in Hin as [? _].
    + intros Hin. by apply bucket_bytes_runes in Hin as [? _].
  - intros ->. exists (rune_values key). split; [by rewrite <-!(assoc_L (++))|].
    apply forallb_elem_of. intros r Hr. apply negb_true_iff, Z.eqb_neq. intros ->.
    by specialize (Hk _ Hr).
Qed.

(** ** A concrete request *)

Module PlanExample.

Definition list_request : HttpRequest :=
  mkHttpRequest "GET" "/photos" "" "list-type=2&prefix=a%2F&max-keys=10"
    {["X-Amz-Date" := ["20260102T030405Z"]; "Accept" := ["*/*"]]} "s3.example.com" "" 0 [] ∅ true.

Definition policy_text : string := with_quotes
  "{'Version': '2012-10-17', 'Statement': {'Effect': 'Allow', 'Action': 's3:ListBucket',
     'Resource': 'arn:aws:s3:::photos', 'Condition': {'StringEquals': {'s3:prefix': 'a/'}}}}".

Definition list_policy : Policy :=
  match ParseS3IAMPolicyJSON policy_text with Ok p => p | Err _ => DenyAllPolicy end.

Definition list_plan : S3OperationPlan :=
  match planS3Operation list_request "photos" "" with
  | Ok p => p
  | Err _ => mkPlan operationHeadBucket "" "" "" responseSafeHeaders [] None false "" bodyEmpty ""
               "" 0 ∅ ∅ false "" ∅ false
  end.

Lemma list_planned : planS3Operation list_request "photos" "" = Ok list_plan.
Proof. vm_compute. reflexivity. Qed.

Lemma planned_request_wf_witness :
  exists value, p_query list_plan !! "max-keys" = Some [value] /\
    exists n, Atoi value = Some n /\ 0 <= n <= 1000.
Proof.
  destruct (planned_request_wf list_request "photos" "" list_plan list_planned)
    as (_ & _ & _ & _ & _ & _ & Hq & _).
  assert (p_query list_plan !! "max-keys" = Some ["10"]) as E by (vm_compute; reflexivity).
  destruct (Hq _ _ E) as (value & Hv & (_ & _ & _ & _ & Hi) & _). exists value. rewrite E, Hv.
  split; [reflexivity|]. apply Hi. apply list_elem_of_here.
Defined.

Lemma authorized_request_witness :
  exists pol, Some list_policy = Some pol /\
    matching pol
      (mkRequest "s3:ListBucket" "arn:aws:s3:::photos"
         (authorization_context "" "20260102T030405Z" (Unix 1767323045)
            (buildS3IAMWireContext operationListObjectsV2 (p_query list_plan)
               (p_forwardHeaders list_plan) true)))
      effectAllow.
Proof.
  assert (AuthorizeS3Plan (Some list_policy)
            (Some (withAuthorizationContext "" (Unix 1767323045)
                     (withRequestMetadata false "" list_plan))) = Ok tt) as Ha
    by (vm_compute; reflexivity).
  destruct (authorized_request list_request "photos" "" list_plan false "" (Unix 1767323045)
              (Some list_policy) list_planned Ha) as (pol & Hpol & Hall).
  exists pol. split; [exact Hpol|].
  exact (proj1 (Hall (newIAMRequest "s3:ListBucket" "arn:aws:s3:::photos")
                  (row_checks_head operationListObjectsV2 list_request "photos" "" None))).
Defined.

Lemma object_resource_confined_witness :
  wildcard_matches (compileWildcard (s3ObjectARN "photos" "*")) (s3ObjectARN "photos" "a/b") false
    = true /\
  wildcard_matches (compileWildcard (s3ObjectARN "photos" "*")) (s3ObjectARN "photos2" "a/b") false
    <> true.
Proof.
  assert (isValidBucketName "photos" = true) as H1 by (vm_compute; reflexivity).
  assert (isValidBucketName "photos2" = true) as H2 by (vm_compute; reflexivity).
  assert (validateVirtualObjectKey "a/b" = Ok tt) as Hk by (vm_compute; reflexivity).
  split.
  - apply (object_resource_confined "photos" "photos" "a/b" H1 H1 Hk). reflexivity.
  - intros H. apply (object_resource_confined "photos" "photos2" "a/b" H1 H2 Hk) in H. discriminate H.
Defined.

End PlanExample.
