(* ===== verification/Outbound.v ===== *)
(** * Outbound: the header of the request sent to the backend

    [copyOutboundRequestHeaders] and [hopByHopHeaderSet] of [http_server/s3_proxy.go],
    and [classifyS3RequestTransform]. *)
From S2P Require Import Prelude GoStrings GoTime GoUrl GoHttp Iam CopySource Operation S3Authz.
From S2P Require Import OperationSpec PlanSpec.

Definition fixed_hop_by_hop : gset string :=
  list_to_set ["Connection"; "Keep-Alive"; "Proxy-Authenticate"; "Proxy-Authorization"; "Te";
               "Trailer"; "Transfer-Encoding"; "Upgrade"].

(** The names one [Connection] value nominates. *)
Definition nominated (connection : string) : list string :=
  mbind (fun token => let name := TrimSpace token in
                      if negb (String.eqb name "") then [CanonicalHeaderKey name] else [])
    (Split connection ",").

Definition hopByHopHeaderSet (headers : Header) : gset string :=
  fixed_hop_by_hop ∪ list_to_set (mbind nominated (Header_Values headers "Connection")).

Definition copyOutboundRequestHeaders (src dst : Header) (kind : S3OperationKind) : Header :=
  let hopByHop := hopByHopHeaderSet src in
  foldl (fun dst kv =>
    let canonical := CanonicalHeaderKey kv.1 in
    if bool_decide (canonical ∈ hopByHop) || negb (safeOutboundRequestHeader canonical kind)
    then dst
    else foldl (fun dst value => Header_Add dst canonical value) dst kv.2)
  dst (map_to_list src).

Inductive s3RequestTransform :=
| requestTransformBucketRoot
| requestTransformListQuery
| requestTransformObjectPath.

#[export] Instance s3RequestTransform_eq_dec : EqDecision s3RequestTransform.
Proof. solve_decision. Defined.

(** The source's default branch, for a kind that is none of the constants, has no
    counterpart. *)
Definition classifyS3RequestTransform (kind : S3OperationKind) : s3RequestTransform :=
  match kind with
  | operationListBuckets | operationCreateBucket | operationHeadBucket =>
      requestTransformBucketRoot
  | operationListObjects | operationListObjectsV2 | operationListMultipartUploads =>
      requestTransformListQuery
  | operationGetObject | operationHeadObject | operationGetObjectVersion
  | operationHeadObjectVersion | operationPutObject | operationPutObjectACL
  | operationPutObjectTagging | operationCopyObject | operationDeleteObject
  | operationDeleteObjectVersion | operationCreateMultipartUpload | operationUploadPart
  | operationListParts | operationCompleteMultipartUpload | operationAbortMultipartUpload =>
      requestTransformObjectPath
  end.

(** ** Copying *)

Lemma add_values dst name values :
  CanonicalHeaderKey name = name ->
  foldl (fun dst value => Header_Add dst name value) dst values =
  match values with [] => dst | _ => <[name := default [] (dst !! name) ++ values]> dst end.
Proof.
  intros Hn. destruct values as [|v values]; [done|]. revert dst v.
  induction values as [|v' values IH]; intros dst v.
  { cbn. unfold Header_Add. by rewrite Hn. }
  change (foldl (fun dst value => Header_Add dst name value) dst (v :: v' :: values))
    with (foldl (fun dst value => Header_Add dst name value) (Header_Add dst name v) (v' :: values)).
  rewrite IH. unfold Header_Add. rewrite Hn, lookup_insert_eq, insert_insert_eq. cbn.
  by rewrite <-(assoc_L (++)).
Qed.

Section copy.
Context (keep : string -> bool).

Definition copy_field (dst : Header) (kv : string * list string) : Header :=
  let canonical := CanonicalHeaderKey kv.1 in
  if negb (keep canonical) then dst
  else foldl (fun dst value => Header_Add dst canonical value) dst kv.2.

Definition kept (name : string) (values : option (list string)) : option (list string) :=
  match values with Some (_ :: _) => if keep name then values else None | _ => None end.

Lemma copy_field_lookup dst kv name :
  CanonicalHeaderKey kv.1 = kv.1 -> dst !! kv.1 = None ->
  copy_field dst kv !! name =
  if decide (name = kv.1) then kept name (Some kv.2) else dst !! name.
Proof.
  destruct kv as [k vs]. cbn. intros Hc Hn. unfold copy_field. cbn. rewrite Hc, add_values by done.
  unfold kept. case_decide as E; [subst name|].
  - destruct vs; [by destruct (negb _)|]. destruct (keep k); cbn [negb]; [|done].
    by rewrite lookup_insert_eq, Hn.
  - destruct (negb _); [done|]. destruct vs; [done|]. by rewrite lookup_insert_ne.
Qed.

Lemma copy_fields_lookup l dst name :
  Forall (fun kv => CanonicalHeaderKey kv.1 = kv.1) l -> NoDup l.*1 ->
  (forall k, k ∈ l.*1 -> dst !! k = None) ->
  foldl copy_field dst l !! name =
  if decide (name ∈ l.*1) then kept name ((list_to_map l : Header) !! name) else dst !! name.
Proof.
  intros Hc. revert dst. induction Hc as [|[k vs] l Hk _ IH]; intros dst Hnd Hn; [done|].
  cbn in Hnd, Hn. apply NoDup_cons in Hnd as [Hni Hnd]. cbn [foldl list_to_map foldr fmap list_fmap fst].
  rewrite IH; [|done|].
  - rewrite copy_field_lookup by (cbn; first [done | apply Hn; set_solver]). cbn.
    destruct (decide (name = k)) as [->|Hne].
    + rewrite decide_False by done. rewrite decide_True by set_solver.
      by rewrite lookup_insert_eq.
    + destruct (decide (name ∈ l.*1)).
      * rewrite decide_True by set_solver. by rewrite lookup_insert_ne.
      * by rewrite decide_False by set_solver.
  - intros k' Hk'. rewrite copy_field_lookup by (cbn; first [done | apply Hn; set_solver]). cbn.
    rewrite decide_False by (intros ->; done). apply Hn. set_solver.
Qed.

Lemma copy_header_lookup src name :
  canonical_names src -> foldl copy_field ∅ (map_to_list src) !! name = kept name (src !! name).
Proof.
  intros Hc. rewrite copy_fields_lookup.
  - rewrite list_to_map_to_list. case_decide as E; [done|].
    assert (src !! name = None) as ->; [|done]. apply eq_None_not_Some. intros [vs Hvs].
    apply E, list_elem_of_fmap. exists (name, vs). by rewrite elem_of_map_to_list.
  - apply Forall_forall. intros [k vs] ?%elem_of_map_to_list. by eapply Hc.
  - apply NoDup_fst_map_to_list.
  - done.
Qed.
End copy.

Lemma copyOutbound_lookup src kind name :
  canonical_names src ->
  copyOutboundRequestHeaders src ∅ kind !! name =
  kept (fun n => negb (bool_decide (n ∈ hopByHopHeaderSet src)) && safeOutboundRequestHeader n kind)
    name (src !! name).
Proof.
  intros Hc. rewrite <-copy_header_lookup by done. unfold copyOutboundRequestHeaders. cbv zeta.
  f_equal. generalize (map_to_list src) (∅ : Header). clear Hc name. intros l.
  induction l as [|kv l IH]; intros dst; [done|]. cbn [foldl]. rewrite IH. f_equal.
  unfold copy_field. cbv zeta. by rewrite negb_andb, negb_involutive.
Qed.

(** ** Hop-by-hop fields *)

Lemma fixed_hop_by_hop_unsafe kind name :
  name ∈ fixed_hop_by_hop -> safeOutboundRequestHeader name kind = false.
Proof.
  unfold fixed_hop_by_hop. rewrite elem_of_list_to_set. intros Hin.
  repeat (apply elem_of_cons in Hin as [->|Hin]; [by destruct kind; vm_compute|]).
  by apply not_elem_of_nil in Hin.
Qed.

Lemma nominated_unsafe r kind connection name :
  validateHeadersForOperation r kind = Ok tt ->
  connection ∈ Header_Values (r_Header r) "Connection" -> name ∈ nominated connection ->
  safeOutboundRequestHeader name kind = false.
Proof.
  intros Hv Hc Hn. destruct (validateHeadersForOperation_Ok _ _ Hv) as [Ht _].
  unfold nominated in Hn. apply list_elem_of_bind in Hn as (token & Hn & Hin).
  specialize (Ht _ _ Hc Hin). unfold check_connection_token in Ht. cbv zeta in Ht, Hn.
  destruct (negb _); [|by apply not_elem_of_nil in Hn].
  apply list_elem_of_singleton in Hn as ->. by destruct (safeOutboundRequestHeader _ _).
Qed.

Lemma hop_by_hop_unsafe r kind name :
  validateHeadersForOperation r kind = Ok tt -> name ∈ hopByHopHeaderSet (r_Header r) ->
  safeOutboundRequestHeader name kind = false.
Proof.
  unfold hopByHopHeaderSet. rewrite elem_of_union, elem_of_list_to_set. intros Hv [Hf|Hn].
  - by apply fixed_hop_by_hop_unsafe.
  - apply list_elem_of_bind in Hn as (connection & Hn & Hc). by eapply nominated_unsafe.
Qed.

(** ** The outbound header *)

(** The fields that leave the proxy with an operation. *)
Definition forwardable (kind : S3OperationKind) (name : string) : Prop :=
  (HasPrefix (ToLower name) "x-amz-" = true /\ amz_header_allowed kind (ToLower name) = true /\
   unsupported_header (ToLower name) = false) \/
  name ∈ ["Accept"; "User-Agent"] \/ (name = "Accept-Encoding" /\ operationReadsObject kind = true) \/
  objectReadHeaderAllowed kind name = true \/ objectBodyHeaderAllowed kind name = true.

(** What the header of a planned request contributes to the one sent: a field of the
    client's is copied, with all its values in order, if and only if it is one the
    operation may carry to the backend; what [Connection] nominates can only be a field
    that is not forwarded anyway. *)
Lemma outbound_headers_exact (r : HttpRequest) (bucket objectKey : string) (p : S3OperationPlan)
    (Hc : canonical_names (r_Header r)) (Hp : planS3Operation r bucket objectKey = Ok p)
    (name : string) (values : list string) :
  copyOutboundRequestHeaders (p_forwardHeaders p) ∅ (p_kind p) !! name = Some values <->
  r_Header r !! name = Some values /\ values <> [] /\ forwardable (p_kind p) name.
Proof.
  destruct (planS3Operation_Ok _ _ _ _ Hp) as (query & sh & Hacc & Hf).
  destruct (finish_plan_Ok _ _ _ _ _ _ Hf) as (_ & _ & _ & ->).
  cbn [p_forwardHeaders p_kind]. rewrite canonicalHeaderClone_canonical by done.
  rewrite copyOutbound_lookup by done.
  assert (forall vs, r_Header r !! name = Some vs ->
            negb (bool_decide (name ∈ hopByHopHeaderSet (r_Header r)))
            && safeOutboundRequestHeader name (sh_kind sh) = true <-> forwardable (sh_kind sh) name) as Hs.
  { intros vs Hvs.
    assert (permitted (sh_kind sh) name) as Hperm.
    { eapply accepted_permitted; [done|]. unfold header_names. apply list_elem_of_fmap.
      exists (name, vs). by rewrite elem_of_map_to_list. }
    rewrite andb_true_iff, negb_true_iff, bool_decide_eq_false.
    pose proof (hop_by_hop_unsafe r (sh_kind sh) name (acc_kind_headers _ _ _ _ _ Hacc)) as Hu.
    transitivity (safeOutboundRequestHeader name (sh_kind sh) = true).
    { split; [by intros []|]. intros E. split; [|done]. intros Hin. specialize (Hu Hin). congruence. }
    unfold permitted in Hperm. unfold safeOutboundRequestHeader, forwardable.
    destruct (HasPrefix (ToLower name) "x-amz-") eqn:Ex; [naive_solver|].
    destruct (one_of name ["Accept"; "User-Agent"]) eqn:Ea.
    { apply one_of_elem in Ea. split; auto. }
    destruct (String.eqb_spec name "Accept-Encoding") as [->|Hne].
    { split; [auto|]. intros [[]|[H|[[_ ?]|[H|H]]]]; try done.
      - by apply one_of_elem in H.
      - by destruct (sh_kind sh).
      - by destruct (sh_kind sh). }
    rewrite orb_true_iff. split; [tauto|]. intros [[]|[H|[[]|?]]]; try done.
    apply one_of_elem in H. congruence. }
  unfold kept. destruct (r_Header r !! name) as [vs|] eqn:E; [|naive_solver].
  specialize (Hs vs eq_refl). destruct vs as [|v vs]; [naive_solver|].
  destruct (negb _ && _).
  - split; [intros [=<-]; split_and!; [done|done|by apply Hs]|by intros ([=<-] & _)].
  - split; [done|]. intros (_ & _ & H%Hs). done.
Qed.

Lemma canonical_names_check h :
  forallb (fun kv => String.eqb (CanonicalHeaderKey kv.1) kv.1) (map_to_list h) = true ->
  canonical_names h.
Proof.
  rewrite forallb_elem_of. intros Hall name values Hn%elem_of_map_to_list.
  specialize (Hall _ Hn). by apply String.eqb_eq in Hall.
Qed.
