(* ===== verification/Crypto.v ===== *)
(** * Crypto: the primitives of Go's standard library the program uses

    [crypto/sha256], [crypto/hmac], [crypto/aes] and [crypto/cipher]'s GCM, from their
    published definitions (FIPS 180-4, RFC 2104, FIPS 197, SP 800-38D), and
    [encoding/hex].  A Go byte slice is a [string].  Nothing is assumed about the
    strength of the primitives: the theorems that use them hold for any functions with
    the lengths proved here. *)
From S2P Require Import Prelude GoStrings GoUrl.

(** ** Bytes *)

Definition xor_byte (a b : ascii) : ascii := byte_chr (Z.lxor (byte_val a) (byte_val b)).

Fixpoint xor_str (s t : string) : string :=
  match s, t with
  | String a s, String b t => String (xor_byte a b) (xor_str s t)
  | _, _ => ""
  end.

Fixpoint str_repeat (c : ascii) (n : nat) : string :=
  match n with O => "" | S n => String c (str_repeat c n) end.

(** Big-endian bytes of a number, and the number of big-endian bytes. *)
Fixpoint be_bytes (n : nat) (z : Z) : string :=
  match n with
  | O => ""
  | S n => String (byte_chr (Z.shiftr z (8 * Z.of_nat n) mod 256)) (be_bytes n z)
  end.

Fixpoint be_val_acc (acc : Z) (s : string) : Z :=
  match s with "" => acc | String c s => be_val_acc (acc * 256 + byte_val c) s end.

Definition be_val (s : string) : Z := be_val_acc 0 s.

(** Pieces of [n] bytes, the last one shorter; [count] bounds their number. *)
Fixpoint chunks (count n : nat) (s : string) : list string :=
  match count with
  | O => []
  | S count =>
      match s with
      | "" => []
      | _ => str_take n s :: chunks count n (str_drop n s)
      end
  end.

Definition blocks_of (n : nat) (s : string) : list string := chunks (String.length s) n s.

Definition hexdigit (z : Z) : ascii := byte_chr (if z <? 10 then z + 48 else z + 87).

(** [%x] of a byte slice *)
Fixpoint hex (s : string) : string :=
  match s with
  | "" => ""
  | String c s => String (hexdigit (byte_val c / 16)) (String (hexdigit (byte_val c mod 16)) (hex s))
  end.

(** ** SHA-256 *)

Definition add32 (x y : Z) : Z := (x + y) mod 2 ^ 32.

Definition rotr (x n : Z) : Z :=
  Z.lor (Z.shiftr x n) (Z.land (Z.shiftl x (32 - n)) 4294967295).

Definition sha_k : list Z :=
  [
   1116352408; 1899447441; 3049323471; 3921009573; 961987163; 1508970993; 2453635748;
   2870763221; 3624381080; 310598401; 607225278; 1426881987; 1925078388; 2162078206; 2614888103;
   3248222580; 3835390401; 4022224774; 264347078; 604807628; 770255983; 1249150122; 1555081692;
   1996064986; 2554220882; 2821834349; 2952996808; 3210313671; 3336571891; 3584528711;
   113926993; 338241895; 666307205; 773529912; 1294757372; 1396182291; 1695183700; 1986661051;
   2177026350; 2456956037; 2730485921; 2820302411; 3259730800; 3345764771; 3516065817;
   3600352804; 4094571909; 275423344; 430227734; 506948616; 659060556; 883997877; 958139571;
   1322822218; 1537002063; 1747873779; 1955562222; 2024104815; 2227730452; 2361852424;
   2428436474; 2756734187; 3204031479; 3329325298].

Record sha_state := mkSha { h0 : Z; h1 : Z; h2 : Z; h3 : Z; h4 : Z; h5 : Z; h6 : Z; h7 : Z }.

Definition sha_init : sha_state :=
  mkSha 1779033703 3144134277 1013904242 2773480762
    1359893119 2600822924 528734635 1541459225.

Definition sha_round (s : sha_state) (k w : Z) : sha_state :=
  let '(mkSha a b c d e f g h) := s in
  let S1 := Z.lxor (Z.lxor (rotr e 6) (rotr e 11)) (rotr e 25) in
  let ch := Z.lxor (Z.land e f) (Z.land (4294967295 - e) g) in
  let temp1 := add32 (add32 (add32 h S1) (add32 ch k)) w in
  let S0 := Z.lxor (Z.lxor (rotr a 2) (rotr a 13)) (rotr a 22) in
  let maj := Z.lxor (Z.lxor (Z.land a b) (Z.land a c)) (Z.land b c) in
  mkSha (add32 temp1 (add32 S0 maj)) a b c (add32 d temp1) e f g.

(** The rounds, with the message schedule as a window of sixteen words: each round
    consumes the first word and appends the one sixteen places on. *)
Fixpoint sha_rounds (ks : list Z) (ws : list Z) (s : sha_state) : sha_state :=
  match ks, ws with
  | k :: ks, w0 :: ws =>
      let w1 := nth 0 ws 0 in
      let w9 := nth 8 ws 0 in
      let w14 := nth 13 ws 0 in
      let s0 := Z.lxor (Z.lxor (rotr w1 7) (rotr w1 18)) (Z.shiftr w1 3) in
      let s1 := Z.lxor (Z.lxor (rotr w14 17) (rotr w14 19)) (Z.shiftr w14 10) in
      let w16 := add32 (add32 w0 s0) (add32 w9 s1) in
      sha_rounds ks (ws ++ [w16]) (sha_round s k w0)
  | _, _ => s
  end.

Definition sha_block (s : sha_state) (block : string) : sha_state :=
  let t := sha_rounds sha_k (be_val <$> blocks_of 4 block) s in
  mkSha (add32 (h0 s) (h0 t)) (add32 (h1 s) (h1 t)) (add32 (h2 s) (h2 t)) (add32 (h3 s) (h3 t))
        (add32 (h4 s) (h4 t)) (add32 (h5 s) (h5 t)) (add32 (h6 s) (h6 t)) (add32 (h7 s) (h7 t)).

Definition sha_pad (s : string) : string :=
  let zeros := Z.to_nat ((55 - str_len s) mod 64) in
  s +:+ chr 128 +:+ str_repeat (byte_chr 0) zeros +:+ be_bytes 8 (8 * str_len s).

(** [sha256.Sum256] *)
Definition Sum256 (s : string) : string :=
  let t := foldl sha_block sha_init (blocks_of 64 (sha_pad s)) in
  be_bytes 4 (h0 t) +:+ be_bytes 4 (h1 t) +:+ be_bytes 4 (h2 t) +:+ be_bytes 4 (h3 t)
  +:+ be_bytes 4 (h4 t) +:+ be_bytes 4 (h5 t) +:+ be_bytes 4 (h6 t) +:+ be_bytes 4 (h7 t).

(** [hmac.New(sha256.New, key)], written and summed *)
Definition hmac_sha256 (key data : string) : string :=
  let key := if 64 <? str_len key then Sum256 key else key in
  let key := key +:+ str_repeat (byte_chr 0) (64 - String.length key) in
  let ipad := xor_str key (str_repeat (byte_chr 54) 64) in
  let opad := xor_str key (str_repeat (byte_chr 92) 64) in
  Sum256 (opad +:+ Sum256 (ipad +:+ data)).

(** ** AES-256 *)

Definition sbox : list Z :=
  [
   99; 124; 119; 123; 242; 107; 111; 197; 48; 1; 103; 43; 254; 215; 171; 118; 202; 130; 201;
   125; 250; 89; 71; 240; 173; 212; 162; 175; 156; 164; 114; 192; 183; 253; 147; 38; 54; 63;
   247; 204; 52; 165; 229; 241; 113; 216; 49; 21; 4; 199; 35; 195; 24; 150; 5; 154; 7; 18; 128;
   226; 235; 39; 178; 117; 9; 131; 44; 26; 27; 110; 90; 160; 82; 59; 214; 179; 41; 227; 47; 132;
   83; 209; 0; 237; 32; 252; 177; 91; 106; 203; 190; 57; 74; 76; 88; 207; 208; 239; 170; 251;
   67; 77; 51; 133; 69; 249; 2; 127; 80; 60; 159; 168; 81; 163; 64; 143; 146; 157; 56; 245; 188;
   182; 218; 33; 16; 255; 243; 210; 205; 12; 19; 236; 95; 151; 68; 23; 196; 167; 126; 61; 100;
   93; 25; 115; 96; 129; 79; 220; 34; 42; 144; 136; 70; 238; 184; 20; 222; 94; 11; 219; 224; 50;
   58; 10; 73; 6; 36; 92; 194; 211; 172; 98; 145; 149; 228; 121; 231; 200; 55; 109; 141; 213;
   78; 169; 108; 86; 244; 234; 101; 122; 174; 8; 186; 120; 37; 46; 28; 166; 180; 198; 232; 221;
   116; 31; 75; 189; 139; 138; 112; 62; 181; 102; 72; 3; 246; 14; 97; 53; 87; 185; 134; 193; 29;
   158; 225; 248; 152; 17; 105; 217; 142; 148; 155; 30; 135; 233; 206; 85; 40; 223; 140; 161;
   137; 13; 191; 230; 66; 104; 65; 153; 45; 15; 176; 84; 187; 22].

Definition sub_byte (z : Z) : Z := nth (Z.to_nat z) sbox 0.

Definition xtime (z : Z) : Z :=
  let d := 2 * z in if 256 <=? d then Z.lxor (d - 256) 27 else d.

Definition xor_word (a b : list Z) : list Z := zip_with Z.lxor a b.

(** One step of the key schedule: [window] is the last eight words, oldest first, and
    [i] the index of the word to make. *)
Fixpoint expand_key (count : nat) (i rcon : Z) (window : list (list Z)) : list (list Z) :=
  match count with
  | O => []
  | S count =>
      let oldest := nth 0 window [] in
      let newest := nth 7 window [] in
      let first := i mod 8 =? 0 in
      let temp :=
        if first then
          match sub_byte <$> (drop 1 newest ++ take 1 newest) with
          | b :: rest => Z.lxor b rcon :: rest
          | [] => []
          end
        else if i mod 8 =? 4 then sub_byte <$> newest
        else newest in
      let w := xor_word oldest temp in
      w :: expand_key count (i + 1) (if first then xtime rcon else rcon) (drop 1 window ++ [w])
  end.

Definition key_words (key : string) : list (list Z) :=
  let first := (fun word => byte_val <$> String.list_ascii_of_string word) <$> blocks_of 4 key in
  first ++ expand_key 52 8 1 first.

(** Fifteen round keys of sixteen bytes. *)
Fixpoint round_keys (count : nat) (ws : list (list Z)) : list (list Z) :=
  match count with
  | O => []
  | S count => mjoin (take 4 ws) :: round_keys count (drop 4 ws)
  end.

Definition shift_rows (s : list Z) : list Z :=
  (fun i => nth i s 0) <$> [0; 5; 10; 15; 4; 9; 14; 3; 8; 13; 2; 7; 12; 1; 6; 11]%nat.

Fixpoint mix_columns (s : list Z) : list Z :=
  match s with
  | a :: b :: c :: d :: s =>
      let t := Z.lxor (Z.lxor a b) (Z.lxor c d) in
      Z.lxor a (Z.lxor t (xtime (Z.lxor a b))) :: Z.lxor b (Z.lxor t (xtime (Z.lxor b c)))
      :: Z.lxor c (Z.lxor t (xtime (Z.lxor c d))) :: Z.lxor d (Z.lxor t (xtime (Z.lxor d a)))
      :: mix_columns s
  | _ => []
  end.

Fixpoint aes_rounds (rks : list (list Z)) (s : list Z) : list Z :=
  match rks with
  | [] => s
  | [rk] => xor_word (shift_rows (sub_byte <$> s)) rk
  | rk :: rks => aes_rounds rks (xor_word (mix_columns (shift_rows (sub_byte <$> s))) rk)
  end.

Definition aes_encrypt_with (rks : list (list Z)) (block : string) : string :=
  let s := byte_val <$> String.list_ascii_of_string block in
  let out :=
    match rks with
    | [] => s
    | rk :: rks => aes_rounds rks (xor_word s rk)
    end in
  String.string_of_list_ascii ((fun i => byte_chr (nth i out 0)) <$> seq 0 16).

(** [aes.NewCipher] with a key of 32 bytes, and [Encrypt] of one block *)
Definition aes256 (key : string) : string -> string :=
  let rks := round_keys 15 (key_words key) in aes_encrypt_with rks.

(** ** GCM *)

Definition gcmNonceSize : nat := 12.
Definition gcmTagSize : nat := 16.

(** The largest plaintext: the counter has 32 bits and starts at two. *)
Definition gcm_max : Z := (2 ^ 32 - 2) * 16.

Definition gf_r : Z := Z.shiftl 225 120.

(** Product in GF(2^128), the most significant bit being the first. *)
Fixpoint gf_mul_bits (bits : nat) (x v z : Z) : Z :=
  match bits with
  | O => z
  | S bits =>
      let z := if Z.testbit x (Z.of_nat bits) then Z.lxor z v else z in
      let v := if Z.testbit v 0 then Z.lxor (Z.shiftr v 1) gf_r else Z.shiftr v 1 in
      gf_mul_bits bits x v z
  end.

Definition gf_mul (x y : Z) : Z := gf_mul_bits 128 x y 0.

Definition pad16 (s : string) : string :=
  s +:+ str_repeat (byte_chr 0) (Z.to_nat ((- str_len s) mod 16)).

Definition ghash (h : Z) (s : string) : Z :=
  foldl (fun y block => gf_mul (Z.lxor y (be_val block)) h) 0 (blocks_of 16 s).

Section gcm.
Context (E : string -> string).

(** The keystream for [n] blocks, the counter starting at two. *)
Definition keystream (nonce : string) (n : nat) : string :=
  str_concat ((fun j => E (nonce +:+ be_bytes 4 (Z.of_nat j + 2))) <$> seq 0 n).

Definition gctr (nonce text : string) : string :=
  xor_str text (keystream nonce (String.length (pad16 text) / 16)).

Definition gcm_tag (nonce ciphertext aad : string) : string :=
  let h := be_val (E (str_repeat (byte_chr 0) 16)) in
  let s := ghash h (pad16 aad +:+ pad16 ciphertext
                    +:+ be_bytes 8 (8 * str_len aad) +:+ be_bytes 8 (8 * str_len ciphertext)) in
  xor_str (be_bytes 16 s) (E (nonce +:+ be_bytes 4 1)).

(** [AEAD.Seal]; it panics, here [None], on a plaintext the counter cannot cover. *)
Definition gcm_seal (nonce plaintext aad : string) : option string :=
  if gcm_max <? str_len plaintext then None
  else
    let c := gctr nonce plaintext in
    Some (c +:+ gcm_tag nonce c aad).

(** [AEAD.Open] *)
Definition gcm_open (nonce ciphertext aad : string) : option string :=
  let n := (String.length ciphertext - gcmTagSize)%nat in
  if (String.length ciphertext <? gcmTagSize)%nat then None
  else if gcm_max + 16 <? str_len ciphertext then None
  else
    let c := str_take n ciphertext in
    let tag := str_drop n ciphertext in
    if String.eqb tag (gcm_tag nonce c aad) then Some (gctr nonce c) else None.
End gcm.

(** ** Published test vectors *)

Example sha256_vector :
  hex (Sum256 "abc") = "ba7816bf8f01cfea414140de5dae2223b00361a396177a9cb410ff61f20015ad".
Proof. vm_compute. reflexivity. Qed.

Example hmac_vector :
  hex (hmac_sha256 "key" "The quick brown fox jumps over the lazy dog") =
  "f7bc83f430538424b13298e6aa6fb143ef4d59a14946175997479dbc2d1a3cd8".
Proof. vm_compute. reflexivity. Qed.

Example aes256_vector :
  hex (aes256 (be_bytes 32 0x000102030405060708090a0b0c0d0e0f101112131415161718191a1b1c1d1e1f)
         (be_bytes 16 0x00112233445566778899aabbccddeeff)) = "8ea2b7ca516745bfeafc49904b496089".
Proof. vm_compute. reflexivity. Qed.

Example gcm_vector :
  hex <$> gcm_seal (aes256 (be_bytes 32 0)) (be_bytes 12 0) (be_bytes 16 0) "" =
  Some "cea7403d4d606b6e074ec5d3baf39d18d0d1c8a799996bf0265b98b5d48ab919".
Proof. vm_compute. reflexivity. Qed.

(** ** Lengths *)

Lemma length_be_bytes n z : String.length (be_bytes n z) = n.
Proof. induction n; cbn; auto. Qed.

Lemma length_str_repeat c n : String.length (str_repeat c n) = n.
Proof. induction n; cbn; auto. Qed.

Lemma length_xor_str s t :
  (String.length s <= String.length t)%nat -> String.length (xor_str s t) = String.length s.
Proof.
  revert t. induction s as [|c s IH]; intros [|d t] Hl; cbn in *; [done..|lia|].
  rewrite IH by lia. done.
Qed.

Lemma length_Sum256 s : String.length (Sum256 s) = 32%nat.
Proof. unfold Sum256. by rewrite !length_app_str, !length_be_bytes. Qed.

Lemma length_hmac key data : String.length (hmac_sha256 key data) = 32%nat.
Proof. apply length_Sum256. Qed.

Lemma length_hex s : String.length (hex s) = (2 * String.length s)%nat.
Proof. induction s as [|c s IH]; [done|]. cbn [hex String.length]. rewrite IH. lia. Qed.

Lemma length_aes256 key block : String.length (aes256 key block) = 16%nat.
Proof. reflexivity. Qed.

Lemma length_str_take n s : String.length (str_take n s) = Nat.min n (String.length s).
Proof. revert s. induction n; intros [|c s]; cbn; auto. Qed.

(** ** Exclusive or *)

Lemma lxor_range a b n : 0 <= n -> 0 <= a < 2 ^ n -> 0 <= b < 2 ^ n -> 0 <= Z.lxor a b < 2 ^ n.
Proof.
  intros Hn Ha Hb. assert (0 <= Z.lxor a b) as H0 by (apply Z.lxor_nonneg; lia).
  split; [done|]. destruct (Z.eq_dec (Z.lxor a b) 0) as [->|Hne]; [lia|].
  apply Z.log2_lt_pow2; [lia|].
  assert (Z.log2 a < n \/ a = 0) by (destruct (Z.eq_dec a 0); [lia|left; apply Z.log2_lt_pow2; lia]).
  assert (Z.log2 b < n \/ b = 0) by (destruct (Z.eq_dec b 0); [lia|left; apply Z.log2_lt_pow2; lia]).
  destruct (Z.eq_dec n 0) as [->|].
  { assert (a = 0) by lia. assert (b = 0) by lia. subst. done. }
  eapply Z.le_lt_trans; [apply Z.log2_lxor; lia|]. rewrite Z.max_lub_lt_iff.
  split; [destruct (Z.eq_dec a 0) as [->|]|destruct (Z.eq_dec b 0) as [->|]]; cbn; lia.
Qed.

Lemma xor_byte_involutive a b : xor_byte (xor_byte a b) b = a.
Proof.
  unfold xor_byte. pose proof (byte_val_range a). pose proof (byte_val_range b).
  rewrite byte_val_chr by (apply (lxor_range _ _ 8); lia).
  by rewrite Z.lxor_assoc, Z.lxor_nilpotent, Z.lxor_0_r, byte_chr_val.
Qed.

Lemma xor_str_involutive s t :
  (String.length s <= String.length t)%nat -> xor_str (xor_str s t) t = s.
Proof.
  revert t. induction s as [|c s IH]; intros [|d t] Hl; cbn in *; [done..|lia|].
  rewrite xor_byte_involutive, IH by lia. done.
Qed.

(** ** GCM inverts itself *)

Section gcm_laws.
Context (E : string -> string) (E_length : forall block, String.length (E block) = 16%nat).

Lemma length_keystream nonce n : String.length (keystream E nonce n) = (16 * n)%nat.
Proof.
  unfold keystream. transitivity (16 * length (seq 0 n))%nat; [|by rewrite length_seq].
  induction (seq 0 n) as [|j l IH]; [done|]. cbn [fmap list_fmap str_concat length].
  rewrite length_app_str, E_length, IH. lia.
Qed.

Lemma length_pad16 s :
  exists n, String.length (pad16 s) = (16 * n)%nat /\ (String.length s <= 16 * n)%nat.
Proof.
  unfold pad16. rewrite length_app_str, length_str_repeat. unfold str_len.
  set (l := String.length s). pose proof (Z.mod_pos_bound (- Z.of_nat l) 16 ltac:(lia)).
  pose proof (Z.div_mod (- Z.of_nat l) 16 ltac:(lia)).
  exists (Z.to_nat (- (- Z.of_nat l / 16))). lia.
Qed.

Lemma keystream_covers nonce s :
  (String.length s <= String.length (keystream E nonce (String.length (pad16 s) / 16)))%nat.
Proof.
  rewrite length_keystream. destruct (length_pad16 s) as (n & -> & Hn).
  rewrite (Nat.mul_comm 16 n), Nat.div_mul by done. lia.
Qed.

Lemma length_gctr nonce s : String.length (gctr E nonce s) = String.length s.
Proof. apply length_xor_str, keystream_covers. Qed.

Lemma gctr_involutive nonce s : gctr E nonce (gctr E nonce s) = s.
Proof.
  unfold gctr at 1. assert (String.length (pad16 (gctr E nonce s)) = String.length (pad16 s)) as ->.
  { unfold pad16, str_len. by rewrite !length_app_str, !length_str_repeat, length_gctr. }
  apply xor_str_involutive, keystream_covers.
Qed.

Lemma length_gcm_tag nonce c aad : String.length (gcm_tag E nonce c aad) = 16%nat.
Proof.
  unfold gcm_tag. cbv zeta. rewrite length_xor_str; rewrite length_be_bytes; [done|].
  by rewrite E_length.
Qed.

Lemma gcm_open_seal nonce plaintext aad sealed :
  gcm_seal E nonce plaintext aad = Some sealed -> gcm_open E nonce sealed aad = Some plaintext.
Proof.
  unfold gcm_seal. destruct (Z.ltb_spec gcm_max (str_len plaintext)) as [|Hmax]; [done|].
  cbv zeta. intros [=<-]. set (c := gctr E nonce plaintext).
  assert (String.length c = String.length plaintext) as Hc by apply length_gctr.
  set (tag := gcm_tag E nonce c aad). assert (String.length tag = 16%nat) as Ht by apply length_gcm_tag.
  unfold gcm_open, gcmTagSize, str_len in *. cbv zeta. rewrite !length_app_str, Ht, Hc.
  rewrite (proj2 (Nat.ltb_ge _ _)) by lia. rewrite (proj2 (Z.ltb_ge _ _)) by lia.
  replace (String.length plaintext + 16 - 16)%nat with (String.length c) by lia.
  rewrite str_take_app, str_drop_app. fold tag. rewrite String.eqb_refl. unfold c.
  by rewrite gctr_involutive.
Qed.

Lemma gcm_seal_open nonce plaintext aad sealed :
  gcm_open E nonce sealed aad = Some plaintext -> gcm_seal E nonce plaintext aad = Some sealed.
Proof.
  unfold gcm_open, gcmTagSize. cbv zeta.
  destruct (Nat.ltb_spec (String.length sealed) 16) as [|Hl]; [done|].
  destruct (Z.ltb_spec (gcm_max + 16) (str_len sealed)) as [|Hmax]; [done|].
  set (n := (String.length sealed - 16)%nat).
  destruct (String.eqb_spec (str_drop n sealed) (gcm_tag E nonce (str_take n sealed) aad))
    as [Ht|]; [|done].
  intros [=<-]. unfold gcm_seal, str_len in *. rewrite length_gctr, length_str_take.
  rewrite (proj2 (Z.ltb_ge _ _)) by lia. rewrite gctr_involutive, <-Ht. by rewrite str_take_drop.
Qed.
End gcm_laws.
