(* ===== verification/Base64.v ===== *)
(** * Base64: [base64.RawURLEncoding], and its strict decoder ([encoding/base64])

    Without padding; the decoder skips newlines, and in strict mode the unused low bits
    of the last digit must be zero. *)
From S2P Require Import Prelude GoStrings GoUrl Crypto.

Definition enc64 (i : Z) : ascii :=
  if i <? 26 then byte_chr (i + 65)
  else if i <? 52 then byte_chr (i + 71)
  else if i <? 62 then byte_chr (i - 4)
  else if i =? 62 then "-" else "_".

Definition dec64 (c : ascii) : option Z :=
  let b := byte_val c in
  if in_range 65 90 b then Some (b - 65)
  else if in_range 97 122 b then Some (b - 71)
  else if in_range 48 57 b then Some (b + 4)
  else if Ascii.eqb c "-" then Some 62
  else if Ascii.eqb c "_" then Some 63
  else None.

(** [EncodeToString] *)
Fixpoint EncodeToString (s : string) : string :=
  match s with
  | "" => ""
  | String a "" =>
      let v := byte_val a * 16 in
      String (enc64 (v / 64)) (String (enc64 (v mod 64)) "")
  | String a (String b "") =>
      let v := (byte_val a * 256 + byte_val b) * 4 in
      String (enc64 (v / 4096)) (String (enc64 (v / 64 mod 64)) (String (enc64 (v mod 64)) ""))
  | String a (String b (String c s)) =>
      let v := byte_val a * 65536 + byte_val b * 256 + byte_val c in
      String (enc64 (v / 262144)) (String (enc64 (v / 4096 mod 64))
        (String (enc64 (v / 64 mod 64)) (String (enc64 (v mod 64)) (EncodeToString s))))
  end.

Fixpoint skip_newlines (s : string) : string :=
  match s with
  | "" => ""
  | String c s =>
      if (byte_val c =? 10) || (byte_val c =? 13) then skip_newlines s
      else String c (skip_newlines s)
  end.

Fixpoint decode_quanta (s : string) : option string :=
  match s with
  | "" => Some ""
  | String _ "" => None
  | String w (String x "") =>
      w ← dec64 w; x ← dec64 x;
      let v := w * 64 + x in
      if v mod 16 =? 0 then Some (chr (v / 16)) else None
  | String w (String x (String y "")) =>
      w ← dec64 w; x ← dec64 x; y ← dec64 y;
      let v := (w * 64 + x) * 64 + y in
      if v mod 4 =? 0 then Some (chr (v / 1024) +:+ chr (v / 4 mod 256)) else None
  | String w (String x (String y (String z s))) =>
      w ← dec64 w; x ← dec64 x; y ← dec64 y; z ← dec64 z;
      let v := ((w * 64 + x) * 64 + y) * 64 + z in
      rest ← decode_quanta s;
      Some (chr (v / 65536) +:+ chr (v / 256 mod 256) +:+ chr (v mod 256) +:+ rest)
  end.

(** [Strict().DecodeString] *)
Definition DecodeString (s : string) : option string := decode_quanta (skip_newlines s).

Example base64_examples :
  EncodeToString "any carnal pleas" = "YW55IGNhcm5hbCBwbGVhcw" /\
  DecodeString "YW55IGNhcm5hbCBwbGVhcw" = Some "any carnal pleas" /\
  DecodeString "YW55IGNhcm5hbCBwbGVhcx" = None /\ EncodeToString (chr 251 +:+ chr 255) = "-_8".
Proof. vm_compute. auto. Qed.

(** ** Decoding inverts encoding *)

Definition enc_ok (i : Z) : bool :=
  bool_decide (dec64 (enc64 i) = Some i)
  && negb ((byte_val (enc64 i) =? 10) || (byte_val (enc64 i) =? 13)).

Lemma enc64_ok i :
  0 <= i < 64 -> dec64 (enc64 i) = Some i /\
  ((byte_val (enc64 i) =? 10) || (byte_val (enc64 i) =? 13)) = false.
Proof.
  intros Hi. assert (Forall (fun i => enc_ok i = true) (seqZ 0 64)) as Hall
    by (apply (bool_decide_unpack _); vm_compute; exact I).
  rewrite Forall_forall in Hall. specialize (Hall i ltac:(apply elem_of_seqZ; lia)).
  unfold enc_ok in Hall. apply andb_true_iff in Hall as [H1%bool_decide_eq_true H2%negb_true_iff].
  done.
Qed.

(** Three bytes at a time. *)
Lemma str_ind3 (P : string -> Prop) :
  P "" -> (forall a, P (String a "")) -> (forall a b, P (String a (String b ""))) ->
  (forall a b c s, P s -> P (String a (String b (String c s)))) -> forall s, P s.
Proof.
  intros H0 H1 H2 H3 s. remember (String.length s) as n eqn:Hn. revert s Hn.
  induction n as [n IH] using lt_wf_ind. intros [|a [|b [|c s]]] ->; auto.
  apply H3. eapply IH; [|reflexivity]. cbn. lia.
Qed.

Lemma chr_byte z c : z = byte_val c -> chr z = String c "".
Proof. intros ->. unfold chr. by rewrite byte_chr_val. Qed.

(** The digits of a quantum are digits. *)
Ltac digits :=
  repeat match goal with
  | |- context [dec64 (enc64 ?i)] =>
      rewrite (proj1 (enc64_ok i ltac:(Z.div_mod_to_equations; lia)))
  | |- context [(byte_val (enc64 ?i) =? 10) || (byte_val (enc64 ?i) =? 13)] =>
      rewrite (proj2 (enc64_ok i ltac:(Z.div_mod_to_equations; lia)))
  end.

Lemma skip_newlines_encode s : skip_newlines (EncodeToString s) = EncodeToString s.
Proof.
  induction s as [|a|a b|a b c s IH] using str_ind3; [done|..];
    pose proof (byte_val_range a); try pose proof (byte_val_range b);
    try pose proof (byte_val_range c); cbn [EncodeToString]; cbv zeta; cbn [skip_newlines]; digits;
    [done|done|by rewrite IH].
Qed.

Lemma decode_quanta_encode s : decode_quanta (EncodeToString s) = Some s.
Proof.
  induction s as [|a|a b|a b c s IH] using str_ind3; [done|..];
    pose proof (byte_val_range a); try pose proof (byte_val_range b);
    try pose proof (byte_val_range c); cbn [EncodeToString]; cbv zeta; cbn [decode_quanta]; digits;
    rewrite ?IH; cbv zeta; cbn [mbind option_bind].
  - rewrite (proj2 (Z.eqb_eq _ _)) by (Z.div_mod_to_equations; lia).
    by rewrite (chr_byte _ a) by (Z.div_mod_to_equations; lia).
  - rewrite (proj2 (Z.eqb_eq _ _)) by (Z.div_mod_to_equations; lia).
    by rewrite (chr_byte _ a), (chr_byte _ b) by (Z.div_mod_to_equations; lia).
  - by rewrite (chr_byte _ a), (chr_byte _ b), (chr_byte _ c) by (Z.div_mod_to_equations; lia).
Qed.

Lemma DecodeString_EncodeToString s : DecodeString (EncodeToString s) = Some s.
Proof. unfold DecodeString. by rewrite skip_newlines_encode, decode_quanta_encode. Qed.
