(* ===== verification/Token.v ===== *)
(** * Token: opaque routing tokens ([http_server/s3_token.go])

    Upload ids, version ids and continuation tokens of the backend are handed to clients
    sealed under a key of the mapping.  An AEAD value is determined by its AES key, which
    stands for it; a nil pointer is [None]. *)
From S2P Require Import Prelude GoStrings GoUrl Crypto Base64.

Record opaqueTokenCipher := mkCipher {
  oc_aead : string;
  oc_nonceKey : string;
  oc_realBucket : string;
  oc_pathPrefix : string;
  oc_realEndpoint : string;
  oc_routingKey : string
}.

(** [VBucketConfig] of [http_server/vbucket.go] *)
Record VBucketConfig := mkVBucketConfig {
  RealEndpoint : string;
  RealBucket : string;
  RealAccessKey : string;
  RealSecretKey : string;
  RealRegion : string;
  PathPrefix : string;
  RealUsePathStyle : bool;
  RoutingTokenKey : string;
  routingTokenCodec : option opaqueTokenCipher
}.

Definition virtualOpaqueTokenVersion : string := "vb1".

Definition nul : string := chr 0.

Definition routingTokenSubkey (cfg : VBucketConfig) (purpose : string) : string :=
  hmac_sha256 (RoutingTokenKey cfg)
    ("vbuckets-routing-token-v1" +:+ nul +:+ purpose +:+ nul +:+ RealEndpoint cfg +:+ nul
     +:+ RealBucket cfg +:+ nul +:+ PathPrefix cfg).

Definition opaqueTokenAAD (cfg : VBucketConfig) (purpose : string) : string :=
  virtualOpaqueTokenVersion +:+ nul +:+ purpose +:+ nul +:+ RealEndpoint cfg +:+ nul
  +:+ RealBucket cfg +:+ nul +:+ PathPrefix cfg.

Definition newOpaqueTokenCipher (cfg : option VBucketConfig) : result string opaqueTokenCipher :=
  match cfg with
  | None => Err "routing token mapping is required"
  | Some cfg =>
      reject negb (str_len (RoutingTokenKey cfg) =? 32)
        with "routing token key must be exactly 32 bytes" ;;
      let encKey := routingTokenSubkey cfg "encryption" in
      Ok (mkCipher encKey (routingTokenSubkey cfg "synthetic-nonce") (RealBucket cfg)
            (PathPrefix cfg) (RealEndpoint cfg) (RoutingTokenKey cfg))
  end.

(** [matches]; the routing key of a codec is an array of 32 bytes. *)
Definition cipher_matches (c : opaqueTokenCipher) (cfg : VBucketConfig) : bool :=
  (str_len (RoutingTokenKey cfg) =? 32) && String.eqb (oc_realBucket c) (RealBucket cfg)
  && String.eqb (oc_pathPrefix c) (PathPrefix cfg)
  && String.eqb (oc_realEndpoint c) (RealEndpoint cfg)
  && String.eqb (oc_routingKey c) (RoutingTokenKey cfg).

Definition routingTokenCipher (cfg : option VBucketConfig) : result string opaqueTokenCipher :=
  match cfg with
  | Some config =>
      match routingTokenCodec config with
      | Some codec => if cipher_matches codec config then Ok codec else newOpaqueTokenCipher cfg
      | None => newOpaqueTokenCipher cfg
      end
  | None => newOpaqueTokenCipher cfg
  end.

Definition canonical_nonce (c : opaqueTokenCipher) (kind value : string) : string :=
  str_take gcmNonceSize
    (hmac_sha256 (oc_nonceKey c) (virtualOpaqueTokenVersion +:+ nul +:+ kind +:+ nul +:+ value)).

(** [opaqueTokenAAD] reads the mapping, which is there once a cipher was made for it. *)
Definition aad_of (cfg : option VBucketConfig) (kind : string) : string :=
  match cfg with Some cfg => opaqueTokenAAD cfg kind | None => "" end.

(** The last error stands for the panic of [Seal]. *)
Definition encodeOpaqueToken (cfg : option VBucketConfig) (kind value : string)
    : result string string :=
  reject String.eqb value "" with "token must not be empty" ;;
  let? tokenCipher := routingTokenCipher cfg in
  let nonce := canonical_nonce tokenCipher kind value in
  match gcm_seal (aes256 (oc_aead tokenCipher)) nonce value (aad_of cfg kind) with
  | Some sealed =>
      Ok (virtualOpaqueTokenVersion +:+ "." +:+ kind +:+ "." +:+ EncodeToString (nonce +:+ sealed))
  | None => Err "crypto/cipher: message too large for GCM"
  end.

Definition decodeOpaqueToken (cfg : option VBucketConfig) (kind value : string)
    : result string string :=
  let prefix := virtualOpaqueTokenVersion +:+ "." +:+ kind +:+ "." in
  reject negb (HasPrefix value prefix) with "token is not a vbuckets virtual token" ;;
  let encoded := TrimPrefix value prefix in
  match DecodeString encoded with
  | None => Err "decode virtual token"
  | Some data =>
      reject negb (String.eqb (EncodeToString data) encoded)
        with "virtual token is not canonically encoded" ;;
      let? tokenCipher := routingTokenCipher cfg in
      reject (String.length data <? gcmNonceSize)%nat with "virtual token is truncated" ;;
      let nonce := str_take gcmNonceSize data in
      let ciphertext := str_drop gcmNonceSize data in
      match gcm_open (aes256 (oc_aead tokenCipher)) nonce ciphertext (aad_of cfg kind) with
      | None => Err "authenticate virtual token"
      | Some plaintext =>
          reject negb (String.eqb nonce (canonical_nonce tokenCipher kind plaintext))
            with "virtual token does not use its canonical nonce" ;;
          Ok plaintext
      end
  end.

(** ** The cached codec *)

(** A codec the program stored: one that [newOpaqueTokenCipher] made for some mapping. *)
Definition codec_made (cfg : VBucketConfig) : Prop :=
  forall codec, routingTokenCodec cfg = Some codec ->
    exists cfg', newOpaqueTokenCipher (Some cfg') = Ok codec.

Lemma routingTokenSubkey_ext cfg cfg' purpose :
  RoutingTokenKey cfg = RoutingTokenKey cfg' -> RealEndpoint cfg = RealEndpoint cfg' ->
  RealBucket cfg = RealBucket cfg' -> PathPrefix cfg = PathPrefix cfg' ->
  routingTokenSubkey cfg purpose = routingTokenSubkey cfg' purpose.
Proof. unfold routingTokenSubkey. by intros -> -> -> ->. Qed.

(** Reusing a codec is invisible: whatever mapping the cached codec was made for,
    [routingTokenCipher] answers what building a fresh one for the current mapping
    answers; a codec of an older mapping is never used for a newer one. *)
Theorem routingTokenCipher_cached (cfg : VBucketConfig) (Hmade : codec_made cfg) :
  routingTokenCipher (Some cfg) = newOpaqueTokenCipher (Some cfg).
Proof.
  unfold routingTokenCipher. destruct (routingTokenCodec cfg) as [codec|] eqn:Ec; [|done].
  destruct (cipher_matches codec cfg) eqn:Em; [|done].
  destruct (Hmade codec Ec) as [cfg' Hc]. unfold cipher_matches in Em. bool_to_prop.
  unfold newOpaqueTokenCipher in *.
  destruct (negb (str_len (RoutingTokenKey cfg') =? 32)); [done|].
  replace (str_len (RoutingTokenKey cfg) =? 32) with true by (symmetry; by apply Z.eqb_eq).
  cbn [negb]. injection Hc as <-. cbn in *.
  rewrite !(routingTokenSubkey_ext cfg' cfg) by done. by f_equal; f_equal.
Qed.

(** ** Issuing and reading *)

Lemma length_canonical_nonce c kind value :
  String.length (canonical_nonce c kind value) = gcmNonceSize.
Proof. unfold canonical_nonce. by rewrite length_str_take, length_hmac. Qed.

Lemma token_text kind body :
  HasPrefix (virtualOpaqueTokenVersion +:+ "." +:+ kind +:+ "." +:+ body)
    (virtualOpaqueTokenVersion +:+ "." +:+ kind +:+ ".") = true /\
  TrimPrefix (virtualOpaqueTokenVersion +:+ "." +:+ kind +:+ "." +:+ body)
    (virtualOpaqueTokenVersion +:+ "." +:+ kind +:+ ".") = body.
Proof.
  replace (virtualOpaqueTokenVersion +:+ "." +:+ kind +:+ "." +:+ body)
    with ((virtualOpaqueTokenVersion +:+ "." +:+ kind +:+ ".") +:+ body)
    by (by rewrite !app_assoc_str).
  split; [apply HasPrefix_app|apply TrimPrefix_app].
Qed.

Lemma decode_encode cfg kind value token :
  encodeOpaqueToken cfg kind value = Ok token -> decodeOpaqueToken cfg kind token = Ok value.
Proof.
  unfold encodeOpaqueToken. destruct (String.eqb value ""); [done|].
  destruct (routingTokenCipher cfg) as [c|] eqn:Ec; [|done].
  destruct (gcm_seal _ _ _ _) as [sealed|] eqn:Es; [|done]. intros <-%Ok_inj.
  unfold decodeOpaqueToken. cbv zeta.
  destruct (token_text kind (EncodeToString (canonical_nonce c kind value +:+ sealed)))
    as [-> ->]. cbn [negb].
  rewrite DecodeString_EncodeToString, String.eqb_refl, Ec. cbn [negb].
  rewrite length_app_str, length_canonical_nonce. rewrite (proj2 (Nat.ltb_ge _ _)) by lia.
  rewrite <-(length_canonical_nonce c kind value) at 1 2. rewrite str_take_app, str_drop_app.
  rewrite (gcm_open_seal _ (length_aes256 _) _ _ _ _ Es). by rewrite String.eqb_refl.
Qed.

Lemma encode_decode cfg kind value token :
  value <> "" -> decodeOpaqueToken cfg kind token = Ok value ->
  encodeOpaqueToken cfg kind value = Ok token.
Proof.
  intros Hne. unfold decodeOpaqueToken. cbv zeta.
  destruct (HasPrefix token _) eqn:Hp; [|done]. cbn [negb].
  destruct (DecodeString _) as [data|]; [|done].
  destruct (String.eqb_spec (EncodeToString data)
              (TrimPrefix token (virtualOpaqueTokenVersion +:+ "." +:+ kind +:+ "."))) as [He|];
    [|done]. cbn [negb].
  destruct (routingTokenCipher cfg) as [c|] eqn:Ec; [|done].
  destruct (Nat.ltb_spec (String.length data) gcmNonceSize); [done|].
  destruct (gcm_open _ _ _ _) as [plaintext|] eqn:Eo; [|done].
  destruct (String.eqb_spec (str_take gcmNonceSize data) (canonical_nonce c kind plaintext))
    as [Hn|]; [|done]. cbn [negb]. intros [=->].
  unfold encodeOpaqueToken. rewrite (proj2 (String.eqb_neq _ _) Hne), Ec.
  apply gcm_seal_open in Eo; [|apply length_aes256]. rewrite Hn in Eo. rewrite Eo.
  rewrite <-Hn, str_take_drop, He. f_equal.
  rewrite <-(TrimPrefix_restore token _ Hp) at 2. by rewrite !app_assoc_str.
Qed.

(** C29. Tokens are a bijection: for a kind and a mapping, the token of a value reads
    back as that value, and a token that reads as a non-empty value is the very token
    issued for it, so no two texts name the same upload, version or page. *)
Theorem token_bijection (cfg : option VBucketConfig) (kind value token : string)
    (Hv : value <> "") :
  encodeOpaqueToken cfg kind value = Ok token <-> decodeOpaqueToken cfg kind token = Ok value.
Proof. split; [apply decode_encode|by apply encode_decode]. Qed.

(** Issuing succeeds: a mapping with a key of 32 bytes has a token for every
    non-empty value the cipher can cover. *)
Theorem encodeOpaqueToken_total (cfg : VBucketConfig) (kind value : string)
    (Hkey : str_len (RoutingTokenKey cfg) = 32) (Hv : value <> "")
    (Hmax : str_len value <= gcm_max) :
  exists token, encodeOpaqueToken (Some cfg) kind value = Ok token /\
    decodeOpaqueToken (Some cfg) kind token = Ok value.
Proof.
  assert (exists c, routingTokenCipher (Some cfg) = Ok c) as [c Hc].
  { unfold routingTokenCipher, newOpaqueTokenCipher. rewrite (proj2 (Z.eqb_eq _ _) Hkey). cbn [negb].
    destruct (routingTokenCodec cfg) as [codec|]; [|eauto]. destruct (cipher_matches _ _); eauto. }
  assert (exists token, encodeOpaqueToken (Some cfg) kind value = Ok token) as [token Ht].
  { unfold encodeOpaqueToken. rewrite (proj2 (String.eqb_neq _ _) Hv), Hc. unfold gcm_seal.
    rewrite (proj2 (Z.ltb_ge _ _) Hmax). eauto. }
  exists token. split; [done|by apply decode_encode].
Qed.

(** ** A concrete mapping *)

Module TokenExample.

Definition mapping : VBucketConfig :=
  mkVBucketConfig "https://s3.example.com" "real" "AK" "SK" "us-east-1" "tenant" true
    (be_bytes 32 0x000102030405060708090a0b0c0d0e0f101112131415161718191a1b1c1d1e1f) None.

(** The same mapping moved to another prefix, still holding the codec of the old one. *)
Definition moved : VBucketConfig :=
  mkVBucketConfig "https://s3.example.com" "real" "AK" "SK" "us-east-1" "other" true
    (RoutingTokenKey mapping)
    (match newOpaqueTokenCipher (Some mapping) with Ok c => Some c | Err _ => None end).

Lemma routingTokenCipher_cached_witness :
  routingTokenCipher (Some moved) = newOpaqueTokenCipher (Some moved).
Proof.
  apply (routingTokenCipher_cached moved). intros codec H. exists mapping.
  unfold moved in H. cbn [routingTokenCodec] in H.
  destruct (newOpaqueTokenCipher (Some mapping)) as [c|]; [|discriminate H].
  injection H as ->. reflexivity.
Defined.

Lemma token_bijection_witness :
  decodeOpaqueToken (Some mapping) "upload" "vb1.upload.5uIK34JYGLYIUGJGrJyZvpoZPc015z3q7WA_8sHy"
  = Ok "u1".
Proof.
  assert ("u1" <> "") as Hv by discriminate.
  apply (token_bijection (Some mapping) "upload" "u1"
           "vb1.upload.5uIK34JYGLYIUGJGrJyZvpoZPc015z3q7WA_8sHy" Hv).
  vm_compute. reflexivity.
Defined.

Lemma encodeOpaqueToken_total_witness :
  exists token, encodeOpaqueToken (Some mapping) "version" "v7" = Ok token /\
    decodeOpaqueToken (Some mapping) "version" token = Ok "v7".
Proof.
  assert (str_len (RoutingTokenKey mapping) = 32) as Hk by (vm_compute; reflexivity).
  assert ("v7" <> "") as Hv by discriminate.
  assert (str_len "v7" <= gcm_max) as Hm by (vm_compute; discriminate).
  exact (encodeOpaqueToken_total mapping "version" "v7" Hk Hv Hm).
Defined.

End TokenExample.
