(* ===== verification/ListRewrite.v ===== *)
(** * ListRewrite: queries and keys between the two key spaces

    [http_server/s3_list_rewrite.go] and [awsURIEncode] of [http_server/s3_auth.go]:
    the query of a request sent to the backend, and the keys of a listing on the way
    back. *)
From S2P Require Import Prelude GoStrings GoTime GoUrl GoHttp Iam CopySource Operation S3Authz.
From S2P Require Import OperationSpec PlanSpec Outbound Crypto Base64 Token.

Fixpoint awsURIEncode (s : string) : string :=
  match s with
  | "" => ""
  | String c s => (if unreserved c then String c "" else pct c) +:+ awsURIEncode s
  end.

Definition stripListPathPrefix (text pathPrefix : string) (urlEncoded : bool) : string :=
  if negb urlEncoded then TrimPrefix text pathPrefix
  else
    match PathUnescape text with
    | None => TrimPrefix text (awsURIEncode pathPrefix)
    | Some decoded => awsURIEncode (TrimPrefix decoded pathPrefix)
    end.

Definition key_fields (kind : S3OperationKind) : list string :=
  match kind with
  | operationListObjects => ["marker"]
  | operationListObjectsV2 => ["start-after"]
  | operationListMultipartUploads => ["key-marker"]
  | _ => []
  end.

Definition prefix_field (pathPrefix : string) (q : Values) (field : string) : Values :=
  let value := Values_Get q field in
  if negb (String.eqb value "") && negb (String.eqb pathPrefix "")
  then Values_Set q field (pathPrefix +:+ value) else q.

Definition token_fields : list (string * string) :=
  [("continuation-token", "continuation"); ("upload-id-marker", "upload"); ("uploadId", "upload");
   ("versionId", "version")].

Fixpoint decode_fields (cfg : VBucketConfig) (fields : list (string * string)) (q : Values)
    : result string Values :=
  match fields with
  | [] => Ok q
  | (name, kind) :: fields =>
      let value := Values_Get q name in
      if negb (String.eqb value "") then
        let? decoded := decodeOpaqueToken (Some cfg) kind value in
        decode_fields cfg fields (Values_Set q name decoded)
      else decode_fields cfg fields q
  end.

Definition rewriteOutboundQuery (kind : S3OperationKind) (rawQuery pathPrefix : string)
    (prefixKeyFields : bool) (cfg : option VBucketConfig) : result string string :=
  let q := (ParseQuery rawQuery).1 in
  let q := if prefixKeyFields && negb (String.eqb pathPrefix "")
           then Values_Set q "prefix" (pathPrefix +:+ Values_Get q "prefix") else q in
  let q := foldl (prefix_field pathPrefix) q (key_fields kind) in
  let? q := match cfg with Some cfg => decode_fields cfg token_fields q | None => Ok q end in
  Ok (Encode q).

(** ** Keys of a listing *)

Lemma unreserved_escapes c : escapes false c (if unreserved c then String c "" else pct c).
Proof.
  destruct (unreserved c) eqn:E; [|by left]. right. left. split_and!; [done| |done].
  intros ->. by vm_compute in E.
Qed.

Lemma PathUnescape_awsURIEncode s : PathUnescape (awsURIEncode s) = Some s.
Proof.
  induction s as [|c s IH]; [done|]. cbn [awsURIEncode].
  unfold PathUnescape in *. rewrite (unescape_escapes false c) by apply unreserved_escapes.
  by rewrite IH.
Qed.

(** A listed key comes back as the client's own: whatever percent-encoding of the
    prefixed key the backend returned, stripping yields an encoding of the key without
    the prefix, and a plain listing yields the key itself. *)
Theorem stripListPathPrefix_inverts (prefix key text : string)
    (Ht : PathUnescape text = Some (prefix +:+ key)) :
  PathUnescape (stripListPathPrefix text prefix true) = Some key /\
  stripListPathPrefix (prefix +:+ key) prefix false = key.
Proof.
  unfold stripListPathPrefix. cbn [negb]. rewrite Ht, !TrimPrefix_app.
  by rewrite PathUnescape_awsURIEncode.
Qed.

Lemma stripListPathPrefix_inverts_witness :
  PathUnescape (stripListPathPrefix "tenant%2Fa b%2Ac" "tenant/" true) = Some "a b*c".
Proof.
  exact (proj1 (stripListPathPrefix_inverts "tenant/" "a b*c" "tenant%2Fa b%2Ac"
                  ltac:(vm_compute; reflexivity))).
Defined.

(** ** The outbound query *)

(** The kind of token a parameter holds. *)
Definition token_kind (fields : list (string * string)) (name : string) : option string :=
  (fun x => x.2.2) <$> list_find (fun nk => nk.1 = name) fields.

(** What a token parameter holds for the backend; an empty one is left empty. *)
Definition opened (cfg : VBucketConfig) (token : option string) (v : string) : option string :=
  match token with
  | Some token =>
      if String.eqb v "" then Some v
      else match decodeOpaqueToken (Some cfg) token v with Ok d => Some d | Err _ => None end
  | None => Some v
  end.

(** What the backend sees of one parameter, given what the client sent for it. *)
Definition rewritten (kind : S3OperationKind) (pathPrefix : string) (cfg : VBucketConfig)
    (name : string) (sent : option string) : option string :=
  if String.eqb name "prefix" && is_list_kind kind && negb (String.eqb pathPrefix "")
  then Some (pathPrefix +:+ default "" sent)
  else
    value ← sent;
    if one_of name (key_fields kind)
    then Some (if String.eqb value "" then value else pathPrefix +:+ value)
    else opened cfg (token_kind token_fields name) value.

(** The one value of a parameter. *)
Definition single (vs : option (list string)) : option string :=
  match vs with Some [v] => Some v | _ => None end.

Definition singles (q : Values) : Prop := forall k vs, q !! k = Some vs -> exists v, vs = [v].

Lemma Values_Get_single q name : singles q -> Values_Get q name = default "" (single (q !! name)).
Proof.
  intros Hs. unfold Values_Get. destruct (q !! name) as [vs|] eqn:E; [|done].
  by destruct (Hs _ _ E) as [v ->].
Qed.

Lemma singles_set q name v : singles q -> singles (Values_Set q name v).
Proof.
  intros Hs k vs. unfold Values_Set. rewrite lookup_insert. case_decide; [intros [=<-]; eauto|].
  apply Hs.
Qed.

(** The steps of the rewriting, one parameter at a time. *)
Lemma prefix_field_lookup pathPrefix q field name :
  singles q ->
  single (prefix_field pathPrefix q field !! name) =
    (if decide (name = field)
     then (fun v => if String.eqb v "" then v else pathPrefix +:+ v) <$> single (q !! name)
     else single (q !! name)) /\
  singles (prefix_field pathPrefix q field).
Proof.
  intros Hs. unfold prefix_field. cbv zeta. rewrite Values_Get_single by done.
  destruct (q !! field) as [vs|] eqn:E.
  - destruct (Hs _ _ E) as [v ->]. cbn [single default id].
    destruct (String.eqb_spec v "") as [->|Hv]; cbn [negb andb].
    { split; [|done]. case_decide as Hn; [|done]. subst. by rewrite E. }
    destruct (String.eqb_spec pathPrefix "") as [->|Hp]; cbn [negb].
    + split; [|done]. case_decide as Hn; [|done]. subst. rewrite E. cbn.
      by destruct (String.eqb v "").
    + split; [|by apply singles_set]. unfold Values_Set. rewrite lookup_insert.
      destruct (decide (field = name)) as [->|]; [|rewrite decide_False by congruence; done].
      rewrite decide_True by done. rewrite E. cbn. by rewrite (proj2 (String.eqb_neq _ _) Hv).
  - cbn. split; [|done]. case_decide as Hn; [|done]. subst. by rewrite E.
Qed.

Lemma decode_fields_lookup cfg fields q q' :
  NoDup fields.*1 -> singles q -> decode_fields cfg fields q = Ok q' ->
  singles q' /\
  forall name, single (q' !! name) = (v ← single (q !! name); opened cfg (token_kind fields name) v).
Proof.
  revert q. induction fields as [|[f kind] fields IH]; intros q Hnd Hs H.
  { injection H as <-. split; [done|]. intros name. by destruct (single (q !! name)). }
  cbn in Hnd. apply NoDup_cons in Hnd as [Hf Hnd]. cbn [decode_fields] in H. cbv zeta in H.
  assert (forall name, token_kind ((f, kind) :: fields) name =
            if decide (name = f) then Some kind else token_kind fields name) as Htk.
  { intros name. unfold token_kind. cbn. destruct (decide (f = name)) as [->|Hne].
    - by rewrite decide_True.
    - rewrite (decide_False (P := name = f)) by congruence.
      by destruct (list_find _ fields) as [[? ?]|]. }
  assert (token_kind fields f = None) as Hnone.
  { unfold token_kind. destruct (list_find _ fields) as [[i [n k]]|] eqn:E; [|done].
    apply list_find_Some in E as (Hi & Hn & _). cbn in Hn. subst n. exfalso. apply Hf.
    apply list_elem_of_fmap. exists (f, k). split; [done|]. by eapply list_elem_of_lookup_2. }
  rewrite Values_Get_single in H by done.
  destruct (String.eqb_spec (default "" (single (q !! f))) "") as [E0|E0]; cbn [negb] in H.
  - destruct (IH q Hnd Hs H) as [Hs' Hl]. split; [done|]. intros name. rewrite Hl, Htk.
    case_decide as Hn; [|done]. subst name. rewrite Hnone.
    destruct (single (q !! f)) as [v|]; [|done]. cbn in E0. subst v. done.
  - destruct (decodeOpaqueToken (Some cfg) kind _) as [d|] eqn:Ed; [|done].
    destruct (IH _ Hnd (singles_set _ _ _ Hs) H) as [Hs' Hl]. split; [done|]. intros name.
    rewrite Hl, Htk. unfold Values_Set. rewrite lookup_insert. case_decide as Hn.
    + subst name. rewrite Hnone, decide_True by done. cbn.
      destruct (single (q !! f)) as [v|]; [|done]. cbn in E0, Ed |- *.
      by rewrite (proj2 (String.eqb_neq _ _) E0), Ed.
    + by rewrite (decide_False (P := name = f)) by congruence.
Qed.

Lemma key_fields_lookup kind pathPrefix q name :
  singles q ->
  single (foldl (prefix_field pathPrefix) q (key_fields kind) !! name) =
    (if one_of name (key_fields kind)
     then (fun v => if String.eqb v "" then v else pathPrefix +:+ v) <$> single (q !! name)
     else single (q !! name)) /\
  singles (foldl (prefix_field pathPrefix) q (key_fields kind)).
Proof.
  intros Hs. assert (key_fields kind = [] \/ exists f, key_fields kind = [f]) as [->|[f ->]]
    by (destruct kind; eauto).
  - done.
  - cbn [foldl one_of existsb]. rewrite orb_false_r.
    destruct (prefix_field_lookup pathPrefix q f name Hs) as [-> ?]. split; [|done].
    destruct (String.eqb_spec name f) as [->|]; [by rewrite decide_True|by rewrite decide_False].
Qed.

(** Key and token parameters are different ones, and neither is the prefix. *)
Lemma fields_disjoint kind :
  token_kind token_fields "prefix" = None /\ one_of "prefix" (key_fields kind) = false /\
  (forall name, one_of name (key_fields kind) = true -> token_kind token_fields name = None) /\
  NoDup token_fields.*1.
Proof.
  split_and!.
  - vm_compute. reflexivity.
  - by destruct kind.
  - intros name Hn. apply one_of_elem in Hn.
    destruct kind; cbn in Hn; try (by apply not_elem_of_nil in Hn);
      apply list_elem_of_singleton in Hn as ->; vm_compute; reflexivity.
  - apply (bool_decide_unpack _). vm_compute. exact I.
Qed.

Definition row_names (kind : S3OperationKind) : list string :=
  (row_required (table kind)).*1 ++ row_optional (table kind) ++ ["x-id"; "prefix"].

Lemma row_names_few kind : Z.of_nat (length (row_names kind)) <= defaultMaxParams.
Proof. destruct kind; vm_compute; discriminate. Qed.

(** The map the rewriting encodes. *)
Lemma rewriteOutboundQuery_map kind rawQuery pathPrefix cfg q out :
  ParseQuery rawQuery = (q, true) -> singles q ->
  rewriteOutboundQuery kind rawQuery pathPrefix (is_list_kind kind) (Some cfg) = Ok out ->
  exists q', out = Encode q' /\ singles q' /\
    forall name, single (q' !! name) = rewritten kind pathPrefix cfg name (single (q !! name)).
Proof.
  intros Hq Hs. unfold rewriteOutboundQuery. rewrite Hq. cbv zeta. cbn [fst].
  destruct (fields_disjoint kind) as (Htp & Hkp & Hkt & Hnd).
  set (q1 := if is_list_kind kind && negb (String.eqb pathPrefix "") then _ else q).
  assert (singles q1) as Hs1 by (unfold q1; destruct (_ && _); [by apply singles_set|done]).
  destruct (decode_fields cfg token_fields _) as [q'|] eqn:Ed; [|done]. intros <-%Ok_inj.
  exists q'. split; [done|].
  destruct (decode_fields_lookup _ _ _ _ Hnd (proj2 (key_fields_lookup kind pathPrefix q1 "" Hs1)) Ed)
    as [Hs' Hl]. split; [done|]. intros name. rewrite Hl.
  rewrite (proj1 (key_fields_lookup kind pathPrefix q1 name Hs1)). unfold rewritten.
  destruct (String.eqb_spec name "prefix") as [->|Hne]; cbn [andb].
  - rewrite Hkp, Htp. unfold q1. destruct (is_list_kind kind && negb (String.eqb pathPrefix "")).
    + unfold Values_Set. rewrite lookup_insert_eq, (Values_Get_single q) by done. done.
    + by destruct (single (q !! "prefix")).
  - assert (q1 !! name = q !! name) as ->.
    { unfold q1. destruct (_ && _); [|done]. unfold Values_Set. by rewrite lookup_insert_ne. }
    destruct (one_of name (key_fields kind)) eqn:Ek; [|done]. rewrite (Hkt name Ek).
    by destruct (single (q !! name)).
Qed.

(** C30. Query isolation: the query sent to the backend parses, parameter by parameter,
    to what the client sent with the tenant's prefix in front of the list prefix and of
    the operation's key markers, with upload, version and continuation tokens opened
    under the mapping, and with every other parameter as it was.  In particular a
    listing always asks for keys under the tenant's prefix. *)
Theorem outbound_query (r : HttpRequest) (bucket objectKey : string) (p : S3OperationPlan)
    (pathPrefix out : string) (cfg : VBucketConfig)
    (Hp : planS3Operation r bucket objectKey = Ok p)
    (Hout : rewriteOutboundQuery (p_kind p) (p_rawQuery p) pathPrefix
              (bool_decide (classifyS3RequestTransform (p_kind p) = requestTransformListQuery))
              (Some cfg) = Ok out) :
  exists q, ParseQuery out = (q, true) /\ singles q /\
    forall name, single (q !! name) =
      rewritten (p_kind p) pathPrefix cfg name (single (p_query p !! name)).
Proof.
  destruct (planS3Operation_Ok _ _ _ _ Hp) as (query & sh & Hacc & Hf).
  destruct (plan_shape_sound _ _ _ _ _ (acc_shape _ _ _ _ _ Hacc)) as ((_ & _ & Hrow & _) & _).
  destruct (finish_plan_Ok _ _ _ _ _ _ Hf) as (_ & _ & _ & ->).
  cbn [p_kind p_rawQuery p_query] in *.
  assert (forall k vs, query !! k = Some vs ->
            (exists v, vs = [v]) /\ k ∈ row_names (sh_kind sh)) as Hq.
  { intros k vs Hk. destruct (query_allowed _ _ _ _ _ _ Hrow Hk) as (Ha & v & -> & _).
    split; [eauto|]. unfold row_names. rewrite !elem_of_app.
    apply orb_true_iff in Ha as [[Ha|Ha]%orb_true_iff| ->%String.eqb_eq].
    - left. by apply one_of_elem.
    - right; left. by apply one_of_elem.
    - right; right. apply list_elem_of_here. }
  replace (bool_decide _) with (is_list_kind (sh_kind sh)) in Hout by (by destruct (sh_kind sh)).
  assert (singles query) as Hsq by (intros k vs Hk; by destruct (Hq k vs Hk)).
  destruct (rewriteOutboundQuery_map _ _ _ _ _ _ (acc_query _ _ _ _ _ Hacc) Hsq Hout)
    as (q & -> & Hs & Hl).
  exists q. split_and!; [|done|done]. apply ParseQuery_Encode.
  apply (values_ok_single q (row_names (sh_kind sh))); [|apply row_names_few].
  intros k vs Hk. destruct (Hs k vs Hk) as [v ->]. split; [eauto|].
  specialize (Hl k). rewrite Hk in Hl. cbn [single] in Hl. unfold rewritten in Hl.
  destruct (String.eqb_spec k "prefix") as [->|].
  { unfold row_names. rewrite !elem_of_app. right; right. right. apply list_elem_of_here. }
  cbn [andb] in Hl. destruct (query !! k) as [vs|] eqn:E; [|done]. by eapply Hq.
Qed.

Lemma outbound_query_witness :
  exists q, ParseQuery "list-type=2&max-keys=10&prefix=tenant%2Fa%2F" = (q, true) /\
    single (q !! "prefix") = Some "tenant/a/".
Proof.
  assert (rewriteOutboundQuery (p_kind PlanExample.list_plan) (p_rawQuery PlanExample.list_plan)
            "tenant/"
            (bool_decide (classifyS3RequestTransform (p_kind PlanExample.list_plan)
                          = requestTransformListQuery)) (Some TokenExample.mapping) =
          Ok "list-type=2&max-keys=10&prefix=tenant%2Fa%2F") as Hout by (vm_compute; reflexivity).
  destruct (outbound_query PlanExample.list_request "photos" "" PlanExample.list_plan "tenant/"
              "list-type=2&max-keys=10&prefix=tenant%2Fa%2F" TokenExample.mapping
              PlanExample.list_planned Hout) as (q & Hq & _ & Hl).
  exists q. split; [exact Hq|]. rewrite Hl. vm_compute. reflexivity.
Defined.
