(* ===== verification/GoURLs.v ===== *)
(** * GoURLs: [net/url] URLs: [Parse], [ParseRequestURI], [String], [Hostname], [Port]

    The parser of Go 1.26, whose bracketed hosts are IPv6 literals at the start of the
    host and whose other hosts have at most one colon.  An error is [None]. *)
From S2P Require Import Prelude GoStrings GoUrl GoHttp GoNet.

Record URL := mkURL {
  u_Scheme : string;
  u_Opaque : string;
  u_User : option (string * option string);
  u_Host : string;
  u_Path : string;
  u_RawPath : string;
  u_OmitHost : bool;
  u_ForceQuery : bool;
  u_RawQuery : string;
  u_Fragment : string;
  u_RawFragment : string
}.

Definition noURL : URL := mkURL "" "" None "" "" "" false false "" "" "".

(** ** Splitting *)

(** [s] cut at the last occurrence of a byte ([strings.LastIndex]). *)
Fixpoint cut_last (sep : ascii) (s : string) : option (string * string) :=
  match s with
  | "" => None
  | String c s' =>
      match cut_last sep s' with
      | Some (a, b) => Some (String c a, b)
      | None => if Ascii.eqb c sep then Some ("", s') else None
      end
  end.

Definition is_ctl (c : ascii) : bool := (byte_val c <? 32) || (byte_val c =? 127).

Definition contains_ctl (s : string) : bool := negb (str_forallb (fun c => negb (is_ctl c)) s).

Definition is_letter (c : ascii) : bool :=
  let b := byte_val c in in_range 97 122 b || in_range 65 90 b.

Definition is_scheme_tail (c : ascii) : bool :=
  in_range 48 57 (byte_val c) || existsb (Ascii.eqb c) ["+"; "-"; "."]%char.

(** The loop of [getScheme]: [Some (Some (scheme, rest))] at the colon, [Some None] when
    there is no scheme, [None] for the error. *)
Fixpoint scheme_loop (first : bool) (s : string) : option (option (string * string)) :=
  match s with
  | "" => Some None
  | String c s' =>
      if is_letter c || (is_scheme_tail c && negb first) then
        match scheme_loop false s' with
        | Some (Some (scheme, rest)) => Some (Some (String c scheme, rest))
        | r => r
        end
      else if Ascii.eqb c ":" then (if first then None else Some (Some ("", s')))
      else Some None
  end.

Definition getScheme (rawURL : string) : option (string * string) :=
  match scheme_loop true rawURL with
  | Some (Some r) => Some r
  | Some None => Some ("", rawURL)
  | None => None
  end.

(** ** Hosts *)

Definition quote : ascii := Ascii false true false false false true false false.

(** The bytes [shouldEscape] keeps in a host or a zone. *)
Definition host_safe (c : ascii) : bool :=
  unreserved c
  || existsb (Ascii.eqb c)
       ["!"; "$"; "&"; "'"; "("; ")"; "*"; "+"; ","; ";"; "="; ":"; "["; "]"; "<"; ">";
        quote]%char.

Fixpoint escape_host (s : string) : string :=
  match s with
  | "" => ""
  | String c s => (if host_safe c then String c "" else pct c) +:+ escape_host s
  end.

(** [unescape] in the modes [encodeHost] and [encodeZone]. *)
Fixpoint unescape_host (zone : bool) (s : string) : option string :=
  match s with
  | "" => Some ""
  | String "%" s' =>
      match s' with
      | String a (String b rest) =>
          match unhex a, unhex b, unescape_host zone rest with
          | Some x, Some y, Some t =>
              let v := byte_chr (16 * x + y) in
              let percent := Ascii.eqb a "2" && Ascii.eqb b "5" in
              if negb zone && (x <? 8) && negb percent then None
              else if zone && negb percent && negb (Ascii.eqb v " ") && negb (host_safe v)
              then None
              else Some (String v t)
          | _, _, _ => None
          end
      | _ => None
      end
  | String c s' =>
      if is_ascii c && negb (host_safe c) then None
      else String c <$> unescape_host zone s'
  end.

Definition all_digits (s : string) : bool := str_forallb (fun c => in_range 48 57 (byte_val c)) s.

Definition validOptionalPort (port : string) : bool :=
  match port with
  | "" => true
  | String c digits => Ascii.eqb c ":" && all_digits digits
  end.

(** [netip.ParseAddr] succeeds with an address that is not [Is4]; a zone must not be
    empty. *)
Definition is_ip6_literal (s : string) : bool :=
  match ip_family s with
  | Some true =>
      match Cut s "%" with
      | Some (addr, zone) => negb (String.eqb zone "") && is_ipv6 addr
      | None => is_ipv6 s
      end
  | _ => false
  end.

Definition parse_literal (hostname colonPort : string) : option string :=
  if negb (validOptionalPort colonPort) then None
  else
    let unescaped :=
      match Cut hostname "%25" with
      | Some (addr, zone) =>
          match unescape_host false addr, unescape_host true ("%25" +:+ zone) with
          | Some a, Some z => Some (a +:+ z)
          | _, _ => None
          end
      | None => unescape_host false hostname
      end in
    match unescape_host false colonPort, unescaped with
    | Some port, Some name =>
        if is_ip6_literal name then Some ("[" +:+ name +:+ "]" +:+ port) else None
    | _, _ => None
    end.

(** [parseHost], for schemes other than the two that keep the old colon rule. *)
Definition parseHost (host : string) : option string :=
  match cut_last "[" host with
  | Some (before, after) =>
      if negb (String.eqb before "") then None
      else match cut_last "]" after with
           | None => None
           | Some (hostname, colonPort) => parse_literal hostname colonPort
           end
  | None =>
      match Cut host ":" with
      | Some (_, port) =>
          if negb (validOptionalPort (":" +:+ port)) then None else unescape_host false host
      | None => unescape_host false host
      end
  end.

Definition userinfo_byte (c : ascii) : bool :=
  is_alnum c
  || existsb (Ascii.eqb c)
       ["-"; "."; "_"; ":"; "~"; "!"; "$"; "&"; "'"; "("; ")"; "*"; "+"; ","; ";"; "="; "%";
        "@"]%char.

Definition parse_userinfo (userinfo : string) : option (string * option string) :=
  if negb (str_forallb userinfo_byte userinfo) then None
  else match Cut userinfo ":" with
       | None => (fun u => (u, None)) <$> PathUnescape userinfo
       | Some (username, password) =>
           match PathUnescape username, PathUnescape password with
           | Some u, Some p => Some (u, Some p)
           | _, _ => None
           end
       end.

Definition parseAuthority (authority : string) : option (option (string * option string) * string) :=
  match cut_last "@" authority with
  | None => (fun h => (None, h)) <$> parseHost authority
  | Some (userinfo, host) =>
      match parseHost host, parse_userinfo userinfo with
      | Some h, Some u => Some (Some u, h)
      | _, _ => None
      end
  end.

(** ** Parsing *)

Definition set_path (p : string) (u : URL) : option URL :=
  match PathUnescape p with
  | None => None
  | Some path =>
      Some (mkURL (u_Scheme u) (u_Opaque u) (u_User u) (u_Host u) path
              (if String.eqb p (escape_path path) then "" else p) (u_OmitHost u)
              (u_ForceQuery u) (u_RawQuery u) (u_Fragment u) (u_RawFragment u))
  end.

(** [rest] without its query, whether a lone question mark was dropped, and the query. *)
Definition cut_query (rest : string) : string * bool * string :=
  match Cut rest "?" with
  | None => (rest, false, "")
  | Some (before, "") => (before, true, "")
  | Some (before, query) => (before, false, query)
  end.

Definition parse_url (rawURL : string) (viaRequest : bool) : option URL :=
  if contains_ctl rawURL then None
  else if String.eqb rawURL "" && viaRequest then None
  else if String.eqb rawURL "*"
  then Some (mkURL "" "" None "" "*" "" false false "" "" "")
  else
    match getScheme rawURL with
    | None => None
    | Some (scheme, rest) =>
        let scheme := ToLower scheme in
        let '(rest, force, query) := cut_query rest in
        let colon := match Cut rest "/" with Some (s, _) => Contains s ":" | None => Contains rest ":" end in
        if negb (HasPrefix rest "/") && negb (String.eqb scheme "")
        then Some (mkURL scheme rest None "" "" "" false force query "" "")
        else if negb (HasPrefix rest "/") && viaRequest then None
        else if negb (HasPrefix rest "/") && colon then None
        else if (negb (String.eqb scheme "") || (negb viaRequest && negb (HasPrefix rest "///")))
                && HasPrefix rest "//"
        then
          let authority := str_drop 2 rest in
          let (authority, path) :=
            match Cut authority "/" with Some (a, p) => (a, "/" +:+ p) | None => (authority, "") end in
          match parseAuthority authority with
          | None => None
          | Some (user, host) =>
              set_path path (mkURL scheme "" user host "" "" false force query "" "")
          end
        else
          set_path rest (mkURL scheme "" None "" "" ""
            (negb (String.eqb scheme "") && HasPrefix rest "/") force query "" "")
    end.

(** The bytes [escape] keeps in a fragment. *)
Definition fragment_safe (c : ascii) : bool :=
  path_safe c || existsb (Ascii.eqb c) ["?"; "!"; "("; ")"; "*"]%char.

Fixpoint escape_with (safe : ascii -> bool) (s : string) : string :=
  match s with
  | "" => ""
  | String c s => (if safe c then String c "" else pct c) +:+ escape_with safe s
  end.

Definition Parse (rawURL : string) : option URL :=
  match Cut rawURL "#" with
  | None => parse_url rawURL false
  | Some (raw, frag) =>
      match parse_url raw false with
      | None => None
      | Some u =>
          if String.eqb frag "" then Some u
          else match PathUnescape frag with
               | None => None
               | Some f =>
                   Some (mkURL (u_Scheme u) (u_Opaque u) (u_User u) (u_Host u) (u_Path u)
                           (u_RawPath u) (u_OmitHost u) (u_ForceQuery u) (u_RawQuery u) f
                           (if String.eqb frag (escape_with fragment_safe f) then "" else frag))
               end
      end
  end.

Definition ParseRequestURI (rawURL : string) : option URL := parse_url rawURL true.

(** ** Printing and reading *)

(** [EscapedPath] of a URL: its raw path when that is a valid encoding of the path. *)
Definition URL_EscapedPath (u : URL) : string :=
  if negb (String.eqb (u_RawPath u) "") && str_forallb valid_encoded_byte (u_RawPath u)
     && bool_decide (PathUnescape (u_RawPath u) = Some (u_Path u))
  then u_RawPath u else EscapedPath (u_Path u).

Definition user_safe (c : ascii) : bool :=
  unreserved c || existsb (Ascii.eqb c) ["$"; "&"; "+"; ","; ";"; "="]%char.

Definition user_string (user : option (string * option string)) : string :=
  match user with
  | None => ""
  | Some (name, None) => escape_with user_safe name +:+ "@"
  | Some (name, Some password) =>
      escape_with user_safe name +:+ ":" +:+ escape_with user_safe password +:+ "@"
  end.

Definition fragment_string (u : URL) : string :=
  if String.eqb (u_Fragment u) "" then ""
  else
    "#" +:+
    (if negb (String.eqb (u_RawFragment u) "")
        && str_forallb (fun c => fragment_safe c || existsb (Ascii.eqb c) ["'"; "["; "]"; "%"]%char)
             (u_RawFragment u)
        && bool_decide (PathUnescape (u_RawFragment u) = Some (u_Fragment u))
     then u_RawFragment u else escape_with fragment_safe (u_Fragment u)).

Definition authority_string (u : URL) : string :=
  let nouser := match u_User u with None => true | Some _ => false end in
  if negb (String.eqb (u_Scheme u) "") || negb (String.eqb (u_Host u) "") || negb nouser then
    if u_OmitHost u && String.eqb (u_Host u) "" && nouser then ""
    else
      (if negb (String.eqb (u_Host u) "") || negb (String.eqb (u_Path u) "") || negb nouser
       then "//" else "") +:+ user_string (u_User u) +:+ escape_host (u_Host u)
  else "".

Definition URL_String (u : URL) : string :=
  let scheme := if String.eqb (u_Scheme u) "" then "" else u_Scheme u +:+ ":" in
  let hier :=
    if negb (String.eqb (u_Opaque u) "") then u_Opaque u
    else
      let path := URL_EscapedPath u in
      let path := if negb (String.eqb path "") && negb (HasPrefix path "/")
                     && negb (String.eqb (u_Host u) "") then "/" +:+ path else path in
      let head := scheme +:+ authority_string u in
      let colon := match Cut path "/" with Some (s, _) => Contains s ":" | None => Contains path ":" end in
      authority_string u +:+ (if String.eqb head "" && colon then "./" else "") +:+ path in
  scheme +:+ hier
  +:+ (if u_ForceQuery u || negb (String.eqb (u_RawQuery u) "") then "?" +:+ u_RawQuery u else "")
  +:+ fragment_string u.

Definition splitHostPort (hostPort : string) : string * string :=
  let (host, port) :=
    match cut_last ":" hostPort with
    | Some (h, p) => if all_digits p then (h, p) else (hostPort, "")
    | None => (hostPort, "")
    end in
  (if HasPrefix host "[" && HasSuffix host "]" then TrimSuffix (TrimPrefix host "[") "]" else host,
   port).

Definition Hostname (u : URL) : string := (splitHostPort (u_Host u)).1.
Definition Port (u : URL) : string := (splitHostPort (u_Host u)).2.

Example Parse_examples :
  (u_Host <$> Parse "https://s3.example.com:443/") = Some "s3.example.com:443" /\
  (u_Host <$> Parse "http://[fe80::1%25en0]:80") = Some "[fe80::1%en0]:80" /\
  Parse "http://a:b:80" = None /\ Parse "http://[::1" = None /\ Parse "http://[1.2.3.4]" = None /\
  Parse "http://a%41b" = None /\ (u_Opaque <$> Parse "http:x") = Some "x" /\
  (URL_String <$> Parse "HTTP://u:p@h/a%2Fb%20c?x=1#f") = Some "http://u:p@h/a%2Fb%20c?x=1#f" /\
  (Hostname <$> Parse "http://[::1]:80/") = Some "::1" /\ (Port <$> Parse "http://h") = Some "".
Proof. vm_compute. repeat split; reflexivity. Qed.
