(* ===== verification/GoURLLaws.v ===== *)
(** * GoURLLaws: what the printed form of a URL parses back to *)
From S2P Require Import Prelude GoStrings GoUrl GoHttp GoNet GoURLs.

(** ** Bytes *)

Lemma pct_head c s : unescape_host false (pct c +:+ s) =
  let x := byte_val c / 16 in
  match unescape_host false s with
  | Some t => if (x <? 8) && negb (Ascii.eqb c "%") then None else Some (String c t)
  | None => None
  end.
Proof.
  unfold pct. rewrite !app_cons_str, app_nil_l_str. cbn [unescape_host].
  pose proof (byte_val_range c).
  rewrite !unhex_upperhex by (split; [apply Z.div_pos || apply Z.mod_pos_bound; lia|];
      (apply Z.div_lt_upper_bound || apply Z.mod_pos_bound); lia).
  destruct (unescape_host false s); [|done]. cbv zeta. cbn [negb andb].
  assert (Ascii.eqb (upperhex (byte_val c / 16)) "2" && Ascii.eqb (upperhex (byte_val c mod 16)) "5"
          = Ascii.eqb c "%") as -> by by destruct c as [[] [] [] [] [] [] [] []].
  by rewrite <-Z.div_mod, byte_chr_val by lia.
Qed.

(** The bytes of a host that its escaped form keeps: no percent, no opening bracket. *)
Definition host_byte (c : ascii) : bool :=
  (host_safe c && negb (Ascii.eqb c "[")) || negb (is_ascii c).

Lemma host_safe_ascii c : host_safe c = true -> is_ascii c = true.
Proof. destruct c as [[] [] [] [] [] [] [] []]; vm_compute; congruence. Qed.

(** The bytes of an escaped host. *)
Definition escaped_byte (c : ascii) : bool :=
  is_ascii c && negb (is_ctl c)
  && negb (existsb (Ascii.eqb c) ["#"; "?"; "/"; "@"]%char).

Lemma upperhex_escaped z : 0 <= z < 16 -> escaped_byte (upperhex z) = true /\
  Ascii.eqb (upperhex z) ":" = false /\ Ascii.eqb (upperhex z) "[" = false.
Proof.
  intros Hz. assert (Forall (fun z => escaped_byte (upperhex z) = true /\
    Ascii.eqb (upperhex z) ":" = false /\ Ascii.eqb (upperhex z) "[" = false) (seqZ 0 16)) as Hall
    by (apply (bool_decide_unpack _); vm_compute; exact I).
  rewrite Forall_forall in Hall. apply Hall, elem_of_seqZ. lia.
Qed.

Lemma nibbles c : 0 <= byte_val c / 16 < 16 /\ 0 <= byte_val c mod 16 < 16.
Proof.
  pose proof (byte_val_range c). split; [|apply Z.mod_pos_bound; lia].
  split; [apply Z.div_pos; lia|apply Z.div_lt_upper_bound; lia].
Qed.

(** Whatever predicate the kept bytes, the percent sign and the upper-case digits have,
    the escaped text has. *)
Lemma escape_with_forallb (safe f : ascii -> bool) s :
  (forall c, safe c = true -> f c = true) -> f "%"%char = true ->
  (forall z, 0 <= z < 16 -> f (upperhex z) = true) ->
  str_forallb f (escape_with safe s) = true.
Proof.
  intros Hs Hp Hh. induction s as [|c s IH]; [done|]. cbn [escape_with].
  rewrite str_forallb_app, IH, andb_true_r. destruct (safe c) eqn:E.
  - simpl. by rewrite Hs.
  - unfold pct. simpl. destruct (nibbles c). rewrite Hp, !Hh by done. done.
Qed.

Lemma escape_host_with s : escape_host s = escape_with host_safe s.
Proof. induction s as [|c s IH]; [done|]. cbn. by rewrite IH. Qed.

Lemma escape_path_with s : escape_path s = escape_with path_safe s.
Proof. induction s as [|c s IH]; [done|]. cbn. by rewrite IH. Qed.

Lemma escape_with_safe safe s : str_forallb safe s = true -> escape_with safe s = s.
Proof.
  induction s as [|c s IH]; [done|]. cbn. intros [-> ->%IH]%andb_true_iff. done.
Qed.

Lemma escape_with_app safe s t : escape_with safe (s +:+ t) = escape_with safe s +:+ escape_with safe t.
Proof.
  induction s as [|c s IH]; [done|]. rewrite app_cons_str. cbn. by rewrite IH, app_assoc_str.
Qed.

Lemma escape_host_bytes s : str_forallb escaped_byte (escape_host s) = true.
Proof.
  rewrite escape_host_with. apply escape_with_forallb; [|done|apply upperhex_escaped].
  intros c. destruct c as [[] [] [] [] [] [] [] []]; vm_compute; congruence.
Qed.

Definition path_byte (c : ascii) : bool :=
  is_ascii c && negb (is_ctl c) && negb (existsb (Ascii.eqb c) ["#"; "?"]%char).

Lemma escape_path_bytes s : str_forallb path_byte (escape_path s) = true.
Proof.
  rewrite escape_path_with. apply escape_with_forallb; [|done|].
  - intros c. destruct c as [[] [] [] [] [] [] [] []]; vm_compute; congruence.
  - intros z Hz. destruct (upperhex_escaped z Hz) as [He _]. unfold escaped_byte, path_byte in *.
    cbn [existsb] in *. bool_to_prop. by rewrite H, H1, H2, H0.
Qed.

Lemma unescape_escape_host s :
  str_forallb host_byte s = true -> unescape_host false (escape_host s) = Some s.
Proof.
  induction s as [|c s IH]; [done|]. cbn [str_forallb escape_host].
  intros [Hc Hs]%andb_true_iff. specialize (IH Hs). destruct (host_safe c) eqn:E.
  - rewrite app_cons_str, app_nil_l_str.
    assert (unescape_host false (String c (escape_host s)) =
      if is_ascii c && negb (host_safe c) then None
      else String c <$> unescape_host false (escape_host s)) as ->.
    { destruct c as [[] [] [] [] [] [] [] []]; try done; by vm_compute in E. }
    by rewrite E, andb_false_r, IH.
  - rewrite pct_head, IH. unfold host_byte in Hc. rewrite E in Hc. simpl in Hc.
    cbv zeta.
    assert ((byte_val c / 16 <? 8) = false) as ->; [|done].
    unfold is_ascii in Hc. bool_to_prop. apply Z.ltb_ge.
    apply Z.div_le_lower_bound; lia.
Qed.

(** ** Cutting at the last occurrence *)

Lemma cut_last_Some sep s a b :
  cut_last sep s = Some (a, b) ->
  s = a +:+ String sep b /\ str_forallb (fun c => negb (Ascii.eqb c sep)) b = true.
Proof.
  revert a. induction s as [|c s IH]; intros a; [done|]. cbn.
  destruct (cut_last sep s) as [[a' b']|] eqn:E.
  - intros [= <- <-]. destruct (IH a' eq_refl) as [-> Hb]. by rewrite app_cons_str.
  - destruct (Ascii.eqb_spec c sep) as [->|]; [|done]. intros [= <- <-]. split; [done|].
    clear IH. induction s as [|d s IHs]; [done|]. cbn in *.
    destruct (cut_last sep s) as [[]|]; [done|].
    destruct (Ascii.eqb d sep); [done|]. by rewrite IHs.
Qed.

Lemma cut_last_none sep s :
  str_forallb (fun c => negb (Ascii.eqb c sep)) s = true <-> cut_last sep s = None.
Proof.
  induction s as [|c s IH]; [done|]. cbn. destruct (cut_last sep s) as [[]|].
  - split; [|done]. intros [_ H]%andb_true_iff. by apply IH in H.
  - rewrite (proj2 IH eq_refl), andb_true_r. by destruct (Ascii.eqb c sep).
Qed.

Lemma cut_last_app sep a b :
  str_forallb (fun c => negb (Ascii.eqb c sep)) b = true ->
  cut_last sep (a +:+ String sep b) = Some (a, b).
Proof.
  intros Hb. induction a as [|c a IH].
  - rewrite app_nil_l_str. cbn. by rewrite (proj1 (cut_last_none sep b) Hb), Ascii.eqb_refl.
  - rewrite app_cons_str. cbn. by rewrite IH.
Qed.

(** ** The bytes of an IPv6 literal *)

Definition ip6_byte (c : ascii) : bool := is_hex c || Ascii.eqb c ":" || Ascii.eqb c ".".

Lemma span_hex_split s : let (n, rest) := span_hex s in
  exists h, s = h +:+ rest /\ str_forallb is_hex h = true.
Proof.
  induction s as [|c s IH]; [by exists ""|]. cbn. destruct (is_hex c) eqn:E.
  - destruct (span_hex s) as [n r]. destruct IH as (h & -> & Hh). exists (String c h).
    rewrite app_cons_str. cbn. by rewrite E.
  - by exists "".
Qed.

Lemma str_forallb_Join f l sep :
  Forall (fun s => str_forallb f s = true) l -> str_forallb f sep = true ->
  str_forallb f (Join l sep) = true.
Proof.
  intros Hl Hs. induction Hl as [|s l Hx Hl IH]; [done|]. destruct l as [|s' l]; [done|].
  rewrite Join_cons by done. by rewrite !str_forallb_app, Hx, Hs, IH.
Qed.

Lemma octet_ok_digits s : octet_ok s = true -> str_forallb is_hex s = true.
Proof.
  assert (forall c, in_range 48 57 (byte_val c) = true -> is_hex c = true) as Hd.
  { intros c Hc. unfold is_hex. by rewrite Hc. }
  assert (forall s, str_forallb (fun c => in_range 48 57 (byte_val c)) s
    && (String.length s <=? 3)%nat
    && match ParseInt s with Some v => v <=? 255 | None => false end = true ->
    str_forallb is_hex s = true) as Hgen.
  { intros t Ht. bool_to_prop. eapply str_forallb_impl; [apply Hd|done]. }
  destruct s as [|c s]; [done|]. intros H.
  destruct (Ascii.eqb_spec c "0") as [->|Hc].
  - by destruct s.
  - apply Hgen. destruct c as [[] [] [] [] [] [] [] []]; try exact H; by destruct Hc.
Qed.

Lemma is_ipv4_bytes s : is_ipv4 s = true -> str_forallb ip6_byte s = true.
Proof.
  unfold is_ipv4. cbv zeta. intros [_ H]%andb_true_iff.
  rewrite <-(Join_Split s ".") by done. apply str_forallb_Join; [|done].
  pose proof (proj1 (forallb_elem_of _ _) H) as Ho. apply Forall_forall. intros t Ht.
  eapply str_forallb_impl; [|by apply octet_ok_digits, Ho].
  intros c Hc. unfold ip6_byte. by rewrite Hc.
Qed.

Lemma ipv6_groups_bytes fuel i e s r :
  ipv6_groups fuel i e s = Some r -> str_forallb ip6_byte s = true.
Proof.
  assert (forall c, is_hex c = true -> ip6_byte c = true) as Hh
    by by (intros c Hc; unfold ip6_byte; rewrite Hc).
  revert i e s. induction fuel as [|fuel IH]; intros i e s; [done|]. cbn [ipv6_groups].
  destruct (16 <=? i)%nat; [destruct (String.eqb_spec s ""); [by subst|done]|].
  pose proof (span_hex_split s) as Hs. destruct (span_hex s) as [off rest].
  destruct Hs as (h & -> & Hx). destruct (_ || _); [done|].
  intros H. rewrite str_forallb_app, (str_forallb_impl _ _ _ Hh Hx), andb_true_l.
  assert (is_ipv4 (h +:+ rest) = true -> str_forallb ip6_byte rest = true) as H4.
  { intros H4%is_ipv4_bytes. rewrite str_forallb_app in H4. by apply andb_true_iff in H4 as [_ ?]. }
  destruct rest as [|c rest]; [done|].
  destruct (Ascii.eqb_spec c ".") as [->|Hdot].
  { destruct (_ && _); [done|]. destruct (_ <? _)%nat; [done|].
    destruct (is_ipv4 _) eqn:E; [|done]. auto. }
  destruct (Ascii.eqb_spec c ":") as [->|Hcol].
  2:{ exfalso. destruct c as [[] [] [] [] [] [] [] []]; try discriminate H; by (destruct Hcol || destruct Hdot). }
  cbn. destruct rest as [|d rest]; [done|].
  destruct (Ascii.eqb_spec d ":") as [->|Hd].
  - destruct e; [done|]. destruct (String.eqb_spec rest ""); [by subst|]. cbn. by eapply IH.
  - assert (ipv6_groups fuel (i + 2) e (String d rest) = Some r) as Hr; [|by eapply IH].
    destruct d as [[] [] [] [] [] [] [] []]; try exact H; by destruct Hd.
Qed.

Lemma is_ipv6_bytes s : is_ipv6 s = true -> str_forallb ip6_byte s = true.
Proof.
  unfold is_ipv6. cbv zeta. intros H.
  assert (str_forallb ip6_byte (if HasPrefix s "::" then str_drop 2 s else s) = true) as Hb.
  { revert H. generalize (if HasPrefix s "::" then str_drop 2 s else s). intros t H.
    destruct (String.eqb_spec t "") as [Ht|_]; [by rewrite Ht|]. rewrite andb_false_r in H.
    destruct (ipv6_groups 9 0 (HasPrefix s "::") t) as [r|] eqn:E; [|done].
    by apply ipv6_groups_bytes in E. }
  destruct (HasPrefix s "::") eqn:E; [|done]. apply HasPrefix_true in E as [t ->].
  change (str_drop 2 ("::" +:+ t)) with t in Hb. by rewrite str_forallb_app, Hb.
Qed.

(** ** The hosts that survive printing *)

Definition plain_host (h : string) : Prop :=
  str_forallb host_byte h = true /\
  (forall a p, Cut h ":" = Some (a, p) -> all_digits p = true).

Definition literal_host (h : string) : Prop :=
  exists name port, h = "[" +:+ name +:+ "]" +:+ port /\ ip_family name = Some true /\
    is_ipv6 name = true /\ validOptionalPort port = true.

Definition stable_host (h : string) : Prop := plain_host h \/ literal_host h.

Definition no_percent (s : string) : bool := str_forallb (fun c => negb (Ascii.eqb c "%")) s.

Lemma no_percent_Cut s t : no_percent s = true -> Cut s (String "%" t) = None.
Proof.
  intros Hs. apply Cut_None. unfold no_percent in Hs. induction s as [|c s IH]; [done|].
  cbn [str_forallb Contains HasPrefix] in *.
  apply andb_true_iff in Hs as [Hc%negb_true_iff Hs]. rewrite (IH Hs), orb_false_r.
  first [rewrite Hc | rewrite Ascii.eqb_sym, Hc]. done.
Qed.

Lemma validOptionalPort_bytes port :
  validOptionalPort port = true ->
  str_forallb (fun c => in_range 48 58 (byte_val c)) port = true.
Proof.
  destruct port as [|c port]; [done|]. cbn. intros [->%Ascii.eqb_eq Hp]%andb_true_iff.
  cbn. eapply str_forallb_impl; [|exact Hp]. intros d. unfold in_range. lia.
Qed.

Lemma unescape_host_raw zone s :
  str_forallb (fun c => host_safe c && negb (Ascii.eqb c "%")) s = true ->
  unescape_host zone s = Some s.
Proof.
  induction s as [|c s IH]; [done|]. cbn [str_forallb]. intros [Hc Hs]%andb_true_iff.
  bool_to_prop.
  assert (unescape_host zone (String c s) =
    if is_ascii c && negb (host_safe c) then None else String c <$> unescape_host zone s) as ->.
  { destruct c as [[] [] [] [] [] [] [] []]; try done; by vm_compute in H0. }
  by rewrite H, andb_false_r, IH.
Qed.

Lemma digit_raw c : in_range 48 58 (byte_val c) = true -> host_safe c && negb (Ascii.eqb c "%") = true.
Proof. destruct c as [[] [] [] [] [] [] [] []]; vm_compute; congruence. Qed.

Lemma ip6_raw c : ip6_byte c = true -> host_safe c && negb (Ascii.eqb c "%") = true.
Proof. destruct c as [[] [] [] [] [] [] [] []]; vm_compute; congruence. Qed.

Lemma raw_safe s :
  str_forallb (fun c => host_safe c && negb (Ascii.eqb c "%")) s = true -> escape_host s = s.
Proof.
  intros Hs. rewrite escape_host_with. apply escape_with_safe.
  eapply str_forallb_impl; [|exact Hs]. by intros c [? _]%andb_true_iff.
Qed.


(** [unescape_host] byte by byte. *)
Inductive host_reads (zone : bool) : string -> string -> Prop :=
| reads_nil : host_reads zone "" ""
| reads_raw c s t : c <> "%"%char -> is_ascii c && negb (host_safe c) = false ->
    host_reads zone s t -> host_reads zone (String c s) (String c t)
| reads_pct a b x y s t : unhex a = Some x -> unhex b = Some y ->
    (zone = false -> 8 <= x \/ byte_chr (16 * x + y) = "%"%char) ->
    host_reads zone s t ->
    host_reads zone (String "%" (String a (String b s))) (String (byte_chr (16 * x + y)) t).

Lemma unescape_host_reads zone s t : unescape_host zone s = Some t -> host_reads zone s t.
Proof.
  revert t. induction s as [s IH] using (induction_ltof1 _ String.length). unfold ltof in IH.
  intros t. destruct s as [|c s]; [intros [=<-]; constructor|].
  destruct (Ascii.eqb_spec c "%") as [->|Hc].
  - destruct s as [|a [|b s]]; [done|done|]. cbn [unescape_host].
    destruct (unhex a) as [x|] eqn:Ea; [|done]. destruct (unhex b) as [y|] eqn:Eb; [|done].
    destruct (unescape_host zone s) as [u|] eqn:Eu; [|done]. cbv zeta.
    destruct (negb zone && (x <? 8) && negb (Ascii.eqb a "2" && Ascii.eqb b "5")) eqn:E1; [done|].
    case_match; [done|]. intros [= <-]. apply reads_pct; [done|done| |apply IH; [cbn; lia|done]].
    intros ->. cbn in E1. destruct (Z.ltb_spec x 8); [right|by left].
    cbn in E1. apply negb_false_iff, andb_true_iff in E1 as [->%Ascii.eqb_eq ->%Ascii.eqb_eq].
    vm_compute in Ea, Eb. by simplify_eq.
  - assert (unescape_host zone (String c s) =
      if is_ascii c && negb (host_safe c) then None else String c <$> unescape_host zone s) as ->.
    { destruct c as [[] [] [] [] [] [] [] []]; try done; by destruct Hc. }
    destruct (_ && _) eqn:E; [done|]. destruct (unescape_host zone s) as [u|] eqn:Eu; [|done].
    intros [=<-]. apply reads_raw; [done|done|]. apply IH; [cbn; lia|done].
Qed.

Lemma unhex_range a x : unhex a = Some x -> 0 <= x < 16.
Proof.
  unfold unhex, in_range. repeat case_match; intros ?; simplify_eq; bool_to_prop; lia.
Qed.

(** A byte written as an escape that is not a percent sign is not ASCII. *)
Lemma reads_high x y a b :
  unhex a = Some x -> unhex b = Some y -> 8 <= x -> is_ascii (byte_chr (16 * x + y)) = false.
Proof.
  intros ?%unhex_range ?%unhex_range ?. unfold is_ascii. rewrite byte_val_chr by lia.
  apply Z.ltb_ge. lia.
Qed.

Lemma reads_host_bytes s t :
  host_reads false s t -> no_percent t = true ->
  str_forallb (fun c => negb (Ascii.eqb c "[")) s = true -> str_forallb host_byte t = true.
Proof.
  induction 1 as [|c s t Hc Hs _ IH|a b x y s t Ha Hb Hx _ IH]; [done| |];
    cbn [no_percent str_forallb]; fold (no_percent t);
    intros [Hp Ht]%andb_true_iff; cbn [str_forallb].
  - intros [Hn ?]%andb_true_iff. rewrite IH, andb_true_r by done. unfold host_byte.
    rewrite Hn, andb_true_r. apply andb_false_iff in Hs as [->| ->%negb_false_iff]; [|done].
    apply orb_true_r.
  - intros [_ [_ [_ ?]%andb_true_iff]%andb_true_iff]%andb_true_iff. rewrite IH, andb_true_r by done.
    unfold host_byte. destruct Hx as [?|Heq]; [done| |by rewrite Heq in Hp].
    rewrite (reads_high x y a b) by done. apply orb_true_r.
Qed.

Lemma Cut_byte_cons c s sep :
  Cut (String c s) (String sep "") =
  if Ascii.eqb c sep then Some ("", s)
  else match Cut s (String sep "") with Some (a, b) => Some (String c a, b) | None => None end.
Proof.
  cbn [Cut HasPrefix]. rewrite andb_true_r. rewrite (Ascii.eqb_sym sep c).
  by destruct (Ascii.eqb c sep).
Qed.

Lemma reads_Cut_colon s t a p :
  host_reads false s t -> no_percent t = true -> Cut t ":" = Some (a, p) ->
  exists a' p', Cut s ":" = Some (a', p') /\ host_reads false p' p.
Proof.
  intros Hr. revert a. induction Hr as [|c s t Hc Hs Hr IH|x' y' x y s t Ha Hb Hx Hr IH];
    intros a; [done| |]; cbn [no_percent str_forallb]; fold (no_percent t);
    intros [Hp Ht]%andb_true_iff; rewrite !Cut_byte_cons.
  - destruct (Ascii.eqb c ":"); [intros [= <- <-]; eauto|].
    destruct (Cut t ":") as [[b q]|] eqn:E; [|done]. intros [= <- <-].
    destruct (IH b Ht eq_refl) as (a' & p' & -> & ?). eauto.
  - assert (Ascii.eqb (byte_chr (16 * x + y)) ":" = false) as ->.
    { apply Ascii.eqb_neq. intros Heq. destruct Hx as [Hx|Hx]; [done| |congruence].
      pose proof (reads_high x y x' y' Ha Hb Hx) as Hh. by rewrite Heq in Hh. }
    destruct (Cut t ":") as [[b q]|] eqn:E; [|done]. intros [= <- <-].
    destruct (IH b Ht eq_refl) as (a' & p' & Hcut & ?).
    assert (Ascii.eqb x' ":" = false /\ Ascii.eqb y' ":" = false) as [-> ->].
    { split; apply Ascii.eqb_neq; intros ->; by vm_compute in Ha, Hb. }
    rewrite Hcut. eauto.
Qed.

Lemma host_reads_digits s t : host_reads false s t -> all_digits s = true -> t = s.
Proof.
  induction 1 as [|c s t Hc Hs _ IH|a b x y s t Ha Hb Hx _ IH]; [done| |done].
  cbn. intros [_ ->%IH]%andb_true_iff. done.
Qed.

Lemma digits_raw s : all_digits s = true ->
  str_forallb (fun c => host_safe c && negb (Ascii.eqb c "%")) s = true.
Proof.
  apply str_forallb_impl. intros c Hc. apply digit_raw. unfold in_range in *. lia.
Qed.

(** A parsed host without a percent sign. *)
Lemma parseHost_stable raw h :
  parseHost raw = Some h -> no_percent h = true -> stable_host h.
Proof.
  unfold parseHost. destruct (cut_last "[" raw) as [[before after]|] eqn:E.
  - destruct (String.eqb_spec before ""); [|done]. cbn [negb].
    destruct (cut_last "]" after) as [[hostname colonPort]|]; [|done].
    unfold parse_literal. destruct (validOptionalPort colonPort) eqn:Ep; [|done]. cbn [negb]. cbv zeta.
    destruct (unescape_host false colonPort) as [port|] eqn:Eu; [|done].
    rewrite unescape_host_raw in Eu
      by (eapply str_forallb_impl; [apply digit_raw|by apply validOptionalPort_bytes]).
    injection Eu as <-.
    match goal with |- match ?u with _ => _ end = _ -> _ => destruct u as [s|]; [|done] end.
    destruct (is_ip6_literal s) eqn:El; [|done].
    intros [= <-] Hp. right. exists s, colonPort. unfold is_ip6_literal in El.
    destruct (ip_family s) as [[]|]; [|done|done].
    assert (no_percent s = true) as Hs.
    { unfold no_percent in *. rewrite !str_forallb_app in Hp. by bool_to_prop. }
    rewrite no_percent_Cut in El by done. auto.
  - intros Hh Hp.
    assert (unescape_host false raw = Some h) as Hu.
    { destruct (Cut raw ":") as [[a p]|]; [|done]. by destruct (negb _). }
    apply cut_last_none in E. apply unescape_host_reads in Hu. left. split.
    + by eapply reads_host_bytes.
    + intros a p Hc. destruct (reads_Cut_colon raw h a p) as (a' & p' & Hc' & Hr); [done..|].
      rewrite Hc' in Hh.
      destruct (validOptionalPort (":" +:+ p')) eqn:Ev; [|done].
      change (validOptionalPort (":" +:+ p')) with (all_digits p') in Ev.
      by rewrite (host_reads_digits p' p).
Qed.

Lemma Cut_escape_host h :
  Cut (escape_host h) ":" =
  match Cut h ":" with Some (a, p) => Some (escape_host a, escape_host p) | None => None end.
Proof.
  induction h as [|c h IH]; [done|]. cbn [escape_host]. rewrite Cut_byte_cons.
  destruct (host_safe c) eqn:E.
  - rewrite app_cons_str, app_nil_l_str, Cut_byte_cons, IH.
    destruct (Ascii.eqb c ":"); [done|]. destruct (Cut h ":") as [[a p]|]; [|done].
    cbn [escape_host]. by rewrite E.
  - assert (Ascii.eqb c ":" = false) as ->.
    { apply Ascii.eqb_neq. intros ->. by vm_compute in E. }
    unfold pct. rewrite !app_cons_str, app_nil_l_str, !Cut_byte_cons. destruct (nibbles c) as [H1 H2].
    destruct (upperhex_escaped _ H1) as (_ & -> & _). destruct (upperhex_escaped _ H2) as (_ & -> & _).
    cbn [Ascii.eqb Bool.eqb]. rewrite IH. destruct (Cut h ":") as [[a p]|]; [|done].
    cbn [escape_host]. rewrite E. unfold pct. by rewrite !app_cons_str, app_nil_l_str.
Qed.

Lemma escape_host_bracket h :
  str_forallb host_byte h = true -> str_forallb (fun c => negb (Ascii.eqb c "[")) (escape_host h) = true.
Proof.
  induction h as [|c h IH]; [done|]. cbn [str_forallb escape_host]. intros [Hc Hh]%andb_true_iff.
  rewrite str_forallb_app, IH, andb_true_r by done. destruct (host_safe c) eqn:E.
  - cbn. rewrite andb_true_r. unfold host_byte in Hc. rewrite (host_safe_ascii c E), E in Hc.
    by rewrite orb_false_r in Hc.
  - unfold pct. cbn [str_forallb]. destruct (nibbles c) as [H1 H2].
    destruct (upperhex_escaped _ H1) as (_ & _ & ->).
    by destruct (upperhex_escaped _ H2) as (_ & _ & ->).
Qed.

Lemma parseHost_escape h : stable_host h -> parseHost (escape_host h) = Some h.
Proof.
  intros [[Hb Hc]|(name & port & -> & Hf & H6 & Hp)]; unfold parseHost.
  - rewrite (proj1 (cut_last_none _ _) (escape_host_bracket h Hb)), Cut_escape_host.
    rewrite (unescape_escape_host h Hb).
    destruct (Cut h ":") as [[a p]|] eqn:E; [|done].
    rewrite raw_safe by by eapply digits_raw, Hc.
    change (validOptionalPort (":" +:+ p)) with (all_digits p). by rewrite (Hc a p).
  - pose proof (validOptionalPort_bytes port Hp) as Hpb.
    pose proof (is_ipv6_bytes name H6) as Hnb.
    assert (str_forallb (fun c => host_safe c && negb (Ascii.eqb c "%")) name = true) as Hn
      by (eapply str_forallb_impl; [apply ip6_raw|done]).
    assert (str_forallb (fun c => host_safe c && negb (Ascii.eqb c "%")) port = true) as Hpr
      by (eapply str_forallb_impl; [apply digit_raw|done]).
    rewrite raw_safe by by rewrite !str_forallb_app, Hn, Hpr.
    change ("[" +:+ name +:+ "]" +:+ port) with ("" +:+ String "[" (name +:+ "]" +:+ port)).
    rewrite cut_last_app.
    2:{ rewrite !str_forallb_app. apply andb_true_iff; split; [|apply andb_true_iff; split];
          [eapply str_forallb_impl; [|exact Hnb]|done|eapply str_forallb_impl; [|exact Hpb]];
          intros c; destruct c as [[] [] [] [] [] [] [] []]; vm_compute; congruence. }
    cbn [String.eqb negb]. change (name +:+ "]" +:+ port) with (name +:+ String "]" port).
    rewrite cut_last_app by (eapply str_forallb_impl; [|exact Hpb];
      intros c; destruct c as [[] [] [] [] [] [] [] []]; vm_compute; congruence).
    unfold parse_literal. rewrite Hp, no_percent_Cut by
      (eapply str_forallb_impl; [|exact Hn]; by intros c [_ ?]%andb_true_iff).
    cbn [negb]. cbv zeta. rewrite (unescape_host_raw false port Hpr), (unescape_host_raw false name Hn).
    unfold is_ip6_literal. rewrite Hf, no_percent_Cut, H6; [done|].
    eapply str_forallb_impl; [|exact Hn]. by intros c [_ ?]%andb_true_iff.
Qed.

(** ** Printing and parsing a URL with a host *)

Definition http_url (scheme host path query : string) : URL :=
  mkURL scheme "" None host path "" false false query "" "".

Definition query_text (query : string) : string :=
  if String.eqb query "" then "" else "?" +:+ query.

(** The bytes a query may have: no number sign, no control byte. *)
Definition query_byte (c : ascii) : bool := negb (is_ctl c) && negb (Ascii.eqb c "#").

Definition rooted (path : string) : Prop := path = "" \/ HasPrefix path "/" = true.

Lemma escape_path_rooted path : rooted path -> rooted (escape_path path).
Proof.
  intros [->|[t ->]%HasPrefix_true]; [by left|]. right. change ("/" +:+ t) with (String "/" t).
  cbn [escape_path]. change (path_safe "/") with true. cbn iota. rewrite app_cons_str.
  by apply (HasPrefix_app "/").
Qed.

Lemma EscapedPath_rooted path : rooted path -> EscapedPath path = escape_path path.
Proof. unfold EscapedPath. by intros [->|[t ->]%HasPrefix_true]. Qed.

Lemma http_url_String scheme host path query :
  scheme <> "" -> host <> "" -> rooted path ->
  URL_String (http_url scheme host path query) =
  scheme +:+ "://" +:+ escape_host host +:+ escape_path path +:+ query_text query.
Proof.
  intros Hs Hh Hp. unfold URL_String, authority_string, URL_EscapedPath, fragment_string, http_url.
  cbn [u_Scheme u_Opaque u_User u_Host u_Path u_RawPath u_OmitHost u_ForceQuery u_RawQuery
       u_Fragment u_RawFragment].
  rewrite (proj2 (String.eqb_neq scheme "") Hs), (proj2 (String.eqb_neq host "") Hh).
  cbn [negb andb orb String.eqb user_string]. rewrite (EscapedPath_rooted path Hp).
  assert ((if negb (String.eqb (escape_path path) "") && negb (HasPrefix (escape_path path) "/")
           && true then "/" +:+ escape_path path else escape_path path) = escape_path path) as ->.
  { destruct (escape_path_rooted path Hp) as [->| ->]; [done|]. by rewrite andb_false_r. }
  assert (String.eqb ((scheme +:+ ":") +:+ "//" +:+ "" +:+ escape_host host) "" = false) as ->.
  { apply String.eqb_neq. rewrite app_assoc_str. by destruct scheme. }
  cbn [andb]. unfold query_text. destruct (String.eqb query ""); cbn [negb];
    by rewrite !app_nil_l_str, ?app_nil_r_str, !app_assoc_str.
Qed.

Lemma forallb_no_ctl f s :
  (forall c, f c = true -> is_ctl c = false) -> str_forallb f s = true -> contains_ctl s = false.
Proof.
  intros Hf Hs. unfold contains_ctl. apply negb_false_iff. eapply str_forallb_impl; [|exact Hs].
  intros c Hc. by rewrite Hf.
Qed.

Lemma contains_ctl_app s t : contains_ctl (s +:+ t) = contains_ctl s || contains_ctl t.
Proof. unfold contains_ctl. rewrite str_forallb_app. by destruct (str_forallb _ s). Qed.

Lemma no_byte_Cut_app f s (c : ascii) t :
  str_forallb f s = true -> f c = false -> Cut (s +:+ String c t) (String c "") = Some (s, t).
Proof. intros Hs Hc. apply Cut_app_byte. by eapply Contains_byte_forallb. Qed.

Lemma no_byte_Cut f s (c : ascii) :
  str_forallb f s = true -> f c = false -> Cut s (String c "") = None.
Proof. intros Hs Hc. apply Cut_None. by eapply Contains_byte_forallb. Qed.

Definition is_http (scheme : string) : Prop := scheme = "http" \/ scheme = "https".

Lemma getScheme_http scheme rest :
  is_http scheme -> getScheme (scheme +:+ "://" +:+ rest) = Some (scheme, "//" +:+ rest).
Proof. by intros [->| ->]. Qed.

Ltac each_byte :=
  eapply str_forallb_impl; [|apply escape_host_bytes || apply escape_path_bytes];
  let c := fresh in intros c; destruct c as [[] [] [] [] [] [] [] []]; vm_compute; congruence.

Lemma url_tail_bytes host path query :
  str_forallb query_byte query = true ->
  str_forallb query_byte (escape_host host +:+ escape_path path +:+ query_text query) = true.
Proof.
  intros Hq. rewrite !str_forallb_app. apply andb_true_iff; split; [|apply andb_true_iff; split].
  - each_byte.
  - each_byte.
  - unfold query_text. by destruct (String.eqb query "").
Qed.

Lemma cut_query_text host path query :
  cut_query ("//" +:+ escape_host host +:+ escape_path path +:+ query_text query) =
  ("//" +:+ escape_host host +:+ escape_path path, false, query).
Proof.
  assert (str_forallb path_byte ("//" +:+ escape_host host +:+ escape_path path) = true) as Hno.
  { rewrite !str_forallb_app, escape_path_bytes, andb_true_r. cbn [str_forallb]. simpl. each_byte. }
  unfold cut_query, query_text. destruct (String.eqb_spec query "") as [->|Hne].
  - rewrite app_nil_r_str. by rewrite (no_byte_Cut path_byte) by done.
  - rewrite <-!app_assoc_str, app_assoc_str. change ("?" +:+ query) with (String "?" query).
    rewrite !app_assoc_str in *. rewrite <-app_assoc_str, <-app_assoc_str.
    rewrite (no_byte_Cut_app path_byte); [|by rewrite !app_assoc_str|done].
    rewrite app_assoc_str. by destruct query.
Qed.

Lemma cut_authority host path :
  rooted path ->
  match Cut (escape_host host +:+ escape_path path) "/" with
  | Some (a, p) => (a, "/" +:+ p)
  | None => (escape_host host +:+ escape_path path, "")
  end = (escape_host host, escape_path path).
Proof.
  intros Hp. destruct (escape_path_rooted path Hp) as [->|[t ->]%HasPrefix_true].
  - rewrite app_nil_r_str. by rewrite (no_byte_Cut escaped_byte) by (done || apply escape_host_bytes).
  - change ("/" +:+ t) with (String "/" t).
    by rewrite (no_byte_Cut_app escaped_byte) by (done || apply escape_host_bytes).
Qed.

Lemma Parse_http_url scheme host path query :
  is_http scheme -> host <> "" -> stable_host host -> rooted path ->
  str_forallb query_byte query = true ->
  Parse (URL_String (http_url scheme host path query)) = Some (http_url scheme host path query).
Proof.
  intros Hs Hh Hst Hp Hq.
  rewrite http_url_String by (done || by destruct Hs as [->| ->]).
  set (tail := escape_host host +:+ escape_path path +:+ query_text query).
  assert (str_forallb query_byte tail = true) as Ht by by apply url_tail_bytes.
  unfold Parse.
  assert (str_forallb query_byte (scheme +:+ "://" +:+ tail) = true) as Hall.
  { rewrite !str_forallb_app, Ht. by destruct Hs as [->| ->]. }
  rewrite (no_byte_Cut query_byte) by done. unfold parse_url.
  rewrite (forallb_no_ctl query_byte) by
    (try done; intros c [?%negb_true_iff _]%andb_true_iff; done).
  rewrite getScheme_http by done.
  replace (String.eqb (scheme +:+ "://" +:+ tail) "*") with false
    by by destruct Hs as [->| ->].
  rewrite andb_false_r.
  assert (ToLower scheme = scheme) as -> by by destruct Hs as [->| ->].
  unfold tail. rewrite cut_query_text.
  cbn iota. replace (String.eqb scheme "") with false by by destruct Hs as [->| ->].
  change ("//" +:+ escape_host host +:+ escape_path path)
    with (String "/" (String "/" (escape_host host +:+ escape_path path))).
  cbn [HasPrefix Ascii.eqb Bool.eqb negb andb orb str_drop].
  rewrite cut_authority by done.
  unfold parseAuthority. rewrite (proj1 (cut_last_none "@" (escape_host host))).
  2:{ each_byte. }
  rewrite (parseHost_escape host Hst). cbn [fmap option_fmap option_map].
  unfold set_path. rewrite PathUnescape_escape_path, String.eqb_refl. done.
Qed.
