(* ===== verification/Mapping.v ===== *)
(** * Mapping: backend mappings and bucket resolution ([http_server/vbucket.go])

    [NormalizeVBucketConfig] admits a control-plane mapping in canonical form;
    [resolveBucket] reads the virtual bucket and the key from the host and the path. *)
From S2P Require Import Prelude GoStrings GoUrl GoHttp GoNet GoURLs GoURLLaws Names CopySource.
From S2P Require Import Crypto Token.

(** ** Mappings *)

(** A mapping is a value here, so the copy of its key is the key. *)
Definition Clone (c : option VBucketConfig) : option VBucketConfig := c.

Definition endpoint_ok (u : URL) : result string unit :=
  reject negb (String.eqb (u_Scheme u) "http" || String.eqb (u_Scheme u) "https")
         || String.eqb (u_Host u) "" || String.eqb (Hostname u) ""
    with "real endpoint must be an absolute HTTP(S) URL" ;;
  reject match u_User u with Some _ => true | None => false end
         || negb (String.eqb (u_Path u) "" || String.eqb (u_Path u) "/")
         || negb (String.eqb (u_RawPath u) "") || negb (String.eqb (u_RawQuery u) "")
         || u_ForceQuery u || negb (String.eqb (u_Fragment u) "")
    with "real endpoint must not contain credentials, path, query, or fragment" ;;
  Ok tt.

Definition port_ok (u : URL) : result string unit :=
  let port := Port u in
  if negb (String.eqb port "") then
    match Atoi port with
    | None => Err "real endpoint port must be from 1 through 65535"
    | Some portNumber =>
        reject (portNumber <? 1) || (65535 <? portNumber)
          with "real endpoint port must be from 1 through 65535" ;;
        Ok tt
    end
  else reject HasSuffix (u_Host u) ":" with "real endpoint port is empty" ;; Ok tt.

Definition normalize_endpoint (raw : string) (usePathStyle : bool) : result string string :=
  let endpoint := TrimSpace raw in
  reject String.eqb endpoint "" with "real endpoint is required" ;;
  let endpoint := if negb (Contains endpoint "://") then "https://" +:+ endpoint else endpoint in
  match Parse endpoint with
  | None => Err "parse real endpoint"
  | Some u =>
      let? _ := endpoint_ok u in
      reject match ParseRequestURI ("//" +:+ u_Host u) with None => true | Some _ => false end
        with "real endpoint host is invalid" ;;
      reject negb usePathStyle && is_ip (Hostname u)
        with "virtual-hosted addressing requires a DNS endpoint; IP endpoints must use path style" ;;
      let? _ := port_ok u in
      let u := mkURL (u_Scheme u) (u_Opaque u) (u_User u) (u_Host u) "" "" (u_OmitHost u)
                 (u_ForceQuery u) (u_RawQuery u) (u_Fragment u) (u_RawFragment u) in
      Ok (TrimSuffix (URL_String u) "/")
  end.

Definition unsafe_segment (segment : string) : bool :=
  String.eqb segment "" || String.eqb segment "." || String.eqb segment ".."
  || Contains segment "\" || negb (noASCIIControls segment).

Definition normalize_prefix (raw : string) : result string string :=
  let prefix := Trim raw "/" in
  reject negb (String.eqb prefix "") && existsb unsafe_segment (Split prefix "/")
    with "path prefix contains an unsafe segment" ;;
  Ok prefix.

Definition with_codec (codec : option opaqueTokenCipher) (c : VBucketConfig) : VBucketConfig :=
  mkVBucketConfig (RealEndpoint c) (RealBucket c) (RealAccessKey c) (RealSecretKey c)
    (RealRegion c) (PathPrefix c) (RealUsePathStyle c) (RoutingTokenKey c) codec.

Definition NormalizeVBucketConfig (cfg : option VBucketConfig) : result string VBucketConfig :=
  match Clone cfg with
  | None => Err "vbucket mapping is required"
  | Some c =>
      reject negb (str_len (RoutingTokenKey c) =? 32)
        with "routing token key must be exactly 32 bytes" ;;
      let? endpoint := normalize_endpoint (RealEndpoint c) (RealUsePathStyle c) in
      let bucket := TrimSpace (RealBucket c) in
      reject negb (isValidBucketName bucket) with "real bucket is invalid" ;;
      reject negb (accessKeyIDPattern (RealAccessKey c)) || negb (printableASCII (RealSecretKey c))
        with "real credentials are required" ;;
      let region := TrimSpace (RealRegion c) in
      reject negb (backendRegionPattern region) with "real region is required" ;;
      let? prefix := normalize_prefix (PathPrefix c) in
      let normalized :=
        mkVBucketConfig endpoint bucket (RealAccessKey c) (RealSecretKey c) region prefix
          (RealUsePathStyle c) (RoutingTokenKey c) (routingTokenCodec c) in
      let fresh :=
        match newOpaqueTokenCipher (Some normalized) with
        | Ok codec => Ok (with_codec (Some codec) normalized)
        | Err _ => Err "initialize routing token codec"
        end in
      match routingTokenCodec normalized with
      | Some codec => if cipher_matches codec normalized then Ok normalized else fresh
      | None => fresh
      end
  end.

(** ** Bucket resolution *)

(** The host that is looked up in the registry of base hosts. *)
Definition resolve_host (r : HttpRequest) : string :=
  let host := r_Host r in
  let host :=
    match SplitHostPort host with
    | Some (parsedHost, _) => parsedHost
    | None => if HasPrefix host "[" && HasSuffix host "]" then Trim host "[]" else host
    end in
  ToLower (TrimSuffix host ".").

(** Bucket, key, and whether the request is virtual-hosted, from the registry's answer. *)
Definition resolve_path (host baseHost : string) (found : bool) (r : HttpRequest)
    : string * string * bool :=
  if found && negb (String.eqb host baseHost) then
    (TrimSuffix host ("." +:+ baseHost), TrimPrefix (r_Path r) "/", true)
  else
    match Cut (TrimPrefix (r_Path r) "/") "/" with
    | Some (bucket, objectKey) => (bucket, objectKey, false)
    | None => (TrimPrefix (r_Path r) "/", "", false)
    end.

(** ** What an admitted mapping is *)

(** An endpoint in canonical form. *)
Definition canonical_endpoint (endpoint : string) (usePathStyle : bool) (scheme host : string)
  : Prop :=
  endpoint = scheme +:+ "://" +:+ escape_host host /\ is_http scheme /\ host <> "" /\
  (exists raw, parseHost raw = Some host) /\
  (usePathStyle = false -> is_ip (splitHostPort host).1 = false).

Record mapping_wf (c : VBucketConfig) : Prop := {
  mw_key : str_len (RoutingTokenKey c) = 32;
  mw_endpoint : exists scheme host,
    canonical_endpoint (RealEndpoint c) (RealUsePathStyle c) scheme host;
  mw_bucket : isValidBucketName (RealBucket c) = true;
  mw_access : accessKeyIDPattern (RealAccessKey c) = true;
  mw_secret : printableASCII (RealSecretKey c) = true;
  mw_region : backendRegionPattern (RealRegion c) = true;
  mw_prefix : PathPrefix c <> "" ->
    Forall (fun s => unsafe_segment s = false) (Split (PathPrefix c) "/");
  mw_codec : exists codec, routingTokenCodec c = Some codec /\ cipher_matches codec c = true
}.

(** ** The endpoint *)

Lemma set_path_fields p u v :
  set_path p u = Some v ->
  u_Host v = u_Host u /\ u_Opaque v = u_Opaque u.
Proof. unfold set_path. destruct (PathUnescape p); [|done]. by intros [= <-]. Qed.

Lemma parseAuthority_host authority user host :
  parseAuthority authority = Some (user, host) -> exists raw, parseHost raw = Some host.
Proof.
  unfold parseAuthority. destruct (cut_last "@" authority) as [[info raw]|].
  - destruct (parseHost raw) eqn:E; [|done]. destruct (parse_userinfo info); [|done].
    intros [= <- <-]. eauto.
  - destruct (parseHost authority) eqn:E; [|done]. intros [= <- <-]. eauto.
Qed.

Lemma parse_url_host raw via u :
  parse_url raw via = Some u -> u_Host u <> "" ->
  u_Opaque u = "" /\ exists h, parseHost h = Some (u_Host u).
Proof.
  unfold parse_url. destruct (contains_ctl raw); [done|]. destruct (_ && via); [done|].
  destruct (String.eqb raw "*"); [by intros [= <-]|].
  destruct (getScheme raw) as [[scheme rest]|]; [|done]. cbv zeta.
  destruct (cut_query rest) as [[rest' force] query].
  destruct (negb _ && negb _); [by intros [= <-]|]. destruct (_ && via); [done|].
  destruct (negb _ && _); [done|].
  destruct (_ && HasPrefix rest' "//").
  - destruct (match Cut (str_drop 2 rest') "/" with
              | Some (a, p) => (a, "/" +:+ p)
              | None => (str_drop 2 rest', "")
              end) as [authority path].
    destruct (parseAuthority authority) as [[user host]|] eqn:E; [|done].
    intros [Hh Ho]%set_path_fields _. rewrite Hh, Ho. split; [done|].
    by eapply parseAuthority_host.
  - intros [Hh _]%set_path_fields Hne. by rewrite Hh in Hne.
Qed.

Lemma Parse_host raw u :
  Parse raw = Some u -> u_Host u <> "" ->
  u_Opaque u = "" /\ exists h, parseHost h = Some (u_Host u).
Proof.
  unfold Parse. destruct (Cut raw "#") as [[raw' frag]|]; [|apply parse_url_host].
  destruct (parse_url raw' false) as [v|] eqn:E; [|done].
  destruct (String.eqb frag ""); [intros [= <-]; by eapply parse_url_host|].
  destruct (PathUnescape frag); [|done]. intros [= <-]. by apply (parse_url_host raw' false v).
Qed.

Lemma escape_host_nonempty h : h <> "" -> escape_host h <> "".
Proof. destruct h as [|c h]; [done|]. intros _. cbn. by destruct (host_safe c). Qed.

Lemma endpoint_text scheme host :
  host <> "" ->
  TrimSuffix (scheme +:+ "://" +:+ escape_host host) "/" = scheme +:+ "://" +:+ escape_host host.
Proof.
  intros Hh. unfold TrimSuffix. destruct (HasSuffix _ _) eqn:E; [|done].
  apply HasSuffix_true in E as [t Ht]. exfalso. apply (escape_host_nonempty host Hh).
  assert (scheme +:+ "://" +:+ escape_host host = (scheme +:+ ":/") +:+ String "/" (escape_host host))
    as Hs by by rewrite app_assoc_str.
  pose proof (cut_last_app "/" t "" eq_refl) as H1. change (String "/" "") with "/" in H1.
  rewrite <-Ht, Hs, cut_last_app in H1; [by injection H1|].
  eapply str_forallb_impl; [|apply escape_host_bytes].
  intros c; destruct c as [[] [] [] [] [] [] [] []]; vm_compute; congruence.
Qed.

(** What [endpoint_ok] leaves of a URL. *)
Lemma endpoint_ok_fields u :
  endpoint_ok u = Ok tt ->
  is_http (u_Scheme u) /\ u_Host u <> "" /\ Hostname u <> "" /\ u_User u = None /\
  u_RawQuery u = "" /\ u_ForceQuery u = false /\ u_Fragment u = "".
Proof.
  unfold endpoint_ok, is_http. case_match eqn:E1; [done|]. case_match eqn:E2; [done|]. intros _.
  apply orb_false_iff in E1 as [[Es%negb_false_iff Eh%String.eqb_neq]%orb_false_iff En%String.eqb_neq].
  apply orb_false_iff in E2 as [[[[[Eu _]%orb_false_iff _]%orb_false_iff Eq]%orb_false_iff Ef]%orb_false_iff Eg].
  apply negb_false_iff, String.eqb_eq in Eq. apply negb_false_iff, String.eqb_eq in Eg.
  destruct (u_User u); [done|].
  apply orb_true_iff in Es as [?%String.eqb_eq|?%String.eqb_eq]; auto 10.
Qed.

Lemma normalize_endpoint_canonical raw ps endpoint :
  normalize_endpoint raw ps = Ok endpoint ->
  exists scheme host, canonical_endpoint endpoint ps scheme host /\
    is_ok (port_ok (http_url scheme host "" "")) = true /\
    (splitHostPort host).1 <> "" /\ is_Some (ParseRequestURI ("//" +:+ host)).
Proof.
  unfold normalize_endpoint. cbv zeta. destruct (String.eqb _ _); [done|].
  set (text := if negb _ then _ else _). destruct (Parse text) as [u|] eqn:Eu; [|done].
  destruct (endpoint_ok u) as [[]|] eqn:Eo; [|done].
  apply endpoint_ok_fields in Eo as (Hs & Hh & Hn & Hu & Hq & Hf & Hg).
  destruct (Parse_host _ _ Eu Hh) as [Hop Hraw].
  destruct (ParseRequestURI _) eqn:Er; [|done]. cbn iota.
  destruct (negb ps && is_ip (Hostname u)) eqn:Ei; [done|].
  destruct (port_ok u) as [[]|] eqn:Ep; [|done]. intros <-%Ok_inj.
  exists (u_Scheme u), (u_Host u).
  assert (URL_String (mkURL (u_Scheme u) (u_Opaque u) (u_User u) (u_Host u) "" "" (u_OmitHost u)
    (u_ForceQuery u) (u_RawQuery u) (u_Fragment u) (u_RawFragment u)) =
    u_Scheme u +:+ "://" +:+ escape_host (u_Host u)) as ->.
  { rewrite Hop, Hu, Hq, Hf, Hg.
    transitivity (URL_String (http_url (u_Scheme u) (u_Host u) "" "")).
    - unfold URL_String, authority_string, fragment_string, http_url. cbn.
      rewrite (proj2 (String.eqb_neq (u_Host u) "") Hh). by rewrite andb_false_r.
    - rewrite http_url_String; [|by destruct Hs as [->| ->]|done|by left].
      cbn. by rewrite !app_nil_r_str. }
  rewrite endpoint_text by done. split; [|split; [|split]].
  - split_and!; try done. intros ->. exact Ei.
  - change (port_ok (http_url (u_Scheme u) (u_Host u) "" "")) with (port_ok u). by rewrite Ep.
  - exact Hn.
  - by rewrite Er.
Qed.

(** ** Normalizing twice *)

Definition nonspace (c : ascii) : bool := is_ascii c && negb (IsSpace (byte_val c)).

Lemma drop_spaces_none l : Forall (fun r => IsSpace r.1 = false) l -> drop_spaces l = l.
Proof. destruct 1 as [|r l Hr]; [done|]. cbn. by rewrite Hr. Qed.

Lemma TrimSpace_plain s : str_forallb nonspace s = true -> TrimSpace s = s.
Proof.
  intros Hs.
  assert (Forall (fun r => IsSpace r.1 = false) (runes s) /\ str_concat (runes s).*2 = s)
    as [Hf Hc].
  { induction s as [|c s IH]; [done|]. cbn [str_forallb] in Hs.
    apply andb_true_iff in Hs as [[Ha Hn%negb_true_iff]%andb_true_iff Hs].
    rewrite runes_ascii by done. destruct (IH Hs) as [IH1 IH2]. split; [by constructor|].
    rewrite fmap_cons. cbn [str_concat snd]. rewrite IH2. done. }
  unfold TrimSpace. rewrite (drop_spaces_none _ Hf).
  rewrite drop_spaces_none by by apply Forall_reverse. by rewrite reverse_involutive.
Qed.

Lemma TrimLeft_stop s cut : TrimLeft (TrimLeft s cut) cut = TrimLeft s cut.
Proof.
  induction s as [|c s IH]; [done|]. cbn. destruct (in_cutset cut c) eqn:E; [done|].
  cbn. by rewrite E.
Qed.

Lemma TrimRight_stop s cut : TrimRight (TrimRight s cut) cut = TrimRight s cut.
Proof.
  induction s as [|c s IH]; [done|]. cbn. destruct (TrimRight s cut) as [|d t] eqn:E.
  - destruct (in_cutset cut c) eqn:Ec; [done|]. cbn. by rewrite Ec.
  - cbn in *. by rewrite IH.
Qed.

Lemma TrimLeft_TrimRight s cut :
  TrimLeft s cut = s -> TrimLeft (TrimRight s cut) cut = TrimRight s cut.
Proof.
  destruct s as [|c s]; [done|]. intros H. cbn in H. destruct (in_cutset cut c) eqn:E.
  - exfalso. assert (String.length (TrimLeft s cut) <= String.length s)%nat as Hl.
    { clear. induction s as [|d s IH]; [done|]. cbn. case_match; cbn; lia. }
    rewrite H in Hl. cbn in Hl. lia.
  - cbn. destruct (TrimRight s cut); cbn; rewrite E; [|done]. cbn. by rewrite E.
Qed.

Lemma Trim_Trim s cut : Trim (Trim s cut) cut = Trim s cut.
Proof.
  unfold Trim. rewrite (TrimLeft_TrimRight (TrimLeft s cut)) by apply TrimLeft_stop.
  apply TrimRight_stop.
Qed.

Lemma escape_host_percent h : no_percent h = false -> Contains (escape_host h) "%25" = true.
Proof.
  induction h as [|c h IH]; [done|]. unfold no_percent in *. cbn [str_forallb escape_host].
  destruct (Ascii.eqb_spec c "%") as [->|Hc].
  - intros _. apply Contains_true. by exists "", (escape_host h).
  - cbn [negb andb]. intros H%IH. apply Contains_true in H as (a & b & ->).
    apply Contains_true. eexists (_ +:+ a), b. by rewrite app_assoc_str.
Qed.

Lemma endpoint_nonspace scheme host :
  is_http scheme -> str_forallb nonspace (scheme +:+ "://" +:+ escape_host host) = true.
Proof.
  intros Hs. rewrite !str_forallb_app.
  assert (str_forallb nonspace (escape_host host) = true) as ->; [|by destruct Hs as [->| ->]].
  rewrite escape_host_with. apply escape_with_forallb; [|done|].
  - intros c. destruct c as [[] [] [] [] [] [] [] []]; vm_compute; congruence.
  - intros z Hz. assert (Forall (fun z => nonspace (upperhex z) = true) (seqZ 0 16)) as Hall
      by (apply (bool_decide_unpack _); vm_compute; exact I).
    rewrite Forall_forall in Hall. apply Hall, elem_of_seqZ. lia.
Qed.

Lemma normalize_endpoint_again raw ps endpoint :
  normalize_endpoint raw ps = Ok endpoint -> Contains endpoint "%25" = false ->
  normalize_endpoint endpoint ps = Ok endpoint.
Proof.
  intros (scheme & host & (He & Hs & Hh & [h Hp] & Hi) & Hport & Hn & [v Hv])%normalize_endpoint_canonical Hc.
  assert (no_percent host = true) as Hnp.
  { destruct (no_percent host) eqn:E; [done|]. apply escape_host_percent in E.
    apply Contains_true in E as (a & b & E). exfalso.
    assert (Contains endpoint "%25" = true) as Hx; [|congruence]. apply Contains_true.
    exists (scheme +:+ "://" +:+ a), b. by rewrite He, E, !app_assoc_str. }
  pose proof (parseHost_stable h host Hp Hnp) as Hst.
  assert (endpoint = URL_String (http_url scheme host "" "")) as Hu.
  { rewrite http_url_String; [|by destruct Hs as [->| ->]|done|by left].
    cbn. by rewrite !app_nil_r_str. }
  unfold normalize_endpoint. rewrite TrimSpace_plain by (rewrite He; by apply endpoint_nonspace).
  cbv zeta. destruct (String.eqb_spec endpoint "") as [E|_].
  { exfalso. rewrite He in E. by destruct Hs as [->| ->]. }
  assert (Contains endpoint "://" = true) as -> by (apply Contains_true; eauto). cbn [negb].
  rewrite Hu at 1. rewrite Parse_http_url by (done || by left).
  assert (endpoint_ok (http_url scheme host "" "") = Ok tt) as ->.
  { unfold endpoint_ok, Hostname, http_url. cbn [u_Scheme u_Host u_User u_Path u_RawPath u_RawQuery
      u_ForceQuery u_Fragment].
    rewrite (proj2 (String.eqb_neq host "") Hh), (proj2 (String.eqb_neq _ "") Hn).
    by destruct Hs as [->| ->]. }
  cbn [u_Host http_url]. rewrite Hv.
  assert (negb ps && is_ip (Hostname (http_url scheme host "" "")) = false) as ->.
  { destruct ps; [done|]. by apply Hi. }
  apply is_ok_true in Hport as [[] ->].
  change (Ok (TrimSuffix (URL_String (http_url scheme host "" "")) "/") = Ok endpoint :> result string string).
  rewrite <-Hu, He. by rewrite endpoint_text.
Qed.

(** ** Admitted mappings *)

Lemma normalize_prefix_Ok raw prefix :
  normalize_prefix raw = Ok prefix ->
  prefix = Trim raw "/" /\
  (prefix <> "" -> Forall (fun s => unsafe_segment s = false) (Split prefix "/")).
Proof.
  unfold normalize_prefix. cbv zeta.
  destruct (negb (String.eqb (Trim raw "/") "") && existsb unsafe_segment (Split (Trim raw "/") "/"))
    eqn:E; [done|].
  intros <-%Ok_inj. split; [done|]. intros Hne.
  rewrite (proj2 (String.eqb_neq _ _) Hne) in E. cbn [negb andb] in E.
  apply Forall_forall. intros s Hs. destruct (unsafe_segment s) eqn:Eu; [|done].
  assert (existsb unsafe_segment (Split (Trim raw "/") "/") = true) as Hx; [|congruence].
  apply existsb_exists. exists s. split; [by apply list_elem_of_In|done].
Qed.

Lemma normalize_prefix_again raw prefix :
  normalize_prefix raw = Ok prefix -> normalize_prefix prefix = Ok prefix.
Proof.
  intros H. pose proof (normalize_prefix_Ok _ _ H) as [-> _]. revert H.
  unfold normalize_prefix. cbv zeta. by rewrite Trim_Trim.
Qed.

Lemma newOpaqueTokenCipher_matches cfg codec :
  newOpaqueTokenCipher (Some cfg) = Ok codec -> cipher_matches codec cfg = true.
Proof.
  unfold newOpaqueTokenCipher, cipher_matches. destruct (str_len _ =? 32); [|done].
  intros <-%Ok_inj. by rewrite !String.eqb_refl.
Qed.

Lemma newOpaqueTokenCipher_total cfg :
  str_len (RoutingTokenKey cfg) = 32 -> exists codec, newOpaqueTokenCipher (Some cfg) = Ok codec.
Proof.
  intros H. unfold newOpaqueTokenCipher. rewrite (proj2 (Z.eqb_eq _ _) H). cbn. eauto.
Qed.

(** The result, field by field. *)
Lemma NormalizeVBucketConfig_Ok c n :
  NormalizeVBucketConfig (Some c) = Ok n ->
  str_len (RoutingTokenKey c) = 32 /\
  normalize_endpoint (RealEndpoint c) (RealUsePathStyle c) = Ok (RealEndpoint n) /\
  RealBucket n = TrimSpace (RealBucket c) /\ isValidBucketName (RealBucket n) = true /\
  RealAccessKey n = RealAccessKey c /\ accessKeyIDPattern (RealAccessKey n) = true /\
  RealSecretKey n = RealSecretKey c /\ printableASCII (RealSecretKey n) = true /\
  RealRegion n = TrimSpace (RealRegion c) /\ backendRegionPattern (RealRegion n) = true /\
  normalize_prefix (PathPrefix c) = Ok (PathPrefix n) /\
  RealUsePathStyle n = RealUsePathStyle c /\ RoutingTokenKey n = RoutingTokenKey c /\
  exists codec, routingTokenCodec n = Some codec /\ cipher_matches codec n = true.
Proof.
  unfold NormalizeVBucketConfig. cbn [Clone].
  destruct (str_len (RoutingTokenKey c) =? 32) eqn:Ek; [|done]. cbn [negb].
  destruct (normalize_endpoint _ _) as [endpoint|]; [|done]. cbv zeta.
  destruct (isValidBucketName _) eqn:Eb; [|done].
  destruct (accessKeyIDPattern _) eqn:Ea; [|done]. destruct (printableASCII _) eqn:Es; [|done].
  destruct (backendRegionPattern _) eqn:Er; [|done]. cbn [negb orb].
  destruct (normalize_prefix _) as [prefix|] eqn:Ep; [|done].
  set (m := mkVBucketConfig _ _ _ _ _ _ _ _ _).
  apply Z.eqb_eq in Ek.
  destruct (newOpaqueTokenCipher_total m Ek) as [fresh Hfresh]. rewrite Hfresh.
  intros Hn. assert (exists codec, n = with_codec (Some codec) m /\ cipher_matches codec m = true)
    as (codec & -> & Hm).
  { pose proof (newOpaqueTokenCipher_matches m fresh Hfresh).
    destruct (routingTokenCodec m) as [codec|] eqn:Ec; [destruct (cipher_matches codec m) eqn:Em|];
      apply Ok_inj in Hn as <-; [|by eauto..].
    exists codec. split; [|done]. unfold with_codec. destruct m. cbn in *. by rewrite Ec. }
  unfold m in *. cbn [with_codec RealEndpoint RealBucket RealAccessKey RealSecretKey RealRegion
    PathPrefix RealUsePathStyle RoutingTokenKey routingTokenCodec] in *.
  split_and!; try done. exists codec. split; [done|exact Hm].
Qed.

Lemma normalized_wf c n : NormalizeVBucketConfig (Some c) = Ok n -> mapping_wf n.
Proof.
  intros (Hk & He & Hb & Hbv & Ha & Hav & Hs & Hsv & Hr & Hrv & Hp & Hps & Hkey & Hcodec)
    %NormalizeVBucketConfig_Ok.
  split; try done; [congruence| |].
  - apply normalize_endpoint_canonical in He as (scheme & host & He & _). rewrite Hps. eauto.
  - by apply normalize_prefix_Ok in Hp as [_ Hp].
Qed.

Lemma class_nonspace (f : ascii -> bool) s :
  (forall c, f c = true -> nonspace c = true) -> str_forallb f s = true -> TrimSpace s = s.
Proof. intros Hf Hs. apply TrimSpace_plain. by eapply str_forallb_impl. Qed.

Lemma normalize_again c n :
  NormalizeVBucketConfig (Some c) = Ok n -> Contains (RealEndpoint n) "%25" = false ->
  NormalizeVBucketConfig (Some n) = Ok n.
Proof.
  intros Hn Hc.
  destruct (NormalizeVBucketConfig_Ok c n Hn)
    as (Hk & He & Hb & Hbv & Ha & Hav & Hs & Hsv & Hr & Hrv & Hp & Hps & Hkey & codec & Hco & Hm).
  rewrite <-Hps in He. unfold NormalizeVBucketConfig. cbn [Clone].
  assert ((str_len (RoutingTokenKey n) =? 32) = true) as -> by (rewrite Hkey; by apply Z.eqb_eq).
  cbn [negb].
  rewrite (normalize_endpoint_again _ _ _ He Hc). cbv zeta.
  assert (TrimSpace (RealBucket n) = RealBucket n) as ->.
  { apply isValidBucketName_bytes in Hbv as [_ Hbytes]. eapply class_nonspace; [|exact Hbytes].
    intros ch. destruct ch as [[] [] [] [] [] [] [] []]; vm_compute; congruence. }
  assert (TrimSpace (RealRegion n) = RealRegion n) as ->.
  { unfold backendRegionPattern, class_repeat in Hrv. apply andb_true_iff in Hrv as [_ Hbytes].
    eapply class_nonspace; [|exact Hbytes].
    intros ch. destruct ch as [[] [] [] [] [] [] [] []]; vm_compute; congruence. }
  rewrite Hbv, Hav, Hsv, Hrv, (normalize_prefix_again _ _ Hp). cbn [negb orb].
  assert (mkVBucketConfig (RealEndpoint n) (RealBucket n) (RealAccessKey n) (RealSecretKey n)
    (RealRegion n) (PathPrefix n) (RealUsePathStyle n) (RoutingTokenKey n) (routingTokenCodec n) = n)
    as -> by by destruct n.
  by rewrite Hco, Hm.
Qed.

(** C31. An admitted mapping is in canonical form: its endpoint is an http(s) origin, its
    bucket, credentials and region have the syntax the signer relies on, no segment of
    its prefix is empty, a dot segment or contains a backslash or a control character,
    and its token codec is the codec of this very mapping.  Normalizing it again, as the
    proxy does at dispatch, changes nothing, unless the host needs an escaped percent
    sign (the zone of an IPv6 address). *)
Theorem NormalizeVBucketConfig_canonical (c n : VBucketConfig)
    (Hn : NormalizeVBucketConfig (Some c) = Ok n) :
  mapping_wf n /\
  (Contains (RealEndpoint n) "%25" = false -> NormalizeVBucketConfig (Some n) = Ok n).
Proof. split; [by eapply normalized_wf|by apply normalize_again with c]. Qed.

(** ** A concrete mapping *)

Module MappingExample.
Definition submitted : VBucketConfig :=
  mkVBucketConfig " S3.example.com:9000/ " "real-bucket " "AKIA" "secret" " us-east-1"
    "/tenants/a/" true (RoutingTokenKey TokenExample.mapping) None.

Example rejected_mappings :
  let bad e p := is_ok (NormalizeVBucketConfig (Some (mkVBucketConfig e "real-bucket" "AKIA" "s"
                   "us-east-1" p false (RoutingTokenKey submitted) None))) in
  bad "https://127.0.0.1" "" = false /\ bad "https://u@h" "" = false /\
  bad "ftp://h" "" = false /\ bad "https://h/x" "" = false /\ bad "https://h:70000" "" = false /\
  bad "https://h:" "" = false /\ bad "https://h" "a/../b" = false /\ bad "https://h" "a//b" = false.
Proof. vm_compute. auto 10. Qed.

Lemma NormalizeVBucketConfig_canonical_witness :
  exists n, NormalizeVBucketConfig (Some submitted) = Ok n /\
    RealEndpoint n = "https://S3.example.com:9000" /\ PathPrefix n = "tenants/a" /\
    NormalizeVBucketConfig (Some n) = Ok n.
Proof.
  destruct (NormalizeVBucketConfig (Some submitted)) as [n|e] eqn:E;
    [|exfalso; revert E; vm_compute; discriminate].
  pose proof (NormalizeVBucketConfig_Ok _ _ E) as (_ & He & _ & _ & _ & _ & _ & _ & _ & _ & Hp & _).
  assert (RealEndpoint n = "https://S3.example.com:9000") as Hn.
  { symmetry. apply (Ok_inj (E:=string)). rewrite <-He. vm_compute. reflexivity. }
  exists n. split_and!; [reflexivity|exact Hn| |].
  - symmetry. apply (Ok_inj (E:=string)). rewrite <-Hp. vm_compute. reflexivity.
  - apply (NormalizeVBucketConfig_canonical submitted n E). rewrite Hn. vm_compute. reflexivity.
Defined.
End MappingExample.
