(* ===== verification/Lookup.v ===== *)
(** * Lookup: the resolver calls of [controlplane/lookup.go]

    A call runs concurrently with the watch, with other calls and with the loads it
    shares; it is a program ([prog]) of sections under one lock, waits on a channel and
    questions to the outside (an RPC of its own, the end of its context, a clock).
    [Sys] is the state they share.  Metrics are not kept. *)
From S2P Require Import Prelude GoStrings GoTime GoNet Errors Cache Client Flight.
From S2P Require Import Json Iam S3Authz Token Mapping.

(** ** Responses ([api/v1]) *)

(** [timestamppb.Timestamp] with [CheckValid() == nil] and [AsTime()] *)
Class Timestamps := {
  Timestamp : Type;
  TimestampValid : Timestamp -> bool;
  AsTime : Timestamp -> Time
}.

Record VirtualCredentials := mkVirtualCredentials {
  SecretKey : string;
  IAMPolicy : option Policy
}.

Record ListedVBucket := mkListedVBucket { lv_Name : string; lv_CreationDate : Time }.

Section responses.
Context `{Platform} `{Timestamps}.

Record LookupCredentialsResponse := mkCredentialsResponse {
  cr_Revision : Z;
  cr_Found : bool;
  cr_SecretKey : string;
  cr_IamPolicyJson : string;
  cr_Ttl : option Duration;
  cr_NegativeTtl : option Duration
}.

Record LookupVBucketResponse := mkVBucketResponse {
  vr_Revision : Z;
  vr_Found : bool;
  vr_RealEndpoint : string;
  vr_RealBucket : string;
  vr_RealAccessKey : string;
  vr_RealSecretKey : string;
  vr_RealRegion : string;
  vr_PathPrefix : string;
  vr_RealUsePathStyle : bool;
  vr_RoutingTokenKey : string;
  vr_Ttl : option Duration;
  vr_NegativeTtl : option Duration
}.

(** A bucket summary and its creation date are pointers. *)
Record ListVBucketsResponse := mkListResponse {
  lr_Revision : Z;
  lr_Buckets : list (option (string * option Timestamp))
}.

Definition present {A} (o : option A) : bool := match o with Some _ => true | None => false end.

Definition plain_error {A} (msg : string) : result error A := Err (Errorf msg []).

Definition credentialResponseEntry (resp : option LookupCredentialsResponse)
    : result error (cached VirtualCredentials) :=
  match resp with
  | None => plain_error "invalid credential lookup revision"
  | Some resp =>
      if cr_Revision resp =? 0 then plain_error "invalid credential lookup revision"
      else if negb (cr_Found resp) then
        if negb (String.eqb (cr_SecretKey resp) "") || negb (String.eqb (cr_IamPolicyJson resp) "")
           || present (cr_Ttl resp)
        then plain_error "negative credential response contains positive fields"
        else
          let? ttl := cacheTTL "LookupCredentials negative response" (cr_NegativeTtl resp) in
          Ok (mkCached None false (cr_Revision resp) ttl)
      else if present (cr_NegativeTtl resp)
      then plain_error "found credential response contains negative TTL"
      else
        let? ttl := cacheTTL "LookupCredentials response" (cr_Ttl resp) in
        let? policy := res_map_err (fun _ => Errorf "invalid IAM policy" [])
                         (ParseS3IAMPolicyJSON (cr_IamPolicyJson resp)) in
        if String.eqb (cr_SecretKey resp) "" then plain_error "credential secret key is required"
        else Ok (mkCached (Some (mkVirtualCredentials (cr_SecretKey resp) (Some policy))) true
                   (cr_Revision resp) ttl)
  end.

Definition vbucketResponseEntry (resp : option LookupVBucketResponse)
    : result error (cached VBucketConfig) :=
  match resp with
  | None => plain_error "invalid vbucket lookup revision"
  | Some resp =>
      if vr_Revision resp =? 0 then plain_error "invalid vbucket lookup revision"
      else if negb (vr_Found resp) then
        if negb (String.eqb (vr_RealEndpoint resp) "") || negb (String.eqb (vr_RealBucket resp) "")
           || negb (String.eqb (vr_RealAccessKey resp) "")
           || negb (String.eqb (vr_RealSecretKey resp) "")
           || negb (String.eqb (vr_RealRegion resp) "") || negb (String.eqb (vr_PathPrefix resp) "")
           || vr_RealUsePathStyle resp || negb (str_len (vr_RoutingTokenKey resp) =? 0)
           || present (vr_Ttl resp)
        then plain_error "negative vbucket response contains positive fields"
        else
          let? ttl := cacheTTL "LookupVBucket negative response" (vr_NegativeTtl resp) in
          Ok (mkCached None false (vr_Revision resp) ttl)
      else if present (vr_NegativeTtl resp)
      then plain_error "found vbucket response contains negative TTL"
      else
        let? ttl := cacheTTL "LookupVBucket response" (vr_Ttl resp) in
        let? cfg := res_map_err (fun _ => Errorf "invalid LookupVBucket mapping" [])
          (NormalizeVBucketConfig (Some
             (mkVBucketConfig (vr_RealEndpoint resp) (vr_RealBucket resp) (vr_RealAccessKey resp)
                (vr_RealSecretKey resp) (vr_RealRegion resp) (vr_PathPrefix resp)
                (vr_RealUsePathStyle resp) (vr_RoutingTokenKey resp) None))) in
        Ok (mkCached (Some cfg) true (vr_Revision resp) ttl)
  end.

(** ** Programs *)

(** The questions a call puts to the outside: whether its context ends before the
    channel it waits on is closed, and with which error; its own RPCs, with the minimum
    revision they ask for; the wall clock. *)
Inductive query : Type -> Type :=
| QContext : query (option error)
| QCreate (accessKeyID bucketName locationConstraint : string) (minimumRevision : Z)
  : query (result error (option Z))
| QList (accessKeyID : string) (minimumRevision : Z)
  : query (result error (option ListVBucketsResponse))
| QNow : query Time.

Definition oracle := forall A, query A -> A.

Context {CC VC : Type} `{TimedStore CC string (cached VirtualCredentials)}
  `{TimedStore VC string (cached VBucketConfig)}.

(** The closure of a credential load captured the revision and the epoch; that of a
    mapping load also the access key and the bucket. *)
Abbreviation cred_env := (Z * Z)%type.
Abbreviation conf_env := (Z * Z * string * string)%type.

Record Sys := mkSys {
  client : Client (CC:=CC) (VC:=VC);
  credLoads : loadGroup (K:=string) (G:=cred_env) (V:=cached VirtualCredentials);
  vbLoads : loadGroup (K:=string) (G:=conf_env) (V:=cached VBucketConfig)
}.

Definition set_client (c : Client (CC:=CC) (VC:=VC)) (s : Sys) : Sys :=
  mkSys c (credLoads s) (vbLoads s).
Definition set_credLoads g (s : Sys) : Sys := mkSys (client s) g (vbLoads s).
Definition set_vbLoads g (s : Sys) : Sys := mkSys (client s) (credLoads s) g.

(** [Act] is one critical section, with the clock's reading; [Await] blocks until its
    channel is ready. *)
Inductive prog (R : Type) : Type :=
| Ret (r : R)
| Act (A : Type) (f : Z -> Sys -> Sys * A) (k : A -> prog R)
| Await (A : Type) (f : Sys -> option A) (k : A -> prog R)
| Ask (A : Type) (q : query A) (k : A -> prog R).

Fixpoint bind {A B} (p : prog A) (f : A -> prog B) : prog B :=
  match p with
  | Ret _ a => f a
  | Act _ X g k => Act B X g (fun x => bind (k x) f)
  | Await _ X g k => Await B X g (fun x => bind (k x) f)
  | Ask _ X q k => Ask B X q (fun x => bind (k x) f)
  end.

Definition ret {A} (a : A) : prog A := Ret A a.
Definition act {A} (f : Z -> Sys -> Sys * A) : prog A := Act A A f (Ret A).
Definition await {A} (f : Sys -> option A) : prog A := Await A A f (Ret A).
Definition ask {A} (q : query A) : prog A := Ask A A q (Ret A).

(** A section that only reads the client. *)
Definition observe {A} (f : Client (CC:=CC) (VC:=VC) -> A) : prog A :=
  act (fun _ s => (s, f (client s))).
End responses.

Notation "'let!' x ':=' c 'in' k" := (bind c (fun x => k))
  (at level 10, x name, c at level 100, k at level 200) : go_scope.

(** ** The calls *)

Section calls.
Context `{Platform} `{Timestamps} `{GrpcStatus} {CC VC : Type}
  `{TimedStore CC string (cached VirtualCredentials)}
  `{TimedStore VC string (cached VBucketConfig)}.

Abbreviation Sys := (Sys (CC:=CC) (VC:=VC)).
Abbreviation prog := (prog (CC:=CC) (VC:=VC)).

(** What the two lookups do with their cache and their load group. *)
Record lookup_ops (A : Type) := mkLookupOps {
  lo_read : Z -> Sys -> Sys * option (cached A);
  lo_enter : Z -> Z -> Z -> Sys -> Sys * entered;
  lo_result : nat -> Sys -> option (result error (cached A))
}.

Definition cred_ops (accessKeyID : string) : lookup_ops VirtualCredentials :=
  mkLookupOps _
    (fun now s => let (c, r) := readCredentials now accessKeyID (client s) in (set_client c s, r))
    (fun rev ep now s =>
       let (g, e) := do_enter now accessKeyID (rev, ep) (credLoads s) in (set_credLoads g s, e))
    (fun id s => call_result id (credLoads s)).

Definition conf_ops (accessKeyID bucketName : string) : lookup_ops VBucketConfig :=
  let key := vbucketCacheKey accessKeyID bucketName in
  mkLookupOps _
    (fun now s => let (c, r) := readVBucket now key (client s) in (set_client c s, r))
    (fun rev ep now s =>
       let (g, e) := do_enter now key (rev, ep, accessKeyID, bucketName) (vbLoads s) in
       (set_vbLoads g s, e))
    (fun id s => call_result id (vbLoads s)).

(** [loadGroup.Do]: enter, then wait for the call or for the end of the context. *)
Definition Do {A} (ops : lookup_ops A) (rev ep : Z) : prog (result error (cached A)) :=
  let! e := act (lo_enter A ops rev ep) in
  match e with
  | Rejected => ret (Err (Named ErrMissRejected))
  | Joined id | Started id =>
      let! ended := ask QContext in
      match ended with
      | Some err => ret (Err err)
      | None => await (lo_result A ops id)
      end
  end.

(** [if retry && b && c.Ready() { return lookup(..., false) }; return fail] *)
Definition retry_if {A} (b : bool) (retry : option (prog A)) (fail : A) : prog A :=
  match retry with
  | Some again =>
      if b then let! ready := observe Ready in if ready then again else ret fail else ret fail
  | None => ret fail
  end.

(** The value a found entry points to. *)
Definition entry_value {A} (v : cached A) : result error (option A) :=
  if negb (ce_Found v) then Err (Named ErrNotFound) else Ok (ce_value v).

(** One pass of a lookup; [retry] is the pass that may follow it. *)
Definition lookup_pass {A} (ops : lookup_ops A)
    (retry : option (prog (result error (option A)))) : prog (result error (option A)) :=
  let race := Err (Named ErrRevisionRace) in
  let! snap := observe lookupSnapshot in
  match snap with
  | Err err => retry_if (Is err ErrRevisionRace) retry (Err err)
  | Ok (rev, ep) =>
      let load :=
        let! result := Do ops rev ep in
        match result with
        | Err err => retry_if (Is err ErrRevisionRace) retry (Err err)
        | Ok v =>
            let! ok := observe (stillCurrent (ce_Revision v) ep) in
            if negb ok then retry_if true retry race else ret (entry_value v)
        end in
      let! hit := act (lo_read A ops) in
      match hit with
      | Some v =>
          if ce_Revision v <=? rev then
            let! ok := observe (stillCurrent rev ep) in
            if negb ok then retry_if true retry race else ret (entry_value v)
          else load
      | None => load
      end
  end.

Definition lookup {A} (ops : lookup_ops A) : prog (result error (option A)) :=
  lookup_pass ops (Some (lookup_pass ops None)).

Definition lookupCredentials (accessKeyID : string) := lookup (cred_ops accessKeyID).

Definition lookupVBucket (accessKeyID bucketName : string) :=
  lookup (conf_ops accessKeyID bucketName).

Definition map_err {A} (r : result error A) : result error A :=
  match r with
  | Ok a => Ok a
  | Err err => match mapResolverError (Some err) with Some err => Err err | None => Err err end
  end.

Definition LookupCredentials (accessKeyID : string)
    : prog (result error (option VirtualCredentials)) :=
  let! r := lookupCredentials accessKeyID in ret (map_err r).

Definition LookupVBucket (accessKeyID bucketName : string)
    : prog (result error (option VBucketConfig)) :=
  let! r := lookupVBucket accessKeyID bucketName in ret (map_err r).

Definition CreateVBucket (accessKeyID bucketName locationConstraint : string)
    : prog (option error) :=
  let! snap := observe lookupSnapshot in
  match snap with
  | Err err => ret (mapResolverError (Some err))
  | Ok (rev, _) =>
      let! reply := ask (QCreate accessKeyID bucketName locationConstraint rev) in
      match reply with
      | Err rpcErr => ret (mapResolverError (Some (mapCreateVBucketError rpcErr)))
      | Ok resp =>
          let! err := act (fun now s => let (c, err) := createReply now rev resp (client s) in
                                        (set_client c s, err)) in
          ret (mapResolverError err)
      end
  end.

Definition listed_bucket (b : option (string * option Timestamp)) : result error ListedVBucket :=
  match b with
  | Some (name, Some created) =>
      if negb (TimestampValid created) then plain_error "invalid ListVBuckets creation date"
      else Ok (mkListedVBucket name (AsTime created))
  | _ => plain_error "invalid ListVBuckets response: bucket summary and creation date are required"
  end.

Definition listVBuckets (accessKeyID : string) : prog (result error (list ListedVBucket)) :=
  let race := Err (Named ErrRevisionRace) in
  let! snap := observe lookupSnapshot in
  match snap with
  | Err err => ret (Err err)
  | Ok (rev, ep) =>
      let! reply := ask (QList accessKeyID rev) in
      match reply with
      | Err rpcErr => ret (Err (mapListVBucketsError rpcErr))
      | Ok None =>
          let! _ := act (fun now s => (set_client (requestResyncLocked now (client s)) s, tt)) in
          ret race
      | Ok (Some resp) =>
          let! revisionErr :=
            act (fun now s =>
                   let (c, err) := checkUnaryRevision now (lr_Revision resp) rev (client s) in
                   (set_client c s, err)) in
          match revisionErr with
          | Some err => ret (Err err)
          | None =>
              let! before := observe (stillCurrent rev ep) in
              if negb before then ret race
              else
                match res_mapM listed_bucket (lr_Buckets resp) with
                | Err err => ret (Err err)
                | Ok buckets =>
                    let! after := observe (stillCurrent rev ep) in
                    if negb after then ret race else ret (Ok buckets)
                end
          end
      end
  end.

Definition ListVBuckets (accessKeyID : string) : prog (result error (list ListedVBucket)) :=
  let! r := listVBuckets accessKeyID in ret (map_err r).

(** ** The rest of the system *)

(** The control plane's answers to the two lookups, as functions of the request. *)
Abbreviation cred_server :=
  (string -> Z -> result error (option LookupCredentialsResponse)).
Abbreviation conf_server :=
  (string -> string -> Z -> result error (option LookupVBucketResponse)).

(** The body of a credential load once its RPC is answered. *)
Definition cred_body (now : Z) (key : string) (env : Z * Z) (reply : cred_server)
    (c : Client (CC:=CC) (VC:=VC)) : Client * result error (cached VirtualCredentials) :=
  let (rev, ep) := env in
  match reply key rev with
  | Err rpcErr => (c, Err rpcErr)
  | Ok None => (c, plain_error "missing credential lookup response")
  | Ok (Some resp) =>
      loadCredentials now key rev ep (cr_Revision resp) (credentialResponseEntry (Some resp)) c
  end.

Definition conf_body (now : Z) (key : string) (env : Z * Z * string * string)
    (reply : conf_server) (c : Client (CC:=CC) (VC:=VC))
    : Client * result error (cached VBucketConfig) :=
  let '(rev, ep, accessKeyID, bucketName) := env in
  match reply accessKeyID bucketName rev with
  | Err rpcErr => (c, Err rpcErr)
  | Ok None => (c, plain_error "missing vbucket lookup response")
  | Ok (Some resp) =>
      loadVBucket now key rev ep (vr_Revision resp) (vbucketResponseEntry (Some resp)) c
  end.

(** What happens besides the steps of the call under study: the watch goroutine and the
    sections of other calls, other callers entering a load group, and the loading
    goroutines. *)
Inductive sys_event :=
| SysClient (e : event (Cred:=VirtualCredentials) (Conf:=VBucketConfig))
| SysCredEnter (key : string) (rev ep : Z)
| SysConfEnter (accessKeyID bucketName : string) (rev ep : Z)
| SysCredReply (id : nat) (reply : cred_server)
| SysConfReply (id : nat) (reply : conf_server)
| SysCredLoad (e : flight_event (K:=string) (G:=Z * Z) (V:=cached VirtualCredentials))
| SysConfLoad (e : flight_event (K:=string) (G:=Z * Z * string * string) (V:=cached VBucketConfig)).

(** A goroutine that returns, forgets or closes: the steps without a payload. *)
Definition tail_event {K G V} (e : flight_event (K:=K) (G:=G) (V:=V)) : bool :=
  match e with FlightReturn _ | FlightForget _ | FlightClose _ => true | _ => false end.

Definition sys_step (now : Z) (e : sys_event) (s : Sys) : Sys :=
  match e with
  | SysClient e => set_client (step (now, e) (client s)) s
  | SysCredEnter key rev ep => (lo_enter _ (cred_ops key) rev ep now s).1
  | SysConfEnter accessKeyID bucketName rev ep =>
      (lo_enter _ (conf_ops accessKeyID bucketName) rev ep now s).1
  | SysCredReply id reply =>
      match heap (credLoads s) !! id with
      | Some call =>
          if bool_decide (lc_phase call = Loading) then
            let (c, r) := cred_body now (lc_key call) (lc_env call) reply (client s) in
            mkSys c (default (credLoads s) (load_body id r (credLoads s))) (vbLoads s)
          else s
      | None => s
      end
  | SysConfReply id reply =>
      match heap (vbLoads s) !! id with
      | Some call =>
          if bool_decide (lc_phase call = Loading) then
            let (c, r) := conf_body now (lc_key call) (lc_env call) reply (client s) in
            mkSys c (credLoads s) (default (vbLoads s) (load_body id r (vbLoads s)))
          else s
      | None => s
      end
  | SysCredLoad e => if tail_event e then set_credLoads (flight_step e (credLoads s)) s else s
  | SysConfLoad e => if tail_event e then set_vbLoads (flight_step e (vbLoads s)) s else s
  end.

(** One step of a call. *)
Definition turn {R} (now : Z) (o : oracle) (s : Sys) (p : prog R) : Sys * prog R :=
  match p with
  | Ret _ r => (s, p)
  | Act _ A f k => let (s, a) := f now s in (s, k a)
  | Await _ A f k => match f s with Some a => (s, k a) | None => (s, p) end
  | Ask _ A q k => (s, k (o A q))
  end.

(** What a call that has ended returned. *)
Definition result_of {R} (p : prog R) : option R :=
  match p with Ret _ r => Some r | _ => None end.

(** A schedule: at each move either the rest of the system or the call takes a step. *)
Inductive move := Env (now : Z) (e : sys_event) | Turn (now : Z) (o : oracle).

Definition play_move {R} (sp : Sys * prog R) (m : move) : Sys * prog R :=
  match m with
  | Env now e => (sys_step now e sp.1, sp.2)
  | Turn now o => turn now o sp.1 sp.2
  end.

Definition play {R} (moves : list move) (s : Sys) (p : prog R) : Sys * prog R :=
  foldl play_move (s, p) moves.
End calls.
