(* ===== verification/LookupSpec.v ===== *)
(** * LookupSpec: what a lookup returns under any interleaving

    A rely-guarantee logic for the programs of [Lookup]: [wp p s Q] holds when [p],
    started in [s] and interleaved with a system whose steps keep the invariant and
    never take the accepted revision back, can only return results that satisfy [Q]. *)
From S2P Require Import Prelude GoStrings GoTime GoNet Errors Cache Client ClientInv.
From S2P Require Import ClientHistory ClientCoherence Flight.
From S2P Require Import Json Iam S3Authz Token Mapping Lookup.

Section spec.
Context `{Platform} `{Timestamps} `{GrpcStatus} {CC VC : Type}
  `{TimedStoreLaws CC string (cached VirtualCredentials)}
  `{TimedStoreLaws VC string (cached VBucketConfig)}.

Abbreviation Client := (Client (CC:=CC) (VC:=VC)).
Abbreviation Sys := (Sys (CC:=CC) (VC:=VC)).
Abbreviation prog := (prog (CC:=CC) (VC:=VC)).

(** The control plane at each revision: credentials by access key, mappings by the
    pair's cache key. *)
Context (srv_cred : Z -> string -> option VirtualCredentials)
        (srv_conf : Z -> string -> option VBucketConfig).

(** ** The invariant and the rely *)

(** Results of loads tell the control plane's state at the revision they carry. *)
Definition results_ok {G A} (srv : Z -> string -> option A)
    (h : list (loadCall string G (cached A))) : Prop :=
  forall id call v, h !! id = Some call -> lc_result call = Some (Ok v) ->
    payload v = srv (ce_Revision v) (lc_key call).

(** [N] relates a call's key to what its closure captured. *)
Record flight_good {G A} (srv : Z -> string -> option A) (N : string -> G -> Prop)
    (g : loadGroup (K:=string) (G:=G) (V:=cached A)) : Prop := {
  fg_inv : flight_inv g;
  fg_results : results_ok srv (heap g);
  fg_names id call : heap g !! id = Some call -> N (lc_key call) (lc_env call)
}.

Definition cred_names (key : string) (env : Z * Z) : Prop := True.
Definition conf_names (key : string) (env : Z * Z * string * string) : Prop :=
  key = vbucketCacheKey env.1.2 env.2.

Record good (s : Sys) : Prop := {
  g_client : client_inv (client s);
  g_coherent : coherent srv_cred srv_conf (client s);
  g_cred : flight_good srv_cred cred_names (credLoads s);
  g_conf : flight_good srv_conf conf_names (vbLoads s)
}.

Definition keys_kept {G V} (g g' : loadGroup (K:=string) (G:=G) (V:=V)) : Prop :=
  forall id key, lc_key <$> heap g !! id = Some key -> lc_key <$> heap g' !! id = Some key.

Record evolves (s s' : Sys) : Prop := {
  ev_good : good s';
  ev_revision : revision (client s) <= revision (client s');
  ev_cred : keys_kept (credLoads s) (credLoads s');
  ev_conf : keys_kept (vbLoads s) (vbLoads s')
}.

Lemma evolves_refl s : good s -> evolves s s.
Proof. intros Hg. by split; [done|lia|intros ? ?|intros ? ?]. Qed.

Lemma evolves_trans s1 s2 s3 : evolves s1 s2 -> evolves s2 s3 -> evolves s1 s3.
Proof.
  intros [_ R1 C1 V1] [G R2 C2 V2]. split; [done|lia| |]; intros id key Hk; auto.
Qed.

(** ** Weakest preconditions *)

Section logic.
(** What the outside may answer to a question, and the states the steps of the program
    start from. *)
Context (answers : forall A, query A -> A -> Prop) (visited : Sys -> Prop).

Fixpoint wp {R} (p : prog R) (s : Sys) (Q : Sys -> R -> Prop) : Prop :=
  match p with
  | Ret _ r => Q s r
  | Act _ A f k => forall s1 now, evolves s s1 -> visited s1 ->
      evolves s1 (f now s1).1 /\ wp (k (f now s1).2) (f now s1).1 Q
  | Await _ A f k => forall s1 a, evolves s s1 -> f s1 = Some a -> wp (k a) s1 Q
  | Ask _ A q k => forall s1 a, evolves s s1 -> answers A q a -> wp (k a) s1 Q
  end.

(** A system state from which a program's future is the same. *)
Definition stable {R} (Q : Sys -> R -> Prop) : Prop :=
  forall s s' r, evolves s s' -> Q s r -> Q s' r.

Lemma wp_mono {R} (p : prog R) s (Q Q' : Sys -> R -> Prop) :
  (forall s r, Q s r -> Q' s r) -> wp p s Q -> wp p s Q'.
Proof.
  intros HQ. revert s. induction p as [r|A f k IH|A f k IH|A q k IH]; intros s; cbn; eauto.
  intros Hw s1 now He Hv. destruct (Hw s1 now He Hv). eauto.
Qed.

(** Environment steps before the first step of a program lose nothing. *)
Lemma wp_evolves {R} (p : prog R) s s' (Q : Sys -> R -> Prop) :
  stable Q -> evolves s s' -> wp p s Q -> wp p s' Q.
Proof.
  intros HQ He. destruct p as [r|A f k|A f k|A q k]; cbn; [by apply HQ|..]; intros Hw s1.
  - intros now He1. apply Hw. by eapply evolves_trans.
  - intros a He1. apply Hw. by eapply evolves_trans.
  - intros a He1. apply Hw. by eapply evolves_trans.
Qed.

(** A program only lets the system evolve. *)
Lemma wp_frame {R} (p : prog R) s (Q : Sys -> R -> Prop) :
  good s -> wp p s Q -> wp p s (fun s' r => evolves s s' /\ Q s' r).
Proof.
  revert s. induction p as [r|A f k IH|A f k IH|A q k IH]; intros s Hg; cbn.
  - intros HQ. split; [by apply evolves_refl|done].
  - intros Hw s1 now He Hv. destruct (Hw s1 now He Hv) as [He2 Hk]. split; [done|].
    eapply wp_mono; [|apply IH; [apply He2|done]]. intros s3 r [He3 HQ].
    split; [by do 2 (eapply evolves_trans; [done|])|done].
  - intros Hw s1 a He Hf. eapply wp_mono; [|apply IH; [apply He|by apply Hw]].
    intros s3 r [He3 HQ]. split; [by eapply evolves_trans|done].
  - intros Hw s1 a He Ha. eapply wp_mono; [|apply IH; [apply He|by apply Hw]].
    intros s3 r [He3 HQ]. split; [by eapply evolves_trans|done].
Qed.

Lemma wp_bind {A B} (p : prog A) (f : A -> prog B) s (Q : Sys -> B -> Prop) :
  wp p s (fun s' a => wp (f a) s' Q) -> wp (bind p f) s Q.
Proof.
  revert s. induction p as [r|X g k IH|X g k IH|X q k IH]; intros s; cbn; eauto.
  intros Hw s1 now He Hv. destruct (Hw s1 now He Hv). eauto.
Qed.

Lemma wp_observe {A} (f : Client -> A) s (Q : Sys -> A -> Prop) :
  (forall s1, evolves s s1 -> visited s1 -> Q s1 (f (client s1))) -> wp (observe f) s Q.
Proof. intros HQ s1 now He Hv. cbn. split; [apply evolves_refl, He|auto]. Qed.

Lemma wp_ask {A} (q : query A) s (Q : Sys -> A -> Prop) :
  (forall s1 a, evolves s s1 -> answers A q a -> Q s1 a) -> wp (ask q) s Q.
Proof. intros HQ s1 a He Ha. by apply HQ. Qed.

Lemma wp_await {A} (f : Sys -> option A) s (Q : Sys -> A -> Prop) :
  (forall s1 a, evolves s s1 -> f s1 = Some a -> Q s1 a) -> wp (await f) s Q.
Proof. intros HQ s1 a He Hf. by apply HQ. Qed.

Lemma wp_act {A} (f : Z -> Sys -> Sys * A) s (Q : Sys -> A -> Prop) :
  (forall s1 now, evolves s s1 ->
     evolves s1 (f now s1).1 /\ Q (f now s1).1 (f now s1).2) ->
  wp (act f) s Q.
Proof. intros HQ s1 now He _. by apply HQ. Qed.

(** ** Soundness *)

(** The replies and deltas of a move are the control plane's. *)
Definition faithful_event (e : sys_event) : Prop :=
  match e with
  | SysClient e => event_ok (0, e) /\ faithful srv_cred srv_conf (0, e)
  | SysCredReply _ reply => forall key rev resp, reply key rev = Ok (Some resp) ->
      faithful_reply srv_cred key (cr_Revision resp) (credentialResponseEntry (Some resp))
  | SysConfReply _ reply => forall accessKeyID bucketName rev resp,
      reply accessKeyID bucketName rev = Ok (Some resp) ->
      faithful_reply srv_conf (vbucketCacheKey accessKeyID bucketName) (vr_Revision resp)
        (vbucketResponseEntry (Some resp))
  | _ => True
  end.

Definition faithful_move (m : move) : Prop :=
  match m with Env _ e => faithful_event e | Turn _ _ => True end.

(** *** Load groups *)

(** The calls of a group keep their identity and their results. *)
Definition same_call {G V} (c c' : loadCall string G V) : Prop :=
  lc_key c' = lc_key c /\ lc_env c' = lc_env c /\ lc_result c' = lc_result c.

Definition same_calls {G V} (h h' : list (loadCall string G V)) : Prop := Forall2 same_call h h'.

Lemma same_calls_refl {G V} (h : list (loadCall string G V)) : same_calls h h.
Proof. induction h; constructor; done. Qed.

Lemma same_calls_insert {G V} (h : list (loadCall string G V)) id c c' :
  h !! id = Some c -> same_call c c' -> same_calls h (<[id := c']> h).
Proof.
  revert id. induction h as [|d h IH]; intros [|id] E Hs; simplify_eq/=; constructor; auto.
  - apply same_calls_refl.
  - done.
  - by apply IH.
Qed.

Lemma tail_same {G V} (e : flight_event (K:=string) (G:=G) (V:=V)) g :
  tail_event e = true -> same_calls (heap g) (heap (flight_step e g)).
Proof.
  destruct e as [| |id|id|id]; cbn; try done; intros _.
  - unfold load_return. destruct (heap g !! id) eqn:E; [|apply same_calls_refl].
    destruct (release _); [|apply same_calls_refl]. case_bool_decide; [|apply same_calls_refl].
    by eapply same_calls_insert.
  - unfold load_forget. destruct (heap g !! id) eqn:E; [|apply same_calls_refl].
    case_bool_decide; [|apply same_calls_refl]. by eapply same_calls_insert.
  - unfold load_close. destruct (heap g !! id) eqn:E; [|apply same_calls_refl].
    case_bool_decide; [|apply same_calls_refl]. by eapply same_calls_insert.
Qed.

(** Entering changes no call, or appends one that has no result yet; the call the caller
    is given has the caller's key. *)
Lemma enter_calls {G V} now key env (g : loadGroup (K:=string) (G:=G) (V:=V)) :
  flight_inv g ->
  let r := do_enter now key env g in
  (same_calls (heap g) (heap r.1) \/
   heap r.1 = heap g ++ [mkLoadCall key env None 0 Loading]) /\
  (forall id, r.2 = Joined id \/ r.2 = Started id -> lc_key <$> heap r.1 !! id = Some key).
Proof.
  intros I. unfold do_enter. destruct (calls g !! key) as [id|] eqn:E.
  - destruct (fi_calls g I key id E) as (c & Ec & Hk & _). cbn.
    rewrite (alter_as_insert _ _ _ c) by done. split; [left; by eapply same_calls_insert|].
    intros i [[= <-]|]; [|done]. rewrite list_lookup_insert_eq by by eapply lookup_lt_Some.
    cbn. by rewrite Hk.
  - destruct (acquire now (admission g)) as [a [|]]; cbn.
    + split; [by right|]. intros i [|[= <-]]; [done|].
      rewrite lookup_app_r, Nat.sub_diag by done. done.
    + split; [left; apply same_calls_refl|]. by intros i [|].
Qed.

Lemma flight_good_same {G A} (srv : Z -> string -> option A) N
    (g g' : loadGroup (K:=string) (G:=G) (V:=cached A)) :
  flight_good srv N g -> flight_inv g' -> same_calls (heap g) (heap g') ->
  flight_good srv N g' /\ keys_kept g g'.
Proof.
  intros [_ Hr Hn] I Hs. split; [split; [done|..]|].
  - intros id call v Hc Hv. destruct (Forall2_lookup_r _ _ _ _ _ Hs Hc) as (d & Hd & Hk & _ & Hres).
    rewrite Hk. apply (Hr id); [done|congruence].
  - intros id call Hc. destruct (Forall2_lookup_r _ _ _ _ _ Hs Hc) as (d & Hd & Hk & He & _).
    rewrite Hk, He. by eapply Hn.
  - intros id key (d & Hd & ->)%fmap_Some_1.
    destruct (Forall2_lookup_l _ _ _ _ _ Hs Hd) as (c & Hc & Hk & _). by rewrite Hc, <-Hk.
Qed.

Lemma flight_good_app {G A} (srv : Z -> string -> option A) N key env
    (g g' : loadGroup (K:=string) (G:=G) (V:=cached A)) :
  flight_good srv N g -> flight_inv g' -> N key env ->
  heap g' = heap g ++ [mkLoadCall key env None 0 Loading] ->
  flight_good srv N g' /\ keys_kept g g'.
Proof.
  intros [_ Hr Hn] I HN Hh. split; [split; [done|..]|].
  - intros id call v. rewrite Hh. intros [Hc|[_ Hc]]%lookup_app_Some Hv; [by eapply Hr|].
    destruct (id - _)%nat; simplify_eq/=.
  - intros id call. rewrite Hh. intros [Hc|[_ Hc]]%lookup_app_Some; [by eapply Hn|].
    destruct (id - _)%nat; simplify_eq/=. done.
  - intros id k (d & Hd & ->)%fmap_Some_1. by rewrite Hh, (lookup_app_l_Some _ _ _ _ Hd).
Qed.

Lemma flight_good_enter {G A} (srv : Z -> string -> option A) N now key env
    (g : loadGroup (K:=string) (G:=G) (V:=cached A)) :
  flight_good srv N g -> N key env ->
  flight_good srv N (do_enter now key env g).1 /\ keys_kept g (do_enter now key env g).1.
Proof.
  intros Hg HN. destruct (enter_calls now key env g (fg_inv _ _ _ Hg)) as [[Hs|Ha] _];
    [apply flight_good_same|eapply flight_good_app]; eauto; apply inv_enter, Hg.
Qed.

Lemma flight_good_tail {G A} (srv : Z -> string -> option A) N e
    (g : loadGroup (K:=string) (G:=G) (V:=cached A)) :
  flight_good srv N g -> tail_event e = true ->
  flight_good srv N (flight_step e g) /\ keys_kept g (flight_step e g).
Proof.
  intros Hg He. apply flight_good_same; [done|apply inv_flight_step, Hg|by apply tail_same].
Qed.

Lemma flight_good_body {G A} (srv : Z -> string -> option A) N id call r
    (g : loadGroup (K:=string) (G:=G) (V:=cached A)) :
  flight_good srv N g -> heap g !! id = Some call ->
  (forall v, r = Ok v -> payload v = srv (ce_Revision v) (lc_key call)) ->
  let g' := default g (load_body id r g) in
  flight_good srv N g' /\ keys_kept g g'.
Proof.
  intros Hg Hc Hr. cbv zeta. destruct (load_body id r g) as [g'|] eqn:E;
    [|by split; [|intros ? ?]]. cbn [default].
  pose proof (inv_body _ _ _ _ (fg_inv _ _ _ Hg) E) as I. unfold load_body in E.
  rewrite Hc in E. case_bool_decide; [|done]. injection E as <-.
  destruct Hg as [_ Hres Hn]. split; [split; [done|..]|]; cbn.
  - intros i d v. rewrite list_lookup_insert. case_decide; [|by apply Hres].
    intros [= <-]. cbn. intros [= ->]. by apply Hr.
  - intros i d. rewrite list_lookup_insert. case_decide; [|by apply Hn].
    intros [= <-]. cbn. by eapply Hn.
  - intros i k. cbn. rewrite list_lookup_insert. case_decide as Hd; [|done].
    destruct Hd as [-> _]. by rewrite Hc.
Qed.

(** *** The client *)

Lemma admitEntry_revision {S A} `{TimedStoreLaws S string (cached A)} now key rev cur
    (cand e : cached A) (s : S) :
  (forall k v, store_holds s k v -> ce_Revision v <= cur) ->
  (admitEntry now key rev cur cand s).2 = LoadEntry e -> ce_Revision e = cur.
Proof.
  intros Hs. unfold admitEntry. destruct (store_get now key s) as [s1 newer] eqn:E1.
  assert (forall k v, store_holds s1 k v -> ce_Revision v <= cur) as Hs1.
  { intros k v Hh. apply (Hs k). change s1 with (s1, newer).1 in Hh. rewrite <-E1 in Hh.
    by eapply store_get_keeps. }
  cbv zeta.
  assert ((if cur <? ce_Revision cand then (s1, LoadResync)
    else if negb (cur =? rev) || negb (ce_Revision cand =? cur) then (s1, LoadRace)
    else insertEntry now key cand s1).2 = LoadEntry e -> ce_Revision e = cur) as Harb.
  { destruct (cur <? ce_Revision cand); [done|]. destruct (_ || _) eqn:Ec; [done|].
    apply orb_false_iff in Ec as [_ Ec%negb_false_iff%Z.eqb_eq].
    unfold insertEntry. destruct (store_get now key s1) as [s2 newer2] eqn:E2.
    destruct newer2 as [n|]; [|cbn; congruence].
    destruct (Z.leb_spec (ce_Revision cand) (ce_Revision n)); [|cbn; congruence].
    cbn. intros [= <-]. assert (store_holds s1 key n) as Hh%Hs1; [|lia].
    eapply (store_get_holds now). by rewrite E2. }
  destruct newer as [n|]; [|done]. destruct (_ && _) eqn:Ec; [|done].
  apply andb_true_iff in Ec as [_ Ec%Z.eqb_eq]. cbn. congruence.
Qed.

Lemma unary_revision now rev expected (c : Client) :
  revision (checkUnaryRevision now rev expected c).1 = revision c.
Proof.
  pose proof (sr_revision _ _ (step_unary now rev expected c)). unfold checkUnaryRevision.
  destruct (rev =? expected); [done|]. destruct (bool_decide _); [done|]. cbn.
  unfold requestResyncLocked. repeat case_match; cbn; by rewrite ?transitionLocked_revision.
Qed.

Lemma unary_none now rev expected (c c' : Client) :
  checkUnaryRevision now rev expected c = (c', None) -> c' = c.
Proof.
  unfold checkUnaryRevision. destruct (rev =? expected); [congruence|].
  destruct (bool_decide _); discriminate.
Qed.

Lemma loadCredentials_revision now key rev ep respRev parsed (c : Client) v :
  client_inv c -> (loadCredentials now key rev ep respRev parsed c).2 = Ok v ->
  ce_Revision v = revision c.
Proof.
  intros I. unfold loadCredentials.
  destruct (checkUnaryRevision _ _ _ _) as [c1 [err|]] eqn:E; [done|]. apply unary_none in E as ->.
  destruct parsed as [cand|]; [|done]. unfold admitCredentials. destruct (_ || _); [done|].
  destruct (admitEntry now key rev (revision c) cand (credentials c)) as [cc r] eqn:Ea. cbn.
  destruct r; [|done..]. intros [= <-].
  eapply (admitEntry_revision now key rev (revision c) cand); [apply I|]. by rewrite Ea.
Qed.

Lemma loadVBucket_revision now key rev ep respRev parsed (c : Client) v :
  client_inv c -> (loadVBucket now key rev ep respRev parsed c).2 = Ok v ->
  ce_Revision v = revision c.
Proof.
  intros I. unfold loadVBucket.
  destruct (checkUnaryRevision _ _ _ _) as [c1 [err|]] eqn:E; [done|]. apply unary_none in E as ->.
  destruct parsed as [cand|]; [|done]. unfold admitVBucket. destruct (_ || _); [done|].
  destruct (admitEntry now key rev (revision c) cand (vbuckets c)) as [vc r] eqn:Ea. cbn.
  destruct r; [|done..]. intros [= <-].
  eapply (admitEntry_revision now key rev (revision c) cand); [apply I|]. by rewrite Ea.
Qed.

(** A client step that keeps the invariants and does not go back. *)
Definition client_step (c c' : Client) : Prop :=
  client_inv c' /\ coherent srv_cred srv_conf c' /\ revision c <= revision c'.

Lemma client_step_event now e (c : Client) :
  client_inv c -> coherent srv_cred srv_conf c -> event_ok (0, e) ->
  faithful srv_cred srv_conf (0, e) -> client_step c (step (now, e) c).
Proof.
  intros I Hc Ho Hf. split_and!.
  - apply inv_step; [done|]. by destruct e.
  - apply coherent_step; [done|done|]. by destruct e.
  - apply (sr_revision _ _ (step_rel_step (now, e) c I)).
Qed.

Lemma client_step_refl (c : Client) :
  client_inv c -> coherent srv_cred srv_conf c -> client_step c c.
Proof. intros I Hc. unfold client_step. split_and!; [done|done|lia]. Qed.

Lemma evolves_client c' s :
  good s -> client_step (client s) c' -> evolves s (set_client c' s).
Proof.
  intros [I Hc Hf Hv] (I' & Hc' & Hr). by split; [split|..]; cbn; [..|intros ? ?|intros ? ?].
Qed.

Lemma cred_body_step now key env reply (c : Client) :
  client_inv c -> coherent srv_cred srv_conf c ->
  (forall key rev resp, reply key rev = Ok (Some resp) ->
     faithful_reply srv_cred key (cr_Revision resp) (credentialResponseEntry (Some resp))) ->
  let r := cred_body now key env reply c in
  client_step c r.1 /\ (forall v, r.2 = Ok v -> payload v = srv_cred (ce_Revision v) key).
Proof.
  intros I Hc Hf. unfold cred_body. destruct env as [rev ep].
  destruct (reply key rev) as [[resp|]|] eqn:Er; [|by split; [apply client_step_refl|]..].
  apply Hf in Er. split.
  - by apply (client_step_event now
      (EvLoadCredentials key rev ep (cr_Revision resp) (credentialResponseEntry (Some resp)))).
  - intros v Hv. rewrite (loadCredentials_revision _ _ _ _ _ _ _ _ I Hv).
    by eapply coherent_loadCredentials.
Qed.

Lemma conf_body_step now key env reply (c : Client) :
  client_inv c -> coherent srv_cred srv_conf c -> conf_names key env ->
  (forall accessKeyID bucketName rev resp, reply accessKeyID bucketName rev = Ok (Some resp) ->
     faithful_reply srv_conf (vbucketCacheKey accessKeyID bucketName) (vr_Revision resp)
       (vbucketResponseEntry (Some resp))) ->
  let r := conf_body now key env reply c in
  client_step c r.1 /\ (forall v, r.2 = Ok v -> payload v = srv_conf (ce_Revision v) key).
Proof.
  intros I Hc Hk Hf. unfold conf_body. destruct env as [[[rev ep] ak] b]. unfold conf_names in Hk.
  cbn [fst snd] in Hk. subst key.
  destruct (reply ak b rev) as [[resp|]|] eqn:Er; [|by split; [apply client_step_refl|]..].
  apply Hf in Er. split.
  - by apply (client_step_event now
      (EvLoadVBucket _ rev ep (vr_Revision resp) (vbucketResponseEntry (Some resp)))).
  - intros v Hv. rewrite (loadVBucket_revision _ _ _ _ _ _ _ _ I Hv).
    by eapply coherent_loadVBucket.
Qed.

(** *** The whole system *)

Lemma evolves_sys s c g h :
  good s -> client_step (client s) c ->
  flight_good srv_cred cred_names g /\ keys_kept (credLoads s) g ->
  flight_good srv_conf conf_names h /\ keys_kept (vbLoads s) h ->
  evolves s (mkSys c g h).
Proof. intros Hg (I & Hc & Hr) [? ?] [? ?]. by split. Qed.

Lemma keep_flight {G A} (srv : Z -> string -> option A) N
    (g : loadGroup (K:=string) (G:=G) (V:=cached A)) :
  flight_good srv N g -> flight_good srv N g /\ keys_kept g g.
Proof. by split; [|intros ? ?]. Qed.

Lemma evolves_step now e s : good s -> faithful_event e -> evolves s (sys_step now e s).
Proof.
  intros Hg Hf. pose proof Hg as [I Hc Gc Gv].
  pose proof (client_step_refl _ I Hc) as Hstay.
  pose proof (keep_flight _ _ _ Gc) as Kc. pose proof (keep_flight _ _ _ Gv) as Kv.
  destruct e as [e|key rev ep|ak b rev ep|id reply|id reply|e|e]; cbn [sys_step].
  - destruct Hf. by apply evolves_client, client_step_event.
  - cbn. pose proof (flight_good_enter _ _ now key (rev, ep) _ Gc Logic.I) as Hx.
    destruct (do_enter _ _ _ _) as [g e]. by apply evolves_sys.
  - cbn. pose proof (flight_good_enter _ _ now (vbucketCacheKey ak b) (rev, ep, ak, b) _ Gv eq_refl) as Hx.
    destruct (do_enter _ _ _ _) as [g e]. by apply evolves_sys.
  - destruct (heap (credLoads s) !! id) as [call|] eqn:E; [|by apply evolves_refl].
    case_bool_decide; [|by apply evolves_refl].
    destruct (cred_body_step now (lc_key call) (lc_env call) reply _ I Hc Hf) as [Hs Hv].
    destruct (cred_body _ _ _ _ _) as [c r]. apply evolves_sys; [done|done| |done].
    by eapply flight_good_body.
  - destruct (heap (vbLoads s) !! id) as [call|] eqn:E; [|by apply evolves_refl].
    case_bool_decide; [|by apply evolves_refl].
    destruct (conf_body_step now (lc_key call) (lc_env call) reply _ I Hc (fg_names _ _ _ Gv _ _ E) Hf) as [Hs Hv].
    destruct (conf_body _ _ _ _ _) as [c r]. apply evolves_sys; [done|done|done|].
    by eapply flight_good_body.
  - destruct (tail_event e) eqn:E; [|by apply evolves_refl].
    apply evolves_sys; [done..|by apply flight_good_tail|done].
  - destruct (tail_event e) eqn:E; [|by apply evolves_refl].
    apply evolves_sys; [done..|by apply flight_good_tail].
Qed.

Definition answering (m : move) : Prop :=
  match m with Turn _ o => forall A q, answers A q (o A q) | Env _ _ => True end.

(** The states a schedule goes through. *)
Fixpoint trace {R} (moves : list move) (s : Sys) (p : prog R) : list Sys :=
  match moves with
  | [] => []
  | m :: moves => s :: trace moves (play_move (s, p) m).1 (play_move (s, p) m).2
  end.

(** A program that plays to its end returns what its precondition promises. *)
Lemma wp_play {R} (moves : list move) (p : prog R) s s' r (Q : Sys -> R -> Prop) :
  good s -> Forall (faithful_move) moves -> Forall answering moves -> stable Q -> wp p s Q ->
  (forall s1, s1 ∈ trace moves s p -> visited s1) ->
  play moves s p = (s', Ret R r) -> evolves s s' /\ Q s' r.
Proof.
  intros Hg Hm Ha HQ. revert p s Hg. induction moves as [|m moves IH]; intros p s Hg Hw Hv; cbn.
  - intros [= -> ->]. split; [by apply evolves_refl|done].
  - apply Forall_cons in Hm as [Hm Hms]. apply Forall_cons in Ha as [Ha Has].
    specialize (IH Hms Has). assert (visited s) as Hvs by apply Hv, list_elem_of_here.
    assert (forall s1, s1 ∈ trace moves (play_move (s, p) m).1 (play_move (s, p) m).2 ->
              visited s1) as Hvr by (intros s1 Hin; by apply Hv, list_elem_of_further).
    clear Hv. destruct m as [now e|now o].
    + pose proof (evolves_step now e s Hg Hm) as He. cbn in Hvr |- *.
      intros Hp. destruct (IH p (sys_step now e s)) as [He' Hr]; [apply He| |done..|].
      * by eapply wp_evolves.
      * split; [by eapply evolves_trans|done].
    + destruct p as [r0|A f k|A f k|A q k]; cbn in Hvr |- *.
      * by apply IH.
      * destruct (Hw s now (evolves_refl s Hg) Hvs) as [He Hk]. destruct (f now s) as [s1 a].
        intros Hp. destruct (IH (k a) s1) as [He' Hr]; [apply He|done..|].
        split; [by eapply evolves_trans|done].
      * destruct (f s) as [a|] eqn:Ef; [|by apply IH]. apply IH; [done| |done].
        by apply Hw; [apply evolves_refl|].
      * apply IH; [done| |done]. apply Hw; [by apply evolves_refl|apply Ha].
Qed.

(** ** The two lookups *)

(** What a lookup's cache and load group promise about [key]. *)
Record ops_ok {A} (srv : Z -> string -> option A) (key : string) (ops : lookup_ops A)
    (known : nat -> Sys -> Prop) : Prop := {
  oo_read s now : good s -> evolves s (lo_read A ops now s).1 /\
    (forall v, (lo_read A ops now s).2 = Some v ->
       payload v = srv (revision (client s)) key);
  oo_enter s rev ep now : good s -> evolves s (lo_enter A ops rev ep now s).1 /\
    (forall id, (lo_enter A ops rev ep now s).2 = Joined id \/
                (lo_enter A ops rev ep now s).2 = Started id ->
                known id (lo_enter A ops rev ep now s).1);
  oo_known s s' id : evolves s s' -> known id s -> known id s';
  oo_result s id v : good s -> known id s -> lo_result A ops id s = Some (Ok v) ->
    payload v = srv (ce_Revision v) key
}.

Definition cred_known (key : string) (id : nat) (s : Sys) : Prop :=
  lc_key <$> heap (credLoads s) !! id = Some key.
Definition conf_known (key : string) (id : nat) (s : Sys) : Prop :=
  lc_key <$> heap (vbLoads s) !! id = Some key.

Lemma result_known {G A} (srv : Z -> string -> option A) N
    (g : loadGroup (K:=string) (G:=G) (V:=cached A)) id key v :
  flight_good srv N g -> lc_key <$> heap g !! id = Some key ->
  call_result id g = Some (Ok v) -> payload v = srv (ce_Revision v) key.
Proof.
  intros Hg (c & Hc & ->)%fmap_Some_1. unfold call_result. rewrite Hc.
  case_bool_decide; [|done]. intros Hr. by eapply (fg_results _ _ _ Hg).
Qed.

Lemma cred_ops_ok key : ops_ok srv_cred key (cred_ops key) (cred_known key).
Proof.
  split.
  - intros s now Hg. pose proof Hg as [I Hc _ _]. cbn.
    pose proof (client_step_event now (EvReadCredentials key) _ I Hc Logic.I Logic.I) as Hs.
    cbn in Hs. unfold readCredentials in *.
    destruct (store_get now key (credentials (client s))) as [cc r] eqn:E. cbn in *.
    split; [by apply evolves_client|]. intros v ->. apply Hc.
    eapply (store_get_holds now). by rewrite E.
  - intros s rev ep now Hg. cbn.
    pose proof (flight_good_enter _ _ now key (rev, ep) _ (g_cred _ Hg) Logic.I) as Hx.
    pose proof (enter_calls now key (rev, ep) _ (fg_inv _ _ _ (g_cred _ Hg))) as [_ Hk].
    destruct (do_enter _ _ _ _) as [g e]. cbn in *. split; [|done].
    apply evolves_sys; [done|apply client_step_refl; apply Hg|done|apply keep_flight, Hg].
  - intros s s' id He. apply (ev_cred _ _ He).
  - intros s id v Hg. eapply result_known. apply Hg.
Qed.

Lemma conf_ops_ok ak b :
  ops_ok srv_conf (vbucketCacheKey ak b) (conf_ops ak b) (conf_known (vbucketCacheKey ak b)).
Proof.
  set (key := vbucketCacheKey ak b). split.
  - intros s now Hg. pose proof Hg as [I Hc _ _]. cbn. fold key.
    pose proof (client_step_event now (EvReadVBucket key) _ I Hc Logic.I Logic.I) as Hs.
    cbn in Hs. unfold readVBucket in *.
    destruct (store_get now key (vbuckets (client s))) as [vc r] eqn:E. cbn in *.
    split; [by apply evolves_client|]. intros v ->. apply Hc.
    eapply (store_get_holds now). by rewrite E.
  - intros s rev ep now Hg. cbn. fold key.
    pose proof (flight_good_enter _ _ now key (rev, ep, ak, b) _ (g_conf _ Hg) eq_refl) as Hx.
    pose proof (enter_calls now key (rev, ep, ak, b) _ (fg_inv _ _ _ (g_conf _ Hg))) as [_ Hk].
    destruct (do_enter _ _ _ _) as [g e]. cbn in *. split; [|done].
    apply evolves_sys; [done|apply client_step_refl; apply Hg|apply keep_flight, Hg|done].
  - intros s s' id He. apply (ev_conf _ _ He).
  - intros s id v Hg. eapply result_known. apply Hg.
Qed.

(** The value found is the control plane's at a revision the client had accepted during
    the call. *)
Definition value_between {A} (srv : Z -> string -> option A) (key : string) (s0 : Sys)
    (s' : Sys) (r : result error (option A)) : Prop :=
  forall o, r = Ok o -> exists rev,
    revision (client s0) <= rev <= revision (client s') /\ srv rev key = o.

Lemma value_between_stable {A} (srv : Z -> string -> option A) key s0 :
  stable (value_between srv key s0).
Proof.
  intros s s' r He Hv o Ho. destruct (Hv o Ho) as (rev & ? & ?). exists rev.
  pose proof (ev_revision _ _ He). split; [lia|done].
Qed.

Lemma value_between_err {A} (srv : Z -> string -> option A) key s0 s' err :
  value_between srv key s0 s' (Err err).
Proof. done. Qed.

Lemma entry_value_between {A} (srv : Z -> string -> option A) key s0 s' (v : cached A) rev :
  payload v = srv rev key -> revision (client s0) <= rev <= revision (client s') ->
  value_between srv key s0 s' (entry_value v).
Proof.
  intros Hp Hr o. unfold entry_value, payload in *. destruct (ce_Found v); [|done].
  intros [= <-]. exists rev. auto.
Qed.

Lemma stillCurrent_revision rev ep (c : Client) : stillCurrent rev ep c = true -> revision c = rev.
Proof. unfold stillCurrent. intros H'. bool_to_prop. done. Qed.

Lemma wp_retry {A} (srv : Z -> string -> option A) key s0 s b
    (retry : option (prog (result error (option A)))) err :
  evolves s0 s ->
  (forall again, retry = Some again ->
     forall s', evolves s0 s' -> wp again s' (value_between srv key s0)) ->
  wp (retry_if b retry (Err err)) s (value_between srv key s0).
Proof.
  intros He Hr. unfold retry_if. destruct retry as [again|]; [|done]. destruct b; [|done].
  apply wp_bind, wp_observe. intros s1 He1 _. destruct (Ready _); [|done].
  apply Hr; [done|]. by eapply evolves_trans.
Qed.

(** What a pass does with the result of its load. *)
Definition settle {A} (retry : option (prog (result error (option A)))) (ep : Z)
    (r : result error (cached A)) : prog (result error (option A)) :=
  match r with
  | Err err => retry_if (Is err ErrRevisionRace) retry (Err err)
  | Ok v =>
      let! ok := observe (stillCurrent (ce_Revision v) ep) in
      if negb ok then retry_if true retry (Err (Named ErrRevisionRace)) else ret (entry_value v)
  end.

(** The pieces of a pass that began in [s0], given what its retry would answer. *)
Section pass.
Context {A : Type} (srv : Z -> string -> option A) (key : string)
  (ops : lookup_ops (CC:=CC) (VC:=VC) A)
  (known : nat -> Sys -> Prop) (s0 : Sys) (retry : option (prog (result error (option A)))).
Context (Hops : ops_ok srv key ops known)
  (Hretry : forall again, retry = Some again ->
     forall s', evolves s0 s' -> wp again s' (value_between srv key s0)).

Lemma wp_settle r ep s :
  evolves s0 s -> (forall v, r = Ok v -> payload v = srv (ce_Revision v) key) ->
  wp (settle retry ep r) s (value_between srv key s0).
Proof.
  intros He Hr. destruct r as [v|err]; [|by apply wp_retry].
  apply wp_bind, wp_observe. intros s1 He1 _. assert (evolves s0 s1) as He01 by by eapply evolves_trans.
  destruct (stillCurrent _ _ _) eqn:Es; cbn [negb]; [|by apply wp_retry].
  apply stillCurrent_revision in Es. pose proof (ev_revision _ _ He01).
  eapply entry_value_between; [by apply Hr|lia].
Qed.

(** Waiting for a load this caller started or joined. *)
Lemma wp_wait id ep s :
  evolves s0 s -> known id s ->
  wp (let! ended := ask QContext in
      match ended with Some err => ret (Err err) | None => await (lo_result A ops id) end) s
    (fun s' r => wp (settle retry ep r) s' (value_between srv key s0)).
Proof.
  intros He Hid. apply wp_bind, wp_ask. intros s1 ended He1 _.
  assert (evolves s0 s1) as He01 by by eapply evolves_trans.
  destruct ended as [err|]; [by apply wp_settle|]. apply wp_await. intros s2 r He2 Hr.
  apply wp_settle; [by eapply evolves_trans|]. intros v ->.
  eapply (oo_result _ _ _ _ Hops s2 id); [apply He2| |done].
  eapply (oo_known _ _ _ _ Hops s); [by eapply evolves_trans|done].
Qed.

Lemma wp_load rev ep s :
  evolves s0 s ->
  wp (let! r := Do ops rev ep in settle retry ep r) s (value_between srv key s0).
Proof.
  intros He. apply wp_bind. unfold Do. apply wp_bind, wp_act. intros s1 now He1.
  destruct (oo_enter _ _ _ _ Hops s1 rev ep now) as [He2 Hk]; [apply He1|]. split; [done|].
  assert (evolves s0 (lo_enter A ops rev ep now s1).1) as He02 by (do 2 (eapply evolves_trans; [done|]); done).
  destruct (lo_enter A ops rev ep now s1).2 as [id| |id]; [|by apply wp_settle|];
    apply wp_wait; auto.
Qed.

Lemma wp_pass s :
  evolves s0 s -> wp (lookup_pass ops retry) s (value_between srv key s0).
Proof.
  intros He0. unfold lookup_pass. apply wp_bind, wp_observe. intros s1 He1 _.
  assert (evolves s0 s1) as He01 by by eapply evolves_trans.
  destruct (lookupSnapshot (client s1)) as [[rev ep]|err]; [|by apply wp_retry].
  apply wp_bind, wp_act. intros s2 now He2.
  assert (evolves s0 s2) as He02 by by eapply evolves_trans.
  destruct (oo_read _ _ _ _ Hops s2 now) as [He3 Hv]; [apply He2|]. split; [done|].
  assert (evolves s0 (lo_read A ops now s2).1) as He03 by by eapply evolves_trans.
  destruct (lo_read A ops now s2).2 as [v|]; [|by apply wp_load].
  destruct (ce_Revision v <=? rev); [|by apply wp_load].
  apply wp_bind, wp_observe. intros s4 He4 _.
  assert (evolves s0 s4) as He04 by by eapply evolves_trans.
  destruct (stillCurrent _ _ _); cbn [negb]; [|by apply wp_retry].
  eapply entry_value_between; [by apply Hv|].
  pose proof (ev_revision _ _ He02). pose proof (ev_revision _ _ He3).
  pose proof (ev_revision _ _ He4). lia.
Qed.
End pass.

Lemma wp_lookup {A} (srv : Z -> string -> option A) key (ops : lookup_ops A) known s :
  ops_ok srv key ops known -> good s -> wp (lookup ops) s (value_between srv key s).
Proof.
  intros Ho Hg. unfold lookup. eapply wp_pass; [done| |by apply evolves_refl].
  intros again [= <-] s' He. by eapply wp_pass.
Qed.

Lemma map_err_between {A} (srv : Z -> string -> option A) key s0 s' r :
  value_between srv key s0 s' r -> value_between srv key s0 s' (map_err r).
Proof. intros Hv o. unfold map_err. destruct r; [by apply Hv|]. case_match; done. Qed.

Lemma wp_LookupCredentials key s :
  good s -> wp (LookupCredentials key) s (value_between srv_cred key s).
Proof.
  intros Hg. unfold LookupCredentials, lookupCredentials. apply wp_bind.
  eapply wp_mono; [|by eapply wp_lookup, Hg; apply cred_ops_ok].
  intros s' r. apply map_err_between.
Qed.

Lemma wp_LookupVBucket ak b s :
  good s -> wp (LookupVBucket ak b) s (value_between srv_conf (vbucketCacheKey ak b) s).
Proof.
  intros Hg. unfold LookupVBucket, lookupVBucket. apply wp_bind.
  eapply wp_mono; [|by eapply wp_lookup, Hg; apply conf_ops_ok].
  intros s' r. apply map_err_between.
Qed.

End logic.

(** ** From the initial system *)

Section initial.
Context (now0 m : Z) (cc0 : CC) (vc0 : VC) (ca va : missAdmission).
Context (cc0_empty : forall k v, ~ store_holds cc0 k v)
        (vc0_empty : forall k v, ~ store_holds vc0 k v)
        (ca_idle : inflight ca = 0) (va_idle : inflight va = 0).

Definition initial : Sys := mkSys (newClient now0 m cc0 vc0) (newLoadGroup ca) (newLoadGroup va).

(** The system after the moves of [before], with no call of its own. *)
Definition system (before : list move) : Sys := (play before initial (ret tt)).1.

Lemma good_initial : good initial.
Proof.
  split; cbn.
  - by apply inv_new.
  - split; intros k v Hh; exfalso; [by apply (cc0_empty k v)|by apply (vc0_empty k v)].
  - split; [by apply inv_newLoadGroup|by intros ? ? ? ?|by intros ? ?].
  - split; [by apply inv_newLoadGroup|by intros ? ? ? ?|by intros ? ?].
Qed.

Lemma good_system before : Forall faithful_move before -> good (system before).
Proof.
  unfold system. generalize good_initial. generalize initial.
  induction before as [|mv before IH]; intros s Hg; [done|]. intros [Hm Hms]%Forall_cons.
  destruct mv as [now e|now o]; cbn; [|by apply IH].
  apply IH; [|done]. apply (evolves_step now e s Hg Hm).
Qed.

(** No assumption on the answers. *)
Definition anything : forall A, query A -> A -> Prop := fun _ _ _ => True.

Lemma answering_anything moves : Forall (answering anything) moves.
Proof. apply Forall_forall. by intros [|] _. Qed.

(** C7. Lookups are linearizable: under any interleaving with the watch, with other
    callers, with the loads they share and with one retry, a lookup that returns a value
    returns the control plane's own state at some revision the client had accepted
    between the start and the end of the call. *)
Theorem lookup_linearizable (before moves : list move)
    (Hfaithful : Forall faithful_move (before ++ moves)) :
  let s := system before in
  (forall key s' o, play moves s (LookupCredentials key) = (s', Ret _ (Ok o)) ->
     exists rev, revision (client s) <= rev <= revision (client s') /\ srv_cred rev key = o) /\
  (forall accessKeyID bucket s' o,
     play moves s (LookupVBucket accessKeyID bucket) = (s', Ret _ (Ok o)) ->
     exists rev, revision (client s) <= rev <= revision (client s') /\
       srv_conf rev (vbucketCacheKey accessKeyID bucket) = o).
Proof.
  apply Forall_app in Hfaithful as [Hb Hm]. pose proof (good_system before Hb) as Hg. intros s.
  split.
  - intros key s' o Hp.
    destruct (wp_play anything (fun _ => True) moves (LookupCredentials key) s s' (Ok o)
                (value_between srv_cred key s))
      as [_ Hv]; auto using value_between_stable, wp_LookupCredentials, answering_anything.
  - intros ak b s' o Hp.
    destruct (wp_play anything (fun _ => True) moves (LookupVBucket ak b) s s' (Ok o)
                (value_between srv_conf (vbucketCacheKey ak b) s))
      as [_ Hv]; auto using value_between_stable, wp_LookupVBucket, answering_anything.
Qed.
End initial.

Lemma result_of_Some {R} (p : prog R) r : result_of p = Some r -> p = Ret R r.
Proof. destruct p; cbn; congruence. Qed.

(** ** Lookups return *)

(** [p] returns within [n] of its own steps. *)
Fixpoint within {R} (p : prog R) (n : nat) : Prop :=
  match p with
  | Ret _ _ => True
  | Act _ A f k => exists m, n = S m /\ forall a, within (k a) m
  | Await _ A f k => exists m, n = S m /\ forall a, within (k a) m
  | Ask _ A q k => exists m, n = S m /\ forall a, within (k a) m
  end.

(** The steps of the call in a schedule: its turns, except those that find the channel
    it waits on not ready. *)
Fixpoint own_steps {R} (moves : list move) (s : Sys) (p : prog R) : nat :=
  match moves with
  | [] => 0
  | m :: moves =>
      let (s', p') := play_move (s, p) m in
      let n := own_steps moves s' p' in
      match m, p with
      | Turn _ _, Await _ A f k => match f s with Some _ => S n | None => n end
      | Turn _ _, _ => S n
      | Env _ _, _ => n
      end
  end.

Lemma within_returns {R} (moves : list move) s (p : prog R) n :
  within p n -> (n <= own_steps moves s p)%nat -> exists s' r, play moves s p = (s', Ret R r).
Proof.
  revert s p n. induction moves as [|mv moves IH]; intros s p n Hw Hn.
  - cbn in Hn. destruct p; cbn in *; eauto; destruct Hw as (j & -> & _); lia.
  - destruct mv as [now e|now o]; [by apply (IH _ _ n)|].
    destruct p as [r|A f k|A f k|A q k]; cbn in *.
    + apply (IH s (Ret R r) 0%nat); [done|lia].
    + destruct Hw as (j & -> & Hk). destruct (f now s) as [s1 a].
      apply (IH s1 (k a) j); [done|lia].
    + destruct (f s) as [a|] eqn:E.
      * destruct Hw as (j & -> & Hk). apply (IH s (k a) j); [done|lia].
      * by apply (IH s (Await R A f k) n).
    + destruct Hw as (j & -> & Hk). apply (IH s (k (o A q)) j); [done|lia].
Qed.

Lemma within_le {R} (p : prog R) n k : within p n -> (n <= k)%nat -> within p k.
Proof.
  revert n k. induction p as [r|A f g IH|A f g IH|A q g IH]; intros n k; cbn; [done|..];
    intros (j & -> & Hj) Hk; (destruct k as [|k]; [lia|]); exists k; split; try done;
    intros a; apply (IH a j); auto; lia.
Qed.

Lemma within_bind {A B} (p : prog A) (f : A -> prog B) n k :
  within p n -> (forall a, within (f a) k) -> within (bind p f) (n + k).
Proof.
  revert n. induction p as [r|X g h IH|X g h IH|X q h IH]; intros n; cbn;
    [intros _ Hf; eapply within_le; [apply Hf|lia]|..];
    intros (j & -> & Hj) Hf; exists (j + k)%nat; split; try done; intros a; by apply IH.
Qed.

Lemma within_retry {A} b (retry : option (prog A)) fail n :
  (forall again, retry = Some again -> within again n) -> within (retry_if b retry fail) (1 + n).
Proof.
  intros Hr. unfold retry_if. destruct retry as [again|]; [|done]. destruct b; [|done].
  cbn. exists n. split; [done|]. intros []; [by apply Hr|done].
Qed.

Lemma within_pass {A} (ops : lookup_ops A) retry n :
  (forall again, retry = Some again -> within again n) ->
  within (lookup_pass ops retry) (7 + n).
Proof.
  intros Hr. unfold lookup_pass.
  assert (forall b fail, within (retry_if b retry fail) (1 + n)) as Hretry
    by (intros; by apply within_retry).
  apply (within_bind _ _ 1); [cbn; eauto|]. intros [[rev ep]|err];
    [|eapply within_le; [apply Hretry|lia]].
  assert (within (let! result := Do ops rev ep in
     match result with
     | Err err => retry_if (Is err ErrRevisionRace) retry (Err err)
     | Ok v =>
         let! ok := observe (stillCurrent (ce_Revision v) ep) in
         if negb ok then retry_if true retry (Err (Named ErrRevisionRace))
         else ret (entry_value v)
     end) (5 + n)) as Hload.
  { apply (within_bind _ _ 3).
    - unfold Do. apply (within_bind _ _ 1 2); [cbn; eauto|].
      intros [id| |id]; [|done|]; (apply (within_bind _ _ 1 1); [cbn; eauto|]);
        intros [err|]; cbn; eauto.
    - intros [v|err]; [|eapply within_le; [apply Hretry|lia]].
      apply (within_bind _ _ 1 (1 + n)); [cbn; eauto|]. intros [|]; cbn; [done|apply Hretry]. }
  apply (within_bind _ _ 1 (5 + n)); [cbn; eauto|]. intros [v|]; [|done].
  destruct (ce_Revision v <=? rev); [|done].
  eapply (within_le _ (1 + (1 + n))); [|lia].
  apply (within_bind _ _ 1 (1 + n)); [cbn; eauto|]. intros [|]; cbn; [done|apply Hretry].
Qed.

(** C22. Lookups return: whatever the rest of the system does, a lookup has returned
    after at most fourteen steps of its own, a wait on a load counted once the load is
    closed.  A lost race is retried once, so contention cannot keep a request looping. *)
Theorem lookup_returns (moves : list move) (s : Sys) :
  (forall key, (14 <= own_steps moves s (LookupCredentials key))%nat ->
     exists s' r, play moves s (LookupCredentials key) = (s', Ret _ r)) /\
  (forall accessKeyID bucket,
     (14 <= own_steps moves s (LookupVBucket accessKeyID bucket))%nat ->
     exists s' r, play moves s (LookupVBucket accessKeyID bucket) = (s', Ret _ r)).
Proof.
  assert (forall A (ops : lookup_ops A), within (let! r := lookup ops in ret (map_err r)) 14) as Hw.
  { intros A ops. apply (within_bind _ _ 14 0); [|done]. unfold lookup.
    apply (within_pass _ _ 7). intros again [= <-]. by apply (within_pass _ _ 0). }
  split; intros; (eapply within_returns; [apply Hw|done]).
Qed.
End spec.

(** ** A concrete call *)

Module LookupExample.
Export ClientHistory.Example.
#[export] Existing Instance platform.

#[export] Instance timestamps : Timestamps :=
  {| Timestamp := Z; TimestampValid := fun _ => true; AsTime := Unix |}.

#[export] Instance grpc : GrpcStatus :=
  {| FromErrorOk := fun _ => false; Code := fun _ => codeUnknown |}.

Abbreviation cred_store := (LocalCache.localCache string (cached VirtualCredentials)).
Abbreviation conf_store := (LocalCache.localCache string (cached VBucketConfig)).

Definition no_creds : cred_store := LocalCache.newLocalCache 8 None.
Definition no_confs : conf_store := LocalCache.newLocalCache 8 None.

Lemma no_creds_empty k v : ~ store_holds no_creds k v.
Proof. cbn. by rewrite lookup_empty. Qed.
Lemma no_confs_empty k v : ~ store_holds no_confs k v.
Proof. cbn. by rewrite lookup_empty. Qed.

Definition adm : missAdmission := newMissAdmission (Float64.of_Z 100) 100 32 0.

Definition response (policy : string) : LookupCredentialsResponse :=
  mkCredentialsResponse 5 true "secret" policy (Some 100) None.

Definition creds (policy : string) : option VirtualCredentials :=
  match credentialResponseEntry (Some (response policy)) with
  | Ok e => ce_value e
  | Err _ => None
  end.

(** The control plane knows one key, at every revision, and no bucket. *)
Definition srv_cred (policy : string) (rev : Z) (key : string) : option VirtualCredentials :=
  if String.eqb key "AKIA" then creds policy else None.

Definition cred_reply (policy : string) (key : string) (rev : Z)
    : result error (option LookupCredentialsResponse) :=
  if String.eqb key "AKIA" then Ok (Some (response policy)) else Err (Status codeUnavailable).

Definition quiet_oracle : oracle := fun A q =>
  match q with
  | QContext => None
  | QCreate _ _ _ _ => Err (Status codeUnavailable)
  | QList _ _ => Err (Status codeUnavailable)
  | QNow => Unix 1767323045
  end.

Definition watch_move (e : Z * event (Cred:=VirtualCredentials) (Conf:=VBucketConfig)) : move :=
  Env e.1 (SysClient e.2).

Definition watch_event (rev : Z) (cur : string) (p : watch_payload)
    : event (Cred:=VirtualCredentials) (Conf:=VBucketConfig) :=
  EvWatch (Some (mkWatchEvent (Some p) rev cur)).

(** Connect, take a snapshot at revision 5, and become ready. *)
Definition connect : list move := watch_move <$>
  [(0, EvConnecting); (1, EvTransport true); (2, EvOpenWatch);
   (3, watch_event 5 "" SnapshotBegin);
   (4, watch_event 3 "" (BaseHostEvent (Some (mkBaseHostDelta false "S3.Example.COM."))));
   (5, watch_event 5 "c5" SynchronizationBarrier)].

(** A cold lookup: the call starts a load, which is answered and closed while the call
    waits for it. *)
Definition cold (policy : string) : list move :=
  [Turn 6 quiet_oracle; Turn 7 quiet_oracle; Turn 8 quiet_oracle;
   Env 9 (SysCredReply 0 (cred_reply policy));
   Env 10 (SysCredLoad (FlightReturn 0)); Turn 11 quiet_oracle; Turn 12 quiet_oracle;
   Env 13 (SysCredLoad (FlightForget 0)); Env 14 (SysCredLoad (FlightClose 0));
   Turn 15 quiet_oracle; Turn 16 quiet_oracle].

Definition allow_list : string := with_quotes
  "{'Version': '2012-10-17', 'Statement': {'Effect': 'Allow', 'Action': 's3:ListBucket',
     'Resource': 'arn:aws:s3:::photos'}}".

Lemma connect_faithful policy conf :
  Forall (faithful_move (srv_cred policy) (fun _ k => conf k)) connect.
Proof.
  assert (forall r c p, 0 <= r < 2 ^ 64 ->
    event_ok (Cred:=VirtualCredentials) (Conf:=VBucketConfig) (0, watch_event r c p)) as Hok.
  { intros r c p Hr d [= <-]. exact Hr. }
  apply Forall_fmap. repeat apply Forall_cons_2; try apply Forall_nil_2.
  - exact (conj I I).
  - exact (conj I I).
  - exact (conj I I).
  - exact (conj (Hok 5 "" SnapshotBegin ltac:(lia)) I).
  - split; [apply Hok; lia|]. split; intros k; reflexivity.
  - exact (conj (Hok 5 "c5" SynchronizationBarrier ltac:(lia)) I).
Qed.

Lemma cold_faithful policy conf :
  is_Some (creds policy) -> Forall (faithful_move (srv_cred policy) (fun _ k => conf k)) (cold policy).
Proof.
  intros [c Hc]. unfold cold. repeat apply Forall_cons_2; try apply Forall_nil_2; try exact I.
  intros key rev resp. unfold cred_reply, faithful_reply.
  destruct (String.eqb key "AKIA") eqn:E; [|done]. intros [= <-].
  unfold creds in Hc. destruct (credentialResponseEntry _) as [e|] eqn:Ee; [|done].
  unfold srv_cred, creds. rewrite E, Ee. unfold credentialResponseEntry, response in Ee. cbn in Ee.
  destruct (ParseS3IAMPolicyJSON policy); cbn in Ee; [|done]. by injection Ee as <-.
Qed.
Abbreviation start before :=
  (system 0 4 no_creds no_confs adm adm before).

Lemma lookup_returns_witness :
  exists s' r, play (Turn 17 quiet_oracle :: Turn 18 quiet_oracle :: Turn 19 quiet_oracle
                       :: cold allow_list ++ replicate 9 (Turn 20 quiet_oracle))
                 (start connect) (LookupCredentials "AKIA") = (s', Ret _ r).
Proof.
  apply (proj1 (lookup_returns
    (Turn 17 quiet_oracle :: Turn 18 quiet_oracle :: Turn 19 quiet_oracle
       :: cold allow_list ++ replicate 9 (Turn 20 quiet_oracle)) (start connect)) "AKIA").
  apply Nat.leb_le. vm_compute. reflexivity.
Defined.

Lemma lookup_linearizable_witness :
  exists s' o, play (cold allow_list) (start connect) (LookupCredentials "AKIA")
                 = (s', Ret _ (Ok o)) /\
    exists rev, revision (client (start connect)) <= rev <= revision (client s') /\
      srv_cred allow_list rev "AKIA" = o.
Proof.
  assert (is_Some (creds allow_list)) as Hc by (vm_compute; eauto).
  assert (Forall (faithful_move (srv_cred allow_list) (fun _ _ => None)) (connect ++ cold allow_list))
    as Hf by (apply Forall_app; split; [apply (connect_faithful _ (fun _ => None))|by apply (cold_faithful _ (fun _ => None))]).
  assert (result_of (play (cold allow_list) (start connect) (LookupCredentials "AKIA")).2
          = Some (Ok (creds allow_list))) as Hr by (vm_compute; reflexivity).
  apply result_of_Some in Hr.
  destruct (play (cold allow_list) (start connect) (LookupCredentials "AKIA")) as [s' p] eqn:Hp.
  cbn [snd] in Hr. subst p. exists s', (creds allow_list). split; [reflexivity|].
  exact (proj1 (lookup_linearizable (srv_cred allow_list) (fun _ _ => None) 0 4 no_creds no_confs
    adm adm no_creds_empty no_confs_empty eq_refl eq_refl connect (cold allow_list) Hf)
    "AKIA" s' _ Hp).
Defined.
End LookupExample.
