(* ===== verification/Auth.v ===== *)
(** * Auth: AWS Signature Version 4 ([http_server/s3_auth.go])

    Reading the Authorization header, the canonical request, verification of inbound and
    signing of outbound requests.  The clock and the allowed skew are arguments. *)
From S2P Require Import Prelude GoStrings GoTime GoUrl GoHttp Crypto Names ListRewrite.

Definition newline : string := chr 10.

Definition unsignedPayload : string := "UNSIGNED-PAYLOAD".

Record AuthInfo := mkAuthInfo {
  AccessKeyID : string;
  Date : string;
  Region : string;
  Service : string;
  SignedHeaders : list string;
  Signature : string;
  Scope : string
}.

(** The sentinel errors, and all others by their message. *)
Inductive auth_error :=
| errRequestTimeTooSkewed
| errUnsupportedPayloadHash
| errUnsignedAmzHeader
| errUnsupportedAuthMode (detail : string)
| authFailed (msg : string).

(** ** The Authorization header *)

(** One signed header after its predecessor. *)
Fixpoint check_signed (previous : option string) (headers : list string) : result string unit :=
  match headers with
  | [] => Ok tt
  | header :: headers =>
      reject String.eqb header "" || negb (String.eqb header (ToLower header))
        with "SignedHeaders must contain lowercase header names" ;;
      reject match previous with Some p => negb (str_ltb p header) | None => false end
        with "SignedHeaders must be sorted and unique" ;;
      check_signed (Some header) headers
  end.

Definition has_name (name : string) (headers : list string) : bool :=
  existsb (String.eqb name) headers.

Definition validateSignedHeaders (headers : list string) : result string unit :=
  reject bool_decide (headers = []) with "SignedHeaders must not be empty" ;;
  let? _ := check_signed None headers in
  reject negb (has_name "host" headers) with "SignedHeaders must include host" ;;
  reject negb (has_name "x-amz-date" headers) with "SignedHeaders must include x-amz-date" ;;
  Ok tt.

(** One part [name=value] of the header, which must be the one expected there. *)
Definition expect_part (name part : string) : result string string :=
  match Cut part "=" with
  | None => Err "malformed authorization part"
  | Some (k, v) =>
      reject negb (String.eqb k name)
        with "authorization fields must be Credential, SignedHeaders, Signature in canonical order" ;;
      Ok v
  end.

Definition parse_credential (v : string) : result string (string * string * string * string * string) :=
  match SplitN v "/" 5 with
  | [akid; date; region; service; last] =>
      reject String.eqb akid "" || String.eqb date "" || String.eqb region ""
             || negb (String.eqb service "s3") || negb (String.eqb last "aws4_request")
        with "malformed credential" ;;
      reject match ParseDay date with Some _ => false | None => true end
        with "malformed credential date" ;;
      reject negb (accessKeyIDPattern akid) with "access key ID is malformed" ;;
      Ok (akid, date, region, service, Join [date; region; service; last] "/")
  | _ => Err "malformed credential"
  end.

Definition hex_digits : string := "0123456789abcdef".

Definition parseAuthorizationHeader (header : string) : result string AuthInfo :=
  reject negb (HasPrefix header "AWS4-HMAC-SHA256 ") with "unsupported authorization algorithm" ;;
  match Split (TrimPrefix header "AWS4-HMAC-SHA256 ") ", " with
  | [part0; part1; part2] =>
      let? credential := expect_part "Credential" part0 in
      let? (akid, date, region, service, scope) := parse_credential credential in
      let? signed := expect_part "SignedHeaders" part1 in
      let signedHeaders := Split signed ";" in
      let? _ := validateSignedHeaders signedHeaders in
      let? signature := expect_part "Signature" part2 in
      reject negb (str_len signature =? 64) || negb (String.eqb (Trim signature hex_digits) "")
        with "signature must be 64 lowercase hexadecimal characters" ;;
      reject String.eqb akid "" || String.eqb signature "" || bool_decide (signedHeaders = [])
        with "incomplete authorization header" ;;
      Ok (mkAuthInfo akid date region service signedHeaders signature scope)
  | _ => Err "malformed authorization header: expected 3 parts"
  end.

(** ** The canonical request *)

(** [for strings.Contains(value, "  ") { value = ReplaceAll(value, "  ", " ") }]; each
    round shortens the value, so its length bounds their number. *)
Fixpoint collapse_spaces (rounds : nat) (value : string) : string :=
  match rounds with
  | O => value
  | S rounds =>
      if Contains value "  " then collapse_spaces rounds (replace_double_space value) else value
  end.

Definition canonicalHeaderValue (value : string) : string :=
  let value := TrimSpace value in collapse_spaces (String.length value) value.

(** [sort.Strings] *)
Fixpoint insert_string (s : string) (l : list string) : list string :=
  match l with
  | [] => [s]
  | t :: l' => if str_leb s t then s :: l else t :: insert_string s l'
  end.

Definition sort_strings (l : list string) : list string := foldr insert_string [] l.

Definition canonicalQueryString (query : Values) : string :=
  Join (mbind (fun kv => (fun v => awsURIEncode kv.1 +:+ "=" +:+ awsURIEncode v)
                           <$> sort_strings kv.2) (sorted_values query)) "&".

Definition signed_values (r : HttpRequest) (h : string) : list string :=
  if String.eqb h "host" then [if String.eqb (r_Host r) "" then r_URLHost r else r_Host r]
  else if String.eqb h "content-length" && bool_decide (Header_Values (r_Header r) h = [])
          && (0 <? r_ContentLength r)
  then [FormatInt (r_ContentLength r)]
  else Header_Values (r_Header r) h.

Definition header_line (r : HttpRequest) (h : string) : string :=
  h +:+ ":" +:+ Join (canonicalHeaderValue <$> signed_values r h) "," +:+ newline.

Definition canonical_path (r : HttpRequest) : string :=
  let path := Request_EscapedPath r in if String.eqb path "" then "/" else path.

Definition buildCanonicalRequest (r : HttpRequest) (signedHeaders : list string) : string :=
  r_Method r +:+ newline +:+ canonical_path r +:+ newline
  +:+ canonicalQueryString (ParseQuery (r_RawQuery r)).1 +:+ newline
  +:+ str_concat (header_line r <$> signedHeaders) +:+ newline
  +:+ Join signedHeaders ";" +:+ newline
  +:+ Header_Get (r_Header r) "x-amz-content-sha256".

(** ** Signatures *)

Definition buildStringToSign (datetime scope canonicalRequest : string) : string :=
  "AWS4-HMAC-SHA256" +:+ newline +:+ datetime +:+ newline +:+ scope +:+ newline
  +:+ hex (Sum256 canonicalRequest).

Definition computeSigningKey (secret date region service : string) : string :=
  let dateKey := hmac_sha256 ("AWS4" +:+ secret) date in
  let dateRegionKey := hmac_sha256 dateKey region in
  let dateRegionServiceKey := hmac_sha256 dateRegionKey service in
  hmac_sha256 dateRegionServiceKey "aws4_request".

Definition signatureForCanonicalRequest (datetime scope canonicalRequest signingKey : string)
    : string :=
  hex (hmac_sha256 signingKey (buildStringToSign datetime scope canonicalRequest)).

(** ** Verification *)

Definition requireSingletonHeader (r : HttpRequest) (name : string) : result auth_error unit :=
  reject negb (length (Header_Values (r_Header r) name) =? 1)%nat
    with authFailed "header must occur exactly once" ;;
  Ok tt.

Definition unsigned_amz (signedHeaders : list string) (header : string) : bool :=
  let lower := ToLower header in
  HasPrefix lower "x-amz-" && negb (String.eqb lower "x-amz-content-sha256")
  && negb (existsb (String.eqb lower) (ToLower <$> signedHeaders)).

Definition requireSignedAmzHeaders (r : HttpRequest) (signedHeaders : list string)
    : result auth_error unit :=
  reject existsb (unsigned_amz signedHeaders) ((map_to_list (r_Header r)).*1)
    with errUnsignedAmzHeader ;;
  Ok tt.

(** The distance of the clock from the request, as a Go duration: subtraction saturates
    and negation wraps. *)
Definition clock_skew (now requestTime : Time) : Z :=
  let skew := Sub now requestTime in if skew <? 0 then i64 (- skew) else skew.

Definition verifySignatureAtTime (r : HttpRequest) (authInfo : option AuthInfo)
    (secretKey : string) (now : Time) (maxSkew : Z) : result auth_error unit :=
  match authInfo with
  | None => Err (authFailed "missing authentication information")
  | Some info =>
      let? _ := res_map_err authFailed (validateSignedHeaders (SignedHeaders info)) in
      reject negb (String.eqb (Service info) "s3")
        with authFailed "credential scope service must be s3" ;;
      reject negb (bool_decide (Header_Values (r_Header r) "x-amz-security-token" = []))
        with errUnsupportedAuthMode "session tokens are not supported" ;;
      reject negb (bool_decide (Header_Values (r_Header r) "x-amz-trailer" = []))
             || negb (bool_decide (r_Trailer r = ∅))
        with errUnsupportedAuthMode "signed trailers are not supported" ;;
      let? _ := requireSingletonHeader r "x-amz-content-sha256" in
      let? _ := requireSingletonHeader r "x-amz-date" in
      let payloadHash := Header_Get (r_Header r) "x-amz-content-sha256" in
      reject String.eqb payloadHash "" with authFailed "missing x-amz-content-sha256 header" ;;
      reject negb (String.eqb payloadHash unsignedPayload) with errUnsupportedPayloadHash ;;
      let? _ := requireSignedAmzHeaders r (SignedHeaders info) in
      let datetime := Header_Get (r_Header r) "X-Amz-Date" in
      reject String.eqb datetime "" with authFailed "missing X-Amz-Date header" ;;
      match ParseAmzDate datetime with
      | None => Err (authFailed "invalid X-Amz-Date header")
      | Some requestTime =>
          reject negb (String.eqb (Date info) (FormatDay requestTime))
            with authFailed "credential scope date does not match X-Amz-Date" ;;
          let expectedScope := Date info +:+ "/" +:+ Region info +:+ "/s3/aws4_request" in
          reject negb (String.eqb (Scope info) expectedScope)
            with authFailed "credential scope is inconsistent" ;;
          reject (0 <? maxSkew) && (maxSkew <? clock_skew now requestTime)
            with errRequestTimeTooSkewed ;;
          let canonicalRequest := buildCanonicalRequest r (SignedHeaders info) in
          let signingKey :=
            computeSigningKey secretKey (Date info) (Region info) (Service info) in
          let expectedSig :=
            signatureForCanonicalRequest datetime (Scope info) canonicalRequest signingKey in
          reject negb (String.eqb expectedSig (Signature info)) with authFailed "signature mismatch" ;;
          Ok tt
      end
  end.

(** ** Signing *)

Definition with_header (h : Header) (r : HttpRequest) : HttpRequest :=
  mkHttpRequest (r_Method r) (r_Path r) (r_RawPath r) (r_RawQuery r) h (r_Host r) (r_URLHost r)
    (r_ContentLength r) (r_TransferEncoding r) (r_Trailer r) (r_TLS r).

Definition names_to_sign (h : Header) : list string :=
  sort_strings ("host" :: filter (fun l => l <> "host") (ToLower <$> (map_to_list h).*1)).

Definition signRequest (r : HttpRequest) (accessKey secretKey region : string) (now : Time)
    : HttpRequest :=
  let datetime := FormatAmzDate now in
  let date := FormatDay now in
  let r := with_header (Header_Set (Header_Set (r_Header r) "X-Amz-Date" datetime)
                          "x-amz-content-sha256" unsignedPayload) r in
  let signedHeaders := names_to_sign (r_Header r) in
  let scope := date +:+ "/" +:+ region +:+ "/s3/aws4_request" in
  let canonicalRequest := buildCanonicalRequest r signedHeaders in
  let stringToSign := buildStringToSign datetime scope canonicalRequest in
  let signingKey := computeSigningKey secretKey date region "s3" in
  let signature := hex (hmac_sha256 signingKey stringToSign) in
  let authHeader :=
    "AWS4-HMAC-SHA256 Credential=" +:+ accessKey +:+ "/" +:+ scope +:+ ", SignedHeaders="
    +:+ Join signedHeaders ";" +:+ ", Signature=" +:+ signature in
  with_header (Header_Set (r_Header r) "Authorization" authHeader) r.
