(* ===== verification/AuthSpec.v ===== *)
(** * AuthSpec: what a verified signature means

    Verification against a declarative list of conditions, the clock, what the canonical
    request determines, and that what the proxy signs its own verifier accepts. *)
From S2P Require Import Prelude GoStrings GoTime TimeLaws GoUrl GoHttp Crypto Names.
From S2P Require Import PlanSpec ListRewrite Auth.

#[local] Opaque Sum256 hmac_sha256 hex.

(** ** Signed header lists *)

Lemma check_signed_lower previous headers :
  check_signed previous headers = Ok tt ->
  forall h, h ∈ headers -> h <> "" /\ ToLower h = h.
Proof.
  revert previous. induction headers as [|h l IH]; intros previous H h' Hin.
  { by apply not_elem_of_nil in Hin. }
  cbn [check_signed] in H.
  destruct (String.eqb h "" || negb (String.eqb h (ToLower h))) eqn:E; [done|].
  destruct (match previous with Some _ => _ | None => _ end); [done|].
  apply elem_of_cons in Hin as [->|Hin]; [|by eapply IH].
  bool_to_prop. split; [done|congruence].
Qed.

Lemma validateSignedHeaders_Ok headers :
  validateSignedHeaders headers = Ok tt ->
  check_signed None headers = Ok tt /\ "host" ∈ headers /\ "x-amz-date" ∈ headers.
Proof.
  unfold validateSignedHeaders, has_name. destruct (bool_decide _); [done|].
  destruct (check_signed None headers) as [[]|]; [|done].
  destruct (existsb _ headers) eqn:E1; [|done]. destruct (existsb (String.eqb "x-amz-date") _) eqn:E2; [|done].
  intros _. split; [done|]. apply existsb_elem_of in E1 as (x & ? & ->%String.eqb_eq).
  by apply existsb_elem_of in E2 as (y & ? & ->%String.eqb_eq).
Qed.

Lemma lower_list headers :
  check_signed None headers = Ok tt -> ToLower <$> headers = headers.
Proof.
  intros H. rewrite <-(list_fmap_id headers) at 2. apply list_fmap_ext. intros i h Hi.
  apply list_elem_of_lookup_2 in Hi. by destruct (check_signed_lower _ _ H h Hi).
Qed.

(** ** The clock *)

(** Nanoseconds from [u] to [t], exactly. *)
Definition nanos (t u : Time) : Z :=
  (t_sec t - t_sec u) * 1000000000 + (t_nsec t - t_nsec u).

Lemma clock_skew_spec now t :
  clock_skew now t =
  if nanos now t <=? min_int64 then min_int64 else Z.min max_int64 (Z.abs (nanos now t)).
Proof.
  unfold clock_skew, Sub. fold (nanos now t). cbv zeta. generalize (nanos now t). intros d.
  unfold min_int64, max_int64. destruct (Z.leb_spec d (- 2 ^ 63)) as [Hd|Hd].
  - rewrite Z.min_r, Z.max_l by lia. change (- 2 ^ 63 <? 0) with true. cbn iota. vm_compute. reflexivity.
  - destruct (Z.ltb_spec (Z.max (- 2 ^ 63) (Z.min (2 ^ 63 - 1) d)) 0).
    + rewrite i64_small by (unfold min_int64, max_int64; lia). lia.
    + lia.
Qed.

(** The requests the skew check lets through, on exact integers: those within the skew of
    the clock on either side, and those dated 2^63 nanoseconds or more ahead of it. *)
Definition in_time (now : Time) (maxSkew : Z) (t : Time) : Prop :=
  maxSkew <= 0 \/ Z.abs (nanos now t) <= maxSkew \/ 2 ^ 63 <= nanos t now.

Lemma nanos_opp t u : nanos t u = - nanos u t.
Proof. unfold nanos. lia. Qed.

Lemma clock_skew_in_time now t maxSkew :
  in_time now maxSkew t -> maxSkew <= 0 \/ clock_skew now t <= maxSkew.
Proof.
  unfold in_time. rewrite clock_skew_spec, (nanos_opp t now). unfold min_int64, max_int64.
  destruct (Z.leb_spec (nanos now t) (- 2 ^ 63)); lia.
Qed.

Lemma in_time_clock_skew now t maxSkew :
  maxSkew < max_int64 -> maxSkew <= 0 \/ clock_skew now t <= maxSkew -> in_time now maxSkew t.
Proof.
  unfold in_time. rewrite clock_skew_spec, (nanos_opp t now). unfold min_int64, max_int64.
  destruct (Z.leb_spec (nanos now t) (- 2 ^ 63)); lia.
Qed.

(** ** Verification *)

(** What makes a request authentic, its date subject to [recent]. *)
Record authentic (r : HttpRequest) (info : AuthInfo) (secretKey : string) (recent : Time -> Prop)
    : Prop := {
  au_signed : validateSignedHeaders (SignedHeaders info) = Ok tt;
  au_service : Service info = "s3";
  au_mode : Header_Values (r_Header r) "x-amz-security-token" = [] /\
            Header_Values (r_Header r) "x-amz-trailer" = [] /\ r_Trailer r = ∅;
  au_payload : Header_Values (r_Header r) "x-amz-content-sha256" = [unsignedPayload];
  au_covered : forall name values, r_Header r !! name = Some values ->
    HasPrefix (ToLower name) "x-amz-" = true -> ToLower name <> "x-amz-content-sha256" ->
    ToLower name ∈ SignedHeaders info;
  au_time : exists datetime requestTime,
    Header_Values (r_Header r) "X-Amz-Date" = [datetime] /\
    ParseAmzDate datetime = Some requestTime /\
    Date info = FormatDay requestTime /\
    Scope info = Date info +:+ "/" +:+ Region info +:+ "/s3/aws4_request" /\
    recent requestTime /\
    Signature info =
      signatureForCanonicalRequest datetime (Scope info)
        (buildCanonicalRequest r (SignedHeaders info))
        (computeSigningKey secretKey (Date info) (Region info) "s3")
}.

(** Authentic, and dated where the clock allows. *)
Definition authenticated (r : HttpRequest) (info : AuthInfo) (secretKey : string) (now : Time)
    (maxSkew : Z) : Prop :=
  authentic r info secretKey (in_time now maxSkew).

Lemma authentic_mono r info secretKey (P Q : Time -> Prop) :
  (forall t, P t -> Q t) -> authentic r info secretKey P -> authentic r info secretKey Q.
Proof.
  intros HPQ [H1 H2 H3 H4 H5 (datetime & t & Hdt & Ht & Hd & Hs & Hp & Hg)]. split; try done.
  exists datetime, t. by refine (conj Hdt (conj Ht (conj Hd (conj Hs (conj (HPQ _ Hp) Hg))))).
Qed.

(** The check of the date as the code makes it. *)
Abbreviation skew_allowed now maxSkew :=
  (fun t => maxSkew <= 0 \/ clock_skew now t <= maxSkew).

Lemma requireSignedAmzHeaders_Ok r signed :
  check_signed None signed = Ok tt ->
  requireSignedAmzHeaders r signed = Ok tt <->
  (forall name values, r_Header r !! name = Some values ->
     HasPrefix (ToLower name) "x-amz-" = true -> ToLower name <> "x-amz-content-sha256" ->
     ToLower name ∈ signed).
Proof.
  intros Hs. unfold requireSignedAmzHeaders.
  destruct (existsb _ _) eqn:E.
  - split; [done|]. intros Hall. apply existsb_elem_of in E as (name & Hin & Hu).
    apply list_elem_of_fmap in Hin as ([n vs] & -> & Hin%elem_of_map_to_list). cbn in Hu.
    unfold unsigned_amz in Hu. rewrite lower_list in Hu by done. cbv zeta in Hu.
    apply andb_true_iff in Hu as [[Hp Hne]%andb_true_iff Hn]. bool_to_prop.
    specialize (Hall _ _ Hin Hp Hne). apply not_true_iff_false in Hn. exfalso. apply Hn.
    apply existsb_elem_of. eexists. split; [exact Hall|]. by apply String.eqb_refl.
  - split; [|done]. intros _ name vs Hin Hp Hne.
    destruct (decide (ToLower name ∈ signed)) as [|Hni]; [done|]. exfalso.
    apply not_true_iff_false in E. apply E, existsb_elem_of. exists name. split.
    { apply list_elem_of_fmap. exists (name, vs). by rewrite elem_of_map_to_list. }
    unfold unsigned_amz. rewrite lower_list by done. cbv zeta.
    rewrite Hp, (proj2 (String.eqb_neq _ _) Hne). cbn [negb andb]. apply negb_true_iff.
    apply not_true_iff_false. intros (x & Hx & <-%String.eqb_eq)%existsb_elem_of. done.
Qed.

Lemma singleton_Get r name v : Header_Values (r_Header r) name = [v] -> Header_Get (r_Header r) name = v.
Proof. unfold Header_Get. by intros ->. Qed.

Lemma requireSingletonHeader_Ok r name :
  requireSingletonHeader r name = Ok tt -> Header_Values (r_Header r) name = [Header_Get (r_Header r) name].
Proof.
  unfold requireSingletonHeader, Header_Get. by destruct (Header_Values _ name) as [|v [|]].
Qed.

Lemma verify_accepts r info secretKey now maxSkew :
  verifySignatureAtTime r (Some info) secretKey now maxSkew = Ok tt ->
  authentic r info secretKey (skew_allowed now maxSkew).
Proof.
  unfold verifySignatureAtTime. cbv zeta.
  destruct (validateSignedHeaders _) as [[]|] eqn:Hs; [|done]. cbn [res_map_err].
  destruct (String.eqb_spec (Service info) "s3") as [Hsv|]; [|done]. cbn [negb].
  destruct (bool_decide (Header_Values _ "x-amz-security-token" = [])) eqn:E1; [|done]. cbn [negb].
  destruct (bool_decide (Header_Values _ "x-amz-trailer" = [])) eqn:E2; [|done]. cbn [negb orb].
  destruct (bool_decide (r_Trailer r = ∅)) eqn:E3; [|done]. cbn [negb]. bool_to_prop.
  destruct (requireSingletonHeader r "x-amz-content-sha256") as [[]|] eqn:E4; [|done].
  destruct (requireSingletonHeader r "x-amz-date") as [[]|] eqn:E5; [|done].
  destruct (String.eqb _ ""); [done|].
  destruct (String.eqb_spec (Header_Get (r_Header r) "x-amz-content-sha256") unsignedPayload)
    as [Hp|]; [|done]. cbn [negb].
  destruct (requireSignedAmzHeaders r _) as [[]|] eqn:E6; [|done].
  destruct (String.eqb _ ""); [done|].
  destruct (ParseAmzDate _) as [t|] eqn:Et; [|done].
  destruct (String.eqb_spec (Date info) (FormatDay t)) as [Hd|]; [|done]. cbn [negb].
  destruct (String.eqb_spec (Scope info) (Date info +:+ "/" +:+ Region info +:+ "/s3/aws4_request"))
    as [Hsc|]; [|done]. cbn [negb].
  destruct ((0 <? maxSkew) && (maxSkew <? clock_skew now t)) eqn:Hk; [done|].
  destruct (String.eqb_spec (signatureForCanonicalRequest (Header_Get (r_Header r) "X-Amz-Date")
    (Scope info) (buildCanonicalRequest r (SignedHeaders info))
    (computeSigningKey secretKey (Date info) (Region info) (Service info))) (Signature info))
    as [Hsig|]; [|done]. intros _.
  destruct (validateSignedHeaders_Ok _ Hs) as (Hc & _).
  split; try done.
  - by rewrite (requireSingletonHeader_Ok _ _ E4), Hp.
  - by apply requireSignedAmzHeaders_Ok.
  - exists (Header_Get (r_Header r) "X-Amz-Date"), t. rewrite Hsv in Hsig.
    pose proof (requireSingletonHeader_Ok _ _ E5) as Hv.
    refine (conj Hv (conj Et (conj Hd (conj Hsc (conj _ (eq_sym Hsig)))))).
    apply andb_false_iff in Hk as [?%Z.ltb_ge|?%Z.ltb_ge]; auto.
Qed.

Lemma accepts_verify r info secretKey now maxSkew :
  authentic r info secretKey (skew_allowed now maxSkew) ->
  verifySignatureAtTime r (Some info) secretKey now maxSkew = Ok tt.
Proof.
  intros [Hs Hsv (H1 & H2 & H3) Hp Hcov (datetime & t & Hdt & Ht & Hd & Hsc & Hk & Hsig)].
  destruct (validateSignedHeaders_Ok _ Hs) as (Hc & _).
  unfold verifySignatureAtTime, requireSingletonHeader. cbv zeta.
  change (Header_Values (r_Header r) "x-amz-date") with (Header_Values (r_Header r) "X-Amz-Date").
  rewrite Hs. cbn [res_map_err]. rewrite Hsv, H1, H2, H3, Hp, Hdt. cbn [String.eqb Ascii.eqb Bool.eqb negb].
  rewrite !bool_decide_true by done. cbn [negb orb length Nat.eqb].
  rewrite (singleton_Get _ _ _ Hp), (singleton_Get _ _ _ Hdt).
  assert (String.eqb unsignedPayload "" = false) as -> by done. rewrite String.eqb_refl. cbn [negb].
  rewrite (proj2 (requireSignedAmzHeaders_Ok r _ Hc) Hcov).
  destruct (String.eqb_spec datetime "") as [->|]; [by vm_compute in Ht|].
  rewrite Ht, Hd, String.eqb_refl. cbn [negb]. rewrite <-Hd, Hsc, String.eqb_refl. cbn [negb].
  assert ((0 <? maxSkew) && (maxSkew <? clock_skew now t) = false) as ->.
  { apply andb_false_iff. destruct Hk as [?|?]; [left|right]; by apply Z.ltb_ge. }
  rewrite Hsig, Hsc, String.eqb_refl. done.
Qed.

Lemma verify_sound r info secretKey now maxSkew :
  maxSkew < max_int64 ->
  verifySignatureAtTime r (Some info) secretKey now maxSkew = Ok tt ->
  authenticated r info secretKey now maxSkew.
Proof.
  intros Hm Hv. eapply authentic_mono, verify_accepts, Hv. intros t. by apply in_time_clock_skew.
Qed.

Lemma verify_complete r info secretKey now maxSkew :
  authenticated r info secretKey now maxSkew ->
  verifySignatureAtTime r (Some info) secretKey now maxSkew = Ok tt.
Proof.
  intros Ha. eapply accepts_verify, authentic_mono, Ha. intros t. apply clock_skew_in_time.
Qed.

(** C8. Verification accepts exactly these requests: the signature is the HMAC of the
    canonical request under the key of the credential scope, every [x-amz-] field but
    the payload hash is among the signed ones, the payload is declared unsigned, session
    tokens and trailers are absent, the scope's day and the date field agree, and the
    date is within the allowed skew of the clock on either side or 2^63 nanoseconds (some
    292 years) or more ahead of it. The last case is the code's and not the
    documentation's, which has every request outside the skew refused; a skew of zero or
    less switches the check off. *)
Theorem verifySignatureAtTime_spec (r : HttpRequest) (info : AuthInfo) (secretKey : string)
    (now : Time) (maxSkew : Z) (Hskew : maxSkew < max_int64) :
  verifySignatureAtTime r (Some info) secretKey now maxSkew = Ok tt <->
  authentic r info secretKey (fun t =>
    maxSkew <= 0 \/ Z.abs (nanos now t) <= maxSkew \/ 2 ^ 63 <= nanos t now).
Proof. split; [by apply verify_sound|apply verify_complete]. Qed.

(** A request that is accepted, and is not dated more than 2^63 nanoseconds (some
    292 years) ahead of the clock, is within the allowed skew of the clock. *)
Theorem verified_recent (r : HttpRequest) (info : AuthInfo) (secretKey : string) (now t : Time)
    (maxSkew : Z) (Hskew : 0 < maxSkew < max_int64)
    (Ht : ParseAmzDate (Header_Get (r_Header r) "X-Amz-Date") = Some t)
    (Hfar : nanos t now < 2 ^ 63)
    (Hv : verifySignatureAtTime r (Some info) secretKey now maxSkew = Ok tt) :
  Z.abs (nanos now t) <= maxSkew.
Proof.
  destruct (verify_sound _ _ _ _ _ (proj2 Hskew) Hv)
    as [_ _ _ _ _ (datetime & t' & Hdt & Ht' & _ & _ & Hk & _)].
  rewrite (singleton_Get _ _ _ Hdt), Ht' in Ht. injection Ht as ->. unfold in_time in Hk. lia.
Qed.

(** C39. The skew check does not bound requests from the far future: a request dated
    2^63 nanoseconds or more ahead that verified once verifies at every such earlier
    moment, whatever skew is allowed; the subtraction saturates at the least duration,
    whose negation is itself. *)
Theorem far_future_never_expires (r : HttpRequest) (info : AuthInfo) (secretKey : string)
    (now now' t : Time) (maxSkew maxSkew' : Z)
    (Ht : ParseAmzDate (Header_Get (r_Header r) "X-Amz-Date") = Some t)
    (Hfar : 2 ^ 63 <= nanos t now') (Hpos : 0 < maxSkew')
    (Hv : verifySignatureAtTime r (Some info) secretKey now maxSkew = Ok tt) :
  verifySignatureAtTime r (Some info) secretKey now' maxSkew' = Ok tt.
Proof.
  destruct (verify_accepts _ _ _ _ _ Hv) as [H1 H2 H3 H4 H5 (datetime & t' & Hdt & Ht' & Hd & Hs & _ & Hg)].
  apply verify_complete. split; [exact H1|exact H2|exact H3|exact H4|exact H5|].
  exists datetime, t'. refine (conj Hdt (conj Ht' (conj Hd (conj Hs (conj _ Hg))))).
  rewrite (singleton_Get _ _ _ Hdt), Ht' in Ht. injection Ht as ->. unfold in_time. auto.
Qed.
