(* ===== verification/CanonicalRequest.v ===== *)
(** * CanonicalRequest: what the signed text determines

    The canonical request is one text; two requests with the same text have the same
    method, path, query, signed headers and payload declaration, so a signature covers
    each of them. *)
From S2P Require Import Prelude GoStrings GoTime GoUrl GoHttp Crypto Names CopySource ListRewrite.
From S2P Require Import Auth.

(** ** Texts without newlines *)

Definition one_line (s : string) : Prop := Contains s newline = false.

Definition not_newline (c : ascii) : bool := negb (byte_val c =? 10).

Lemma one_line_forallb s : str_forallb not_newline s = true -> one_line s.
Proof. intros H. by apply (Contains_byte_forallb not_newline). Qed.

Lemma one_line_bytes (f : ascii -> bool) s :
  (forall c, f c = true -> not_newline c = true) -> str_forallb f s = true -> one_line s.
Proof. intros Hf Hs. apply one_line_forallb. by eapply str_forallb_impl. Qed.

Lemma one_line_app s t : one_line (s +:+ t) <-> one_line s /\ one_line t.
Proof. unfold one_line, newline, chr. rewrite Contains_app_byte. apply orb_false_iff. Qed.

Lemma one_line_Join l (c : ascii) :
  one_line (String c "") -> Forall one_line l -> one_line (Join l (String c "")).
Proof.
  intros Hc. induction 1 as [|s l Hs Hl IH]; [done|]. destruct l as [|t l]; [done|].
  rewrite Join_cons by done. apply one_line_app. split; [done|]. by apply one_line_app.
Qed.

Lemma pct_one_line c : one_line (pct c).
Proof. destruct c as [[] [] [] [] [] [] [] []]; vm_compute; reflexivity. Qed.

Lemma byte_one_line f c : f c = true -> (forall c, f c = true -> not_newline c = true) -> one_line (String c "").
Proof. intros Hc Hf. apply (one_line_bytes f); [done|]. cbn. by rewrite Hc. Qed.

Lemma unreserved_not_newline c : unreserved c = true -> not_newline c = true.
Proof. destruct c as [[] [] [] [] [] [] [] []]; vm_compute; congruence. Qed.

Lemma path_safe_not_newline c : path_safe c = true -> not_newline c = true.
Proof. destruct c as [[] [] [] [] [] [] [] []]; vm_compute; congruence. Qed.

Lemma awsURIEncode_one_line s : one_line (awsURIEncode s).
Proof.
  induction s as [|c s IH]; [done|]. cbn [awsURIEncode]. apply one_line_app. split; [|done].
  destruct (unreserved c) eqn:E; [|apply pct_one_line].
  by apply (byte_one_line unreserved), unreserved_not_newline.
Qed.

Lemma escape_path_one_line s : one_line (escape_path s).
Proof.
  induction s as [|c s IH]; [done|]. cbn [escape_path]. apply one_line_app. split; [|done].
  destruct (path_safe c) eqn:E; [|apply pct_one_line].
  by apply (byte_one_line path_safe), path_safe_not_newline.
Qed.

Lemma canonical_path_one_line r : one_line (canonical_path r).
Proof.
  unfold canonical_path, Request_EscapedPath, EscapedPath. cbv zeta.
  assert (one_line (if negb (String.eqb (r_RawPath r) "")
       && str_forallb valid_encoded_byte (r_RawPath r)
       && bool_decide (PathUnescape (r_RawPath r) = Some (r_Path r))
     then r_RawPath r else if String.eqb (r_Path r) "*" then "*" else escape_path (r_Path r))) as H.
  { destruct (_ && _) eqn:E.
    - apply andb_true_iff in E as [[_ E]%andb_true_iff _].
      apply (one_line_bytes valid_encoded_byte); [|done].
      intros c. destruct c as [[] [] [] [] [] [] [] []]; vm_compute; congruence.
    - destruct (String.eqb _ "*"); [done|]. apply escape_path_one_line. }
  match goal with |- one_line (if String.eqb ?p "" then _ else _) => by destruct (String.eqb p "") end.
Qed.

(** ** The query *)

Definition query_pair (kv : string * string) : string :=
  awsURIEncode kv.1 +:+ "=" +:+ awsURIEncode kv.2.

(** Key-value pairs, by key and then by value. *)
Definition query_pairs (query : Values) : list (string * string) :=
  mbind (fun kv => (fun v => (kv.1, v)) <$> sort_strings kv.2) (sorted_values query).

Lemma canonicalQueryString_pairs query :
  canonicalQueryString query = Join (query_pair <$> query_pairs query) "&".
Proof.
  unfold canonicalQueryString, query_pairs. f_equal.
  induction (sorted_values query) as [|[k vs] l IH]; [done|].
  cbn [mbind list_bind fst snd]. rewrite fmap_app, IH. f_equal. by rewrite <-list_fmap_compose.
Qed.

Lemma awsURIEncode_free (c : ascii) s :
  unreserved c = false -> c <> "%"%char -> Contains (awsURIEncode s) (String c "") = false.
Proof.
  intros Hc Hp. induction s as [|d s IH]; [done|]. cbn [awsURIEncode].
  rewrite Contains_app_byte, IH, orb_false_r. destruct (unreserved d) eqn:E.
  - cbn. rewrite andb_true_r, orb_false_r. apply Ascii.eqb_neq. congruence.
  - apply (Contains_byte_forallb (fun a => unreserved a || Ascii.eqb a "%")).
    + clear. destruct d as [[] [] [] [] [] [] [] []]; vm_compute; reflexivity.
    + rewrite Hc. by apply Ascii.eqb_neq.
Qed.

Lemma awsURIEncode_inj s t : awsURIEncode s = awsURIEncode t -> s = t.
Proof.
  intros E. apply (f_equal PathUnescape) in E. rewrite !PathUnescape_awsURIEncode in E. congruence.
Qed.

#[local] Instance query_pair_inj : Inj (=) (=) query_pair.
Proof.
  intros [k v] [k' v']. unfold query_pair. cbn [fst snd]. intros E.
  apply (f_equal (fun s => Cut s "=")) in E. change ("=" +:+ ?x) with (String "=" x) in E.
  rewrite !Cut_app_byte in E by (by apply awsURIEncode_free).
  injection E as E1 E2. f_equal; by apply awsURIEncode_inj.
Qed.

Lemma query_pair_no_amp kv : Contains (query_pair kv) "&" = false.
Proof.
  unfold query_pair. rewrite !Contains_app_byte, !awsURIEncode_free by done. done.
Qed.

Lemma canonicalQueryString_one_line query : one_line (canonicalQueryString query).
Proof.
  rewrite canonicalQueryString_pairs. apply one_line_Join; [done|].
  apply Forall_fmap, Forall_forall. intros [k v] _. unfold compose, query_pair.
  rewrite !one_line_app. split_and!; [apply awsURIEncode_one_line|done|apply awsURIEncode_one_line].
Qed.

(** The values of a key, in order. *)
Lemma query_pairs_key query k :
  (filter (fun kv => kv.1 = k) (query_pairs query)).*2 = sort_strings (default [] (query !! k)).
Proof.
  unfold query_pairs.
  assert (forall l : list (string * list string), NoDup l.*1 ->
    (filter (fun kv : string * string => kv.1 = k)
       (mbind (fun kv => (fun v => (kv.1, v)) <$> sort_strings kv.2) l)).*2 =
    sort_strings (default [] ((list_to_map l : Values) !! k))) as Hl.
  { induction l as [|[k' vs] l IH]; intros Hnd.
    { change (list_to_map [] : Values) with (∅ : Values). by rewrite lookup_empty. }
    cbn in Hnd. apply NoDup_cons in Hnd as [Hk Hnd]. cbn [mbind list_bind fst snd].
    rewrite filter_app, fmap_app. cbn [list_to_map foldr fst snd]. destruct (decide (k' = k)) as [->|Hne].
    - rewrite lookup_insert_eq. cbn [default id]. rewrite list_filter_all.
      + rewrite <-list_fmap_compose. unfold compose. cbn. rewrite list_fmap_id.
        rewrite IH, (not_elem_of_list_to_map_1 l k) by done. cbn. by rewrite app_nil_r.
      + by intros kv (v & -> & _)%list_elem_of_fmap.
    - rewrite lookup_insert_ne by done. rewrite list_filter_nil; [by rewrite <-IH|].
      by intros kv (v & -> & _)%list_elem_of_fmap. }
  rewrite Hl by (rewrite sorted_values_perm; apply NoDup_fst_map_to_list). do 2 f_equal.
  rewrite <-(list_to_map_to_list query) at 2. f_equal.
  apply list_to_map_proper; [|apply sorted_values_perm].
  rewrite sorted_values_perm. apply NoDup_fst_map_to_list.
Qed.

Lemma Join_nil_inv l : Forall (fun s => s <> "") l -> Join l "&" = "" -> l = [].
Proof.
  destruct l as [|s l]; [done|]. intros Hl%Forall_cons_1 E. destruct Hl as [Hs _]. exfalso.
  destruct l; [done|]. rewrite Join_cons in E by done. by destruct s.
Qed.

Lemma canonicalQueryString_inj q1 q2 k :
  canonicalQueryString q1 = canonicalQueryString q2 ->
  sort_strings (default [] (q1 !! k)) = sort_strings (default [] (q2 !! k)).
Proof.
  rewrite !canonicalQueryString_pairs, <-!query_pairs_key. intros E.
  enough (query_pairs q1 = query_pairs q2) as -> by done.
  assert (forall l, Forall (fun s => s <> "") (query_pair <$> l)) as Hne.
  { intros l. apply Forall_fmap, Forall_forall. intros kv _. unfold compose, query_pair.
    intros E'. apply (f_equal String.length) in E'. rewrite !length_app_str in E'. cbn in E'. lia. }
  assert (forall l, Forall (fun p => Contains p "&" = false) (query_pair <$> l)) as Hamp.
  { intros l. apply Forall_fmap, Forall_forall. intros kv _. apply query_pair_no_amp. }
  apply (inj (fmap query_pair)).
  destruct (query_pair <$> query_pairs q1) as [|s1 l1] eqn:E1.
  { symmetry. apply Join_nil_inv; [apply Hne|done]. }
  destruct (query_pair <$> query_pairs q2) as [|s2 l2] eqn:E2.
  { apply Join_nil_inv; [rewrite <-E1; apply Hne|done]. }
  apply (f_equal (fun s => Split s "&")) in E.
  rewrite !Split_Join_byte in E; [done|done|rewrite <-E2; apply Hamp|done|rewrite <-E1; apply Hamp].
Qed.

(** ** Header values *)

Lemma str_forallb_concat f l : Forall (fun s => str_forallb f s = true) l -> str_forallb f (str_concat l) = true.
Proof.
  induction 1 as [|s l Hs _ IH]; [done|]. cbn [str_concat]. by rewrite str_forallb_app, Hs, IH.
Qed.

(** The bytes of each code point are bytes of the string. *)
Lemma runes_bytes f s :
  str_forallb f s = true -> Forall (fun r => str_forallb f r.2 = true) (runes s).
Proof.
  remember (String.length s) as n eqn:Hn. revert s Hn.
  induction n as [n IH] using lt_wf_ind. intros s -> Hs.
  destruct s as [|c0 s0]; [constructor|]. cbn [str_forallb] in Hs.
  apply andb_true_iff in Hs as [H0 Hs0].
  assert (forall b, (String.length b <= String.length s0)%nat -> str_forallb f b = true ->
            Forall (fun r => str_forallb f r.2 = true) (runes b)) as Hrec.
  { intros b Hb Hf. eapply IH; [|reflexivity|done]. cbn. lia. }
  assert (Forall (fun r => str_forallb f r.2 = true) ((RuneError, String c0 "") :: runes s0)) as Hbad.
  { constructor; [cbn; by rewrite H0|]. by apply Hrec. }
  cbn [runes]. cbv zeta. destruct (byte_val c0 <? 128).
  { constructor; [cbn; by rewrite H0|]. by apply Hrec. }
  destruct (in_range 194 223 _).
  { destruct s0 as [|c1 s1]; [done|]. destruct (is_cont c1); [|done].
    cbn in Hs0. apply andb_true_iff in Hs0 as [H1 Hs1]. constructor; [cbn; by rewrite H0, H1|].
    apply Hrec; [cbn; lia|done]. }
  destruct (in_range 224 239 _).
  { destruct s0 as [|c1 [|c2 s2]]; [done|done|]. destruct (_ && is_cont c2); [|done].
    cbn in Hs0. apply andb_true_iff in Hs0 as [H1 [H2 Hs2]%andb_true_iff].
    constructor; [cbn; by rewrite H0, H1, H2|]. apply Hrec; [cbn; lia|done]. }
  destruct (in_range 240 244 _); [|done].
  destruct s0 as [|c1 [|c2 [|c3 s3]]]; [done|done|done|]. destruct (_ && is_cont c3); [|done].
  cbn in Hs0. apply andb_true_iff in Hs0 as [H1 [H2 [H3 Hs3]%andb_true_iff]%andb_true_iff].
  constructor; [cbn; by rewrite H0, H1, H2, H3|]. apply Hrec; [cbn; lia|done].
Qed.

Lemma drop_spaces_Forall P l : Forall P l -> Forall P (drop_spaces l).
Proof. induction 1; [constructor|]. cbn. destruct (IsSpace _); [done|]. by constructor. Qed.

Lemma TrimSpace_bytes f s : str_forallb f s = true -> str_forallb f (TrimSpace s) = true.
Proof.
  intros Hs. unfold TrimSpace. apply str_forallb_concat, Forall_fmap.
  apply Forall_reverse, drop_spaces_Forall, Forall_reverse, drop_spaces_Forall. by apply runes_bytes.
Qed.

Lemma replace_double_space_cons a b s :
  replace_double_space (String a (String b s)) =
  if Ascii.eqb a " " && Ascii.eqb b " " then String " " (replace_double_space s)
  else String a (replace_double_space (String b s)).
Proof. reflexivity. Qed.

Lemma replace_double_space_bytes f s :
  f " "%char = true -> str_forallb f s = true -> str_forallb f (replace_double_space s) = true.
Proof.
  intros Hsp. remember (String.length s) as n eqn:Hn. revert s Hn.
  induction n as [n IH] using lt_wf_ind. intros [|a [|b s]] -> Hs; [done|done|].
  rewrite replace_double_space_cons.
  destruct (Ascii.eqb a " " && Ascii.eqb b " "); cbn [str_forallb] in *;
    apply andb_true_iff in Hs as [Ha Hbs].
  - rewrite Hsp. cbn [andb]. apply andb_true_iff in Hbs as [_ Hs].
    eapply IH; [|reflexivity|exact Hs]. cbn. lia.
  - rewrite Ha. cbn [andb]. eapply IH; [|reflexivity|exact Hbs]. cbn. lia.
Qed.

Lemma collapse_spaces_bytes f rounds s :
  f " "%char = true -> str_forallb f s = true -> str_forallb f (collapse_spaces rounds s) = true.
Proof.
  intros Hsp. revert s. induction rounds as [|rounds IH]; intros s Hs; [done|]. cbn.
  destruct (Contains s "  "); [|done]. by apply IH, replace_double_space_bytes.
Qed.

Lemma one_line_iff s : one_line s <-> str_forallb not_newline s = true.
Proof.
  split; [|apply one_line_forallb]. unfold one_line. induction s as [|c s IH]; [done|].
  cbn [Contains HasPrefix newline chr str_forallb]. rewrite andb_true_r. intros [Hc Hs]%orb_false_iff.
  rewrite (IH Hs), andb_true_r. clear -Hc.
  destruct c as [[] [] [] [] [] [] [] []]; vm_compute in Hc |- *; congruence.
Qed.

Lemma canonicalHeaderValue_one_line v : one_line v -> one_line (canonicalHeaderValue v).
Proof.
  rewrite !one_line_iff. intros Hv. unfold canonicalHeaderValue. cbv zeta.
  by apply collapse_spaces_bytes, TrimSpace_bytes.
Qed.

(** ** The lines *)

Definition header_text (r : HttpRequest) (h : string) : string :=
  h +:+ ":" +:+ Join (canonicalHeaderValue <$> signed_values r h) ",".

Definition request_lines (r : HttpRequest) (signedHeaders : list string) : list string :=
  [r_Method r; canonical_path r; canonicalQueryString (ParseQuery (r_RawQuery r)).1]
  ++ (header_text r <$> signedHeaders)
  ++ [""; Join signedHeaders ";"; Header_Get (r_Header r) "x-amz-content-sha256"].

Lemma buildCanonicalRequest_lines r signedHeaders :
  buildCanonicalRequest r signedHeaders = Join (request_lines r signedHeaders) newline.
Proof.
  unfold buildCanonicalRequest, request_lines.
  set (tail := [""; Join signedHeaders ";"; Header_Get (r_Header r) "x-amz-content-sha256"]).
  assert (forall l, str_concat (header_line r <$> l) +:+ newline +:+ Join signedHeaders ";"
            +:+ newline +:+ Header_Get (r_Header r) "x-amz-content-sha256" =
          Join ((header_text r <$> l) ++ tail) newline) as Ht.
  { induction l as [|h l IH]; [done|]. cbn [fmap list_fmap str_concat app].
    rewrite Join_cons by (by destruct (header_text r <$> l)). rewrite <-IH.
    unfold header_line, header_text. by rewrite !app_assoc_str. }
  rewrite Ht. cbn [app]. rewrite !Join_cons by (done || by destruct (header_text r <$> signedHeaders)).
  done.
Qed.

(** What [net/http] guarantees of the texts of a request, and the Authorization parser of
    the signed names: no newline in a method, a name or a value, no semicolon in a name. *)
Record on_the_wire (r : HttpRequest) (signedHeaders : list string) : Prop := {
  w_method : one_line (r_Method r);
  w_names : forall h, h ∈ signedHeaders -> one_line h /\ Contains h ";" = false;
  w_values : forall h v, h ∈ signedHeaders -> v ∈ signed_values r h -> one_line v;
  w_payload : one_line (Header_Get (r_Header r) "x-amz-content-sha256")
}.

Lemma request_lines_one_line r signedHeaders :
  on_the_wire r signedHeaders -> Forall one_line (request_lines r signedHeaders).
Proof.
  intros [Hm Hn Hv Hp]. unfold request_lines. repeat apply Forall_app_2.
  - repeat constructor; [done|apply canonical_path_one_line|apply canonicalQueryString_one_line].
  - apply Forall_fmap, Forall_forall. intros h Hh. unfold compose, header_text.
    rewrite !one_line_app. destruct (Hn h Hh). split_and!; [done|done|].
    apply one_line_Join; [done|]. apply Forall_fmap, Forall_forall. intros v Hin.
    by apply canonicalHeaderValue_one_line, (Hv h).
  - repeat constructor; [|done]. apply one_line_Join; [done|]. apply Forall_forall.
    intros h Hh. by destruct (Hn h Hh).
Qed.

Lemma PathUnescape_canonical_path r :
  PathUnescape (canonical_path r) = Some (if String.eqb (r_Path r) "" then "/" else r_Path r).
Proof.
  unfold canonical_path. cbv zeta.
  assert (PathUnescape (Request_EscapedPath r) = Some (r_Path r)) as Hp.
  { unfold Request_EscapedPath. destruct (_ && _) eqn:E.
    - by apply andb_true_iff in E as [_ E%bool_decide_eq_true].
    - unfold EscapedPath. destruct (String.eqb_spec (r_Path r) "*") as [->|]; [done|].
      apply PathUnescape_escape_path. }
  destruct (String.eqb_spec (Request_EscapedPath r) "") as [E|Hne].
  - rewrite E in Hp. injection Hp as <-. done.
  - pose proof (unescape_nonempty _ _ _ Hp Hne) as H. by rewrite (proj2 (String.eqb_neq _ _) H).
Qed.

(** C27. The canonical request determines what was signed: two requests whose canonical
    texts are equal have the same method, the same path, the same query up to the order
    of repeated values, the same signed names, the same canonical value of each, and
    the same payload declaration. *)
Theorem canonical_request_determines (r1 r2 : HttpRequest) (signed1 signed2 : list string)
    (Hw1 : on_the_wire r1 signed1) (Hw2 : on_the_wire r2 signed2)
    (Hn1 : signed1 <> []) (Hn2 : signed2 <> [])
    (Heq : buildCanonicalRequest r1 signed1 = buildCanonicalRequest r2 signed2) :
  r_Method r1 = r_Method r2 /\
  PathUnescape (canonical_path r1) = PathUnescape (canonical_path r2) /\
  PathUnescape (canonical_path r1) = Some (if String.eqb (r_Path r1) "" then "/" else r_Path r1) /\
  (forall k, sort_strings (default [] ((ParseQuery (r_RawQuery r1)).1 !! k)) =
             sort_strings (default [] ((ParseQuery (r_RawQuery r2)).1 !! k))) /\
  signed1 = signed2 /\
  (forall h, h ∈ signed1 -> Join (canonicalHeaderValue <$> signed_values r1 h) "," =
                             Join (canonicalHeaderValue <$> signed_values r2 h) ",") /\
  Header_Get (r_Header r1) "x-amz-content-sha256" = Header_Get (r_Header r2) "x-amz-content-sha256".
Proof.
  rewrite !buildCanonicalRequest_lines in Heq. apply (f_equal (fun s => Split s newline)) in Heq.
  change newline with (String (byte_chr 10) "") in Heq.
  rewrite !Split_Join_byte in Heq by (done || by apply request_lines_one_line).
  unfold request_lines in Heq. cbn [app] in Heq. injection Heq as Hm Hp Hq Hrest.
  apply app_inj_2 in Hrest as [Hh Ht]; [|done]. injection Ht as Hnames Hpay.
  assert (signed1 = signed2) as <-.
  { apply (f_equal (fun s => Split s ";")) in Hnames.
    rewrite !Split_Join_byte in Hnames; [done|done| |done|];
      apply Forall_forall; intros h Hin; [by apply (w_names _ _ Hw2)|by apply (w_names _ _ Hw1)]. }
  split_and!; [done|by rewrite Hp|apply PathUnescape_canonical_path|..|done| |done].
  - intros k. by apply canonicalQueryString_inj.
  - intros h Hin. apply list_elem_of_lookup in Hin as [i Hi].
    apply (f_equal (fun l => l !! i)) in Hh. rewrite !list_lookup_fmap, Hi in Hh.
    injection Hh as Hh. unfold header_text in Hh. by apply app_inj_l_str, app_inj_l_str in Hh.
Qed.
