(* ===== verification/SignVerify.v ===== *)
(** * SignVerify: the proxy's signatures verify

    [signRequest] and [verifySignatureAtTime] agree: what one makes the other accepts,
    through the text of the Authorization header. *)
From Stdlib Require Import Sorting.Sorted.
From S2P Require Import Prelude GoStrings GoTime TimeLaws GoUrl GoHttp Crypto Names CopySource.
From S2P Require Import PlanSpec ListRewrite Auth AuthSpec CanonicalRequest.

#[local] Opaque Sum256 hmac_sha256.

(** ** Byte order on strings *)

Lemma byte_val_inj c d : byte_val c = byte_val d -> c = d.
Proof. intros E. by rewrite <-(byte_chr_val c), E, byte_chr_val. Qed.

Lemma str_ltb_total s t : str_ltb s t = true \/ s = t \/ str_ltb t s = true.
Proof.
  revert t. induction s as [|c s IH]; intros [|d t]; [by right; left|by left|by right; right|].
  cbn. rewrite (Ascii.eqb_sym d c). destruct (Ascii.eqb_spec c d) as [->|Hne].
  - destruct (IH t) as [-> | [-> | ->]]; auto.
  - destruct (Z.lt_trichotomy (byte_val c) (byte_val d)) as [H|[H|H]].
    + left. by apply Z.ltb_lt.
    + by apply byte_val_inj in H.
    + right; right. by apply Z.ltb_lt.
Qed.

Lemma str_ltb_trans s t u : str_ltb s t = true -> str_ltb t u = true -> str_ltb s u = true.
Proof.
  revert t u. induction s as [|c s IH]; intros [|d t] [|e u]; cbn; try done.
  destruct (Ascii.eqb_spec c d) as [->|H1], (Ascii.eqb_spec d e) as [->|H2]; eauto.
  - by rewrite (proj2 (Ascii.eqb_neq _ _) H1).
  - rewrite !Z.ltb_lt. intros. destruct (Ascii.eqb_spec c e) as [->|]; [lia|]. apply Z.ltb_lt. lia.
Qed.

Definition str_lt (s t : string) : Prop := str_ltb s t = true.

Lemma str_leb_lt s t : s <> t -> str_leb s t = true -> str_lt s t.
Proof.
  unfold str_leb. intros Hne H%negb_true_iff. destruct (str_ltb_total s t) as [?|[?|?]]; congruence.
Qed.

Lemma str_leb_false s t : str_leb s t = false -> str_lt t s.
Proof. unfold str_leb. by intros H%negb_false_iff. Qed.

Lemma insert_string_perm s l : insert_string s l ≡ₚ s :: l.
Proof.
  induction l as [|t l IH]; [done|]. cbn. destruct (str_leb s t); [done|]. rewrite IH. apply Permutation_swap.
Qed.

Lemma sort_strings_perm l : sort_strings l ≡ₚ l.
Proof. induction l as [|s l IH]; [done|]. cbn. by rewrite insert_string_perm, IH. Qed.

Lemma insert_string_sorted s l :
  s ∉ l -> StronglySorted str_lt l -> StronglySorted str_lt (insert_string s l).
Proof.
  intros Hs Hl. induction Hl as [|t l Hl IH Ht]; [repeat constructor|]. cbn.
  destruct (str_leb s t) eqn:E.
  - apply str_leb_lt in E; [|set_solver]. constructor; [by constructor|]. constructor; [done|].
    eapply Forall_impl; [exact Ht|]. intros u Hu. by eapply str_ltb_trans.
  - apply str_leb_false in E. constructor; [apply IH; set_solver|].
    apply Forall_forall. intros u Hu. rewrite insert_string_perm in Hu.
    apply elem_of_cons in Hu as [->|Hu]; [done|]. rewrite Forall_forall in Ht. by apply Ht.
Qed.

Lemma sort_strings_sorted l : NoDup l -> StronglySorted str_lt (sort_strings l).
Proof.
  induction l as [|s l IH]; intros Hnd; [constructor|]. apply NoDup_cons in Hnd as [Hs Hnd]. cbn.
  apply insert_string_sorted; [by rewrite sort_strings_perm|auto].
Qed.

Lemma check_signed_sorted previous l :
  (forall p, previous = Some p -> Forall (str_lt p) l) -> StronglySorted str_lt l ->
  Forall (fun h => h <> "" /\ ToLower h = h) l -> check_signed previous l = Ok tt.
Proof.
  intros Hp Hs. revert previous Hp. induction Hs as [|h l Hs IH Hh]; intros previous Hp Hf; [done|].
  apply Forall_cons in Hf as [[Hne Hlow] Hf]. cbn [check_signed].
  rewrite (proj2 (String.eqb_neq _ _) Hne), Hlow, String.eqb_refl. cbn [negb orb].
  assert (match previous with Some p => negb (str_ltb p h) | None => false end = false) as ->.
  { destruct previous as [p|]; [|done]. specialize (Hp p eq_refl). apply Forall_cons in Hp as [Hp _].
    unfold str_lt in Hp. by rewrite Hp. }
  apply IH; [|done]. by intros p [=<-].
Qed.

(** ** Header names *)

Definition token (s : string) : Prop := str_forallb validHeaderFieldByte s = true.

Lemma ascii_lower_token c :
  validHeaderFieldByte c = true ->
  validHeaderFieldByte (ascii_lower c) = true /\ ascii_lower (ascii_lower c) = ascii_lower c /\
  forall upper, canonical_byte upper (ascii_lower c) = canonical_byte upper c.
Proof.
  destruct c as [[] [] [] [] [] [] [] []]; vm_compute; intros ?; try discriminate;
    (split; [done|split; [done|intros []; done]]).
Qed.

Lemma ToLower_token s :
  token s -> token (ToLower s) /\ ToLower (ToLower s) = ToLower s /\
  forall upper, canonical_bytes upper (ToLower s) = canonical_bytes upper s.
Proof.
  unfold token. induction s as [|c s IH]; [done|]. cbn [str_forallb].
  intros [Hc Hs]%andb_true_iff. destruct (IH Hs) as (Ht & Hl & Hcb).
  destruct (ascii_lower_token c Hc) as (Htc & Hlc & Hcc).
  rewrite (ToLower_ascii c) by by apply token_ascii. split_and!.
  - cbn. by rewrite Htc, Ht.
  - by rewrite ToLower_ascii, Hlc, Hl by by apply token_ascii.
  - intros upper. by rewrite !canonical_bytes_cons, Hcc, Hcb.
Qed.

Lemma CanonicalHeaderKey_ToLower s : token s -> CanonicalHeaderKey (ToLower s) = CanonicalHeaderKey s.
Proof.
  intros Hs. destruct (ToLower_token s Hs) as (Ht & _ & Hc). unfold CanonicalHeaderKey.
  unfold token in *. by rewrite Hs, Ht, Hc.
Qed.

(** The bytes of a token are none of these. *)
Lemma token_free (c : ascii) s :
  c ∈ [","; ";"; "="; "/"; " "; byte_chr 10]%char -> token s -> Contains s (String c "") = false.
Proof.
  intros Hc Hs. apply (Contains_byte_forallb validHeaderFieldByte); [done|].
  repeat (apply elem_of_cons in Hc as [->|Hc]; [by vm_compute|]). by apply not_elem_of_nil in Hc.
Qed.

(** The header of a request the proxy signs: canonical tokens, none of them one that
    authentication itself uses. *)
Definition auth_names : list string :=
  ["Authorization"; "X-Amz-Security-Token"; "X-Amz-Trailer"].

Definition signable_names (h : Header) : Prop :=
  forall n vs, h !! n = Some vs ->
    token n /\ n <> "" /\ CanonicalHeaderKey n = n /\ n ∉ auth_names.

Lemma names_elem h l :
  l ∈ names_to_sign h <-> l = "host" \/ (exists n vs, h !! n = Some vs /\ l = ToLower n).
Proof.
  unfold names_to_sign. rewrite sort_strings_perm, elem_of_cons, list_elem_of_filter.
  rewrite list_elem_of_fmap. split.
  - intros [->|[_ (n & -> & Hn)]]; [by left|]. right.
    apply list_elem_of_fmap in Hn as ([n' vs] & -> & Hn%elem_of_map_to_list). eauto.
  - intros [->|(n & vs & Hn & ->)]; [by left|].
    destruct (decide (ToLower n = "host")) as [->|Hne]; [by left|]. right. split; [done|].
    exists n. split; [done|]. apply list_elem_of_fmap. exists (n, vs). by rewrite elem_of_map_to_list.
Qed.

Lemma names_NoDup h : signable_names h -> NoDup (names_to_sign h).
Proof.
  intros Hh. unfold names_to_sign. rewrite sort_strings_perm. apply NoDup_cons. split.
  - rewrite list_elem_of_filter. by intros [? _].
  - apply NoDup_filter. apply NoDup_fmap_2_strong; [|apply NoDup_fst_map_to_list].
    intros n n' Hn Hn' E.
    apply list_elem_of_fmap in Hn as ([m vs] & -> & Hn%elem_of_map_to_list).
    apply list_elem_of_fmap in Hn' as ([m' vs'] & -> & Hn'%elem_of_map_to_list). cbn [fst] in *.
    destruct (Hh _ _ Hn) as (Ht & _ & Hc & _), (Hh _ _ Hn') as (Ht' & _ & Hc' & _).
    by rewrite <-Hc, <-Hc', <-(CanonicalHeaderKey_ToLower m), <-(CanonicalHeaderKey_ToLower m'), E.
Qed.

Lemma names_token h l : signable_names h -> l ∈ names_to_sign h -> token l /\ l <> "" /\ ToLower l = l.
Proof.
  intros Hh [->|(n & vs & Hn & ->)]%names_elem; [by vm_compute|].
  destruct (Hh _ _ Hn) as (Ht & Hne & _). destruct (ToLower_token n Ht) as (? & ? & _).
  split_and!; [done| |done]. destruct n as [|c n]; [done|].
  unfold token in Ht. cbn in Ht. apply andb_true_iff in Ht as [Hc _].
  by rewrite ToLower_ascii by by apply token_ascii.
Qed.

Lemma names_validate h :
  signable_names h -> is_Some (h !! "X-Amz-Date") ->
  validateSignedHeaders (names_to_sign h) = Ok tt.
Proof.
  intros Hh [vs Hd]. unfold validateSignedHeaders.
  assert ("host" ∈ names_to_sign h) as Hhost by (apply names_elem; by left).
  assert ("x-amz-date" ∈ names_to_sign h) as Hdate by (apply names_elem; right; eauto).
  rewrite bool_decide_false by (intros E; rewrite E in Hhost; by apply not_elem_of_nil in Hhost).
  rewrite check_signed_sorted.
  - unfold has_name.
    rewrite (proj2 (existsb_elem_of (String.eqb "host") _)) by (by exists "host").
    rewrite (proj2 (existsb_elem_of (String.eqb "x-amz-date") _)) by (by exists "x-amz-date"). done.
  - done.
  - apply sort_strings_sorted. unfold names_to_sign in *.
    pose proof (names_NoDup h Hh) as Hnd. unfold names_to_sign in Hnd.
    by rewrite sort_strings_perm in Hnd.
  - apply Forall_forall. intros l Hl. by destruct (names_token h l Hh Hl) as (_ & ? & ?).
Qed.

(** ** The text of the Authorization header *)

Lemma Cut_comma s t : Contains s "," = false -> Cut (s +:+ ", " +:+ t) ", " = Some (s, t).
Proof.
  induction s as [|a s IH]; intros Hc; [done|]. rewrite app_cons_str. cbn [Cut HasPrefix].
  cbn [Contains HasPrefix] in Hc. rewrite andb_true_r in Hc.
  apply orb_false_iff in Hc as [Ha Hs]. rewrite Ha. cbn [andb]. by rewrite (IH Hs).
Qed.

Lemma Split_three a b c :
  Contains a "," = false -> Contains b "," = false -> Contains c "," = false ->
  Split (a +:+ ", " +:+ b +:+ ", " +:+ c) ", " = [a; b; c].
Proof.
  intros Ha Hb Hc.
  assert (forall s t, Contains s "," = false -> Split (s +:+ ", " +:+ t) ", " = s :: Split t ", ")
    as Hs by (intros s t Hs; rewrite Split_eq, Cut_comma by done; done).
  rewrite !Hs by done. rewrite Split_eq by done. rewrite (proj2 (Cut_None c ", ")); [done|].
  apply not_true_iff_false. intros (x & y & ->)%Contains_true.
  rewrite (Contains_app_byte x), orb_false_iff in Hc. destruct Hc as [_ Hc]. by cbn in Hc.
Qed.

Lemma expect_part_ok name v :
  Contains name "=" = false -> expect_part name (name +:+ "=" +:+ v) = Ok v.
Proof.
  intros Hn. unfold expect_part. change ("=" +:+ v) with (String "=" v).
  rewrite Cut_app_byte by done. by rewrite String.eqb_refl.
Qed.

(** Bytes of access keys, dates and regions. *)
Definition scope_byte (c : ascii) : bool :=
  is_alnum c || existsb (Ascii.eqb c) ["."; "_"; "-"]%char.

Definition scope_text (s : string) : Prop := str_forallb scope_byte s = true /\ s <> "".

Lemma scope_free (c : ascii) s : c ∈ [","; "/"]%char -> scope_text s -> Contains s (String c "") = false.
Proof.
  intros Hc [Hs _]. apply (Contains_byte_forallb scope_byte); [done|].
  repeat (apply elem_of_cons in Hc as [->|Hc]; [by vm_compute|]). by apply not_elem_of_nil in Hc.
Qed.

Lemma accessKeyIDPattern_scope s : accessKeyIDPattern s = true -> scope_text s.
Proof.
  unfold accessKeyIDPattern, class_repeat, in_range. intros [[Hl _]%andb_true_iff Hs]%andb_true_iff.
  split; [done|]. intros ->. by vm_compute in Hl.
Qed.

Lemma backendRegionPattern_scope s : backendRegionPattern s = true -> scope_text s.
Proof.
  unfold backendRegionPattern, class_repeat, in_range. intros [[Hl _]%andb_true_iff Hs]%andb_true_iff.
  split; [|intros ->; by vm_compute in Hl]. eapply str_forallb_impl; [|exact Hs].
  intros c. unfold scope_byte. destruct (is_alnum c); [done|]. cbn. intros ->. by rewrite !orb_true_r.
Qed.

Lemma FormatDay_scope t : in_years t -> scope_text (FormatDay t).
Proof.
  intros Ht. split.
  - eapply str_forallb_impl; [|by apply FormatDay_digits]. intros c.
    destruct c as [[] [] [] [] [] [] [] []]; vm_compute; congruence.
  - destruct (ParseDay_Format t Ht) as [u Hu]. intros E. rewrite E in Hu. by vm_compute in Hu.
Qed.

Definition scope_of (date region : string) : string :=
  date +:+ "/" +:+ region +:+ "/s3/aws4_request".

Lemma parse_credential_ok akid date region :
  accessKeyIDPattern akid = true -> scope_text date -> scope_text region ->
  is_Some (ParseDay date) ->
  parse_credential (akid +:+ "/" +:+ scope_of date region) =
  Ok (akid, date, region, "s3", scope_of date region).
Proof.
  intros Ha Hd Hr [t Ht]. pose proof (accessKeyIDPattern_scope _ Ha) as Hs.
  unfold parse_credential, scope_of.
  assert (forall a rest n, scope_text a ->
    SplitN (a +:+ "/" +:+ rest) "/" (S (S n)) = a :: SplitN rest "/" (S n)) as Hsp.
  { intros a rest n Hsc. change ("/" +:+ rest) with (String "/" rest). cbn [SplitN].
    rewrite Cut_app_byte by (apply scope_free; [set_solver|done]). done. }
  change ("/s3/aws4_request") with ("/" +:+ "s3/aws4_request").
  rewrite !Hsp by done. change (SplitN "s3/aws4_request" "/" 2) with ["s3"; "aws4_request"].
  destruct Hs as [_ Hsn], Hd as [_ Hdn], Hr as [_ Hrn].
  rewrite !(proj2 (String.eqb_neq _ _)) by done. cbn [orb negb String.eqb Ascii.eqb Bool.eqb].
  rewrite Ht, Ha. cbn [negb]. do 3 f_equal.
Qed.

(** ** Signatures are 64 lowercase digits *)

Lemma hex_in_cutset s : str_forallb (in_cutset hex_digits) (hex s) = true.
Proof.
  induction s as [|c s IH]; [done|]. cbn [hex str_forallb]. rewrite IH.
  destruct c as [[] [] [] [] [] [] [] []]; vm_compute; reflexivity.
Qed.

Lemma Trim_all s cutset : str_forallb (in_cutset cutset) s = true -> Trim s cutset = "".
Proof.
  intros Hs. unfold Trim. assert (TrimLeft s cutset = "") as ->; [|done].
  induction s as [|c s IH]; [done|]. cbn [str_forallb] in Hs. apply andb_true_iff in Hs as [Hc Hs].
  cbn [TrimLeft]. rewrite Hc. auto.
Qed.

Lemma hex_no_comma s : Contains (hex s) "," = false.
Proof. apply (Contains_byte_forallb (in_cutset hex_digits)); [apply hex_in_cutset|done]. Qed.

(** ** The signed request *)

Section signed.
Context (r : HttpRequest) (accessKey secretKey region : string) (now : Time).
Context (Hnames : signable_names (r_Header r)) (Htrailer : r_Trailer r = ∅).
Context (Hak : accessKeyIDPattern accessKey = true) (Hregion : backendRegionPattern region = true).
Context (Hnow : in_years now).

(** The header that is signed, and the request with it. *)
Definition dated : Header :=
  Header_Set (Header_Set (r_Header r) "X-Amz-Date" (FormatAmzDate now))
    "x-amz-content-sha256" unsignedPayload.

Definition signed_info : AuthInfo :=
  let scope := scope_of (FormatDay now) region in
  mkAuthInfo accessKey (FormatDay now) region "s3" (names_to_sign dated)
    (signatureForCanonicalRequest (FormatAmzDate now) scope
       (buildCanonicalRequest (with_header dated r) (names_to_sign dated))
       (computeSigningKey secretKey (FormatDay now) region "s3")) scope.

Definition auth_text : string :=
  "AWS4-HMAC-SHA256 Credential=" +:+ accessKey +:+ "/" +:+ Scope signed_info
  +:+ ", SignedHeaders=" +:+ Join (names_to_sign dated) ";" +:+ ", Signature="
  +:+ Signature signed_info.

Lemma signRequest_eq :
  signRequest r accessKey secretKey region now =
  with_header (Header_Set dated "Authorization" auth_text) r.
Proof. reflexivity. Qed.

Lemma dated_eq :
  dated = <["X-Amz-Content-Sha256" := [unsignedPayload]]>
            (<["X-Amz-Date" := [FormatAmzDate now]]> (r_Header r)).
Proof. reflexivity. Qed.

Lemma dated_names : signable_names dated.
Proof.
  intros n vs. rewrite dated_eq, !lookup_insert.
  destruct (decide ("X-Amz-Content-Sha256" = n)) as [<-|_].
  { intros _. split_and!; [by vm_compute|done|by vm_compute|set_solver]. }
  destruct (decide ("X-Amz-Date" = n)) as [<-|_]; [|apply Hnames].
  intros _. split_and!; [by vm_compute|done|by vm_compute|set_solver].
Qed.

Lemma dated_date : is_Some (dated !! "X-Amz-Date").
Proof. rewrite dated_eq, lookup_insert_ne, lookup_insert_eq by done. eauto. Qed.

Definition signed_request : HttpRequest := with_header (Header_Set dated "Authorization" auth_text) r.

Lemma signed_Values name :
  CanonicalHeaderKey name <> "Authorization" ->
  Header_Values (r_Header signed_request) name = Header_Values dated name.
Proof.
  intros Hn. unfold signed_request, Header_Values, Header_Set. cbn [r_Header with_header].
  change (CanonicalHeaderKey "Authorization") with "Authorization". by rewrite lookup_insert_ne.
Qed.

Lemma signed_value_lookup name : name ∈ names_to_sign dated ->
  signed_values signed_request name = signed_values (with_header dated r) name.
Proof.
  intros Hin. unfold signed_values. cbn [r_Host r_URLHost r_ContentLength signed_request with_header].
  destruct (String.eqb_spec name "host") as [|Hne]; [done|].
  assert (Header_Values (r_Header signed_request) name = Header_Values dated name) as Hv.
  { apply signed_Values. apply names_elem in Hin as [?|(n & vs & Hn & ->)]; [done|].
    destruct (dated_names n vs Hn) as (Ht & _ & Hc & Ha).
    rewrite CanonicalHeaderKey_ToLower, Hc by done. intros ->. apply Ha. set_solver. }
  cbn [r_Header with_header] in *. by rewrite Hv.
Qed.

Lemma signed_canonical :
  buildCanonicalRequest signed_request (names_to_sign dated) =
  buildCanonicalRequest (with_header dated r) (names_to_sign dated).
Proof.
  rewrite !buildCanonicalRequest_lines. unfold request_lines, Header_Get.
  rewrite signed_Values by (vm_compute; discriminate).
  assert (header_text signed_request <$> names_to_sign dated =
          header_text (with_header dated r) <$> names_to_sign dated) as ->; [|reflexivity].
  apply list_fmap_ext. intros i h Hi. unfold header_text.
  rewrite signed_value_lookup; [done|]. by eapply list_elem_of_lookup_2.
Qed.

Lemma credential_no_comma :
  Contains ("Credential" +:+ "=" +:+ accessKey +:+ "/" +:+ scope_of (FormatDay now) region) "," = false.
Proof.
  unfold scope_of. rewrite !Contains_app_byte.
  rewrite (scope_free "," accessKey) by (set_solver || by apply accessKeyIDPattern_scope).
  rewrite (scope_free "," region) by (set_solver || by apply backendRegionPattern_scope).
  rewrite (scope_free "," (FormatDay now)) by (set_solver || by apply FormatDay_scope). done.
Qed.

Lemma names_no_comma : Contains (Join (names_to_sign dated) ";") "," = false.
Proof.
  assert (Forall (fun l => Contains l "," = false) (names_to_sign dated)) as Hall.
  { apply Forall_forall. intros l Hl. apply token_free; [set_solver|].
    by destruct (names_token _ _ dated_names Hl). }
  induction Hall as [|l ls Hl Hls IH]; [done|]. destruct ls as [|l' ls]; [done|].
  rewrite Join_cons by done. by rewrite !Contains_app_byte, Hl, IH.
Qed.

Lemma names_split : Split (Join (names_to_sign dated) ";") ";" = names_to_sign dated.
Proof.
  apply Split_Join_byte.
  - intros E. assert ("host" ∈ names_to_sign dated) as H by (apply names_elem; by left).
    rewrite E in H. by apply not_elem_of_nil in H.
  - apply Forall_forall. intros l Hl. apply token_free; [set_solver|].
    by destruct (names_token _ _ dated_names Hl).
Qed.

Lemma signed_parses : parseAuthorizationHeader auth_text = Ok signed_info.
Proof.
  unfold parseAuthorizationHeader.
  assert (auth_text = "AWS4-HMAC-SHA256 " +:+
    (("Credential" +:+ "=" +:+ accessKey +:+ "/" +:+ scope_of (FormatDay now) region) +:+ ", "
     +:+ ("SignedHeaders" +:+ "=" +:+ Join (names_to_sign dated) ";") +:+ ", "
     +:+ ("Signature" +:+ "=" +:+ Signature signed_info))) as ->.
  { unfold auth_text. rewrite !app_assoc_str. reflexivity. }
  rewrite HasPrefix_app, TrimPrefix_app. cbn [negb].
  rewrite Split_three.
  - rewrite !expect_part_ok by done. rewrite parse_credential_ok;
      [|done|by apply FormatDay_scope|by apply backendRegionPattern_scope|by apply ParseDay_Format].
    rewrite names_split, names_validate by (apply dated_names || apply dated_date).
    assert ((str_len (Signature signed_info) =? 64) = true) as ->.
    { unfold str_len. cbn [Signature signed_info]. unfold signatureForCanonicalRequest.
      by rewrite length_hex, length_hmac. }
    assert (Trim (Signature signed_info) hex_digits = "") as ->
      by (apply Trim_all, hex_in_cutset).
    cbn [negb String.eqb orb].
    destruct (accessKeyIDPattern_scope _ Hak) as [_ Hne]. rewrite (proj2 (String.eqb_neq _ _) Hne).
    destruct (String.eqb_spec (Signature signed_info) "") as [E|_].
    { apply (f_equal String.length) in E. cbn [Signature signed_info] in E.
      unfold signatureForCanonicalRequest in E. by rewrite length_hex, length_hmac in E. }
    rewrite bool_decide_false; [done|]. intros E.
    assert ("host" ∈ names_to_sign dated) as H by (apply names_elem; by left).
    rewrite E in H. by apply not_elem_of_nil in H.
  - apply credential_no_comma.
  - rewrite !Contains_app_byte, names_no_comma. done.
  - rewrite !Contains_app_byte. cbn [Signature signed_info]. unfold signatureForCanonicalRequest.
    by rewrite hex_no_comma.
Qed.
End signed.

Lemma clock_skew_now now : 0 <= t_nsec now <= max_int64 -> clock_skew now (mkTime (t_sec now) 0) = t_nsec now.
Proof.
  intros H. rewrite clock_skew_spec.
  assert (nanos now (mkTime (t_sec now) 0) = t_nsec now) as -> by (unfold nanos; cbn; lia).
  rewrite (proj2 (Z.leb_gt _ _)) by (unfold min_int64; lia). lia.
Qed.

Lemma signed_accepted (r : HttpRequest) (accessKey secretKey region : string) (now : Time)
    (maxSkew : Z)
    (Hnames : signable_names (r_Header r)) (Htrailer : r_Trailer r = ∅)
    (Hak : accessKeyIDPattern accessKey = true) (Hregion : backendRegionPattern region = true)
    (Hnow : in_years now) (Hnano : 0 <= t_nsec now < 1000000000)
    (Hskew : maxSkew <= 0 \/ t_nsec now <= maxSkew) :
  let signed := signRequest r accessKey secretKey region now in
  let info := signed_info r accessKey secretKey region now in
  Header_Values (r_Header signed) "Authorization" = [auth_text r accessKey secretKey region now] /\
  parseAuthorizationHeader (auth_text r accessKey secretKey region now) = Ok info /\
  verifySignatureAtTime signed (Some info) secretKey now maxSkew = Ok tt.
Proof.
  cbv zeta. rewrite signRequest_eq. split.
  { unfold Header_Values, Header_Set. cbn [r_Header with_header]. by rewrite lookup_insert_eq. }
  split; [by apply signed_parses|].
  fold (signed_request r accessKey secretKey region now).
  pose proof (dated_names r accessKey region now Hnames Htrailer Hak Hregion Hnow) as Hdn.
  assert (forall name, CanonicalHeaderKey name ∈ ["X-Amz-Security-Token"; "X-Amz-Trailer"] ->
    Header_Values (r_Header (signed_request r accessKey secretKey region now)) name = []) as Hnone.
  { intros name Hn. rewrite signed_Values by (intros E; rewrite E in Hn; set_solver).
    unfold Header_Values. destruct (dated r now !! _) as [vs|] eqn:E; [|done].
    destruct (Hdn _ _ E) as (_ & _ & _ & Ha). exfalso. apply Ha. right. exact Hn. }
  apply accepts_verify. split.
  - apply names_validate; [done|apply dated_date].
  - reflexivity.
  - split_and!; [apply Hnone; left|apply Hnone; right; left|exact Htrailer].
  - rewrite signed_Values by (vm_compute; discriminate). unfold Header_Values.
    change (CanonicalHeaderKey "x-amz-content-sha256") with "X-Amz-Content-Sha256".
    by rewrite dated_eq, lookup_insert_eq.
  - intros name values Hn Hp _. cbn [SignedHeaders signed_info]. apply names_elem. right.
    unfold signed_request, Header_Set in Hn. cbn [r_Header with_header] in Hn.
    rewrite lookup_insert in Hn. case_decide as E; [|eauto].
    subst name. by vm_compute in Hp.
  - exists (FormatAmzDate now), (mkTime (t_sec now) 0). split.
    { rewrite signed_Values by (vm_compute; discriminate). unfold Header_Values.
      change (CanonicalHeaderKey "X-Amz-Date") with "X-Amz-Date".
      by rewrite dated_eq, lookup_insert_ne, lookup_insert_eq. }
    split; [by apply ParseAmzDate_Format|]. split; [reflexivity|]. split; [reflexivity|].
    split; [rewrite clock_skew_now by (unfold max_int64; lia); exact Hskew|].
    cbn [SignedHeaders Signature signed_info Scope Date Region]. by rewrite signed_canonical.
Qed.

(** C28. The proxy signs what it would itself accept: the Authorization header that
    [signRequest] writes parses back to the access key, scope, signed names and
    signature it was made from, and the signed request verifies with the same secret at
    the moment of signing, under any skew that covers the fraction of a second the date
    drops. *)
Theorem sign_then_verify (r : HttpRequest) (accessKey secretKey region : string) (now : Time)
    (maxSkew : Z)
    (Hnames : signable_names (r_Header r)) (Htrailer : r_Trailer r = ∅)
    (Hak : accessKeyIDPattern accessKey = true) (Hregion : backendRegionPattern region = true)
    (Hnow : in_years now) (Hnano : 0 <= t_nsec now < 1000000000)
    (Hskew : maxSkew <= 0 \/ t_nsec now <= maxSkew) :
  let signed := signRequest r accessKey secretKey region now in
  exists info,
    parseAuthorizationHeader (Header_Get (r_Header signed) "Authorization") = Ok info /\
    AccessKeyID info = accessKey /\ Region info = region /\
    verifySignatureAtTime signed (Some info) secretKey now maxSkew = Ok tt.
Proof.
  destruct (signed_accepted r accessKey secretKey region now maxSkew) as (Hh & Hp & Hv); try done.
  eexists. unfold Header_Get. rewrite Hh. split; [exact Hp|]. done.
Qed.

(** ** A concrete request *)

Module SignExample.

Definition request : HttpRequest :=
  mkHttpRequest "GET" "/real/tenant/a b" "" "versionId=v1&partNumber=2"
    {["Accept" := ["*/*"]; "Range" := ["bytes=0-9"]]} "s3.example.com" "" 0 [] ∅ true.

Definition noon : Time := mkTime (62135596800 + 1767323045) 250000000.

Lemma request_names : signable_names (r_Header request).
Proof.
  intros n vs Hn. unfold request in Hn. cbn [r_Header] in Hn.
  rewrite lookup_insert in Hn. case_decide as E1; [subst n|].
  { split_and!; [by vm_compute|done|by vm_compute|set_solver]. }
  rewrite lookup_singleton in Hn. case_decide as E2; [subst n|done].
  split_and!; [by vm_compute|done|by vm_compute|set_solver].
Qed.

Lemma noon_ok : in_years noon /\ 0 <= t_nsec noon < 1000000000.
Proof. vm_compute. repeat split; discriminate. Qed.

Lemma sign_then_verify_witness :
  exists info,
    parseAuthorizationHeader
      (Header_Get (r_Header (signRequest request "AKID" "secret" "us-east-1" noon)) "Authorization")
    = Ok info /\
    verifySignatureAtTime (signRequest request "AKID" "secret" "us-east-1" noon) (Some info)
      "secret" noon 900000000000 = Ok tt.
Proof.
  destruct (sign_then_verify request "AKID" "secret" "us-east-1" noon 900000000000 request_names
              eq_refl ltac:(vm_compute; reflexivity) ltac:(vm_compute; reflexivity)
              (proj1 noon_ok) (proj2 noon_ok) ltac:(right; vm_compute; discriminate))
    as (info & Hp & _ & _ & Hv).
  exists info. split; [exact Hp|exact Hv].
Defined.

(** What the signer signs is authentic and dated within a quarter hour of the clock. *)
Lemma verifySignatureAtTime_spec_witness :
  authentic (signRequest request "AKID" "secret" "us-east-1" noon)
    (signed_info request "AKID" "secret" "us-east-1" noon) "secret"
    (fun t => 900000000000 <= 0 \/ Z.abs (nanos noon t) <= 900000000000 \/ 2 ^ 63 <= nanos t noon).
Proof.
  destruct (signed_accepted request "AKID" "secret" "us-east-1" noon 900000000000 request_names
              eq_refl ltac:(vm_compute; reflexivity) ltac:(vm_compute; reflexivity)
              (proj1 noon_ok) (proj2 noon_ok) ltac:(right; vm_compute; discriminate))
    as (_ & _ & Hv).
  apply (verifySignatureAtTime_spec (signRequest request "AKID" "secret" "us-east-1" noon)
           (signed_info request "AKID" "secret" "us-east-1" noon) "secret" noon 900000000000).
  - vm_compute. reflexivity.
  - exact Hv.
Defined.

(** The signed request is recent. *)
Lemma verified_recent_witness :
  Z.abs (nanos noon (mkTime (t_sec noon) 0)) <= 900000000000.
Proof.
  destruct (signed_accepted request "AKID" "secret" "us-east-1" noon 900000000000 request_names
              eq_refl ltac:(vm_compute; reflexivity) ltac:(vm_compute; reflexivity)
              (proj1 noon_ok) (proj2 noon_ok) ltac:(right; vm_compute; discriminate))
    as (_ & _ & Hv).
  apply (verified_recent (signRequest request "AKID" "secret" "us-east-1" noon)
           (signed_info request "AKID" "secret" "us-east-1" noon) "secret" noon
           (mkTime (t_sec noon) 0) 900000000000).
  - split; vm_compute; reflexivity.
  - vm_compute. reflexivity.
  - vm_compute. reflexivity.
  - exact Hv.
Defined.

(** The last second of the year 9999, accepted in 2026 with a skew of a quarter hour. *)
Definition far : Time := mkTime 315537897599 0.

Lemma far_future_never_expires_witness :
  exists info,
    verifySignatureAtTime (signRequest request "AKID" "secret" "us-east-1" far) (Some info)
      "secret" noon 900000000000 = Ok tt.
Proof.
  assert (in_years far /\ 0 <= t_nsec far < 1000000000) as [Hy Hn]
    by (vm_compute; repeat split; discriminate).
  destruct (signed_accepted request "AKID" "secret" "us-east-1" far 900000000000 request_names
              eq_refl ltac:(vm_compute; reflexivity) ltac:(vm_compute; reflexivity)
              Hy Hn ltac:(right; vm_compute; discriminate)) as (_ & _ & Hv).
  exists (signed_info request "AKID" "secret" "us-east-1" far).
  apply (far_future_never_expires (signRequest request "AKID" "secret" "us-east-1" far)
           (signed_info request "AKID" "secret" "us-east-1" far) "secret"
           far noon far 900000000000 900000000000).
  - vm_compute. reflexivity.
  - vm_compute. discriminate.
  - reflexivity.
  - exact Hv.
Defined.

(** The same request with its parameters in another order. *)
Definition reordered : HttpRequest :=
  mkHttpRequest "GET" "/real/tenant/a b" "/real/tenant/a%20b" "partNumber=2&versionId=v1"
    {["Accept" := [" */* "]; "Range" := ["bytes=0-9"]]} "s3.example.com" "" 0 [] ∅ false.

Lemma wire_check r l :
  str_forallb not_newline (r_Method r)
  && forallb (fun h => str_forallb not_newline h && negb (Contains h ";")
                       && forallb (str_forallb not_newline) (signed_values r h)) l
  && str_forallb not_newline (Header_Get (r_Header r) "x-amz-content-sha256") = true ->
  on_the_wire r l.
Proof.
  intros [[Hm Hl]%andb_true_iff Hp]%andb_true_iff. rewrite forallb_elem_of in Hl.
  split; [by apply one_line_forallb| | |by apply one_line_forallb].
  - intros h Hh. specialize (Hl h Hh). bool_to_prop. split; [by apply one_line_forallb|done].
  - intros h v Hh Hv. specialize (Hl h Hh). bool_to_prop.
    match goal with H : forallb _ _ = true |- _ => rewrite forallb_elem_of in H end.
    apply one_line_forallb. auto.
Qed.

Lemma canonical_request_determines_witness :
  Join (canonicalHeaderValue <$> signed_values request "accept") "," =
  Join (canonicalHeaderValue <$> signed_values reordered "accept") ",".
Proof.
  assert (on_the_wire request ["accept"; "host"]) as H1 by (apply wire_check; vm_compute; reflexivity).
  assert (on_the_wire reordered ["accept"; "host"]) as H2 by (apply wire_check; vm_compute; reflexivity).
  assert (["accept"; "host"] <> []) as Hne by discriminate.
  assert (buildCanonicalRequest request ["accept"; "host"] =
          buildCanonicalRequest reordered ["accept"; "host"]) as He by (vm_compute; reflexivity).
  destruct (canonical_request_determines request reordered ["accept"; "host"] ["accept"; "host"]
              H1 H2 Hne Hne He) as (_ & _ & _ & _ & _ & Hh & _).
  apply Hh. apply list_elem_of_here.
Defined.

End SignExample.
