(* ===== verification/Xml.v ===== *)
(** * Xml: what the program uses of [encoding/xml], at the level of tokens

    The program never looks at the bytes of a document: it reads tokens from a
    [Decoder], writes tokens to an [Encoder] and unmarshals a root element with one text
    field.  How bytes lex into tokens is the class [XmlLexer]; that the decoder's start
    and end tags match, and that it reports the end of its input only when every element
    is closed, is its documented behaviour ([lexes_nested]). *)
From S2P Require Import Prelude GoStrings.

Record xml_name := mkName { x_Space : string; x_Local : string }.

#[export] Instance xml_name_eq_dec : EqDecision xml_name.
Proof. solve_decision. Defined.

Record xml_attr := mkAttr { a_Name : xml_name; a_Value : string }.

(** The contents of comments, directives and processing instructions are never read. *)
Inductive xml_token :=
| StartElement (name : xml_name) (attrs : list xml_attr)
| EndElement (name : xml_name)
| CharData (text : string)
| XmlComment
| XmlDirective
| XmlProcInst.

(** ** Streams and decoding *)

(** A body: its bytes, and whether it ends cleanly or with a read error. *)
Record stream := mkStream { st_bytes : string; st_clean : bool }.

(** [io.ReadAll(io.LimitReader(s, limit))] *)
Definition read_limited (limit : Z) (s : stream) : option string :=
  if limit <=? str_len (st_bytes s) then Some (str_take (Z.to_nat limit) (st_bytes s))
  else if st_clean s then Some (st_bytes s) else None.

(** The tokens of a document, and whether they end with [io.EOF] or with an error. *)
Class XmlLexer := { lex : string -> list xml_token * bool }.

Record Decoder := mkDecoder { d_tokens : list xml_token; d_eof : bool }.

Definition NewDecoder `{XmlLexer} (s : stream) : Decoder :=
  let (tokens, eof) := lex (st_bytes s) in mkDecoder tokens (eof && st_clean s).

(** Start and end tags match and nest; [open] are the elements open before. *)
Fixpoint nested (open : list xml_name) (tokens : list xml_token) : option (list xml_name) :=
  match tokens with
  | [] => Some open
  | StartElement name _ :: tokens => nested (name :: open) tokens
  | EndElement name :: tokens =>
      match open with
      | top :: open => if bool_decide (name = top) then nested open tokens else None
      | [] => None
      end
  | _ :: tokens => nested open tokens
  end.

(** The documented guarantee of [Decoder.Token]. *)
Definition lexes_nested `{XmlLexer} : Prop :=
  forall bytes, let (tokens, eof) := lex bytes in
    exists open, nested [] tokens = Some open /\ (eof = true -> open = []).

(** [Decoder.Skip]: past the end of the innermost open element; [None] when the tokens
    end first. *)
Fixpoint skip (depth : nat) (tokens : list xml_token) : option (list xml_token) :=
  match tokens with
  | [] => None
  | StartElement _ _ :: tokens => skip (S depth) tokens
  | EndElement _ :: tokens => match depth with O => Some tokens | S d => skip d tokens end
  | _ :: tokens => skip depth tokens
  end.

(** ** Unmarshalling *)

(** The text of an element whose start tag was read: its own character data, nested
    elements skipped. *)
Fixpoint element_text (depth : nat) (tokens : list xml_token) : option (string * list xml_token) :=
  match tokens with
  | [] => None
  | StartElement _ _ :: tokens => element_text (S depth) tokens
  | EndElement _ :: tokens =>
      match depth with O => Some ("", tokens) | S d => element_text d tokens end
  | CharData text :: tokens =>
      match element_text depth tokens with
      | Some (more, rest) => Some ((if (depth =? 0)%nat then text else "") +:+ more, rest)
      | None => None
      end
  | _ :: tokens => element_text depth tokens
  end.

(** The children of the root up to its end tag; [value] is the field's value so far. *)
Fixpoint unmarshal_field (fuel : nat) (field value : string) (tokens : list xml_token)
    : option string :=
  match fuel with
  | O => None
  | S fuel =>
      match tokens with
      | [] => None
      | StartElement name _ :: tokens =>
          if String.eqb (x_Local name) field then
            match element_text 0 tokens with
            | Some (text, rest) => unmarshal_field fuel field text rest
            | None => None
            end
          else match skip 0 tokens with
               | Some rest => unmarshal_field fuel field value rest
               | None => None
               end
      | EndElement _ :: _ => Some value
      | _ :: tokens => unmarshal_field fuel field value tokens
      end
  end.

Fixpoint first_start (tokens : list xml_token) : option (xml_name * list xml_token) :=
  match tokens with
  | [] => None
  | StartElement name _ :: tokens => Some (name, tokens)
  | _ :: tokens => first_start tokens
  end.

(** [xml.Unmarshal] into a struct of an [XMLName], which may demand a local name, and
    one string field: the root's name and the field.  Every round of the loop takes a
    token. *)
Definition Unmarshal `{XmlLexer} (data : string) (root : option string) (field : string)
    : option (xml_name * string) :=
  match first_start (lex data).1 with
  | None => None
  | Some (name, tokens) =>
      if match root with Some local => negb (String.eqb (x_Local name) local) | None => false end
      then None
      else match unmarshal_field (S (length tokens)) field "" tokens with
           | Some value => Some (name, value)
           | None => None
           end
  end.

(** ** Encoding *)

(** The tokens written and the names of the elements left open. *)
Record Encoder := mkEncoder { e_out : list xml_token; e_open : list xml_name }.

Definition NewEncoder : Encoder := mkEncoder [] [].

(** [Encoder.EncodeToken] for the tokens the program writes. *)
Definition EncodeToken (t : xml_token) (e : Encoder) : result string Encoder :=
  match t with
  | StartElement name attrs =>
      reject String.eqb (x_Local name) "" with "xml: start tag with no name" ;;
      Ok (mkEncoder (e_out e ++ [t]) (name :: e_open e))
  | EndElement name =>
      reject String.eqb (x_Local name) "" with "xml: end tag with no name" ;;
      match e_open e with
      | [] => Err "xml: end tag without start tag"
      | top :: open =>
          reject negb (bool_decide (top = name)) with "xml: end tag does not match start tag" ;;
          Ok (mkEncoder (e_out e ++ [t]) open)
      end
  | _ => Ok (mkEncoder (e_out e ++ [t]) (e_open e))
  end.

(** Several tokens; an error comes with what was written before it. *)
Fixpoint encode_all (ts : list xml_token) (e : Encoder) : result (string * Encoder) Encoder :=
  match ts with
  | [] => Ok e
  | t :: ts =>
      match EncodeToken t e with
      | Ok e => encode_all ts e
      | Err msg => Err (msg, e)
      end
  end.

(** The attributes written in a start tag: the element's namespace as [xmlns], then the
    given ones, those of a namespace under a made-up prefix. *)
Definition written_attributes (name : xml_name) (attrs : list xml_attr) : list string :=
  (if String.eqb (x_Space name) "" then [] else ["xmlns"]) ++
  mbind (fun a => if String.eqb (x_Local (a_Name a)) "" || negb (String.eqb (x_Space (a_Name a)) "")
                  then [] else [x_Local (a_Name a)]) attrs.

(** ** Laws *)

Lemma nested_app open ts us :
  nested open (ts ++ us) = match nested open ts with Some open => nested open us | None => None end.
Proof.
  revert open. induction ts as [|t ts IH]; intros open; [done|]. destruct t; cbn; auto.
  destruct open; [done|]. by case_bool_decide.
Qed.

(** What an encoder wrote is nested and leaves open what it says. *)
Definition encoder_ok (e : Encoder) : Prop := nested [] (e_out e) = Some (e_open e).

Lemma EncodeToken_ok t e e' : encoder_ok e -> EncodeToken t e = Ok e' -> encoder_ok e'.
Proof.
  unfold encoder_ok. intros He. destruct t as [name attrs|name|text| | |]; cbn;
    try (intros <-%Ok_inj; cbn; by rewrite nested_app, He).
  - destruct (String.eqb _ _); [done|]. intros <-%Ok_inj. cbn. by rewrite nested_app, He.
  - destruct (String.eqb _ _); [done|]. destruct (e_open e) as [|top open] eqn:E; [done|].
    case_bool_decide as Ht; [|done]. cbn. intros <-%Ok_inj. cbn. rewrite nested_app, He.
    cbn. by rewrite bool_decide_true.
Qed.

Lemma skip_shorter depth ts rest : skip depth ts = Some rest -> (length rest < length ts)%nat.
Proof.
  revert depth. induction ts as [|t ts IH]; intros depth; [done|]. destruct t; cbn.
  - intros H%IH. lia.
  - destruct depth as [|d]; [intros [= ->]; lia|]. intros H%IH. lia.
  - intros H%IH. lia.
  - intros H%IH. lia.
  - intros H%IH. lia.
  - intros H%IH. lia.
Qed.
