(* ===== verification/Response.v ===== *)
(** * Response: virtualizing what the backend answers ([http_server/s3_response.go])

    Header filtering, error documents, and the rewriting of listings and multipart
    results from the backend's bucket, keys and tokens to the virtual ones. *)
From S2P Require Import Prelude GoStrings GoTime GoUrl GoHttp Iam CopySource Operation S3Authz.
From S2P Require Import GoURLs Names Outbound Crypto Base64 Token ListRewrite Mapping Errors Xml.

Definition maxS3ControlResponseBytes : Z := 2 ^ 20.

Definition control_limit : Z := maxS3ControlResponseBytes + 1.

Definition s3XMLNamespace : string := "http://s3.amazonaws.com/doc/2006-03-01/".

(** ** Sensitive values and headers *)

(** [parseEndpoint] of [s3_proxy.go]; a nil URL is [None]. *)
Definition parseEndpoint (endpoint : string) : option URL :=
  Parse (if negb (Contains endpoint "://") then "https://" +:+ endpoint else endpoint).

Definition normalizedPathPrefix (prefix : string) : string :=
  if String.eqb prefix "" then "" else TrimSuffix prefix "/" +:+ "/".

(** The host and hostname of the endpoint are read through the parsed URL, which is
    there for a normalized mapping. *)
Definition endpoint_names (cfg : VBucketConfig) : list string :=
  RealEndpoint cfg ::
  match parseEndpoint (RealEndpoint cfg) with Some u => [u_Host u; Hostname u] | None => [] end.

Definition secret_names (cfg : VBucketConfig) : list string :=
  [RealBucket cfg; RealAccessKey cfg; RealSecretKey cfg; RealRegion cfg; PathPrefix cfg;
   normalizedPathPrefix (PathPrefix cfg)].

Definition containsSensitiveBackendValue (value : string) (cfg : VBucketConfig) : bool :=
  existsb (fun sensitive => negb (String.eqb sensitive "")
                            && Contains (ToLower value) (ToLower sensitive)) (endpoint_names cfg)
  || existsb (fun sensitive => negb (String.eqb sensitive "") && Contains value sensitive)
       (secret_names cfg).

Definition userControlledResponseHeader (name : string) : bool :=
  let lower := ToLower name in
  HasPrefix lower "x-amz-meta-" || HasPrefix lower "x-amz-checksum-"
  || bool_decide (name ∈ ["Cache-Control"; "Content-Disposition"; "Content-Encoding";
       "Content-Language"; "Content-Type"; "Etag"; "Expires"; "Last-Modified"]).

Definition safeS3ResponseHeader (name : string) : bool :=
  HasPrefix (ToLower name) "x-amz-meta-" || HasPrefix (ToLower name) "x-amz-checksum-"
  || bool_decide (name ∈ ["Accept-Ranges"; "Cache-Control"; "Content-Disposition";
       "Content-Encoding"; "Content-Language"; "Content-Length"; "Content-Range"; "Content-Type";
       "Etag"; "Expires"; "Last-Modified"; "Retry-After"; "X-Amz-Delete-Marker";
       "X-Amz-Expiration"; "X-Amz-Missing-Meta"; "X-Amz-Object-Lock-Legal-Hold";
       "X-Amz-Object-Lock-Mode"; "X-Amz-Object-Lock-Retain-Until-Date";
       "X-Amz-Replication-Status"; "X-Amz-Restore"; "X-Amz-Server-Side-Encryption";
       "X-Amz-Server-Side-Encryption-Customer-Algorithm";
       "X-Amz-Server-Side-Encryption-Customer-Key-Md5"; "X-Amz-Storage-Class";
       "X-Amz-Tagging-Count"; "X-Amz-Version-Id"; "X-Amz-Copy-Source-Version-Id"]).

(** One value of a header that passed the filter, staged under its canonical name. *)
Definition stage_value (cfg : VBucketConfig) (kind : S3OperationKind) (status : Z)
    (canonical : string) (staged : Header) (value : string) : result string Header :=
  let? value :=
    if String.eqb canonical "X-Amz-Version-Id"
       || String.eqb canonical "X-Amz-Copy-Source-Version-Id"
    then encodeOpaqueToken (Some cfg) "version" value else Ok value in
  let allowUserCollision :=
    (200 <=? status) && (status <? 300) && operationReadsObject kind
    && userControlledResponseHeader canonical in
  if negb allowUserCollision && containsSensitiveBackendValue value cfg then Ok staged
  else Ok (Header_Add staged canonical value).

Fixpoint stage_values (cfg : VBucketConfig) (kind : S3OperationKind) (status : Z)
    (canonical : string) (values : list string) (staged : Header) : result string Header :=
  match values with
  | [] => Ok staged
  | value :: values =>
      let? staged := stage_value cfg kind status canonical staged value in
      stage_values cfg kind status canonical values staged
  end.

Fixpoint stage_headers (cfg : VBucketConfig) (kind : S3OperationKind) (status : Z)
    (hopByHop : gset string) (fields : list (string * list string)) (staged : Header)
    : result string Header :=
  match fields with
  | [] => Ok staged
  | (name, values) :: fields =>
      let canonical := CanonicalHeaderKey name in
      let? staged :=
        if bool_decide (canonical ∈ hopByHop) || negb (safeS3ResponseHeader canonical)
        then Ok staged else stage_values cfg kind status canonical values staged in
      stage_headers cfg kind status hopByHop fields staged
  end.

(** The header the client gets: [dst] with the staged fields added. *)
Definition copySafeResponseHeaders (src dst : Header) (cfg : VBucketConfig)
    (kind : S3OperationKind) (status : Z) : result string Header :=
  let? staged := stage_headers cfg kind status (hopByHopHeaderSet src) (map_to_list src) ∅ in
  Ok (foldl (fun dst kv => foldl (fun dst value => Header_Add dst kv.1 value) dst kv.2)
        dst (map_to_list staged)).

Definition dropDiscardedBodyHeaders (headers : Header) : Header :=
  foldl (fun h name =>
    if bool_decide (ToLower name ∈
         ["content-length"; "content-md5"; "content-encoding"; "content-range"; "digest"])
    then Header_Del h name else h) headers (map_to_list headers).*1.

Definition dropTransformedRepresentationHeaders (headers : Header) (profile : S3ResponseProfile)
    : Header :=
  let headers := dropDiscardedBodyHeaders headers in
  match profile with
  | responseListObjects | responseListMultipartUploads | responseListParts =>
      foldl (fun h name =>
        if String.eqb (ToLower name) "etag" || HasPrefix (ToLower name) "x-amz-checksum-"
        then Header_Del h name else h) headers (map_to_list headers).*1
  | _ => headers
  end.

(** ** Error documents *)

Definition isS3RedirectStatus (status : Z) : bool :=
  bool_decide (status ∈ [301; 302; 303; 307; 308]).

Definition readBoundedControlXML (s : stream) : option string :=
  match read_limited control_limit s with
  | None => None
  | Some data => if maxS3ControlResponseBytes <? str_len data then None else Some data
  end.

(** [^[A-Za-z][A-Za-z0-9]{0,127}$] *)
Definition structurallySafeUpstreamErrorCode (code : string) : bool :=
  match code with
  | String c rest => is_letter c && str_forallb is_alnum rest && (str_len rest <=? 127)
  | "" => false
  end.

Definition validateUpstreamErrorDocument `{XmlLexer} (s : stream) : option string :=
  match readBoundedControlXML s with
  | None => None
  | Some data =>
      match Unmarshal data None "Code" with
      | None => None
      | Some (name, text) =>
          if negb (String.eqb (x_Local name) "Error") then None
          else if negb (String.eqb (x_Space name) "")
                  && negb (String.eqb (x_Space name) s3XMLNamespace) then None
          else
            let code := TrimSpace text in
            if structurallySafeUpstreamErrorCode code then Some code else None
      end
  end.

Definition allowedByStatus (status : Z) : list string :=
  if status =? 400 then ["EntityTooSmall"; "InvalidArgument"; "InvalidPart"; "InvalidPartOrder";
                         "InvalidRequest"; "MalformedXML"]
  else if status =? 403 then ["AccessDenied"; "InvalidObjectState"]
  else if status =? 409 then ["BucketNotEmpty"; "OperationAborted"]
  else if status =? 412 then ["PreconditionFailed"]
  else if status =? 416 then ["InvalidRange"]
  else if status =? 429 then ["SlowDown"]
  else if status =? 500 then ["InternalError"]
  else if status =? 503 then ["SlowDown"; "ServiceUnavailable"]
  else [].

Definition compatibleNotFoundCode (kind : S3OperationKind) (code : string) : bool :=
  if String.eqb code "NoSuchBucket" then true
  else if String.eqb code "NoSuchUpload" then
    match kind with
    | operationUploadPart | operationListParts | operationCompleteMultipartUpload
    | operationAbortMultipartUpload => true
    | _ => false
    end
  else if String.eqb code "NoSuchVersion" then
    match kind with
    | operationGetObjectVersion | operationHeadObjectVersion | operationDeleteObjectVersion
    | operationCopyObject => true
    | _ => false
    end
  else if String.eqb code "NoSuchKey" then
    match kind with
    | operationGetObject | operationGetObjectVersion | operationHeadObject
    | operationHeadObjectVersion | operationPutObject | operationCopyObject
    | operationDeleteObject | operationDeleteObjectVersion | operationCreateMultipartUpload
    | operationUploadPart | operationListParts | operationCompleteMultipartUpload
    | operationAbortMultipartUpload => true
    | _ => false
    end
  else false.

Definition safeErrorCodeForStatus (kind : S3OperationKind) (status : Z) : string :=
  if status =? 400 then "InvalidRequest"
  else if status =? 403 then "AccessDenied"
  else if status =? 404 then
    match kind with
    | operationHeadBucket | operationListObjects | operationListObjectsV2
    | operationListMultipartUploads => "NoSuchBucket"
    | operationUploadPart | operationListParts | operationCompleteMultipartUpload
    | operationAbortMultipartUpload => "NoSuchUpload"
    | _ => "NoSuchKey"
    end
  else if status =? 409 then "OperationAborted"
  else if status =? 412 then "PreconditionFailed"
  else if status =? 416 then "InvalidRange"
  else if (status =? 429) || (status =? 503) then "SlowDown"
  else "InternalError".

Definition safeUpstreamErrorCode (kind : S3OperationKind) (status : Z) (upstream : string)
    : string :=
  if (status =? 404) && compatibleNotFoundCode kind upstream then upstream
  else if bool_decide (upstream ∈ allowedByStatus status) then upstream
  else safeErrorCodeForStatus kind status.

(** ** The schema of the rewritten documents *)

Definition responsePathSet (root : string) (paths : list string) : list string :=
  (fun path => root +:+ "/" +:+ path) <$> paths.

Definition knownResponsePaths (profile : S3ResponseProfile) : list string :=
  match profile with
  | responseListObjects => responsePathSet "ListBucketResult"
      ["KeyCount"; "Contents"; "Contents/LastModified"; "Contents/ETag";
       "Contents/ChecksumAlgorithm"; "Contents/ChecksumType"; "Contents/Size";
       "Contents/StorageClass"; "CommonPrefixes"]
  | responseListMultipartUploads => responsePathSet "ListMultipartUploadsResult"
      ["Upload"; "Upload/StorageClass"; "Upload/Initiated"; "Upload/ChecksumAlgorithm";
       "Upload/ChecksumType"; "CommonPrefixes"]
  | responseCreateMultipart => responsePathSet "InitiateMultipartUploadResult"
      ["ChecksumAlgorithm"; "ChecksumType"]
  | responseListParts => responsePathSet "ListPartsResult"
      ["StorageClass"; "ChecksumAlgorithm"; "ChecksumType"; "Part"; "Part/PartNumber";
       "Part/LastModified"; "Part/ETag"; "Part/Size"; "Part/ChecksumCRC32"; "Part/ChecksumCRC32C";
       "Part/ChecksumCRC64NVME"; "Part/ChecksumSHA1"; "Part/ChecksumSHA256"]
  | responseCompleteMultipart => responsePathSet "CompleteMultipartUploadResult"
      ["ChecksumCRC32"; "ChecksumCRC32C"; "ChecksumCRC64NVME"; "ChecksumSHA1"; "ChecksumSHA256";
       "ChecksumType"]
  | responseCopyObject => responsePathSet "CopyObjectResult"
      ["ChecksumCRC32"; "ChecksumCRC32C"; "ChecksumCRC64NVME"; "ChecksumSHA1"; "ChecksumSHA256"]
  | _ => []
  end.

Definition expectedResponseRoot (profile : S3ResponseProfile) : string :=
  match profile with
  | responseListObjects => "ListBucketResult"
  | responseListMultipartUploads => "ListMultipartUploadsResult"
  | responseCreateMultipart => "InitiateMultipartUploadResult"
  | responseListParts => "ListPartsResult"
  | responseCompleteMultipart => "CompleteMultipartUploadResult"
  | responseCopyObject => "CopyObjectResult"
  | _ => ""
  end.

Inductive responseTextTransform :=
| textTransformNone
| textTransformVirtualBucket
| textTransformVirtualKey
| textTransformVirtualLocation
| textTransformNewContinuationToken
| textTransformEchoContinuationToken
| textTransformNewUploadToken
| textTransformEchoUploadToken
| textTransformVirtualKeyEcho
| textTransformPlainQueryEcho
| textTransformNumericQueryEcho
| textTransformNonNegativeInteger
| textTransformBoolean
| textTransformRequiredNonempty.

#[export] Instance responseTextTransform_eq_dec : EqDecision responseTextTransform.
Proof. solve_decision. Defined.

Record responseFieldRule := mkRule {
  fr_transform : responseTextTransform;
  fr_required : bool;
  fr_identityContainer : bool
}.

Definition rule (t : responseTextTransform) : responseFieldRule := mkRule t false false.
Definition required (t : responseTextTransform) : responseFieldRule := mkRule t true false.
Definition identity : responseFieldRule := mkRule textTransformNone false true.

Definition responseFieldRules (profile : S3ResponseProfile) : list (string * responseFieldRule) :=
  match profile with
  | responseListObjects =>
      [("ListBucketResult/Name", rule textTransformVirtualBucket);
       ("ListBucketResult/Prefix", rule textTransformVirtualKeyEcho);
       ("ListBucketResult/StartAfter", rule textTransformVirtualKeyEcho);
       ("ListBucketResult/Marker", rule textTransformVirtualKeyEcho);
       ("ListBucketResult/NextMarker", rule textTransformVirtualKey);
       ("ListBucketResult/CommonPrefixes/Prefix", rule textTransformVirtualKey);
       ("ListBucketResult/Contents/Key", rule textTransformVirtualKey);
       ("ListBucketResult/Delimiter", rule textTransformPlainQueryEcho);
       ("ListBucketResult/EncodingType", rule textTransformPlainQueryEcho);
       ("ListBucketResult/MaxKeys", rule textTransformNumericQueryEcho);
       ("ListBucketResult/IsTruncated", rule textTransformBoolean);
       ("ListBucketResult/ContinuationToken", rule textTransformEchoContinuationToken);
       ("ListBucketResult/NextContinuationToken", rule textTransformNewContinuationToken);
       ("ListBucketResult/Contents/Owner", identity)]
  | responseListMultipartUploads =>
      [("ListMultipartUploadsResult/Bucket", rule textTransformVirtualBucket);
       ("ListMultipartUploadsResult/Prefix", rule textTransformVirtualKeyEcho);
       ("ListMultipartUploadsResult/KeyMarker", rule textTransformVirtualKeyEcho);
       ("ListMultipartUploadsResult/NextKeyMarker", rule textTransformVirtualKey);
       ("ListMultipartUploadsResult/CommonPrefixes/Prefix", rule textTransformVirtualKey);
       ("ListMultipartUploadsResult/Upload/Key", rule textTransformVirtualKey);
       ("ListMultipartUploadsResult/Delimiter", rule textTransformPlainQueryEcho);
       ("ListMultipartUploadsResult/EncodingType", rule textTransformPlainQueryEcho);
       ("ListMultipartUploadsResult/MaxUploads", rule textTransformNumericQueryEcho);
       ("ListMultipartUploadsResult/IsTruncated", rule textTransformBoolean);
       ("ListMultipartUploadsResult/UploadIdMarker", rule textTransformEchoUploadToken);
       ("ListMultipartUploadsResult/NextUploadIdMarker", rule textTransformNewUploadToken);
       ("ListMultipartUploadsResult/Upload/UploadId", rule textTransformNewUploadToken);
       ("ListMultipartUploadsResult/Upload/Owner", identity);
       ("ListMultipartUploadsResult/Upload/Initiator", identity)]
  | responseCreateMultipart =>
      [("InitiateMultipartUploadResult/Bucket", required textTransformVirtualBucket);
       ("InitiateMultipartUploadResult/Key", required textTransformVirtualKey);
       ("InitiateMultipartUploadResult/UploadId", required textTransformNewUploadToken)]
  | responseListParts =>
      [("ListPartsResult/Bucket", required textTransformVirtualBucket);
       ("ListPartsResult/Key", required textTransformVirtualKey);
       ("ListPartsResult/UploadId", required textTransformEchoUploadToken);
       ("ListPartsResult/PartNumberMarker", required textTransformNumericQueryEcho);
       ("ListPartsResult/NextPartNumberMarker", rule textTransformNonNegativeInteger);
       ("ListPartsResult/MaxParts", required textTransformNumericQueryEcho);
       ("ListPartsResult/IsTruncated", required textTransformBoolean);
       ("ListPartsResult/Owner", identity);
       ("ListPartsResult/Initiator", identity)]
  | responseCompleteMultipart =>
      [("CompleteMultipartUploadResult/Location", required textTransformVirtualLocation);
       ("CompleteMultipartUploadResult/Bucket", required textTransformVirtualBucket);
       ("CompleteMultipartUploadResult/Key", required textTransformVirtualKey);
       ("CompleteMultipartUploadResult/ETag", required textTransformRequiredNonempty)]
  | responseCopyObject =>
      [("CopyObjectResult/ETag", required textTransformRequiredNonempty);
       ("CopyObjectResult/LastModified", required textTransformRequiredNonempty)]
  | _ => []
  end.

Definition responseFieldRuleForPath (profile : S3ResponseProfile) (path : string)
    : option responseFieldRule :=
  snd <$> find (fun pr => String.eqb pr.1 path) (responseFieldRules profile).

Definition knownResponsePath (profile : S3ResponseProfile) (path : string) : bool :=
  String.eqb path (expectedResponseRoot profile)
  || existsb (String.eqb path) (knownResponsePaths profile)
  || match responseFieldRuleForPath profile path with Some _ => true | None => false end.

Definition responsePathIsContainer (profile : S3ResponseProfile) (path : string) : bool :=
  existsb (fun candidate => HasPrefix candidate (path +:+ "/")) (knownResponsePaths profile)
  || existsb (fun pr => (String.eqb pr.1 path && fr_identityContainer pr.2)
                        || HasPrefix pr.1 (path +:+ "/")) (responseFieldRules profile).

(** ** Text transforms *)

(** [urlEncoded] text of a field, decoded. *)
Definition decode_text (p : S3OperationPlan) (text : string) : option string :=
  if String.eqb (Values_Get (p_query p) "encoding-type") "url" then PathUnescape text
  else Some text.

Definition echo_error {A} : result string A := Err "upstream echo does not match request".

Definition key_echo_field (path : string) : option string :=
  if String.eqb path "ListBucketResult/Prefix" || String.eqb path "ListMultipartUploadsResult/Prefix"
  then Some "prefix"
  else if String.eqb path "ListBucketResult/Marker" then Some "marker"
  else if String.eqb path "ListBucketResult/StartAfter" then Some "start-after"
  else if String.eqb path "ListMultipartUploadsResult/KeyMarker" then Some "key-marker"
  else None.

Definition validateVirtualKeyEcho (path text : string) (p : S3OperationPlan) (pathPrefix : string)
    : result string unit :=
  match key_echo_field path with
  | None => Err "no query echo contract"
  | Some queryKey =>
      match decode_text p text with
      | None => Err "decode upstream query echo"
      | Some decoded =>
          let expected := Values_Get (p_query p) queryKey in
          let expected := if String.eqb queryKey "prefix" || negb (String.eqb expected "")
                          then pathPrefix +:+ expected else expected in
          if negb (String.eqb decoded expected) then echo_error else Ok tt
      end
  end.

Definition plain_echo_field (path : string) : option string :=
  if String.eqb path "ListBucketResult/Delimiter"
     || String.eqb path "ListMultipartUploadsResult/Delimiter" then Some "delimiter"
  else if String.eqb path "ListBucketResult/EncodingType"
     || String.eqb path "ListMultipartUploadsResult/EncodingType" then Some "encoding-type"
  else None.

Definition validatePlainQueryEcho (path text : string) (p : S3OperationPlan)
    : result string unit :=
  match plain_echo_field path with
  | None => Err "no plain query echo contract"
  | Some queryKey =>
      match (if String.eqb queryKey "delimiter" then decode_text p text else Some text) with
      | None => Err "decode upstream delimiter echo"
      | Some decoded =>
          if negb (String.eqb decoded (Values_Get (p_query p) queryKey)) then echo_error else Ok tt
      end
  end.

Definition numeric_echo_field (path : string) : option (string * Z) :=
  if String.eqb path "ListBucketResult/MaxKeys" then Some ("max-keys", 1000)
  else if String.eqb path "ListMultipartUploadsResult/MaxUploads" then Some ("max-uploads", 1000)
  else if String.eqb path "ListPartsResult/PartNumberMarker" then Some ("part-number-marker", 0)
  else if String.eqb path "ListPartsResult/MaxParts" then Some ("max-parts", 1000)
  else None.

Definition validateNumericQueryEcho (path text : string) (p : S3OperationPlan)
    : result string unit :=
  match numeric_echo_field path with
  | None => Err "no numeric query echo contract"
  | Some (queryKey, defaultValue) =>
      match Atoi (TrimSpace text) with
      | None => Err "upstream echo is invalid"
      | Some actual =>
          reject actual <? 0 with "upstream echo is invalid" ;;
          match p_query p !! queryKey with
          | Some requested =>
              match Atoi (default "" (head requested)) with
              | Some expected => if negb (actual =? expected) then echo_error else Ok tt
              | None => echo_error
              end
          | None =>
              reject (0 <=? defaultValue) && negb (actual =? defaultValue)
                with "upstream default does not match protocol" ;;
              Ok tt
          end
      end
  end.

Definition result_key_path (path : string) : bool :=
  bool_decide (path ∈ ["ListBucketResult/Contents/Key"; "ListMultipartUploadsResult/Upload/Key"]).

Definition addressable_path (path : string) : bool :=
  result_key_path path
  || bool_decide (path ∈ ["ListBucketResult/NextMarker"; "ListBucketResult/CommonPrefixes/Prefix";
       "ListMultipartUploadsResult/NextKeyMarker";
       "ListMultipartUploadsResult/CommonPrefixes/Prefix"]).

(** The checks on a key inside the prefix, and its text without the prefix. *)
Definition strip_key (path text decoded : string) (p : S3OperationPlan) (pathPrefix : string)
    : result string string :=
  let urlEncoded := String.eqb (Values_Get (p_query p) "encoding-type") "url" in
  let virtualKey := TrimPrefix decoded pathPrefix in
  let? _ :=
    if addressable_path path then
      reject result_key_path path && String.eqb virtualKey ""
        with "upstream result key becomes an empty virtual key" ;;
      if negb (String.eqb virtualKey "") then
        res_map_err (fun _ => "upstream result key is not a valid virtual key")
          (validateVirtualObjectKey virtualKey)
      else Ok tt
    else Ok tt in
  Ok (stripListPathPrefix text pathPrefix urlEncoded).

Definition virtualizeResponseKey (path text : string) (p : S3OperationPlan) (pathPrefix : string)
    : result string string :=
  match decode_text p text with
  | None => Err "decode upstream key field"
  | Some decoded =>
      match p_responseProfile p with
      | responseListObjects | responseListMultipartUploads =>
          if String.eqb decoded "" then Ok ""
          else reject negb (HasPrefix decoded pathPrefix)
                 with "upstream key field is outside the configured prefix" ;;
               strip_key path text decoded p pathPrefix
      | responseCreateMultipart | responseListParts | responseCompleteMultipart =>
          reject negb (String.eqb decoded (pathPrefix +:+ p_objectKey p))
            with "upstream key field does not match requested key" ;;
          strip_key path text decoded p pathPrefix
      | _ => strip_key path text decoded p pathPrefix
      end
  end.

(** A token the client sent, echoed by the backend in the clear. *)
Definition echo_token (cfg : VBucketConfig) (kind virtual path text empty_path : string)
    : result string string :=
  if String.eqb virtual "" then
    if String.eqb text "" && String.eqb path empty_path then Ok ""
    else Err "upstream echoed a token that was not requested"
  else
    match decodeOpaqueToken (Some cfg) kind virtual with
    | Ok origin => if negb (String.eqb text origin) then echo_error else Ok virtual
    | Err _ => echo_error
    end.

Definition applyResponseTextTransform (transform : responseTextTransform) (path text : string)
    (p : S3OperationPlan) (cfg : VBucketConfig) (pathPrefix virtualLocation : string)
    : result string string :=
  match transform with
  | textTransformVirtualBucket =>
      reject negb (String.eqb (TrimSpace text) (RealBucket cfg))
        with "upstream bucket does not match configured bucket" ;;
      Ok (p_bucket p)
  | textTransformVirtualKey => virtualizeResponseKey path text p pathPrefix
  | textTransformVirtualLocation =>
      reject String.eqb (TrimSpace text) "" with "upstream Location is required" ;;
      Ok virtualLocation
  | textTransformNewContinuationToken =>
      if String.eqb text "" && String.eqb path "ListBucketResult/NextContinuationToken" then Ok ""
      else encodeOpaqueToken (Some cfg) "continuation" text
  | textTransformEchoContinuationToken =>
      echo_token cfg "continuation" (Values_Get (p_query p) "continuation-token") path text
        "ListBucketResult/ContinuationToken"
  | textTransformNewUploadToken =>
      if String.eqb text "" && String.eqb path "ListMultipartUploadsResult/NextUploadIdMarker"
      then Ok "" else encodeOpaqueToken (Some cfg) "upload" text
  | textTransformEchoUploadToken =>
      let virtual := Values_Get (p_query p) "upload-id-marker" in
      let virtual := if String.eqb virtual "" then Values_Get (p_query p) "uploadId" else virtual in
      echo_token cfg "upload" virtual path text "ListMultipartUploadsResult/UploadIdMarker"
  | textTransformVirtualKeyEcho =>
      let? _ := validateVirtualKeyEcho path text p pathPrefix in
      virtualizeResponseKey path text p pathPrefix
  | textTransformPlainQueryEcho => let? _ := validatePlainQueryEcho path text p in Ok text
  | textTransformNumericQueryEcho => let? _ := validateNumericQueryEcho path text p in Ok text
  | textTransformNonNegativeInteger =>
      match Atoi (TrimSpace text) with
      | Some value => reject value <? 0 with "upstream numeric field is invalid" ;; Ok text
      | None => Err "upstream numeric field is invalid"
      end
  | textTransformBoolean =>
      let value := TrimSpace text in
      reject negb (String.eqb value "true") && negb (String.eqb value "false")
        with "upstream boolean field is invalid" ;;
      Ok value
  | textTransformRequiredNonempty =>
      reject String.eqb (TrimSpace text) "" with "upstream field is required" ;;
      Ok text
  | textTransformNone => Ok text
  end.

(** ** Rewriting a document *)

Definition filterSafeXMLAttributes (attributes : list xml_attr) (cfg : VBucketConfig)
    : list xml_attr :=
  List.filter (fun a => negb (containsSensitiveBackendValue (a_Value a) cfg)
                        && String.eqb (x_Local (a_Name a)) "xmlns"
                        && String.eqb (a_Value a) s3XMLNamespace) attributes.

(** [readElementText]: the text up to the end tag of [start], and the tokens after it. *)
Fixpoint readElementText (start : xml_name) (text : string) (tokens : list xml_token)
    : result string (string * list xml_token) :=
  match tokens with
  | [] => Err "unexpected end of XML"
  | CharData t :: tokens =>
      reject maxS3ControlResponseBytes <? str_len text + str_len t
        with "upstream XML field is too large" ;;
      readElementText start (text +:+ t) tokens
  | EndElement name :: tokens =>
      reject negb (bool_decide (name = start)) with "unexpected XML end element" ;;
      Ok (text, tokens)
  | StartElement _ _ :: _ => Err "namespace-bearing XML field must contain text only"
  | _ :: tokens => readElementText start text tokens
  end.

(** The variables of the loop; [rw_owners] has the innermost entry first. *)
Record rewriting := mkRewriting {
  rw_stack : list string;
  rw_seenRoot : bool;
  rw_seenFields : list string;
  rw_partsTruncated : option bool;
  rw_objectsTruncated : option bool;
  rw_uploadsTruncated : option bool;
  rw_emptyContinuation : bool;
  rw_emptyMarker : bool;
  rw_owners : list bool;
  rw_encoder : Encoder
}.

Definition rewriting0 : rewriting :=
  mkRewriting [] false [] None None None false false [] NewEncoder.

Definition with_stack (stack : list string) (s : rewriting) : rewriting :=
  mkRewriting stack (rw_seenRoot s) (rw_seenFields s) (rw_partsTruncated s)
    (rw_objectsTruncated s) (rw_uploadsTruncated s) (rw_emptyContinuation s) (rw_emptyMarker s)
    (rw_owners s) (rw_encoder s).

Definition with_encoder (e : Encoder) (s : rewriting) : rewriting :=
  mkRewriting (rw_stack s) (rw_seenRoot s) (rw_seenFields s) (rw_partsTruncated s)
    (rw_objectsTruncated s) (rw_uploadsTruncated s) (rw_emptyContinuation s) (rw_emptyMarker s)
    (rw_owners s) e.

Definition with_owners (owners : list bool) (s : rewriting) : rewriting :=
  mkRewriting (rw_stack s) (rw_seenRoot s) (rw_seenFields s) (rw_partsTruncated s)
    (rw_objectsTruncated s) (rw_uploadsTruncated s) (rw_emptyContinuation s) (rw_emptyMarker s)
    owners (rw_encoder s).

Definition with_root (s : rewriting) : rewriting :=
  mkRewriting (rw_stack s) true (rw_seenFields s) (rw_partsTruncated s)
    (rw_objectsTruncated s) (rw_uploadsTruncated s) (rw_emptyContinuation s) (rw_emptyMarker s)
    (rw_owners s) (rw_encoder s).

(** What a transformed field records, under its path. *)
Definition record_field (path text : string) (s : rewriting) : rewriting :=
  let truth := Some (default false (ParseBool (TrimSpace text))) in
  mkRewriting (rw_stack s) (rw_seenRoot s) (path :: rw_seenFields s)
    (if String.eqb path "ListPartsResult/IsTruncated" then truth else rw_partsTruncated s)
    (if String.eqb path "ListBucketResult/IsTruncated" then truth else rw_objectsTruncated s)
    (if String.eqb path "ListMultipartUploadsResult/IsTruncated" then truth
     else rw_uploadsTruncated s)
    (if String.eqb path "ListBucketResult/NextContinuationToken" then String.eqb text ""
     else rw_emptyContinuation s)
    (if String.eqb path "ListMultipartUploadsResult/NextUploadIdMarker" then String.eqb text ""
     else rw_emptyMarker s)
    (rw_owners s) (rw_encoder s).

Definition pop {A} (l : list A) : list A := take (length l - 1) l.

Definition path_of (stack : list string) : string := Join stack "/".

(** The fields written in place of an identity container's own. *)
Definition identity_fields (bucket : string) : list xml_token :=
  mbind (fun field => [StartElement (mkName "" field) []; CharData bucket;
                       EndElement (mkName "" field)]) ["ID"; "DisplayName"].

Section rewriting.
Context (p : S3OperationPlan) (cfg : VBucketConfig) (pathPrefix virtualLocation : string).

(** An error of the rewriting, with what the encoder had been given before it. *)
Abbreviation rw_result A := (result (string * Encoder) A).

(** [f]'s error in state [s]. *)
Definition at_state {A} (s : rewriting) (r : result string A) : rw_result A :=
  res_map_err (fun msg => (msg, rw_encoder s)) r.

Definition fail_at {A} (s : rewriting) (msg : string) : rw_result A := Err (msg, rw_encoder s).

Definition push_owner (path : string) (owners : list bool) : list bool :=
  let owners := if String.eqb path "ListBucketResult/Contents" then false :: owners else owners in
  if String.eqb path "ListBucketResult/Contents/Owner"
  then match owners with _ :: rest => true :: rest | [] => [] end else owners.

(** The checks on a start tag before its path is looked up. *)
Definition admit_start (name : xml_name) (s : rewriting) : result string rewriting :=
  reject rw_seenRoot s && (length (rw_stack s) =? 0)%nat
    with "multiple top-level XML elements are not supported" ;;
  reject negb (String.eqb (x_Space name) "") && negb (String.eqb (x_Space name) s3XMLNamespace)
    with "foreign XML namespace is not supported" ;;
  let root := expectedResponseRoot (p_responseProfile p) in
  reject negb (rw_seenRoot s) && negb (String.eqb root "") && negb (String.eqb (x_Local name) root)
    with "unexpected response root" ;;
  Ok (with_root s).

(** A start tag whose path is known, pushed on the stack: written, and its content
    replaced when it is an identity container or a transformed field. *)
Definition known_start (name : xml_name) (attrs : list xml_attr) (rest : list xml_token)
    (s : rewriting) : rw_result (rewriting * list xml_token) :=
  let path := path_of (rw_stack s) in
  let s := with_owners (push_owner path (rw_owners s)) s in
  let? e := encode_all [StartElement name attrs] (rw_encoder s) in
  let s := with_encoder e s in
  match responseFieldRuleForPath (p_responseProfile p) path with
  | None => Ok (s, rest)
  | Some fr =>
      if fr_identityContainer fr then
        match skip 0 rest with
        | None => fail_at s "unexpected end of XML"
        | Some rest =>
            let? e := encode_all (identity_fields (p_bucket p) ++ [EndElement name])
                        (rw_encoder s) in
            Ok (with_stack (pop (rw_stack s)) (with_encoder e s), rest)
        end
      else if bool_decide (fr_transform fr = textTransformNone) then Ok (s, rest)
      else
        let? tr := at_state s (readElementText name "" rest) in
        let? text := at_state s (applyResponseTextTransform (fr_transform fr) path tr.1 p cfg
                                   pathPrefix virtualLocation) in
        let? e := encode_all [CharData text; EndElement name] (rw_encoder s) in
        Ok (with_stack (pop (rw_stack s)) (record_field path text (with_encoder e s)), tr.2)
  end.

Definition start_step (name : xml_name) (attrs : list xml_attr) (rest : list xml_token)
    (s : rewriting) : rw_result (rewriting * list xml_token) :=
  let? s := at_state s (admit_start name s) in
  let attrs := filterSafeXMLAttributes attrs cfg in
  let parent := path_of (rw_stack s) in
  let stack := rw_stack s ++ [x_Local name] in
  let profile := p_responseProfile p in
  if negb (knownResponsePath profile (path_of stack)) then
    reject negb (String.eqb parent "") && knownResponsePath profile parent
           && negb (responsePathIsContainer profile parent)
      with ("nested element inside scalar XML path", rw_encoder s) ;;
    match skip 0 rest with
    | None => fail_at s "unexpected end of XML"
    | Some rest => Ok (s, rest)
    end
  else known_start name attrs rest (with_stack stack s).

(** The owner bookkeeping at an end tag. *)
Definition pop_owner (s : rewriting) : result string rewriting :=
  if String.eqb (path_of (rw_stack s)) "ListBucketResult/Contents" then
    match rw_owners s with
    | [] => Err "invalid ListObjects owner tracking state"
    | ownerSeen :: owners =>
        reject String.eqb (Values_Get (p_query p) "fetch-owner") "true" && negb ownerSeen
          with "ListObjects response omitted Owner requested by fetch-owner" ;;
        Ok (with_owners owners s)
    end
  else Ok s.

Definition end_step (name : xml_name) (s : rewriting) : rw_result rewriting :=
  reject (length (rw_stack s) =? 0)%nat with ("unbalanced upstream XML", rw_encoder s) ;;
  let? s := at_state s (pop_owner s) in
  let? e := encode_all [EndElement name] (rw_encoder s) in
  Ok (with_encoder e (with_stack (pop (rw_stack s)) s)).

Definition text_step (text : string) (s : rewriting) : rw_result rewriting :=
  let profile := p_responseProfile p in
  let path := path_of (rw_stack s) in
  reject negb (String.eqb (TrimSpace text) "")
         && (negb (knownResponsePath profile path) || responsePathIsContainer profile path)
    with ("unexpected mixed text in upstream XML path", rw_encoder s) ;;
  let? e := encode_all [CharData text] (rw_encoder s) in
  Ok (with_encoder e s).

(** The loop; every round takes at least one token. *)
Fixpoint rewrite_loop (fuel : nat) (tokens : list xml_token) (s : rewriting)
    : rw_result rewriting :=
  match fuel with
  | O => fail_at s "out of fuel"
  | S fuel =>
      match tokens with
      | [] => Ok s
      | StartElement name attrs :: rest =>
          let? sr := start_step name attrs rest s in rewrite_loop fuel sr.2 sr.1
      | EndElement name :: rest => let? s := end_step name s in rewrite_loop fuel rest s
      | CharData text :: rest => let? s := text_step text s in rewrite_loop fuel rest s
      | _ :: rest => rewrite_loop fuel rest s
      end
  end.

(** The checks after the last token. *)
Definition finish_rewrite (s : rewriting) : result string (list xml_token) :=
  reject negb (rw_seenRoot s) || negb (length (rw_stack s) =? 0)%nat
    with "incomplete upstream XML" ;;
  let seen path := bool_decide (path ∈ rw_seenFields s) in
  reject existsb (fun pr => fr_required pr.2 && negb (seen pr.1))
           (responseFieldRules (p_responseProfile p))
    with "upstream response is missing a required field" ;;
  reject match p_responseProfile p with responseListParts => true | _ => false end
         && default false (rw_partsTruncated s)
         && negb (seen "ListPartsResult/NextPartNumberMarker")
    with "truncated list parts response is missing its next marker" ;;
  reject seen "ListBucketResult/NextContinuationToken" && rw_emptyContinuation s
         && default true (rw_objectsTruncated s)
    with "empty next continuation token is valid only for a nontruncated response" ;;
  reject seen "ListMultipartUploadsResult/NextUploadIdMarker" && rw_emptyMarker s
         && default true (rw_uploadsTruncated s)
    with "empty next upload ID marker is valid only for a nontruncated response" ;;
  Ok (e_out (rw_encoder s)).

(** [rewriteNamespaceXML].  The encoder buffers: after an error the writer has received
    some prefix of the bytes of the tokens that come with it. *)
Definition rewriteNamespaceXML (d : Decoder) : rw_result (list xml_token) :=
  let? s := rewrite_loop (S (length (d_tokens d))) (d_tokens d) rewriting0 in
  reject negb (d_eof d) with ("malformed upstream XML", rw_encoder s) ;;
  at_state s (finish_rewrite s).
End rewriting.

Definition virtualResponseLocation (p : S3OperationPlan) : string :=
  let path := "/" +:+ awsURIEncode (p_objectKey p) in
  if negb (p_isVHost p) then "/" +:+ p_bucket p +:+ path else path.

Definition rewriteBoundedNamespaceResponse `{XmlLexer} (data : string) (p : S3OperationPlan)
    (cfg : VBucketConfig) (pathPrefix : string) : result (string * Encoder) (list xml_token) :=
  rewriteNamespaceXML p cfg pathPrefix (virtualResponseLocation p) (NewDecoder (mkStream data true)).

Definition rewriteStreamingNamespaceResponse `{XmlLexer} (body : stream) (p : S3OperationPlan)
    (cfg : VBucketConfig) (pathPrefix : string) : result (string * Encoder) (list xml_token) :=
  rewriteNamespaceXML p cfg pathPrefix "" (NewDecoder body).

(** [preflightStreamingXMLRoot]: the root is checked on the first bytes, and the stream
    is read again from its start. *)
Definition preflightStreamingXMLRoot `{XmlLexer} (body : stream) (expected : string)
    : result string stream :=
  match first_start (lex (str_take (Z.to_nat control_limit) (st_bytes body))).1 with
  | None => Err "no response root"
  | Some (name, _) =>
      reject negb (String.eqb (x_Local name) expected) with "unexpected response root" ;;
      reject negb (String.eqb (x_Space name) "") && negb (String.eqb (x_Space name) s3XMLNamespace)
        with "foreign XML namespace is not supported" ;;
      Ok body
  end.

(** ** The response to the client *)

Record UpstreamResponse := mkUpstream {
  ur_StatusCode : Z;
  ur_Header : Header;
  ur_Body : stream
}.

Inductive response_body :=
| NoBody
| ErrorBody (code message : string)
| XmlBody (tokens : list xml_token)
| RawBody (bytes : string).

(** What the client receives; [rs_aborted] when the connection is cut in the body. *)
Record Response := mkResponse {
  rs_status : Z;
  rs_header : Header;
  rs_body : response_body;
  rs_aborted : bool
}.

(** [writeS3Error] of [s3_middleware.go], on a writer whose header is [w]. *)
Definition writeS3Error (w : Header) (status : Z) (code message : string) : Response :=
  mkResponse status (Header_Set w "Content-Type" "application/xml") (ErrorBody code message) false.

Section respond.
Context `{XmlLexer} (w : Header) (method : string) (resp : UpstreamResponse)
  (p : S3OperationPlan) (cfg : VBucketConfig) (pathPrefix : string).

Abbreviation status := (ur_StatusCode resp).

Definition invalid_upstream (w : Header) : Response :=
  writeS3Error w 502 "InternalError" "Invalid upstream S3 response".

(** The filtered header, or the error response. *)
Definition with_safe_headers (k : Header -> Response) : Response :=
  match copySafeResponseHeaders (ur_Header resp) w cfg (p_kind p) status with
  | Err _ => invalid_upstream w
  | Ok h => k h
  end.

(** The header of a document written in place of the upstream's. *)
Definition document_header (profile : S3ResponseProfile) (h : Header) : Header :=
  Header_Set (Header_Del (dropTransformedRepresentationHeaders h profile) "Content-Length")
    "Content-Type" "application/xml".

Definition error_response : Response :=
  match validateUpstreamErrorDocument (ur_Body resp) with
  | None => invalid_upstream w
  | Some upstreamCode =>
      with_safe_headers (fun h =>
        mkResponse status (document_header responseListObjects h)
          (ErrorBody (safeUpstreamErrorCode (p_kind p) status upstreamCode)
             "Upstream S3 request failed") false)
  end.

Definition streaming_response (profile : S3ResponseProfile) : Response :=
  match preflightStreamingXMLRoot (ur_Body resp) (expectedResponseRoot profile) with
  | Err _ => invalid_upstream w
  | Ok body =>
      with_safe_headers (fun h =>
        match rewriteStreamingNamespaceResponse body p cfg pathPrefix with
        | Ok tokens => mkResponse status (document_header profile h) (XmlBody tokens) false
        | Err (_, e) => mkResponse status (document_header profile h) (XmlBody (e_out e)) true
        end)
  end.

Definition bounded_response (profile : S3ResponseProfile) : Response :=
  let failed := invalid_upstream (Header_Del w "Content-Length") in
  match readBoundedControlXML (ur_Body resp) with
  | None => failed
  | Some data =>
      match rewriteBoundedNamespaceResponse data p cfg pathPrefix with
      | Err _ => failed
      | Ok transformed =>
          with_safe_headers (fun h =>
            mkResponse status (document_header profile h) (XmlBody transformed) false)
      end
  end.

(** The last branch writes nothing, and the server then answers 200. *)
Definition writeVirtualizedUpstreamResponse : Response :=
  if isS3RedirectStatus status then
    writeS3Error w 502 "InternalError" "Upstream S3 redirect cannot be safely followed"
  else if String.eqb method "HEAD" then
    with_safe_headers (fun h => mkResponse status h NoBody false)
  else if status =? 304 then
    with_safe_headers (fun h => mkResponse status (Header_Del h "Content-Length") NoBody false)
  else if (status <? 200) || (300 <=? status) then error_response
  else
    match p_responseProfile p with
    | responseStreamObject =>
        with_safe_headers (fun h =>
          mkResponse status h (RawBody (st_bytes (ur_Body resp))) (negb (st_clean (ur_Body resp))))
    | responseSafeHeaders =>
        with_safe_headers (fun h =>
          mkResponse status (Header_Del (dropDiscardedBodyHeaders h) "Content-Length") NoBody false)
    | (responseListObjects | responseListMultipartUploads) as profile => streaming_response profile
    | (responseCreateMultipart | responseListParts | responseCompleteMultipart
      | responseCopyObject) as profile => bounded_response profile
    | responseListBuckets | responseCreateBucket => mkResponse 200 w NoBody false
    end.
End respond.
