(* ===== verification/ResponseSpec.v ===== *)
(** * ResponseSpec: what a client can learn of the backend

    The headers and bodies [writeVirtualizedUpstreamResponse] writes, on every branch. *)
From S2P Require Import Prelude GoStrings GoTime GoUrl GoHttp Iam CopySource Operation S3Authz.
From S2P Require Import GoURLs Names Outbound Crypto Base64 Token ListRewrite Mapping Errors Xml.
From S2P Require Import OperationSpec PlanSpec Response.

(** ** Headers *)

(** Every value of the header satisfies [P] under its name. *)
Definition header_all (P : string -> string -> Prop) (h : Header) : Prop :=
  forall name vs v, h !! name = Some vs -> v ∈ vs -> P name v.

Lemma header_all_empty P : header_all P ∅.
Proof. intros name vs v. by rewrite lookup_empty. Qed.

Lemma header_all_mono (P Q : string -> string -> Prop) h :
  (forall name v, P name v -> Q name v) -> header_all P h -> header_all Q h.
Proof. intros HPQ HP name vs v ? ?. by eapply HPQ, HP. Qed.

Lemma header_all_add P h name v :
  header_all P h -> P (CanonicalHeaderKey name) v -> header_all P (Header_Add h name v).
Proof.
  intros Hh Hv n vs x. unfold Header_Add. rewrite lookup_insert. case_decide as E.
  - intros [= <-]. rewrite elem_of_app, list_elem_of_singleton. intros [Hx| ->].
    + destruct (h !! CanonicalHeaderKey name) as [ws|] eqn:Ew; [|by apply elem_of_nil in Hx].
      rewrite <-E. by eapply Hh.
    + by rewrite <-E.
  - apply Hh.
Qed.

Lemma header_all_set P h name v :
  header_all P h -> P (CanonicalHeaderKey name) v -> header_all P (Header_Set h name v).
Proof.
  intros Hh Hv n vs x. unfold Header_Set. rewrite lookup_insert. case_decide as E; [|apply Hh].
  intros [= <-] ->%list_elem_of_singleton. by rewrite <-E.
Qed.

Lemma header_all_del P h name : header_all P h -> header_all P (Header_Del h name).
Proof.
  intros Hh n vs x. unfold Header_Del. rewrite lookup_delete. case_decide; [done|]. apply Hh.
Qed.

Lemma header_all_drop P (f : string -> bool) names h :
  header_all P h ->
  header_all P (foldl (fun h name => if f name then Header_Del h name else h) h names).
Proof.
  revert h. induction names as [|name names IH]; intros h Hh; [done|]. cbn. apply IH.
  destruct (f name); [by apply header_all_del|done].
Qed.

Section headers.
Context (src : Header) (cfg : VBucketConfig) (kind : S3OperationKind) (status : Z).

Definition is_version_header (name : string) : bool :=
  String.eqb name "X-Amz-Version-Id" || String.eqb name "X-Amz-Copy-Source-Version-Id".

(** A header of an object the client reads, which the client chose itself. *)
Definition own_metadata (name : string) : Prop :=
  200 <= status < 300 /\ operationReadsObject kind = true /\
  userControlledResponseHeader name = true.

(** A value that may be sent: of a listed name that is not hop-by-hop; sent by the
    backend, version ids sealed; free of backend names unless it is the object's own
    metadata. *)
Definition sendable (name v : string) : Prop :=
  safeS3ResponseHeader name = true /\ (name ∉ hopByHopHeaderSet src) /\
  (exists name' values raw, src !! name' = Some values /\ raw ∈ values /\
     CanonicalHeaderKey name' = name /\
     (if is_version_header name then encodeOpaqueToken (Some cfg) "version" raw = Ok v
      else v = raw)) /\
  (own_metadata name \/ containsSensitiveBackendValue v cfg = false).

Lemma stage_values_sendable name values l staged staged' :
  safeS3ResponseHeader (CanonicalHeaderKey name) = true ->
  CanonicalHeaderKey name ∉ hopByHopHeaderSet src ->
  src !! name = Some values -> (forall v, v ∈ l -> v ∈ values) ->
  header_all sendable staged ->
  stage_values cfg kind status (CanonicalHeaderKey name) l staged = Ok staged' ->
  header_all sendable staged'.
Proof.
  intros Hs Hh Hv. revert staged. induction l as [|raw l IH]; intros staged Hin Hst; cbn [stage_values].
  { by intros <-%Ok_inj. }
  destruct (stage_value _ _ _ _ _ _) as [st|] eqn:E; [|done]. apply IH; [set_solver|].
  unfold stage_value in E. fold (is_version_header (CanonicalHeaderKey name)) in E.
  destruct (if is_version_header _ then _ else _) as [v|] eqn:Ev; [|done].
  cbv zeta in E. destruct (negb _ && _) eqn:Ec; apply Ok_inj in E as <-; [done|].
  apply header_all_add; [done|]. rewrite CanonicalHeaderKey_idemp. split_and!; [done|done| |].
  - exists name, values, raw. split_and!; [done|set_solver|done|].
    destruct (is_version_header _); [done|]. by apply Ok_inj in Ev.
  - apply andb_false_iff in Ec as [Ec%negb_false_iff|Ec]; [left|by right].
    unfold own_metadata. bool_to_prop. auto.
Qed.

Lemma stage_headers_sendable fields staged staged' :
  (forall kv, kv ∈ fields -> src !! kv.1 = Some kv.2) ->
  header_all sendable staged ->
  stage_headers cfg kind status (hopByHopHeaderSet src) fields staged = Ok staged' ->
  header_all sendable staged'.
Proof.
  revert staged. induction fields as [|[name values] fields IH]; intros staged Hf Hst; cbn [stage_headers].
  { by intros <-%Ok_inj. }
  destruct (if _ || _ then _ else _) as [st|] eqn:E; [|done].
  apply IH; [set_solver|].
  destruct (_ || _) eqn:Ec; [by apply Ok_inj in E as <-|].
  apply orb_false_iff in Ec as [Hh%bool_decide_eq_false Hs%negb_false_iff].
  eapply stage_values_sendable; [done|done| |by intros v Hv|done|exact E].
  apply (Hf (name, values)). apply list_elem_of_here.
Qed.

Lemma copySafe_sendable dst h P :
  (forall name v, sendable name v -> P name v) ->
  header_all P dst -> copySafeResponseHeaders src dst cfg kind status = Ok h -> header_all P h.
Proof.
  intros HP Hd. unfold copySafeResponseHeaders.
  destruct (stage_headers _ _ _ _ _ _) as [staged|] eqn:E; [|done]. intros <-%Ok_inj.
  assert (header_all sendable staged) as Hs.
  { eapply stage_headers_sendable; [|apply header_all_empty|exact E].
    intros kv Hkv. apply elem_of_map_to_list. by destruct kv. }
  assert (forall kv v, kv ∈ map_to_list staged -> v ∈ kv.2 -> sendable kv.1 v) as Hl.
  { intros [n vs] v Hkv%elem_of_map_to_list Hv. by eapply Hs. }
  clear E Hs. revert dst Hd. induction (map_to_list staged) as [|[n vs] l IH]; intros dst Hd; [done|].
  cbn [foldl]. apply IH; [intros kv v Hk; apply Hl; set_solver|].
  assert (forall v, v ∈ vs -> sendable n v) as Hvs
    by (intros v Hv; apply (Hl (n, vs)); [apply list_elem_of_here|done]).
  clear IH Hl. revert dst Hd. induction vs as [|v vs IHv]; intros dst Hd; [done|]. cbn.
  apply IHv; [|apply header_all_add; [done|]].
  - intros x Hx. apply Hvs. set_solver.
  - destruct (Hvs v) as (Hsafe & Hhop & (n' & ws & raw & Hr & Hin & Hc & Hval) & Hsens);
      [apply list_elem_of_here|].
    apply HP. rewrite <-Hc, CanonicalHeaderKey_idemp, Hc. split_and!; try done. by eauto 10.
Qed.
End headers.

(** The header of a response: what may be sent, and the content type of the documents
    the proxy writes itself. *)
Definition client_header (src : Header) (cfg : VBucketConfig) (kind : S3OperationKind) (status : Z)
    (name v : string) : Prop :=
  sendable src cfg kind status name v \/ (name = "Content-Type" /\ v = "application/xml").

(** C6. Nothing of the backend in the headers: on every branch, success or error, each
    header value a client receives is either the content type of a document the proxy
    wrote, or a value the backend sent under a listed, end-to-end name, with version ids
    sealed as tokens, and it contains neither the real endpoint, host, bucket, region,
    prefix nor credentials unless it is the metadata of an object the client reads. *)
Theorem response_headers_confined `{XmlLexer} (method : string) (resp : UpstreamResponse)
    (p : S3OperationPlan) (cfg : VBucketConfig) (pathPrefix : string) :
  header_all (client_header (ur_Header resp) cfg (p_kind p) (ur_StatusCode resp))
    (rs_header (writeVirtualizedUpstreamResponse ∅ method resp p cfg pathPrefix)).
Proof.
  set (P := client_header _ _ _ _).
  assert (forall h, header_all P h -> header_all P (Header_Set h "Content-Type" "application/xml")) as Hct.
  { intros h Hh. apply header_all_set; [done|]. by right. }
  assert (forall h st c m, header_all P h -> header_all P (rs_header (writeS3Error h st c m))) as Herr
    by (intros; by apply Hct).
  assert (forall k, (forall h, header_all P h -> header_all P (rs_header (k h))) ->
    header_all P (rs_header (with_safe_headers ∅ resp p cfg k))) as Hsafe.
  { intros k Hk. unfold with_safe_headers. destruct (copySafeResponseHeaders _ _ _ _ _) as [h|] eqn:E.
    - apply Hk. eapply copySafe_sendable; [|apply header_all_empty|exact E]. intros; by left.
    - apply Herr, header_all_empty. }
  assert (forall h, header_all P h -> header_all P (dropDiscardedBodyHeaders h)) as Hdrop.
  { intros h Hh. unfold dropDiscardedBodyHeaders.
    by apply (header_all_drop P (fun name => bool_decide (ToLower name ∈ _))). }
  assert (forall h profile, header_all P h -> header_all P (document_header profile h)) as Hdoc.
  { intros h profile Hh. apply Hct, header_all_del. unfold dropTransformedRepresentationHeaders.
    cbv zeta. pose proof (Hdrop h Hh) as Hd.
    destruct profile; try done; by apply (header_all_drop P
      (fun name => String.eqb (ToLower name) "etag" || HasPrefix (ToLower name) "x-amz-checksum-")). }
  unfold writeVirtualizedUpstreamResponse.
  destruct (isS3RedirectStatus _); [apply Herr, header_all_empty|].
  destruct (String.eqb method "HEAD"); [by apply Hsafe|].
  destruct (_ =? 304); [apply Hsafe; intros; by apply header_all_del|].
  assert (forall h, header_all P h -> header_all P (rs_header (invalid_upstream h))) as Hinv
    by (intros; by apply Herr).
  destruct (_ || _).
  { unfold error_response. destruct (validateUpstreamErrorDocument _); [|apply Hinv, header_all_empty].
    apply Hsafe. intros h Hh. by apply Hdoc. }
  assert (forall profile, header_all P (rs_header (streaming_response ∅ resp p cfg pathPrefix profile))) as Hst.
  { intros profile. unfold streaming_response.
    destruct (preflightStreamingXMLRoot _ _); [|apply Hinv, header_all_empty].
    apply Hsafe. intros h Hh. destruct (rewriteStreamingNamespaceResponse _ _ _ _) as [|[? ?]];
      by apply Hdoc. }
  assert (forall profile, header_all P (rs_header (bounded_response ∅ resp p cfg pathPrefix profile))) as Hbo.
  { intros profile. unfold bounded_response.
    destruct (readBoundedControlXML _); [|apply Hinv, header_all_del, header_all_empty].
    destruct (rewriteBoundedNamespaceResponse _ _ _ _); [|apply Hinv, header_all_del, header_all_empty].
    apply Hsafe. intros h Hh. by apply Hdoc. }
  destruct (p_responseProfile p); try apply Hst; try apply Hbo; try apply header_all_empty;
    apply Hsafe; intros h Hh; [by apply header_all_del, Hdrop|done].
Qed.

(** ** Documents *)

Section documents.
Context (p : S3OperationPlan) (cfg : VBucketConfig) (pathPrefix virtualLocation : string).
Abbreviation profile := (p_responseProfile p).

Definition known (path : string) : Prop := knownResponsePath profile path = true.

(** The only attribute that is kept. *)
Definition safe_attr (a : xml_attr) : Prop :=
  x_Local (a_Name a) = "xmlns" /\ a_Value a = s3XMLNamespace.

(** The rule of a path when it replaces the content of the element. *)
Definition replaces (path : string) : option responseFieldRule :=
  match responseFieldRuleForPath profile path with
  | Some fr =>
      if fr_identityContainer fr || negb (bool_decide (fr_transform fr = textTransformNone))
      then Some fr else None
  | None => None
  end.

(** The grammar of what is written: [document stack out] when [out] is the beginning of
    a virtualized document with the elements of [stack] open.  Elements are those of the
    schema; text stands only in its scalar elements; an identity container holds the
    virtual bucket; a namespace-bearing field holds the transform of some text. *)
Inductive document : list string -> list xml_token -> Prop :=
| doc_nil : document [] []
| doc_open stack out name attrs :
    document stack out -> known (path_of (stack ++ [x_Local name])) -> Forall safe_attr attrs ->
    replaces (path_of (stack ++ [x_Local name])) = None ->
    document (stack ++ [x_Local name]) (out ++ [StartElement name attrs])
| doc_close stack out name :
    document (stack ++ [x_Local name]) out -> document stack (out ++ [EndElement name])
| doc_text stack out text :
    document stack out ->
    TrimSpace text = "" \/
      (known (path_of stack) /\ responsePathIsContainer profile (path_of stack) = false) ->
    document stack (out ++ [CharData text])
| doc_identity stack out name attrs fr :
    document stack out -> known (path_of (stack ++ [x_Local name])) -> Forall safe_attr attrs ->
    responseFieldRuleForPath profile (path_of (stack ++ [x_Local name])) = Some fr ->
    fr_identityContainer fr = true ->
    document stack
      (out ++ StartElement name attrs :: identity_fields (p_bucket p) ++ [EndElement name])
| doc_field stack out name attrs fr raw text :
    document stack out -> known (path_of (stack ++ [x_Local name])) -> Forall safe_attr attrs ->
    responseFieldRuleForPath profile (path_of (stack ++ [x_Local name])) = Some fr ->
    fr_transform fr <> textTransformNone ->
    applyResponseTextTransform (fr_transform fr) (path_of (stack ++ [x_Local name])) raw p cfg
      pathPrefix virtualLocation = Ok text ->
    document stack (out ++ [StartElement name attrs; CharData text; EndElement name]).

(** What was written when an error stops the rewriting: a beginning, and at most the
    start tag of the field that failed. *)
Definition beginning (out : list xml_token) : Prop :=
  exists stack done extra, document stack done /\ out = done ++ extra /\
    (extra = [] \/ exists name attrs, extra = [StartElement name attrs] /\
       known (path_of (stack ++ [x_Local name])) /\ Forall safe_attr attrs).

Record rw_ok (s : rewriting) : Prop := {
  ro_doc : document (rw_stack s) (e_out (rw_encoder s));
  ro_open : rw_stack s = x_Local <$> reverse (e_open (rw_encoder s));
  ro_nested : encoder_ok (rw_encoder s)
}.

Lemma beginning_doc stack out : document stack out -> beginning out.
Proof. intros Hd. exists stack, out, []. rewrite app_nil_r. auto. Qed.

Lemma filterSafe_attrs attrs : Forall safe_attr (filterSafeXMLAttributes attrs cfg).
Proof.
  apply Forall_forall. intros a Ha. unfold filterSafeXMLAttributes in Ha.
  apply list_elem_of_In, filter_In in Ha as [_ Ha]. unfold safe_attr. by bool_to_prop.
Qed.

Lemma pop_snoc {A} (l : list A) x : pop (l ++ [x]) = l.
Proof. unfold pop. rewrite length_app. cbn. rewrite Nat.add_sub. by rewrite take_app_length. Qed.


(** *** One step *)

Lemma encode_one t (e : Encoder) :
  match encode_all [t] e with
  | Ok e' => EncodeToken t e = Ok e'
  | Err (_, e') => e' = e
  end.
Proof. cbn. by destruct (EncodeToken t e). Qed.

Lemma EncodeToken_start name attrs e e' :
  EncodeToken (StartElement name attrs) e = Ok e' ->
  x_Local name <> "" /\ e' = mkEncoder (e_out e ++ [StartElement name attrs]) (name :: e_open e).
Proof.
  cbn. destruct (String.eqb_spec (x_Local name) ""); [done|]. by intros <-%Ok_inj.
Qed.

Lemma EncodeToken_end name e e' :
  EncodeToken (EndElement name) e = Ok e' ->
  exists open, e_open e = name :: open /\ e' = mkEncoder (e_out e ++ [EndElement name]) open.
Proof.
  cbn. destruct (String.eqb _ _); [done|]. destruct (e_open e) as [|top open]; [done|].
  case_bool_decide; [|done]. subst. cbn. intros <-%Ok_inj. eauto.
Qed.

Lemma encode_identity bucket name out open :
  x_Local name <> "" ->
  encode_all (identity_fields bucket ++ [EndElement name]) (mkEncoder out (name :: open)) =
  Ok (mkEncoder (out ++ identity_fields bucket ++ [EndElement name]) open).
Proof.
  intros Hn. cbn. rewrite !bool_decide_true by done.
  rewrite (proj2 (String.eqb_neq _ _) Hn). cbn. rewrite bool_decide_true by done. cbn.
  by rewrite <-!(assoc_L (++)).
Qed.

Lemma encode_text text name out open :
  x_Local name <> "" ->
  encode_all [CharData text; EndElement name] (mkEncoder out (name :: open)) =
  Ok (mkEncoder (out ++ [CharData text; EndElement name]) open).
Proof.
  intros Hn. cbn. rewrite (proj2 (String.eqb_neq _ _) Hn). cbn.
  rewrite bool_decide_true by done. cbn. by rewrite <-!(assoc_L (++)).
Qed.

(** The outcome of a step: a good state, or an error after a beginning. *)
Definition step_ok {A} (good : A -> Prop) (r : result (string * Encoder) A) : Prop :=
  match r with Ok a => good a | Err (_, e) => beginning (e_out e) end.

Lemma step_ok_bind {A B} (good : A -> Prop) (good' : B -> Prop) (r : result (string * Encoder) A) k :
  step_ok good r -> (forall a, good a -> step_ok good' (k a)) ->
  step_ok good' (match r with Ok a => k a | Err e => Err e end).
Proof. destruct r as [a|[m e]]; cbn; auto. Qed.

Lemma step_ok_at {A} (good : A -> Prop) s (r : result string A) :
  rw_ok s -> (forall a, r = Ok a -> good a) -> step_ok good (at_state s r).
Proof.
  intros [Hd _ _] Hg. unfold at_state. destruct r as [a|]; cbn; [by apply Hg|].
  by eapply beginning_doc.
Qed.

Lemma rw_ok_frame s s' :
  rw_ok s -> rw_stack s' = rw_stack s -> rw_encoder s' = rw_encoder s -> rw_ok s'.
Proof. intros [Hd Ho Hn] Hs He. split; by rewrite ?Hs, ?He. Qed.

Lemma nested_open_close e name attrs mid :
  encoder_ok e -> nested (name :: e_open e) mid = Some (name :: e_open e) ->
  nested [] (e_out e ++ StartElement name attrs :: mid ++ [EndElement name]) = Some (e_open e).
Proof.
  intros He Hm. rewrite nested_app, He. cbn. rewrite nested_app, Hm. cbn. by rewrite bool_decide_true.
Qed.

Lemma nested_identity bucket open : nested open (identity_fields bucket) = Some open.
Proof. cbn. by rewrite !bool_decide_true. Qed.

Lemma known_start_ok name attrs rest s :
  rw_ok s -> known (path_of (rw_stack s ++ [x_Local name])) -> Forall safe_attr attrs ->
  step_ok (fun sr => rw_ok sr.1)
    (known_start p cfg pathPrefix virtualLocation name attrs rest
       (with_stack (rw_stack s ++ [x_Local name]) s)).
Proof.
  intros [Hd Ho Hn] Hk Ha. unfold known_start. cbn [rw_stack with_stack with_owners rw_encoder].
  pose proof (encode_one (StartElement name attrs) (rw_encoder s)) as He.
  destruct (encode_all [StartElement name attrs] (rw_encoder s)) as [e|[m e]];
    [|cbn; subst e; by eapply beginning_doc].
  apply EncodeToken_start in He as [Hl ->].
  set (path := path_of (rw_stack s ++ [x_Local name])) in *.
  assert (beginning (e_out (rw_encoder s) ++ [StartElement name attrs])) as Hb.
  { exists (rw_stack s), (e_out (rw_encoder s)), [StartElement name attrs]. eauto 10. }
  assert (forall a b c d, replaces path = None ->
    rw_ok (mkRewriting (rw_stack s ++ [x_Local name]) (rw_seenRoot s) (rw_seenFields s) a b c
      (rw_emptyContinuation s) (rw_emptyMarker s) d
      (mkEncoder (e_out (rw_encoder s) ++ [StartElement name attrs])
         (name :: e_open (rw_encoder s))))) as Hopen.
  { intros a b c d Hr. split; cbn [rw_stack rw_encoder e_out e_open].
    - by apply doc_open.
    - by rewrite reverse_cons, fmap_app, <-Ho.
    - unfold encoder_ok. cbn. by rewrite nested_app, Hn. }
  unfold replaces in Hopen.
  destruct (responseFieldRuleForPath profile path) as [fr|] eqn:Er; [|by apply Hopen].
  destruct (fr_identityContainer fr) eqn:Ei.
  - destruct (skip 0 rest) as [rest'|]; [|exact Hb]. cbn [rw_encoder with_encoder].
    rewrite encode_identity by done. cbn [step_ok fst].
    split; cbn [rw_stack rw_encoder with_stack with_encoder with_owners e_out e_open].
    + rewrite pop_snoc, <-(assoc_L (++)). by eapply doc_identity.
    + by rewrite pop_snoc.
    + unfold encoder_ok. cbn [e_out e_open]. rewrite <-(assoc_L (++)).
      apply nested_open_close; [done|apply nested_identity].
  - case_bool_decide as Et; [by apply Hopen|].
    cbn [rw_encoder with_encoder rw_stack]. unfold at_state.
    destruct (readElementText name "" rest) as [[raw rest']|]; [|exact Hb]. cbn [res_map_err fst snd].
    destruct (applyResponseTextTransform (fr_transform fr) path raw p cfg pathPrefix
                virtualLocation) as [text|] eqn:Ea; [|exact Hb].
    cbn [res_map_err]. rewrite encode_text by done. cbn [step_ok fst].
    split; cbn [rw_stack rw_encoder with_stack with_encoder with_owners record_field e_out e_open].
    + rewrite pop_snoc, <-(assoc_L (++)). by eapply doc_field.
    + by rewrite pop_snoc.
    + unfold encoder_ok. cbn [e_out e_open]. rewrite <-(assoc_L (++)).
      by apply (nested_open_close _ name attrs [CharData text]).
Qed.

Lemma start_step_ok name attrs rest s :
  rw_ok s ->
  step_ok (fun sr => rw_ok sr.1) (start_step p cfg pathPrefix virtualLocation name attrs rest s).
Proof.
  intros Hs. unfold start_step. eapply step_ok_bind.
  { apply (step_ok_at (fun s1 => rw_ok s1)); [done|]. intros s1. unfold admit_start.
    repeat (case_match; [done|]). intros <-%Ok_inj. by apply (rw_ok_frame s). }
  intros s1 Hs1. cbv zeta. destruct (knownResponsePath _ _) eqn:Ek; cbn [negb].
  - apply known_start_ok; [done|exact Ek|apply filterSafe_attrs].
  - destruct (_ && _); [apply (beginning_doc (rw_stack s1)), Hs1|].
    destruct (skip 0 rest); [done|]. apply (beginning_doc (rw_stack s1)), Hs1.
Qed.

Lemma end_step_ok name s : rw_ok s -> step_ok rw_ok (end_step p name s).
Proof.
  intros Hs. unfold end_step. destruct (_ =? 0)%nat; [apply (beginning_doc (rw_stack s)), Hs|].
  eapply step_ok_bind.
  { apply (step_ok_at rw_ok); [done|]. intros s1. unfold pop_owner.
    repeat case_match; intros; simplify_eq; by try apply (rw_ok_frame s). }
  intros s1 [Hd Ho Hn]. pose proof (encode_one (EndElement name) (rw_encoder s1)) as He.
  destruct (encode_all _ _) as [e|[m e]]; [|cbn; subst e; by eapply beginning_doc].
  pose proof (EncodeToken_ok _ _ _ Hn He) as Hn'.
  apply EncodeToken_end in He as (open & Hop & ->). rewrite Hop, reverse_cons, fmap_app in Ho.
  cbn [fmap list_fmap] in Ho.
  split; cbn [rw_stack rw_encoder with_stack with_encoder e_out e_open]; rewrite ?Ho, ?pop_snoc;
    [|done|done].
  apply doc_close. by rewrite <-Ho.
Qed.

Lemma text_step_ok text s : rw_ok s -> step_ok rw_ok (text_step p text s).
Proof.
  intros Hs. unfold text_step. cbv zeta.
  destruct (negb _ && _) eqn:Ec; [apply (beginning_doc (rw_stack s)), Hs|].
  destruct Hs as [Hd Ho Hn]. cbn. split; cbn; [|done|].
  - apply doc_text; [done|]. apply andb_false_iff in Ec as [Ec%negb_false_iff%String.eqb_eq|Ec];
      [by left|right]. apply orb_false_iff in Ec as [Ec%negb_false_iff Ec']. done.
  - unfold encoder_ok. cbn. by rewrite nested_app, Hn.
Qed.

(** *** The loop *)

Lemma readElementText_shorter start text ts r :
  readElementText start text ts = Ok r -> (length r.2 < length ts)%nat.
Proof.
  revert text. induction ts as [|t ts IH]; intros text; [done|]. destruct t; cbn; try done.
  - case_bool_decide; [|done]. intros <-%Ok_inj. cbn. lia.
  - destruct (_ <? _); [done|]. intros H%IH. lia.
  - intros H%IH. lia.
  - intros H%IH. lia.
  - intros H%IH. lia.
Qed.

Lemma start_step_shorter name attrs rest s r :
  start_step p cfg pathPrefix virtualLocation name attrs rest s = Ok r ->
  (length r.2 <= length rest)%nat.
Proof.
  unfold start_step. destruct (at_state _ _) as [s1|]; [|done]. cbv zeta.
  destruct (negb _).
  - destruct (_ && _); [done|]. destruct (skip 0 rest) eqn:E; [|done]. intros <-%Ok_inj. cbn.
    apply skip_shorter in E. lia.
  - unfold known_start. destruct (encode_all _ _); [|done]. cbv zeta.
    destruct (responseFieldRuleForPath _ _) as [fr|]; [|intros <-%Ok_inj; cbn; lia].
    destruct (fr_identityContainer fr).
    + destruct (skip 0 rest) eqn:E; [|done]. destruct (encode_all _ _); [|done].
      intros <-%Ok_inj. cbn. apply skip_shorter in E. lia.
    + case_bool_decide; [intros <-%Ok_inj; cbn; lia|].
      unfold at_state. destruct (readElementText name "" rest) as [[raw rest']|] eqn:E; [|done].
      cbn [res_map_err fst snd]. destruct (applyResponseTextTransform _ _ _ _ _ _ _); [|done].
      cbn [res_map_err]. destruct (encode_all _ _); [|done]. intros <-%Ok_inj. cbn.
      apply readElementText_shorter in E. cbn in E. lia.
Qed.

(** The fuel is enough: the loop never stops for lack of it. *)
Lemma rewrite_loop_fuel fuel fuel' tokens s :
  (length tokens < fuel)%nat -> (length tokens < fuel')%nat ->
  rewrite_loop p cfg pathPrefix virtualLocation fuel tokens s =
  rewrite_loop p cfg pathPrefix virtualLocation fuel' tokens s.
Proof.
  revert fuel' tokens s. induction fuel as [|fuel IH]; intros [|fuel'] tokens s H1 H2; try lia.
  cbn [rewrite_loop]. destruct tokens as [|t rest]; [done|]. cbn in H1, H2. destruct t.
  - destruct (start_step _ _ _ _ _ _ _ _) as [[s1 rest']|] eqn:E; [|done].
    apply start_step_shorter in E. cbn in *. apply IH; lia.
  - destruct (end_step _ _ _); [|done]. apply IH; lia.
  - destruct (text_step _ _ _); [|done]. apply IH; lia.
  - apply IH; lia.
  - apply IH; lia.
  - apply IH; lia.
Qed.

Lemma rewrite_loop_ok fuel tokens s :
  (length tokens < fuel)%nat -> rw_ok s ->
  step_ok rw_ok (rewrite_loop p cfg pathPrefix virtualLocation fuel tokens s).
Proof.
  revert tokens s. induction fuel as [|fuel IH]; intros tokens s Hf Hs; [lia|].
  cbn [rewrite_loop]. destruct tokens as [|t rest]; [done|]. cbn in Hf. destruct t.
  - pose proof (start_step_ok name attrs rest s Hs) as H.
    destruct (start_step _ _ _ _ _ _ _ _) as [[s1 rest']|[m e]] eqn:E; [|exact H].
    apply start_step_shorter in E. cbn in *. apply IH; [lia|done].
  - eapply step_ok_bind; [by apply end_step_ok|]. intros s1 Hs1. apply IH; [lia|done].
  - eapply step_ok_bind; [by apply text_step_ok|]. intros s1 Hs1. apply IH; [lia|done].
  - apply IH; [lia|done].
  - apply IH; [lia|done].
  - apply IH; [lia|done].
Qed.

Lemma finish_rewrite_Ok s out :
  finish_rewrite p s = Ok out -> rw_stack s = [] /\ out = e_out (rw_encoder s).
Proof.
  unfold finish_rewrite. destruct (_ || negb _) eqn:E; [done|]. cbv zeta.
  apply orb_false_iff in E as [_ E%negb_false_iff%Nat.eqb_eq].
  destruct (existsb _ _); [done|]. destruct (_ && negb _); [done|].
  destruct (_ && default true (rw_objectsTruncated s)); [done|].
  destruct (_ && default true (rw_uploadsTruncated s)); [done|]. intros <-%Ok_inj.
  split; [by destruct (rw_stack s)|done].
Qed.

Lemma rewriting0_ok : rw_ok rewriting0.
Proof. split; [constructor|done|done]. Qed.

(** C12. Whatever document the backend sends, what the proxy writes in its place is a
    well-nested document of the operation's schema: only known elements, no attribute
    but the S3 namespace, text only in scalar elements, owners replaced by the virtual
    bucket, and every field that names a bucket, a key, a token or echoes the request
    holding the transform of the backend's text.  When the rewriting fails, what may
    have been sent before is the beginning of such a document. *)
Theorem rewritten_document (d : Decoder) :
  match rewriteNamespaceXML p cfg pathPrefix virtualLocation d with
  | Ok out => document [] out /\ nested [] out = Some []
  | Err (_, e) => beginning (e_out e)
  end.
Proof.
  unfold rewriteNamespaceXML.
  pose proof (rewrite_loop_ok (S (length (d_tokens d))) (d_tokens d) rewriting0
    ltac:(lia) rewriting0_ok) as Hl.
  destruct (rewrite_loop _ _ _ _ _ _ _) as [s|[m e]]; [|exact Hl]. destruct Hl as [Hd Ho Hn].
  destruct (d_eof d); cbn [negb]; [|by eapply beginning_doc].
  unfold at_state. destruct (finish_rewrite p s) as [out|] eqn:E; [|by eapply beginning_doc].
  apply finish_rewrite_Ok in E as [Hs ->]. rewrite Hs in *. split; [done|].
  unfold encoder_ok in Hn. rewrite Hn. f_equal. symmetry in Ho. apply fmap_nil_inv in Ho.
  destruct (e_open (rw_encoder s)) as [|x l]; [done|]. rewrite reverse_cons in Ho.
  by apply app_nil in Ho as [_ ?].
Qed.
End documents.

(** ** What a transformed field says *)

(** [upstream] and [virtual] are the two texts of one key: the same key inside and
    outside the prefix, or both absent. *)
Definition same_key (p : S3OperationPlan) (pathPrefix upstream virtual : string) : Prop :=
  exists key, decode_text p virtual = Some key /\
    (decode_text p upstream = Some (pathPrefix +:+ key) \/
     (decode_text p upstream = Some "" /\ key = "")).

(** The profiles whose documents carry keys. *)
Definition keyed (profile : S3ResponseProfile) : bool :=
  match profile with
  | responseListObjects | responseListMultipartUploads | responseCreateMultipart
  | responseListParts | responseCompleteMultipart => true
  | _ => false
  end.

Lemma strip_decodes p pathPrefix text key :
  decode_text p text = Some (pathPrefix +:+ key) ->
  decode_text p (stripListPathPrefix text pathPrefix
                   (String.eqb (Values_Get (p_query p) "encoding-type") "url")) = Some key.
Proof.
  unfold decode_text. destruct (String.eqb _ _).
  - intros Ht. unfold stripListPathPrefix. cbn [negb]. rewrite Ht, TrimPrefix_app.
    apply PathUnescape_awsURIEncode.
  - intros [= ->]. unfold stripListPathPrefix. cbn [negb]. by rewrite TrimPrefix_app.
Qed.

Lemma strip_key_Ok p pathPrefix path text key out :
  decode_text p text = Some (pathPrefix +:+ key) ->
  strip_key path text (pathPrefix +:+ key) p pathPrefix = Ok out ->
  decode_text p out = Some key /\
  (addressable_path path = true -> key <> "" -> validateVirtualObjectKey key = Ok tt) /\
  (result_key_path path = true -> key <> "").
Proof.
  intros Hd. unfold strip_key. rewrite TrimPrefix_app. cbv zeta.
  destruct (addressable_path path) eqn:Ea.
  - destruct (result_key_path path && String.eqb key "") eqn:Er; [done|].
    assert (result_key_path path = true -> key <> "") as Hr.
    { intros H ->. by rewrite H in Er. }
    destruct (String.eqb_spec key "") as [->|Hk]; cbn [negb].
    + intros <-%Ok_inj. split; [by apply strip_decodes|]. by split.
    + destruct (validateVirtualObjectKey key) as [[]|]; cbn [res_map_err]; [|done].
      intros <-%Ok_inj. split; [by apply strip_decodes|]. by split.
  - intros <-%Ok_inj. split; [by apply strip_decodes|]. split; [done|].
    unfold addressable_path in Ea. by destruct (result_key_path path).
Qed.

Lemma virtualizeResponseKey_spec p pathPrefix path text out :
  keyed (p_responseProfile p) = true ->
  virtualizeResponseKey path text p pathPrefix = Ok out ->
  same_key p pathPrefix text out /\
  (addressable_path path = true -> forall key, decode_text p out = Some key -> key <> "" ->
     validateVirtualObjectKey key = Ok tt).
Proof.
  intros Hk. unfold virtualizeResponseKey.
  destruct (decode_text p text) as [decoded|] eqn:Ed; [|done].
  assert (forall key, decoded = pathPrefix +:+ key ->
    strip_key path text decoded p pathPrefix = Ok out ->
    same_key p pathPrefix text out /\
    (addressable_path path = true -> forall key, decode_text p out = Some key -> key <> "" ->
       validateVirtualObjectKey key = Ok tt)) as Hfin.
  { intros key -> Hf. destruct (strip_key_Ok p pathPrefix path text key out Ed Hf) as (Ho & Hv & _).
    split; [exists key; rewrite Ed; auto|]. intros Ha k Hk'. rewrite Ho in Hk'. injection Hk' as <-. auto. }
  assert (HasPrefix decoded pathPrefix = true -> exists key, decoded = pathPrefix +:+ key) as Hpre.
  { intros [t ->]%HasPrefix_true. eauto. }
  assert (decoded = "" -> Ok "" = Ok out :> result string string ->
    same_key p pathPrefix text out /\
    (addressable_path path = true -> forall key, decode_text p out = Some key -> key <> "" ->
       validateVirtualObjectKey key = Ok tt)) as Hempty.
  { intros -> <-%Ok_inj.
    assert (decode_text p "" = Some "") as H0 by (unfold decode_text; by destruct (String.eqb _ _)).
    split; [exists ""; rewrite Ed; auto|]. intros _ key. rewrite H0. congruence. }
  destruct (p_responseProfile p); try discriminate Hk.
  - destruct (String.eqb_spec decoded ""); [by apply Hempty|].
    destruct (HasPrefix decoded pathPrefix); cbn [negb]; [|done].
    destruct (Hpre eq_refl) as [key Hkey]. by eapply Hfin.
  - destruct (String.eqb_spec decoded ""); [by apply Hempty|].
    destruct (HasPrefix decoded pathPrefix); cbn [negb]; [|done].
    destruct (Hpre eq_refl) as [key Hkey]. by eapply Hfin.
  - destruct (String.eqb_spec decoded (pathPrefix +:+ p_objectKey p)); [|done]. by eapply Hfin.
  - destruct (String.eqb_spec decoded (pathPrefix +:+ p_objectKey p)); [|done]. by eapply Hfin.
  - destruct (String.eqb_spec decoded (pathPrefix +:+ p_objectKey p)); [|done]. by eapply Hfin.
Qed.

(** [upstream] is the backend's token and [virtual] what the client holds for it. *)
Definition same_token (cfg : VBucketConfig) (kind upstream virtual : string) : Prop :=
  (upstream = "" /\ virtual = "") \/ decodeOpaqueToken (Some cfg) kind virtual = Ok upstream.

Lemma new_token_ok cfg kind (b : bool) text out :
  (if String.eqb text "" && b then Ok "" else encodeOpaqueToken (Some cfg) kind text) = Ok out ->
  same_token cfg kind text out.
Proof.
  destruct (String.eqb_spec text "") as [->|]; [destruct b|]; cbn [andb].
  - intros <-%Ok_inj. by left.
  - done.
  - intros ?%decode_encode. by right.
Qed.

Lemma echo_token_ok cfg kind virtual path text empty_path out :
  echo_token cfg kind virtual path text empty_path = Ok out -> same_token cfg kind text out.
Proof.
  unfold echo_token, echo_error. destruct (String.eqb virtual "").
  - destruct (String.eqb_spec text "") as [->|]; [destruct (String.eqb _ _)|]; cbn [andb]; [|done..].
    intros <-%Ok_inj. by left.
  - destruct (decodeOpaqueToken _ _ _) as [origin|] eqn:E; [|done].
    destruct (String.eqb_spec text origin) as [->|]; cbn [negb]; [|done].
    intros <-%Ok_inj. by right.
Qed.

(** What the text written for a field means, given the text the backend sent. *)
Definition field_meaning (p : S3OperationPlan) (cfg : VBucketConfig)
    (pathPrefix virtualLocation path : string) (transform : responseTextTransform)
    (upstream virtual : string) : Prop :=
  match transform with
  | textTransformVirtualBucket => TrimSpace upstream = RealBucket cfg /\ virtual = p_bucket p
  | textTransformVirtualKey | textTransformVirtualKeyEcho =>
      same_key p pathPrefix upstream virtual /\
      (addressable_path path = true ->
       forall key, decode_text p virtual = Some key -> key <> "" ->
         validateVirtualObjectKey key = Ok tt)
  | textTransformVirtualLocation => TrimSpace upstream <> "" /\ virtual = virtualLocation
  | textTransformNewContinuationToken | textTransformEchoContinuationToken =>
      same_token cfg "continuation" upstream virtual
  | textTransformNewUploadToken | textTransformEchoUploadToken =>
      same_token cfg "upload" upstream virtual
  | textTransformNonNegativeInteger =>
      virtual = upstream /\ exists n, Atoi (TrimSpace upstream) = Some n /\ 0 <= n
  | textTransformNumericQueryEcho =>
      virtual = upstream /\ exists n, Atoi (TrimSpace upstream) = Some n /\ 0 <= n
  | textTransformBoolean => virtual = TrimSpace upstream /\ (virtual = "true" \/ virtual = "false")
  | textTransformRequiredNonempty => virtual = upstream /\ TrimSpace upstream <> ""
  | textTransformPlainQueryEcho =>
      virtual = upstream /\ exists queryKey shown, plain_echo_field path = Some queryKey /\
        (shown = upstream \/ decode_text p upstream = Some shown) /\
        shown = Values_Get (p_query p) queryKey
  | textTransformNone => virtual = upstream
  end.

Definition writes_key (transform : responseTextTransform) : bool :=
  match transform with textTransformVirtualKey | textTransformVirtualKeyEcho => true | _ => false end.

Lemma key_rules_keyed profile path fr :
  responseFieldRuleForPath profile path = Some fr -> writes_key (fr_transform fr) = true ->
  keyed profile = true.
Proof.
  unfold responseFieldRuleForPath. intros (pr & [Hin _]%find_some & ->)%fmap_Some Hw.
  assert (forallb (fun pr => implb (writes_key (fr_transform pr.2)) (keyed profile))
            (responseFieldRules profile) = true) as Hall by (by destruct profile).
  rewrite forallb_forall in Hall. specialize (Hall _ Hin). by rewrite Hw in Hall.
Qed.

Lemma plain_echo_ok path text p :
  validatePlainQueryEcho path text p = Ok tt ->
  exists queryKey shown, plain_echo_field path = Some queryKey /\
    (shown = text \/ decode_text p text = Some shown) /\ shown = Values_Get (p_query p) queryKey.
Proof.
  unfold validatePlainQueryEcho, echo_error. destruct (plain_echo_field path) as [queryKey|]; [|done].
  destruct (if String.eqb queryKey "delimiter" then _ else _) as [decoded|] eqn:E; [|done].
  destruct (String.eqb_spec decoded (Values_Get (p_query p) queryKey)); cbn [negb]; [|done].
  intros _. exists queryKey, decoded. split; [done|]. split; [|done].
  destruct (String.eqb queryKey "delimiter"); [by right|left; congruence].
Qed.

Lemma numeric_echo_ok path text p :
  validateNumericQueryEcho path text p = Ok tt ->
  exists n, Atoi (TrimSpace text) = Some n /\ 0 <= n.
Proof.
  unfold validateNumericQueryEcho. destruct (numeric_echo_field path) as [[? ?]|]; [|done].
  destruct (Atoi _) as [n|]; [|done]. destruct (Z.ltb_spec n 0); [done|]. eauto.
Qed.

(** C13. Every rewritten field keeps its meaning across the two namespaces: the bucket is
    the client's bucket and was the backend's, a key is the backend's key without the
    tenant prefix and never a key outside it, and one the client may use; a token opens,
    under the mapping's key, to exactly the token the backend gave; numbers, booleans and
    echoes are the well-formed ones the operation asked for. *)
Theorem transformed_field_meaning (p : S3OperationPlan) (cfg : VBucketConfig)
    (pathPrefix virtualLocation path upstream virtual : string) (fr : responseFieldRule)
    (Hrule : responseFieldRuleForPath (p_responseProfile p) path = Some fr)
    (Hok : applyResponseTextTransform (fr_transform fr) path upstream p cfg pathPrefix
             virtualLocation = Ok virtual) :
  field_meaning p cfg pathPrefix virtualLocation path (fr_transform fr) upstream virtual.
Proof.
  pose proof (key_rules_keyed _ _ _ Hrule) as Hkeyed.
  destruct (fr_transform fr); cbn [applyResponseTextTransform field_meaning writes_key] in *.
  - by apply Ok_inj in Hok as ->.
  - destruct (String.eqb_spec (TrimSpace upstream) (RealBucket cfg)); [|done].
    by apply Ok_inj in Hok as <-.
  - by apply virtualizeResponseKey_spec; [apply Hkeyed|].
  - destruct (String.eqb_spec (TrimSpace upstream) ""); [done|]. by apply Ok_inj in Hok as <-.
  - by eapply new_token_ok.
  - by eapply echo_token_ok.
  - by eapply new_token_ok.
  - by eapply echo_token_ok.
  - destruct (validateVirtualKeyEcho _ _ _ _); [|done].
    by apply virtualizeResponseKey_spec; [apply Hkeyed|].
  - destruct (validatePlainQueryEcho _ _ _) as [[]|] eqn:E; [|done]. apply Ok_inj in Hok as <-.
    split; [done|]. by apply plain_echo_ok.
  - destruct (validateNumericQueryEcho _ _ _) as [[]|] eqn:E; [|done]. apply Ok_inj in Hok as <-.
    split; [done|]. by eapply numeric_echo_ok.
  - destruct (Atoi _) as [n|] eqn:E; [|done]. destruct (Z.ltb_spec n 0); [done|].
    apply Ok_inj in Hok as <-. split; [done|]. exists n. auto.
  - destruct (String.eqb_spec (TrimSpace upstream) "true") as [E|];
      [|destruct (String.eqb_spec (TrimSpace upstream) "false") as [E|]; [|done]];
      apply Ok_inj in Hok as <-; auto.
  - destruct (String.eqb_spec (TrimSpace upstream) ""); [done|]. by apply Ok_inj in Hok as <-.
Qed.

(** ** Echoes *)

(** How a field of a listing repeats a parameter: as a key or text in the document's
    encoding, as it is, as the number with a default, or as the opaque token. *)
Inductive echo_form := EchoText | EchoLiteral | EchoNumber (absent : Z) | EchoToken.

(** The fields of S3's listings that repeat a request parameter. *)
Definition echoes : list (string * (string * echo_form)) :=
  [("ListBucketResult/Prefix", ("prefix", EchoText));
   ("ListBucketResult/Marker", ("marker", EchoText));
   ("ListBucketResult/StartAfter", ("start-after", EchoText));
   ("ListBucketResult/Delimiter", ("delimiter", EchoText));
   ("ListBucketResult/EncodingType", ("encoding-type", EchoLiteral));
   ("ListBucketResult/MaxKeys", ("max-keys", EchoNumber 1000));
   ("ListBucketResult/ContinuationToken", ("continuation-token", EchoToken));
   ("ListMultipartUploadsResult/Prefix", ("prefix", EchoText));
   ("ListMultipartUploadsResult/KeyMarker", ("key-marker", EchoText));
   ("ListMultipartUploadsResult/Delimiter", ("delimiter", EchoText));
   ("ListMultipartUploadsResult/EncodingType", ("encoding-type", EchoLiteral));
   ("ListMultipartUploadsResult/MaxUploads", ("max-uploads", EchoNumber 1000));
   ("ListMultipartUploadsResult/UploadIdMarker", ("upload-id-marker", EchoToken));
   ("ListPartsResult/UploadId", ("uploadId", EchoToken));
   ("ListPartsResult/PartNumberMarker", ("part-number-marker", EchoNumber 0));
   ("ListPartsResult/MaxParts", ("max-parts", EchoNumber 1000))].

(** [virtual] repeats the client's parameter [param]. *)
Definition repeats (p : S3OperationPlan) (param : string) (form : echo_form) (virtual : string)
    : Prop :=
  match form with
  | EchoText => decode_text p virtual = Some (Values_Get (p_query p) param)
  | EchoLiteral | EchoToken => virtual = Values_Get (p_query p) param
  | EchoNumber absent =>
      Atoi (TrimSpace virtual) =
      match p_query p !! param with Some values => Atoi (default "" (head values)) | None => Some absent end
  end.

Lemma key_echo_repeats p pathPrefix path param text out :
  p_responseProfile p = responseListObjects \/ p_responseProfile p = responseListMultipartUploads ->
  key_echo_field path = Some param ->
  (let? _ := validateVirtualKeyEcho path text p pathPrefix in
   virtualizeResponseKey path text p pathPrefix) = Ok out ->
  repeats p param EchoText out.
Proof.
  intros Hprof Hf. unfold validateVirtualKeyEcho, virtualizeResponseKey, echo_error. rewrite Hf.
  assert (decode_text p "" = Some "") as H0 by (unfold decode_text; by case_match).
  destruct (decode_text p text) as [decoded|] eqn:Ed; [|done]. cbv zeta. cbn [repeats].
  set (asked := Values_Get (p_query p) param).
  destruct (String.eqb_spec decoded
    (if String.eqb param "prefix" || negb (String.eqb asked "") then pathPrefix +:+ asked else asked))
    as [E|]; [|done]. cbn [negb].
  assert ((if String.eqb decoded "" then Ok ""
           else reject negb (HasPrefix decoded pathPrefix)
                  with "upstream key field is outside the configured prefix" ;;
                strip_key path text decoded p pathPrefix) = Ok out ->
          decode_text p out = Some asked) as Hgo; [|destruct Hprof as [-> | ->]; exact Hgo].
  destruct (String.eqb_spec decoded "") as [->|Hne].
  - intros <-%Ok_inj. rewrite H0. f_equal. destruct (_ || _); [|done].
    symmetry in E. destruct pathPrefix; [done|discriminate E].
  - destruct (HasPrefix decoded pathPrefix); [|done]. cbn [negb].
    destruct (_ || _) eqn:Eb.
    + rewrite E in Ed |- *. intros H. by destruct (strip_key_Ok _ _ _ _ _ _ Ed H) as [? _].
    + apply orb_false_iff in Eb as [_ Eb%negb_false_iff%String.eqb_eq]. congruence.
Qed.

Lemma plain_echo_repeats p path param text :
  plain_echo_field path = Some param -> validatePlainQueryEcho path text p = Ok tt ->
  repeats p param (if String.eqb param "delimiter" then EchoText else EchoLiteral) text.
Proof.
  intros Hf. unfold validatePlainQueryEcho, echo_error. rewrite Hf.
  destruct (String.eqb param "delimiter"); cbn [repeats].
  - destruct (decode_text p text) as [decoded|]; [|done].
    by destruct (String.eqb_spec decoded (Values_Get (p_query p) param)) as [->|].
  - by destruct (String.eqb_spec text (Values_Get (p_query p) param)) as [->|].
Qed.

Lemma numeric_echo_repeats p path param absent text :
  0 <= absent -> numeric_echo_field path = Some (param, absent) ->
  validateNumericQueryEcho path text p = Ok tt -> repeats p param (EchoNumber absent) text.
Proof.
  intros Ha Hf. unfold validateNumericQueryEcho, echo_error. rewrite Hf. cbn [repeats].
  destruct (Atoi (TrimSpace text)) as [n|]; [|done]. destruct (n <? 0); [done|].
  destruct (p_query p !! param) as [values|].
  - destruct (Atoi _) as [m|]; [|done]. by destruct (Z.eqb_spec n m) as [->|].
  - rewrite (proj2 (Z.leb_le _ _)) by lia. cbn [andb]. by destruct (Z.eqb_spec n absent) as [->|].
Qed.

Lemma echo_token_repeats cfg kind virtual path text empty_path out :
  echo_token cfg kind virtual path text empty_path = Ok out -> out = virtual.
Proof.
  unfold echo_token, echo_error. destruct (String.eqb_spec virtual "") as [->|].
  - destruct (_ && _); [|done]. by intros <-%Ok_inj.
  - destruct (decodeOpaqueToken _ _ _); [|done]. destruct (negb _); [done|]. by intros <-%Ok_inj.
Qed.

(** A parameter its row does not name is absent from a planned request. *)
Lemma planned_absent r bucket objectKey p name :
  planS3Operation r bucket objectKey = Ok p ->
  let w := table (p_kind p) in
  p_responseProfile p = row_profile w /\
  (one_of name (row_required w).*1 || one_of name (row_optional w) || String.eqb name "x-id" = false ->
   Values_Get (p_query p) name = "").
Proof.
  intros Hp. destruct (planS3Operation_Ok _ _ _ _ Hp) as (query & sh & Hacc & Hf).
  destruct (plan_shape_sound _ _ _ _ _ (acc_shape _ _ _ _ _ Hacc)) as (Hrow & Hprof & _ & _).
  destruct (finish_plan_Ok _ _ _ _ _ _ Hf) as (_ & _ & _ & ->). cbn. split; [done|].
  intros Hn. unfold Values_Get. destruct (query !! name) as [vs|] eqn:E; [|done]. exfalso.
  destruct Hrow as (_ & _ & Hrow & _). destruct (query_allowed _ _ _ _ _ _ Hrow E) as [Ha _].
  by rewrite Hn in Ha.
Qed.

(** C23. A listing repeats the client's own request: in every field of a rewritten listing
    that repeats a parameter, the client reads the value it sent itself (its prefix, markers
    and delimiter, without the tenant's prefix; its encoding type; its own token; its bound,
    or the default for a bound it did not give), whatever the backend wrote there; a
    backend's answer that does not repeat the request so is refused. *)
Theorem listing_repeats_request (r : HttpRequest) (bucket objectKey : string)
    (p : S3OperationPlan) (cfg : VBucketConfig) (pathPrefix virtualLocation path param : string)
    (form : echo_form) (upstream virtual : string) (fr : responseFieldRule)
    (Hplan : planS3Operation r bucket objectKey = Ok p)
    (Hecho : (path, (param, form)) ∈ echoes)
    (Hrule : responseFieldRuleForPath (p_responseProfile p) path = Some fr)
    (Hok : applyResponseTextTransform (fr_transform fr) path upstream p cfg pathPrefix
             virtualLocation = Ok virtual) :
  repeats p param form virtual.
Proof.
  pose proof (planned_absent r bucket objectKey p "upload-id-marker" Hplan) as [Hprof Hmarker].
  pose proof (planned_absent r bucket objectKey p "uploadId" Hplan) as [_ Hupload].
  assert (p_responseProfile p = responseListMultipartUploads -> Values_Get (p_query p) "uploadId" = "")
    as Hup by (rewrite Hprof; intros E; apply Hupload; revert E; by destruct (p_kind p)).
  assert (p_responseProfile p = responseListParts -> Values_Get (p_query p) "upload-id-marker" = "")
    as Hmk by (rewrite Hprof; intros E; apply Hmarker; revert E; by destruct (p_kind p)).
  clear Hprof Hmarker Hupload Hplan. unfold echoes in Hecho.
  destruct (p_responseProfile p) eqn:Hprof; try discriminate Hrule;
    repeat (apply elem_of_cons in Hecho as [[= -> -> ->]|Hecho]; [try discriminate Hrule|]);
    try by apply not_elem_of_nil in Hecho.
  all: injection Hrule as <-; cbn [fr_transform rule required applyResponseTextTransform] in Hok.
  all: try (eapply key_echo_repeats; [by auto| |exact Hok]; reflexivity).
  all: try (destruct (validatePlainQueryEcho _ _ _) as [[]|] eqn:E; [|done]; apply Ok_inj in Hok as <-;
            eapply (plain_echo_repeats p); [|exact E]; reflexivity).
  all: try (destruct (validateNumericQueryEcho _ _ _) as [[]|] eqn:E; [|done]; apply Ok_inj in Hok as <-;
            eapply numeric_echo_repeats; [| |exact E]; [done|reflexivity]).
  all: apply echo_token_repeats in Hok as ->; cbn [repeats]; cbv zeta.
  - done.
  - rewrite Hup by done. by destruct (String.eqb_spec (Values_Get (p_query p) "upload-id-marker") "") as [->|].
  - by rewrite Hmk.
Qed.

(** A start tag with the standard declaration keeps it as an attribute beside the
    namespace of its name, and the encoder writes both. *)
Lemma namespaced_tag_declares_twice (cfg : VBucketConfig) (local : string) attrs
    (Hs : containsSensitiveBackendValue s3XMLNamespace cfg = false)
    (Ha : mkAttr (mkName "" "xmlns") s3XMLNamespace ∈ attrs) :
  ~ NoDup (written_attributes (mkName s3XMLNamespace local) (filterSafeXMLAttributes attrs cfg)).
Proof.
  unfold written_attributes. cbn [x_Space]. intros Hd.
  change (NoDup ("xmlns" :: mbind (fun a => if String.eqb (x_Local (a_Name a)) ""
     || negb (String.eqb (x_Space (a_Name a)) "") then [] else [x_Local (a_Name a)])
     (filterSafeXMLAttributes attrs cfg))) in Hd.
  apply NoDup_cons in Hd as [Hn _]. apply Hn, list_elem_of_bind.
  exists (mkAttr (mkName "" "xmlns") s3XMLNamespace). split; [apply list_elem_of_here|].
  apply list_elem_of_In, filter_In. split; [by apply list_elem_of_In|]. cbn [a_Value a_Name x_Local].
  rewrite Hs. reflexivity.
Qed.

(** ** The root of a namespaced document *)

Section root.
Context (p : S3OperationPlan) (cfg : VBucketConfig) (pathPrefix virtualLocation : string).

(** What was written stays. *)
Definition writes (e e' : Encoder) (ts : list xml_token) : Prop := e_out e' = e_out e ++ ts.

Lemma writes_trans e1 e2 e3 ts us :
  writes e1 e2 ts -> writes e2 e3 us -> writes e1 e3 (ts ++ us).
Proof. unfold writes. intros -> ->. by rewrite <-(assoc_L (++)). Qed.

Lemma EncodeToken_writes t e e' : EncodeToken t e = Ok e' -> writes e e' [t].
Proof.
  unfold writes. destruct t; cbn; repeat case_match; try done; by intros <-%Ok_inj.
Qed.

Lemma encode_all_writes ts e e' : encode_all ts e = Ok e' -> writes e e' ts.
Proof.
  revert e. induction ts as [|t ts IH]; intros e; cbn [encode_all].
  { intros <-%Ok_inj. unfold writes. by rewrite app_nil_r. }
  destruct (EncodeToken t e) as [e1|] eqn:E; [|done]. intros H.
  apply (writes_trans _ e1 _ [t] ts); [by apply EncodeToken_writes|by apply IH].
Qed.

Lemma known_start_writes name attrs rest s r :
  known_start p cfg pathPrefix virtualLocation name attrs rest s = Ok r ->
  exists ts, writes (rw_encoder s) (rw_encoder r.1) (StartElement name attrs :: ts).
Proof.
  unfold known_start. cbn [rw_stack with_owners rw_encoder].
  destruct (encode_all [StartElement name attrs] (rw_encoder s)) as [e|] eqn:E; [|done].
  apply encode_all_writes in E.
  assert (forall e' ts, writes e e' ts ->
            writes (rw_encoder s) e' (StartElement name attrs :: ts)) as Hw
    by (intros e' ts H; by apply (writes_trans _ e _ [_] ts)).
  destruct (responseFieldRuleForPath _ _) as [fr|]; [|intros <-%Ok_inj; by eexists].
  destruct (fr_identityContainer fr).
  { destruct (skip 0 rest); [|done]. cbn [rw_encoder with_encoder].
    destruct (encode_all _ _) eqn:Ei; [|done]. intros <-%Ok_inj. eexists. by eapply Hw, encode_all_writes. }
  case_bool_decide; [intros <-%Ok_inj; by eexists|]. unfold at_state.
  destruct (readElementText _ _ _) as [[raw rest']|]; [|done]. cbn [res_map_err].
  destruct (applyResponseTextTransform _ _ _ _ _ _ _) as [text|]; [|done]. cbn [res_map_err rw_encoder with_encoder].
  destruct (encode_all _ _) eqn:Ei; [|done]. intros <-%Ok_inj. eexists. by eapply Hw, encode_all_writes.
Qed.

Lemma admit_start_encoder name s s' :
  admit_start p name s = Ok s' -> rw_encoder s' = rw_encoder s /\ rw_stack s' = rw_stack s.
Proof. unfold admit_start. repeat (case_match; [done|]). by intros <-%Ok_inj. Qed.

Lemma start_step_writes name attrs rest s r :
  start_step p cfg pathPrefix virtualLocation name attrs rest s = Ok r ->
  exists ts, writes (rw_encoder s) (rw_encoder r.1) ts.
Proof.
  unfold start_step, at_state. destruct (admit_start p name s) as [s1|] eqn:Ea; [|done].
  apply admit_start_encoder in Ea as [<- _]. cbn [res_map_err].
  destruct (negb _).
  - destruct (_ && _); [done|]. destruct (skip 0 rest); [|done]. intros <-%Ok_inj.
    exists []. unfold writes. by rewrite app_nil_r.
  - intros H%known_start_writes. destruct H as [ts H]. by eexists.
Qed.

Lemma end_step_writes name s s' :
  end_step p name s = Ok s' -> rw_stack s <> [] /\ exists ts, writes (rw_encoder s) (rw_encoder s') ts.
Proof.
  unfold end_step, at_state. destruct (rw_stack s) eqn:Es; [done|]. cbn [length Nat.eqb].
  destruct (pop_owner p s) as [s1|] eqn:Ep; [|done]. cbn [res_map_err].
  assert (rw_encoder s1 = rw_encoder s) as <-
    by (revert Ep; unfold pop_owner; repeat case_match; intros; by simplify_eq).
  destruct (encode_all _ _) eqn:Ei; [|done]. intros <-%Ok_inj. split; [done|].
  eexists. by eapply encode_all_writes.
Qed.

Lemma text_step_writes text s s' :
  text_step p text s = Ok s' ->
  rw_stack s' = rw_stack s /\ writes (rw_encoder s) (rw_encoder s') [CharData text].
Proof.
  unfold text_step. cbv zeta. destruct (negb _ && _); [done|].
  destruct (encode_all _ _) eqn:Ei; [|done]. intros <-%Ok_inj. split; [done|].
  by eapply encode_all_writes.
Qed.

Lemma rewrite_loop_writes fuel tokens s s' :
  rewrite_loop p cfg pathPrefix virtualLocation fuel tokens s = Ok s' ->
  exists ts, writes (rw_encoder s) (rw_encoder s') ts.
Proof.
  revert tokens s. induction fuel as [|fuel IH]; intros tokens s; [done|]. cbn [rewrite_loop].
  destruct tokens as [|t rest].
  { intros <-%Ok_inj. exists []. unfold writes. by rewrite app_nil_r. }
  assert (forall s1 rest1 ts, writes (rw_encoder s) (rw_encoder s1) ts ->
            rewrite_loop p cfg pathPrefix virtualLocation fuel rest1 s1 = Ok s' ->
            exists ts, writes (rw_encoder s) (rw_encoder s') ts) as Hgo.
  { intros s1 rest1 ts H1 [us H2]%IH. exists (ts ++ us). by eapply writes_trans. }
  destruct t; try by apply IH.
  - destruct (start_step _ _ _ _ _ _ _ _) as [r|] eqn:E; [|done].
    apply start_step_writes in E as [ts E]. by eapply Hgo.
  - destruct (end_step _ _ _) as [r|] eqn:E; [|done].
    apply end_step_writes in E as [_ [ts E]]. by eapply Hgo.
  - destruct (text_step _ _ _) as [r|] eqn:E; [|done].
    apply text_step_writes in E as [_ E]. by eapply Hgo.
Qed.

Definition is_start (t : xml_token) : Prop := match t with StartElement _ _ => True | _ => False end.

Lemma root_known profile :
  expectedResponseRoot profile <> "" -> knownResponsePath profile (expectedResponseRoot profile) = true.
Proof. intros _. unfold knownResponsePath. by rewrite String.eqb_refl. Qed.

(** What is written for the first start tag of a document, after [before]. *)
Lemma rewrite_loop_root fuel preamble name attrs rest s s' :
  expectedResponseRoot (p_responseProfile p) <> "" ->
  Forall (fun t => ~ is_start t) preamble -> rw_stack s = [] -> rw_seenRoot s = false ->
  rewrite_loop p cfg pathPrefix virtualLocation fuel (preamble ++ StartElement name attrs :: rest) s
    = Ok s' ->
  exists before ts, Forall (fun t => ~ is_start t) before /\
    writes (rw_encoder s) (rw_encoder s')
      (before ++ StartElement name (filterSafeXMLAttributes attrs cfg) :: ts).
Proof.
  intros Hroot Hpre. revert fuel s. induction Hpre as [|t preamble Ht _ IH]; intros fuel s Hs Hr H.
  - destruct fuel as [|fuel]; [done|]. cbn [app rewrite_loop] in H. exists [].
    destruct (start_step _ _ _ _ _ _ _ _) as [r|] eqn:E; [|done].
    apply rewrite_loop_writes in H as [us H]. unfold start_step, at_state in E.
    destruct (admit_start p name s) as [s1|] eqn:Ea; [|done]. cbn [res_map_err] in E. cbv zeta in E.
    destruct (admit_start_encoder _ _ _ Ea) as [He Hst].
    assert (x_Local name = expectedResponseRoot (p_responseProfile p)) as Hn.
    { revert Ea. unfold admit_start. rewrite Hr, (proj2 (String.eqb_neq _ _) Hroot). cbn [negb].
      destruct (String.eqb_spec (x_Local name) (expectedResponseRoot (p_responseProfile p))) as [|_];
        [done|]. by repeat case_match. }
    rewrite Hst, Hs in E. cbn [app] in E. change (path_of [x_Local name]) with (x_Local name) in E.
    rewrite Hn, root_known in E by done. cbn [negb] in E.
    apply known_start_writes in E as [ts E]. cbn [rw_encoder with_stack] in E. rewrite He in E.
    exists (ts ++ us). split; [constructor|]. by apply (writes_trans _ _ _ (_ :: ts) us E).
  - destruct fuel as [|fuel]; [done|]. cbn [app rewrite_loop] in H.
    destruct t; try by (eapply IH in H as (before & ts & H1 & H2); [by exists before, ts|done|done]).
    + by exfalso; apply Ht.
    + destruct (end_step _ _ _) eqn:E; [|done]. by apply end_step_writes in E as [? _].
    + destruct (text_step _ _ _) as [s1|] eqn:E; [|done].
      assert (rw_seenRoot s1 = false) as Hr1.
      { revert E. unfold text_step. cbv zeta. destruct (negb _ && _); [done|].
        destruct (encode_all _ _); [|done]. by intros <-%Ok_inj. }
      apply text_step_writes in E as [Hs1 E]. rewrite Hs in Hs1.
      destruct (IH _ _ Hs1 Hr1 H) as (before & ts & H1 & H2).
      exists (CharData text :: before), ts. split; [by constructor; [intros []|]|].
      by apply (writes_trans _ _ _ [CharData text] _ E).
Qed.
End root.

(** C40. A document whose root carries the S3 namespace and its standard declaration, as S3
    itself answers, is never rewritten to well-formed XML: for every operation with a
    response document and whatever follows the root's start tag (or precedes it:
    declarations, comments, space), if the rewriting succeeds, the first start tag of what
    it writes is the root's and has the attribute [xmlns] twice.  The namespace must only
    not happen to contain one of the mapping's own sensitive values, which would drop the
    attribute. *)
Theorem namespaced_root_malformed (p : S3OperationPlan) (cfg : VBucketConfig)
    (pathPrefix virtualLocation : string) (preamble rest : list xml_token) (name : xml_name)
    (attrs : list xml_attr) (eof : bool) (out : list xml_token)
    (Hroot : expectedResponseRoot (p_responseProfile p) <> "")
    (Hpre : Forall (fun t => ~ is_start t) preamble)
    (Hname : x_Space name = s3XMLNamespace)
    (Hattr : mkAttr (mkName "" "xmlns") s3XMLNamespace ∈ attrs)
    (Hsafe : containsSensitiveBackendValue s3XMLNamespace cfg = false)
    (Hok : rewriteNamespaceXML p cfg pathPrefix virtualLocation
             (mkDecoder (preamble ++ StartElement name attrs :: rest) eof) = Ok out) :
  exists before attrs' after, out = before ++ StartElement name attrs' :: after /\
    Forall (fun t => ~ is_start t) before /\ ~ NoDup (written_attributes name attrs').
Proof.
  unfold rewriteNamespaceXML in Hok. cbn [d_tokens d_eof] in Hok.
  destruct (rewrite_loop _ _ _ _ _ _ _) as [s|] eqn:E; [|done].
  destruct (negb eof); [done|]. unfold at_state in Hok.
  destruct (finish_rewrite p s) as [ts|] eqn:Ef; [|done]. apply Ok_inj in Hok as <-.
  apply finish_rewrite_Ok in Ef as [_ ->].
  apply rewrite_loop_root in E as (before & ts' & Hb & Hw); [|done..].
  exists before, (filterSafeXMLAttributes attrs cfg), ts'. split; [exact Hw|]. split; [exact Hb|].
  destruct name as [space local]. cbn in Hname. subst space. by apply namespaced_tag_declares_twice.
Qed.

(** ** A listing *)

Module ResponseExample.

Definition listing_request : HttpRequest :=
  mkHttpRequest "GET" "/photos" "" "list-type=2&encoding-type=url"
    {["X-Amz-Date" := ["20260102T030405Z"]]} "s3.example.com" "" 0 [] ∅ true.

Definition listing_plan : S3OperationPlan :=
  match planS3Operation listing_request "photos" "" with
  | Ok p => p
  | Err _ => mkPlan operationHeadBucket "" "" "" responseSafeHeaders [] None false "" bodyEmpty ""
               "" 0 ∅ ∅ false "" ∅ false
  end.

Lemma transformed_field_meaning_witness :
  same_key listing_plan "tenant/" "tenant%2Fa%20b" "a%20b".
Proof.
  assert (responseFieldRuleForPath (p_responseProfile listing_plan) "ListBucketResult/Contents/Key"
          = Some (rule textTransformVirtualKey)) as Hr by (vm_compute; reflexivity).
  assert (applyResponseTextTransform (fr_transform (rule textTransformVirtualKey))
            "ListBucketResult/Contents/Key" "tenant%2Fa%20b" listing_plan TokenExample.mapping
            "tenant/" "" = Ok "a%20b") as Ha by (vm_compute; reflexivity).
  exact (proj1 (transformed_field_meaning listing_plan TokenExample.mapping "tenant/" ""
                  "ListBucketResult/Contents/Key" "tenant%2Fa%20b" "a%20b" _ Hr Ha)).
Defined.

Lemma listing_repeats_request_witness :
  repeats listing_plan "max-keys" (EchoNumber 1000) " 1000 ".
Proof.
  apply (listing_repeats_request listing_request "photos" "" listing_plan TokenExample.mapping
           "tenant/" "" "ListBucketResult/MaxKeys" "max-keys" (EchoNumber 1000) " 1000 " " 1000 "
           (rule textTransformNumericQueryEcho)).
  - vm_compute. reflexivity.
  - do 5 apply list_elem_of_further. apply list_elem_of_here.
  - vm_compute. reflexivity.
  - vm_compute. reflexivity.
Defined.

(** The answer of a backend as S3 writes it: the root declares the S3 namespace. *)
Definition s3_name (local : string) : xml_name := mkName s3XMLNamespace local.
Definition xmlns : xml_attr := mkAttr (mkName "" "xmlns") s3XMLNamespace.
Definition field (local text : string) : list xml_token :=
  [StartElement (s3_name local) []; CharData text; EndElement (s3_name local)].

Definition listing : list xml_token :=
  [StartElement (s3_name "ListBucketResult") [xmlns]] ++ field "Name" "real" ++
  field "IsTruncated" "false" ++ [StartElement (s3_name "Contents") []] ++
  field "Key" "tenant%2Fa%20b" ++
  [EndElement (s3_name "Contents"); EndElement (s3_name "ListBucketResult")].

Lemma namespaced_root_malformed_witness :
  exists before attrs after out,
    rewriteNamespaceXML listing_plan TokenExample.mapping "tenant/" "" (mkDecoder listing true) = Ok out /\
    out = before ++ StartElement (s3_name "ListBucketResult") attrs :: after /\
    ~ NoDup (written_attributes (s3_name "ListBucketResult") attrs).
Proof.
  destruct (rewriteNamespaceXML listing_plan TokenExample.mapping "tenant/" ""
              (mkDecoder listing true)) as [out|e] eqn:E; [|revert E; vm_compute; discriminate].
  destruct (namespaced_root_malformed listing_plan TokenExample.mapping "tenant/" "" [] (tail listing)
              (s3_name "ListBucketResult") [xmlns] true out) as (before & attrs & after & Ho & _ & Hd).
  - vm_compute. discriminate.
  - constructor.
  - reflexivity.
  - apply list_elem_of_here.
  - vm_compute. reflexivity.
  - exact E.
  - exists before, attrs, after, out. split; [reflexivity|]. split; [exact Ho|exact Hd].
Defined.

End ResponseExample.
