(* ===== verification/Middleware.v ===== *)
(** * Middleware: authenticating and authorizing a request ([http_server/s3_middleware.go])

    [S3Auth] is a program over the resolver: it authenticates a request, resolves its
    bucket, plans and authorizes it, and either answers an error or dispatches the plan
    with the mapping to the handler.  The clock skew of the configuration is an argument;
    messages that quote the request keep their fixed part; logging is not kept. *)
From S2P Require Import Prelude GoStrings GoTime GoNet GoUrl GoHttp Json Iam Errors Cache Client.
From S2P Require Import Names CopySource Operation S3Authz Crypto Base64 Token ListRewrite Auth.
From S2P Require Import GoURLs Flight Mapping Lookup Xml.

(** ** Request bodies *)

Definition maxCreateBucketConfigBytes : Z := 2 ^ 20.
Definition maxCompleteMultipartBytes : Z := 2 ^ 20.

Section bodies.
Context `{XmlLexer}.

(** A nil body is [None]. *)
Definition parseCreateBucketLocationConstraint (body : option stream) : result string string :=
  match body with
  | None => Ok ""
  | Some body =>
      match read_limited (maxCreateBucketConfigBytes + 1) body with
      | None => Err "read error"
      | Some data =>
          reject maxCreateBucketConfigBytes <? str_len data
            with "CreateBucketConfiguration is too large" ;;
          if str_len (TrimSpace data) =? 0 then Ok ""
          else
            match Unmarshal data (Some "CreateBucketConfiguration") "LocationConstraint" with
            | None => Err "unmarshal error"
            | Some (name, value) =>
                reject negb (String.eqb (x_Local name) "CreateBucketConfiguration")
                  with "unexpected CreateBucketConfiguration root" ;;
                Ok (TrimSpace value)
            end
      end
  end.

Definition with_control_body (data : string) (p : S3OperationPlan) : S3OperationPlan :=
  mkPlan (p_kind p) (p_bucket p) (p_objectKey p) (p_rawQuery p) (p_responseProfile p)
    (p_iamChecks p) (p_copySource p) (p_isVHost p) (p_locationConstraint p) (p_bodyKind p)
    data (p_method p) (str_len data) (p_forwardHeaders p) (p_query p)
    (p_secureTransport p) (p_signedAt p) (p_iamContext p) (p_authorizationReady p).

(** The document has no field of interest: [""] is the name of no element. *)
Definition withCompleteMultipartBody (body : option stream) (p : S3OperationPlan)
    : result string S3OperationPlan :=
  if negb (bool_decide (p_bodyKind p = bodyCompleteMultipartXML)) then Ok p
  else
    match body with
    | None => Err "CompleteMultipartUpload body is required"
    | Some body =>
        match read_limited (maxCompleteMultipartBytes + 1) body with
        | None => Err "read error"
        | Some data =>
            reject maxCompleteMultipartBytes <? str_len data
              with "CompleteMultipartUpload body is too large" ;;
            reject str_len (TrimSpace data) =? 0 with "CompleteMultipartUpload body is required" ;;
            match Unmarshal data (Some "CompleteMultipartUpload") "" with
            | None => Err "unmarshal error"
            | Some (name, _) =>
                reject negb (String.eqb (x_Local name) "CompleteMultipartUpload")
                  with "unexpected CompleteMultipartUpload root" ;;
                Ok (with_control_body data p)
            end
        end
    end.
End bodies.

(** ** The middleware *)

(** What the handler finds in the request's context. *)
Record s3_context := mkContext {
  cx_vbConfig : option VBucketConfig;
  cx_authInfo : AuthInfo;
  cx_plan : S3OperationPlan
}.

(** [ctx.Value] of the three keys, for a request the middleware dispatched ([Some]) or one
    it never saw. *)
Definition getVBucketConfig (ctx : option s3_context) : option VBucketConfig :=
  match ctx with Some cx => cx_vbConfig cx | None => None end.

Definition getAuthInfo (ctx : option s3_context) : option AuthInfo := cx_authInfo <$> ctx.

Definition getS3OperationPlan (ctx : option s3_context) : option S3OperationPlan := cx_plan <$> ctx.

Definition getBucketName (ctx : option s3_context) : string :=
  match getS3OperationPlan ctx with None => "" | Some plan => p_bucket plan end.

Definition getObjectKey (ctx : option s3_context) : string :=
  match getS3OperationPlan ctx with None => "" | Some plan => p_objectKey plan end.

Definition getIsVHost (ctx : option s3_context) : bool :=
  match getS3OperationPlan ctx with None => false | Some plan => p_isVHost plan end.

Definition getCreateLocationConstraint (ctx : option s3_context) : string :=
  match getS3OperationPlan ctx with None => "" | Some plan => p_locationConstraint plan end.

(** A context that the middleware left, looked up. *)
Ltac at_context :=
  cbn [getVBucketConfig getAuthInfo getS3OperationPlan getBucketName getCreateLocationConstraint
    fmap option_fmap option_map cx_plan cx_vbConfig cx_authInfo].

Definition authHeader_error (e : auth_error) : s3_error :=
  match e with
  | errRequestTimeTooSkewed =>
      mkS3Error 403 "RequestTimeTooSkewed"
        "The difference between the request time and server time is too large."
  | errUnsupportedPayloadHash =>
      mkS3Error 400 "InvalidRequest" "x-amz-content-sha256 must be UNSIGNED-PAYLOAD."
  | errUnsignedAmzHeader =>
      mkS3Error 403 "AccessDenied"
        "There were headers present in the request which were not signed."
  | errUnsupportedAuthMode detail =>
      mkS3Error 400 "InvalidRequest" ("unsupported authentication mode: " +:+ detail)
  | authFailed _ =>
      mkS3Error 403 "SignatureDoesNotMatch"
        "The request signature we calculated does not match the signature you provided."
  end.

(** The Authorization header of the request, read. *)
Definition authorization_of (r : HttpRequest) : result s3_error AuthInfo :=
  match Header_Values (r_Header r) "Authorization" with
  | [] => Err (mkS3Error 403 "AccessDenied" "Missing Authorization header")
  | header :: others =>
      reject String.eqb header ""
        with mkS3Error 403 "AccessDenied" "Missing Authorization header" ;;
      reject negb (length others =? 0)%nat
        with mkS3Error 400 "AuthorizationHeaderMalformed"
               "Authorization header must occur exactly once" ;;
      res_map_err (mkS3Error 400 "AuthorizationHeaderMalformed") (parseAuthorizationHeader header)
  end.

(** From the resolved bucket and key to the plan with its body. *)
Definition plan_of `{XmlLexer} (r : HttpRequest) (body : option stream)
    (bucket objectKey : string) (isVHost : bool) : result s3_error S3OperationPlan :=
  reject negb (String.eqb bucket "") && negb (isValidBucketName bucket)
    with mkS3Error 400 "InvalidBucketName" "The specified bucket is not valid." ;;
  let? plan :=
    res_map_err (fun _ => mkS3Error 400 "InvalidRequest"
                            "The requested S3 operation or request shape is not supported.")
      (planS3Operation r bucket objectKey) in
  let plan := withRequestMetadata isVHost "" plan in
  if bool_decide (p_bodyKind plan = bodyCompleteMultipartXML) then
    res_map_err (fun _ => mkS3Error 400 "InvalidRequest" "Invalid CompleteMultipartUpload body.")
      (withCompleteMultipartBody body plan)
  else Ok plan.

Section S3Auth.
Context `{XmlLexer} `{Platform} `{Timestamps} `{GrpcStatus} {CC VC : Type}
  `{TimedStore CC string (cached VirtualCredentials)}
  `{TimedStore VC string (cached VBucketConfig)}.

Abbreviation prog := (prog (CC:=CC) (VC:=VC)).

(** A step that may answer the request. *)
Definition or_answer {A B E} (to_error : E -> s3_error) (c : prog (result E A))
    (k : A -> prog (result s3_error B)) : prog (result s3_error B) :=
  bind c (fun r => match r with Ok a => k a | Err e => ret (Err (to_error e)) end).

Definition resolver_error (credentials : bool) (err : error) : s3_error :=
  writeResolverError err credentials.

Definition resolveBucket (r : HttpRequest) : prog (result error (string * string * bool)) :=
  let host := resolve_host r in
  let! answer := observe (LookupBaseHost host) in
  match answer with
  | Err err => ret (Err (Errorf "base host lookup" [err]))
  | Ok (baseHost, found) => ret (Ok (resolve_path host baseHost found r))
  end.

(** The credentials the resolver found; a nil pointer is not a valid response. *)
Definition found_credentials (o : option VirtualCredentials) : result error VirtualCredentials :=
  match o with Some c => Ok c | None => Err (Named ErrResolverInvalidResponse) end.

(** The mapping a plan needs, and the constraint of a bucket creation. *)
Definition locate (authInfo : AuthInfo) (body : option stream) (bucket : string) (isVHost : bool)
    (plan : S3OperationPlan)
    : prog (result s3_error (option VBucketConfig * string * S3OperationPlan)) :=
  match p_kind plan with
  | operationListBuckets => ret (Ok (None, "", plan))
  | operationCreateBucket =>
      match parseCreateBucketLocationConstraint body with
      | Err _ => ret (Err (mkS3Error 400 "InvalidArgument" "Invalid CreateBucketConfiguration"))
      | Ok constraint => ret (Ok (None, constraint, withRequestMetadata isVHost constraint plan))
      end
  | _ =>
      or_answer (resolver_error false) (LookupVBucket (AccessKeyID authInfo) bucket)
        (fun vbConfig => ret (Ok (vbConfig, "", plan)))
  end.

Definition S3Auth (maxSkew : Z) (r : HttpRequest) (body : option stream)
    : prog (result s3_error s3_context) :=
  or_answer id (ret (authorization_of r)) (fun authInfo =>
  or_answer (resolver_error false) (observe BeginResolution) (fun stamp =>
  or_answer (resolver_error true) (LookupCredentials (AccessKeyID authInfo)) (fun found =>
  or_answer (resolver_error true) (ret (found_credentials found)) (fun virtualCreds =>
  let! now := ask QNow in
  or_answer authHeader_error
    (ret (verifySignatureAtTime r (Some authInfo) (SecretKey virtualCreds) now maxSkew)) (fun _ =>
  or_answer (resolver_error false) (resolveBucket r) (fun '(bucket, objectKey, isVHost) =>
  or_answer id (ret (plan_of r body bucket objectKey isVHost)) (fun plan =>
  or_answer id (locate authInfo body bucket isVHost plan) (fun '(vbConfig, locationConstraint, plan) =>
  let! now := ask QNow in
  let plan := withAuthorizationContext locationConstraint now plan in
  or_answer id
    (ret (res_map_err (fun _ => mkS3Error 403 "AccessDenied" "Access Denied")
            (AuthorizeS3Plan (IAMPolicy virtualCreds) (Some plan)))) (fun _ =>
  or_answer (resolver_error false) (observe (ValidateResolution stamp)) (fun _ =>
  ret (Ok (mkContext vbConfig authInfo plan)))))))))))).
End S3Auth.
