(* ===== verification/Sharing.v ===== *)
(** * Sharing: the maps and slices behind a plan

    An operation plan is a pointer to a struct of maps, slices and pointers, and the
    methods that refine it ([clone], [withRequestMetadata], [withAuthorizationContext] of
    [s3_operation.go] and [iam.go]) copy some of them and write into the copies.  The rest
    of the development computes with values; here the same methods run on a heap, and are
    proved to compute those values, to write to no cell they did not allocate, and to
    seal a plan that shares no cell with anything else. *)
From S2P Require Import Prelude GoStrings GoTime GoUrl GoHttp Iam CopySource Operation S3Authz.

(** ** The heap *)

Abbreviation loc := positive.

(** A nil slice, map or pointer is [None].  A slice is its whole backing array: nothing
    here keeps a part of one. *)
Abbreviation ptr := (option loc).

Record hRequest := mkHRequest { hr_Action : string; hr_Resource : string; hr_Context : ptr }.

Record hPlan := mkHPlan {
  hp_kind : S3OperationKind;
  hp_bucket : string;
  hp_objectKey : string;
  hp_rawQuery : string;
  hp_responseProfile : S3ResponseProfile;
  hp_iamChecks : ptr;
  hp_copySource : ptr;
  hp_isVHost : bool;
  hp_locationConstraint : string;
  hp_bodyKind : s3BodyKind;
  hp_controlBody : ptr;
  hp_method : string;
  hp_contentLength : Z;
  hp_forwardHeaders : ptr;
  hp_query : ptr;
  hp_secureTransport : bool;
  hp_signedAt : string;
  hp_iamContext : ptr;
  hp_authorizationReady : bool
}.

(** What an address holds: a [[]string]'s array, a [map[string][]string], a
    [[]iam.Request]'s array, a [[]byte]'s array, a [copySource], a plan. *)
Inductive cell :=
| CStrings (values : list string)
| CDict (d : gmap string ptr)
| CChecks (checks : list hRequest)
| CBytes (b : string)
| CSource (s : copySource)
| CPlan (p : hPlan).

Record heap := mkHeap { next : loc; cells : gmap loc cell }.

(** [None] is a panic. *)
Definition M (A : Type) : Type := heap -> option (heap * A).

Definition ret {A} (a : A) : M A := fun h => Some (h, a).
Definition bind {A B} (m : M A) (f : A -> M B) : M B :=
  fun h => match m h with Some (h', a) => f a h' | None => None end.
Definition panic {A} : M A := fun _ => None.

#[local] Notation "'let*' x ':=' c 'in' k" := (bind c (fun x => k))
  (at level 10, x name, c at level 100, k at level 200).

Definition alloc (c : cell) : M loc :=
  fun h => Some (mkHeap (Pos.succ (next h)) (<[next h := c]> (cells h)), next h).
Definition read {A} (f : cell -> option A) (l : loc) : M A :=
  fun h => match cells h !! l ≫= f with Some a => Some (h, a) | None => None end.
Definition write (l : loc) (c : cell) : M unit :=
  fun h => Some (mkHeap (next h) (<[l := c]> (cells h)), tt).

Definition as_strings (c : cell) := match c with CStrings l => Some l | _ => None end.
Definition as_dict (c : cell) := match c with CDict d => Some d | _ => None end.
Definition as_checks (c : cell) := match c with CChecks l => Some l | _ => None end.
Definition as_bytes (c : cell) := match c with CBytes b => Some b | _ => None end.
Definition as_source (c : cell) := match c with CSource s => Some s | _ => None end.
Definition as_plan (c : cell) := match c with CPlan p => Some p | _ => None end.

(** ** Copies *)

(** [append([]string(nil), values...)] *)
Definition append_strings (v : ptr) : M ptr :=
  match v with
  | None => ret None
  | Some l =>
      let* values := read as_strings l in
      if decide (values = []) then ret None
      else let* l' := alloc (CStrings values) in ret (Some l')
  end.

(** A slice of [http.Header.Clone], which keeps an empty one. *)
Definition header_strings (v : ptr) : M ptr :=
  match v with
  | None => ret None
  | Some l =>
      let* values := read as_strings l in
      let* l' := alloc (CStrings values) in ret (Some l')
  end.

(** [m[key] = v]: writing to a nil map panics. *)
Definition dict_set (m : ptr) (key : string) (v : ptr) : M unit :=
  match m with
  | None => panic
  | Some l => let* d := read as_dict l in write l (CDict (<[key := v]> d))
  end.

(** [for key, values := range items { to[key] = copy(values) }] *)
Fixpoint copy_entries (copy : ptr -> M ptr) (to : ptr) (items : list (string * ptr)) : M unit :=
  match items with
  | [] => ret tt
  | (key, values) :: items =>
      let* v := copy values in
      let* _ := dict_set to key v in
      copy_entries copy to items
  end.

Definition copy_dict (copy : ptr -> M ptr) (d : gmap string ptr) : M ptr :=
  let* l := alloc (CDict ∅) in
  let* _ := copy_entries copy (Some l) (map_to_list d) in
  ret (Some l).

Definition cloneIAMContext (ctx : ptr) : M ptr :=
  match ctx with
  | None => ret None
  | Some l => let* d := read as_dict l in copy_dict append_strings d
  end.

Definition cloneURLValues (values : ptr) : M ptr :=
  match values with
  | None => copy_dict append_strings ∅
  | Some l => let* d := read as_dict l in copy_dict append_strings d
  end.

(** [http.Header.Clone] *)
Definition Header_Clone (h : ptr) : M ptr :=
  match h with
  | None => ret None
  | Some l => let* d := read as_dict l in copy_dict header_strings d
  end.

(** [append([]iam.Request(nil), checks...)]: the contexts stay shared. *)
Definition append_checks (v : ptr) : M ptr :=
  match v with
  | None => ret None
  | Some l =>
      let* checks := read as_checks l in
      if decide (checks = []) then ret None
      else let* l' := alloc (CChecks checks) in ret (Some l')
  end.

(** [append([]byte(nil), data...)] *)
Definition new_bytes (data : string) : M ptr :=
  if String.eqb data "" then ret None else let* l := alloc (CBytes data) in ret (Some l).

Definition append_bytes (v : ptr) : M ptr :=
  match v with None => ret None | Some l => let* b := read as_bytes l in new_bytes b end.

Definition copy_source (v : ptr) : M ptr :=
  match v with
  | None => ret None
  | Some l => let* s := read as_source l in let* l' := alloc (CSource s) in ret (Some l')
  end.

(** ** Plans *)

Definition with_parts (checks source body headers query ctx : ptr) (p : hPlan) : hPlan :=
  mkHPlan (hp_kind p) (hp_bucket p) (hp_objectKey p) (hp_rawQuery p) (hp_responseProfile p)
    checks source (hp_isVHost p) (hp_locationConstraint p) (hp_bodyKind p) body (hp_method p)
    (hp_contentLength p) headers query (hp_secureTransport p) (hp_signedAt p) ctx
    (hp_authorizationReady p).

Definition clone (l : loc) : M loc :=
  let* p := read as_plan l in
  let* checks := append_checks (hp_iamChecks p) in
  let* headers := Header_Clone (hp_forwardHeaders p) in
  let* query := cloneURLValues (hp_query p) in
  let* body := append_bytes (hp_controlBody p) in
  let* ctx := cloneIAMContext (hp_iamContext p) in
  let* source := copy_source (hp_copySource p) in
  alloc (CPlan (with_parts checks source body headers query ctx p)).

Definition set_metadata (isVHost : bool) (locationConstraint : string) (p : hPlan) : hPlan :=
  mkHPlan (hp_kind p) (hp_bucket p) (hp_objectKey p) (hp_rawQuery p) (hp_responseProfile p)
    (hp_iamChecks p) (hp_copySource p) isVHost locationConstraint (hp_bodyKind p)
    (hp_controlBody p) (hp_method p) (hp_contentLength p) (hp_forwardHeaders p) (hp_query p)
    (hp_secureTransport p) (hp_signedAt p) (hp_iamContext p) (hp_authorizationReady p).

Definition set_body (body : ptr) (contentLength : Z) (p : hPlan) : hPlan :=
  mkHPlan (hp_kind p) (hp_bucket p) (hp_objectKey p) (hp_rawQuery p) (hp_responseProfile p)
    (hp_iamChecks p) (hp_copySource p) (hp_isVHost p) (hp_locationConstraint p) (hp_bodyKind p)
    body (hp_method p) contentLength (hp_forwardHeaders p) (hp_query p)
    (hp_secureTransport p) (hp_signedAt p) (hp_iamContext p) (hp_authorizationReady p).

Definition set_context (ctx : ptr) (ready : bool) (p : hPlan) : hPlan :=
  mkHPlan (hp_kind p) (hp_bucket p) (hp_objectKey p) (hp_rawQuery p) (hp_responseProfile p)
    (hp_iamChecks p) (hp_copySource p) (hp_isVHost p) (hp_locationConstraint p) (hp_bodyKind p)
    (hp_controlBody p) (hp_method p) (hp_contentLength p) (hp_forwardHeaders p) (hp_query p)
    (hp_secureTransport p) (hp_signedAt p) ctx ready.

(** Assignments to fields of [*l] *)
Definition update (f : hPlan -> hPlan) (l : loc) : M unit :=
  let* p := read as_plan l in write l (CPlan (f p)).

Definition withRequestMetadata (isVHost : bool) (locationConstraint : string) (l : loc) : M loc :=
  let* l' := clone l in
  let* _ := update (set_metadata isVHost locationConstraint) l' in
  ret l'.

(** The end of [withCompleteMultipartBody], for a body that was read and accepted *)
Definition install_body (data : string) (l : loc) : M loc :=
  let* l' := clone l in
  let* body := new_bytes data in
  let* _ := update (set_body body (str_len data)) l' in
  ret l'.

(** [ctx[key] = []string{value}] *)
Definition ctx_set (ctx : ptr) (key value : string) : M unit :=
  let* l := alloc (CStrings [value]) in dict_set ctx key (Some l).

(** The assignments to [ctx] *)
Definition fill_context (locationConstraint signedAt : string) (now : Time) (ctx : ptr) : M unit :=
  let* _ := ctx_set ctx "aws:currenttime" (FormatRFC3339 now) in
  let* _ := ctx_set ctx "aws:epochtime" (FormatInt (unix_of now)) in
  let* _ := (if negb (String.eqb locationConstraint "")
             then ctx_set ctx "s3:locationconstraint" locationConstraint else ret tt) in
  match ParseAmzDate signedAt with
  | None => ret tt
  | Some t => ctx_set ctx "s3:signatureage" (FormatInt (Milliseconds (Z.max 0 (Sub now t))))
  end.

(** [checks[i].Context = ctx] *)
Definition set_check (checks : ptr) (i : nat) (ctx : ptr) : M unit :=
  match checks with
  | None => panic
  | Some l =>
      let* cs := read as_checks l in
      match cs !! i with
      | None => panic
      | Some c => write l (CChecks (<[i := mkHRequest (hr_Action c) (hr_Resource c) ctx]> cs))
      end
  end.

(** [for i := range ... { checks[i].Context = cloneIAMContext(source of i) }] *)
Fixpoint set_contexts (checks : ptr) (sources : list (nat * ptr)) : M unit :=
  match sources with
  | [] => ret tt
  | (i, ctx) :: sources =>
      let* c := cloneIAMContext ctx in
      let* _ := set_check checks i c in
      set_contexts checks sources
  end.

Definition check_list (v : ptr) : M (list hRequest) :=
  match v with None => ret [] | Some l => read as_checks l end.

(** [for i := range plan.iamChecks { plan.iamChecks[i].Context = cloneIAMContext(ctx) }] *)
Definition seal_checks (checks ctx : ptr) : M unit :=
  let* cs := check_list checks in
  set_contexts checks ((fun i => (i, ctx)) <$> seq 0 (length cs)).

(** [ctx], and the copy of it that [plan.iamContext] gets *)
Definition build_contexts (locationConstraint signedAt : string) (now : Time) (iamContext : ptr)
    : M (ptr * ptr) :=
  let* ctx := cloneIAMContext iamContext in
  let* _ := fill_context locationConstraint signedAt now ctx in
  let* sealed := cloneIAMContext ctx in
  ret (ctx, sealed).

Definition withAuthorizationContext (locationConstraint : string) (now : Time) (l : loc) : M loc :=
  let* l' := clone l in
  let* p := read as_plan l' in
  let* _ := update (set_metadata (hp_isVHost p) locationConstraint) l' in
  let* contexts := build_contexts locationConstraint (hp_signedAt p) now (hp_iamContext p) in
  let* _ := update (set_context contexts.2 (hp_authorizationReady p)) l' in
  let* _ := seal_checks (hp_iamChecks p) contexts.1 in
  let* _ := update (set_context contexts.2 true) l' in
  ret l'.

(** ** Authorization *)

(** A context's entries, as [policy.Authorize] reads them *)
Definition load_strings (v : ptr) : M (list string) :=
  match v with None => ret [] | Some l => read as_strings l end.

Fixpoint load_entries (items : list (string * ptr)) : M (gmap string (list string)) :=
  match items with
  | [] => ret ∅
  | (key, v) :: items =>
      let* values := load_strings v in
      let* rest := load_entries items in
      ret (<[key := values]> rest)
  end.

Definition load_dict (v : ptr) : M (gmap string (list string)) :=
  match v with
  | None => ret ∅
  | Some l => let* d := read as_dict l in load_entries (map_to_list d)
  end.

Definition buildS3IAMRequestsFromPlan (p : hPlan) : M loc :=
  let* cs := check_list (hp_iamChecks p) in
  let* l := alloc (CChecks cs) in
  let* _ := set_contexts (Some l) (zip (seq 0 (length cs)) (hr_Context <$> cs)) in
  ret l.

Fixpoint authorize_checks (policy : option Policy) (checks : list hRequest)
    : M (result authz_error unit) :=
  match checks with
  | [] => ret (Ok tt)
  | c :: checks =>
      let* ctx := load_dict (hr_Context c) in
      match Authorize policy (mkRequest (hr_Action c) (hr_Resource c) ctx) with
      | Err e => ret (Err (AuthzDenied e))
      | Ok _ => authorize_checks policy checks
      end
  end.

Definition AuthorizeS3Plan (policy : option Policy) (plan : ptr) : M (result authz_error unit) :=
  match plan with
  | None => ret (Err AuthzMalformed)
  | Some l =>
      let* p := read as_plan l in
      if negb (hp_authorizationReady p) then ret (Err AuthzMalformed)
      else
        let* checks := buildS3IAMRequestsFromPlan p in
        let* cs := read as_checks checks in
        authorize_checks policy cs
  end.

(** ** Weakest preconditions *)

Definition spec {A} (m : M A) (h : heap) (Q : heap -> A -> Prop) : Prop :=
  match m h with Some (h', a) => Q h' a | None => False end.

Lemma spec_bind {A B} (m : M A) (f : A -> M B) h Q :
  spec m h (fun h' a => spec (f a) h' Q) -> spec (bind m f) h Q.
Proof. unfold spec, bind. by destruct (m h) as [[]|]. Qed.

Lemma spec_mono {A} (m : M A) h (Q Q' : heap -> A -> Prop) :
  spec m h Q -> (forall h' a, Q h' a -> Q' h' a) -> spec m h Q'.
Proof. unfold spec. destruct (m h) as [[]|]; auto. Qed.

Lemma spec_read {A} (f : cell -> option A) l h a (Q : heap -> A -> Prop) :
  cells h !! l ≫= f = Some a -> Q h a -> spec (read f l) h Q.
Proof. unfold spec, read. by intros ->. Qed.

Definition heap_ok (h : heap) : Prop := forall x c, cells h !! x = Some c -> (x < next h)%positive.

(** A cell below [b] is as it was. *)
Record grows (b : loc) (h h' : heap) : Prop := {
  g_ok : heap_ok h';
  g_next : (next h <= next h')%positive;
  g_below x : (x < b)%positive -> cells h' !! x = cells h !! x
}.

Lemma grows_refl b h : heap_ok h -> grows b h h.
Proof. by split. Qed.

Lemma grows_trans b b' h1 h2 h3 :
  grows b h1 h2 -> grows b' h2 h3 -> (b <= b')%positive -> grows b h1 h3.
Proof.
  intros [? ? H1] [? ? H2] Hb. split; [done|lia|]. intros x Hx. rewrite H2 by lia. by apply H1.
Qed.

Lemma grows_weaken b b' h h' : grows b' h h' -> (b <= b')%positive -> grows b h h'.
Proof. intros [? ? Hg] Hb. split; [done..|]. intros x Hx. apply Hg. lia. Qed.

Lemma spec_alloc c h (Q : heap -> loc -> Prop) :
  heap_ok h ->
  (forall h', grows (next h) h h' -> next h' = Pos.succ (next h) -> cells h' !! next h = Some c ->
     Q h' (next h)) ->
  spec (alloc c) h Q.
Proof.
  intros Hok HQ. apply HQ; cbn [next cells]; [split; cbn [next cells]|done|apply lookup_insert_eq].
  - intros x c'. cbn [next cells]. rewrite lookup_insert_Some. intros [[<- _]|[_ Hx]]; [lia|]. apply Hok in Hx. lia.
  - lia.
  - intros x Hx. apply lookup_insert_ne. lia.
Qed.

Lemma spec_write b l c h (Q : heap -> unit -> Prop) :
  heap_ok h -> (b <= l < next h)%positive ->
  (forall h', grows b h h' -> next h' = next h -> cells h' !! l = Some c ->
     (forall x, x <> l -> cells h' !! x = cells h !! x) -> Q h' tt) ->
  spec (write l c) h Q.
Proof.
  intros Hok Hl HQ. apply HQ; cbn [next cells]; [split; cbn [next cells]|done|apply lookup_insert_eq|].
  - intros x c'. cbn [next cells]. rewrite lookup_insert_Some. intros [[<- _]|[_ Hx]]; [lia|]. by eapply Hok.
  - lia.
  - intros x Hx. apply lookup_insert_ne. lia.
  - intros x Hx. by apply lookup_insert_ne.
Qed.

(** ** What a pointer denotes *)

Definition slice_is (h : heap) (v : ptr) (values : list string) : Prop :=
  match v with None => values = [] | Some l => cells h !! l = Some (CStrings values) end.

Definition dict_is (h : heap) (v : ptr) (m : gmap string (list string)) : Prop :=
  match v with
  | None => m = ∅
  | Some l => exists d, cells h !! l = Some (CDict d) /\ map_Forall2 (fun _ => slice_is h) d m
  end.

Definition check_is (h : heap) (hr : hRequest) (r : Request) : Prop :=
  hr_Action hr = rq_action r /\ hr_Resource hr = rq_resource r /\
  dict_is h (hr_Context hr) (rq_context r).

Definition checks_is (h : heap) (v : ptr) (checks : list Request) : Prop :=
  match v with
  | None => checks = []
  | Some l => exists cs, cells h !! l = Some (CChecks cs) /\ Forall2 (check_is h) cs checks
  end.

Definition bytes_is (h : heap) (v : ptr) (b : string) : Prop :=
  match v with None => b = "" | Some l => cells h !! l = Some (CBytes b) end.

Definition source_is (h : heap) (v : ptr) (s : option copySource) : Prop :=
  match v with
  | None => s = None
  | Some l => exists s', s = Some s' /\ cells h !! l = Some (CSource s')
  end.

(** The fields of a plan that are values *)
Definition scalars_are (hp : hPlan) (p : S3OperationPlan) : Prop :=
  hp_kind hp = p_kind p /\ hp_bucket hp = p_bucket p /\ hp_objectKey hp = p_objectKey p /\
  hp_rawQuery hp = p_rawQuery p /\ hp_responseProfile hp = p_responseProfile p /\
  hp_isVHost hp = p_isVHost p /\ hp_locationConstraint hp = p_locationConstraint p /\
  hp_bodyKind hp = p_bodyKind p /\ hp_method hp = p_method p /\
  hp_contentLength hp = p_contentLength p /\ hp_secureTransport hp = p_secureTransport p /\
  hp_signedAt hp = p_signedAt p /\ hp_authorizationReady hp = p_authorizationReady p.

Record fields_are (h : heap) (hp : hPlan) (p : S3OperationPlan) : Prop := {
  fa_scalars : scalars_are hp p;
  fa_checks : checks_is h (hp_iamChecks hp) (p_iamChecks p);
  fa_source : source_is h (hp_copySource hp) (p_copySource p);
  fa_body : bytes_is h (hp_controlBody hp) (p_controlBody p);
  fa_headers : dict_is h (hp_forwardHeaders hp) (p_forwardHeaders p);
  fa_query : dict_is h (hp_query hp) (p_query p);
  fa_context : dict_is h (hp_iamContext hp) (p_iamContext p)
}.

Definition plan_is (h : heap) (l : loc) (p : S3OperationPlan) : Prop :=
  exists hp, cells h !! l = Some (CPlan hp) /\ fields_are h hp p.

(** ** The cells behind a pointer, with repetitions *)

Definition slice_locs (d : gmap string ptr) : list loc := omap id (map_to_list d).*2.

Definition dict_locs (h : heap) (v : ptr) : list loc :=
  match v with
  | None => []
  | Some l => l :: match cells h !! l with Some (CDict d) => slice_locs d | _ => [] end
  end.

Definition check_locs (h : heap) (v : ptr) : list loc :=
  match v with
  | None => []
  | Some l =>
      l :: match cells h !! l with
           | Some (CChecks cs) => cs ≫= (fun c => dict_locs h (hr_Context c))
           | _ => []
           end
  end.

Definition plan_locs (h : heap) (l : loc) : list loc :=
  l :: match cells h !! l with
       | Some (CPlan hp) =>
           check_locs h (hp_iamChecks hp) ++ option_list (hp_copySource hp)
           ++ option_list (hp_controlBody hp) ++ dict_locs h (hp_forwardHeaders hp)
           ++ dict_locs h (hp_query hp) ++ dict_locs h (hp_iamContext hp)
       | _ => []
       end.

(** ** Footprints *)

Definition fresh_in (a b : loc) (l : list loc) : Prop :=
  NoDup l /\ Forall (fun x => (a <= x < b)%positive) l.

Lemma fresh_in_nil a b : fresh_in a b [].
Proof. by split; [constructor|]. Qed.

Lemma fresh_in_app a b b' c l1 l2 :
  fresh_in a b l1 -> fresh_in b' c l2 -> (b <= b')%positive -> (a <= b')%positive -> (b <= c)%positive ->
  fresh_in a c (l1 ++ l2).
Proof.
  intros [N1 F1] [N2 F2] ? ? ?. rewrite Forall_forall in F1, F2. split.
  - apply NoDup_app. split_and!; [done| |done]. intros x Hx1 Hx2.
    specialize (F1 _ Hx1). specialize (F2 _ Hx2). lia.
  - apply Forall_app. split; apply Forall_forall; intros x Hx; [specialize (F1 _ Hx)|specialize (F2 _ Hx)]; lia.
Qed.

Lemma fresh_in_weaken a a' b b' l :
  fresh_in a b l -> (a' <= a)%positive -> (b <= b')%positive -> fresh_in a' b' l.
Proof. intros [N F] ? ?. split; [done|]. eapply Forall_impl; [exact F|]. cbn. lia. Qed.

Lemma fresh_in_perm a b l l' : l ≡ₚ l' -> fresh_in a b l -> fresh_in a b l'.
Proof. unfold fresh_in. by intros ->. Qed.

Lemma fresh_in_one a b l : (a <= l < b)%positive -> fresh_in a b [l].
Proof. intros ?. split; [apply NoDup_singleton|]. by apply Forall_singleton. Qed.

Lemma elem_of_slice_locs x d : x ∈ slice_locs d <-> exists k, d !! k = Some (Some x).
Proof.
  unfold slice_locs. rewrite list_elem_of_omap. split.
  - intros (v & Hv & [=->]). apply list_elem_of_fmap in Hv as ([k w] & -> & Hk).
    exists k. by apply elem_of_map_to_list in Hk.
  - intros [k Hk]. exists (Some x). split; [|done]. apply list_elem_of_fmap. exists (k, Some x).
    split; [done|]. by apply elem_of_map_to_list.
Qed.

Lemma omap_id_cons (v : ptr) (l : list ptr) : omap id (v :: l) = option_list v ++ omap id l.
Proof. by destruct v. Qed.

Lemma slice_locs_insert d k v : slice_locs (<[k:=v]> d) ≡ₚ option_list v ++ slice_locs (delete k d).
Proof.
  unfold slice_locs. rewrite <-insert_delete_eq, map_to_list_insert by apply lookup_delete_eq.
  cbn [fmap list_fmap snd]. by rewrite omap_id_cons.
Qed.

Lemma slice_locs_delete d k : exists rest, slice_locs d ≡ₚ rest ++ slice_locs (delete k d).
Proof.
  destruct (d !! k) as [v|] eqn:E.
  - exists (option_list v). rewrite <-slice_locs_insert. by rewrite insert_id.
  - exists []. by rewrite delete_id.
Qed.

(** Replacing the array of a key keeps a footprint free of repetitions. *)
Lemma fresh_in_insert a b c l d k v :
  fresh_in a b (l :: slice_locs d) -> fresh_in b c (option_list v) -> (a <= b <= c)%positive ->
  fresh_in a c (l :: slice_locs (<[k:=v]> d)).
Proof.
  intros Hl Hv Hc. apply (fresh_in_perm _ _ ((l :: slice_locs (delete k d)) ++ option_list v)).
  { rewrite slice_locs_insert. cbn. by rewrite (comm (++)). }
  destruct (slice_locs_delete d k) as [rest Hr].
  apply (fresh_in_app a b b c); [|exact Hv|lia..].
  assert (fresh_in a b (rest ++ l :: slice_locs (delete k d))) as [N F].
  { eapply fresh_in_perm; [|exact Hl]. rewrite Hr. by rewrite Permutation_middle. }
  apply NoDup_app in N as (_ & _ & N). apply Forall_app in F as [_ F]. by split.
Qed.

(** Only the cells behind a pointer matter to it. *)
Definition same_on (l : list loc) (h h' : heap) : Prop :=
  forall x, x ∈ l -> cells h' !! x = cells h !! x.

Lemma same_on_app l1 l2 h h' : same_on (l1 ++ l2) h h' -> same_on l1 h h' /\ same_on l2 h h'.
Proof. unfold same_on. setoid_rewrite elem_of_app. auto. Qed.

Lemma same_on_grows a b l h h' : fresh_in a b l -> grows b h h' -> same_on l h h'.
Proof.
  intros [_ F] [_ _ Hg] x Hx. rewrite Forall_forall in F. apply Hg. specialize (F _ Hx). lia.
Qed.

Lemma dict_frame h h' v m :
  dict_is h v m -> same_on (dict_locs h v) h h' -> dict_is h' v m /\ dict_locs h' v = dict_locs h v.
Proof.
  destruct v as [l|]; [|done]. intros (d & Hd & Hm). cbn. rewrite Hd. intros Hs.
  rewrite Hs, Hd by left. split; [|done]. exists d. split; [done|].
  intros k. specialize (Hm k). inversion Hm as [v vs Hv E1 E2|]; constructor.
  destruct v as [x|]; [|done]. cbn in *. rewrite Hs; [done|]. right.
  apply elem_of_slice_locs. by exists k.
Qed.

Lemma slice_below h v vs : heap_ok h -> slice_is h v vs -> Forall (fun x => (x < next h)%positive) (option_list v).
Proof. intros Hok. destruct v as [l|]; cbn; [|done]. intros Hl. apply Forall_singleton. by eapply Hok. Qed.

Lemma dict_below h v m :
  heap_ok h -> dict_is h v m -> Forall (fun x => (x < next h)%positive) (dict_locs h v).
Proof.
  intros Hok. destruct v as [l|]; [|done]. intros (d & Hd & Hm). cbn. rewrite Hd.
  constructor; [by eapply Hok|]. apply Forall_forall. intros x [k Hk]%elem_of_slice_locs.
  specialize (Hm k). rewrite Hk in Hm. inversion Hm as [? vs Hv|]; subst. by eapply Hok.
Qed.

Lemma same_on_below h h' b l :
  Forall (fun x => (x < b)%positive) l -> grows b h h' -> same_on l h h'.
Proof. intros F [_ _ Hg] x Hx. rewrite Forall_forall in F. by apply Hg, F. Qed.

Lemma dict_grows b h h' v m :
  heap_ok h -> dict_is h v m -> grows b h h' -> (next h <= b)%positive -> dict_is h' v m.
Proof.
  intros Hok Hd Hg Hb. eapply dict_frame; [done|]. eapply same_on_below; [by eapply dict_below|].
  by eapply grows_weaken.
Qed.

(** A dictionary alone in the cells from [a] to [b] *)
Definition dict_in (a b : loc) (h : heap) (v : ptr) (m : gmap string (list string)) : Prop :=
  dict_is h v m /\ fresh_in a b (dict_locs h v).

Lemma dict_in_grows a b c h h' v m :
  dict_in a b h v m -> grows c h h' -> (b <= c)%positive -> dict_in a b h' v m.
Proof.
  intros [Hd Hf] Hg Hc. destruct (dict_frame h h' v m Hd) as [? E]; [|by split; rewrite ?E].
  eapply same_on_grows; [exact Hf|]. by eapply grows_weaken.
Qed.

(** ** Copies *)

Definition copies (copy : ptr -> M ptr) : Prop :=
  forall h v vs, heap_ok h -> slice_is h v vs ->
    spec (copy v) h (fun h' v' => grows (next h) h h' /\ slice_is h' v' vs /\
      fresh_in (next h) (next h') (option_list v')).

Lemma copies_alloc h vs :
  heap_ok h ->
  spec (bind (alloc (CStrings vs)) (fun l' => ret (Some l'))) h
    (fun h' v' => grows (next h) h h' /\ slice_is h' v' vs /\ fresh_in (next h) (next h') (option_list v')).
Proof.
  intros Hok. apply spec_bind, spec_alloc; [done|]. intros h' Hg Hn Hc. split_and!; [done..|].
  apply fresh_in_one. lia.
Qed.

Lemma copies_append : copies append_strings.
Proof.
  intros h [l|] vs Hok Hv; cbn in *.
  - apply spec_bind. eapply spec_read; [by rewrite Hv|]. case_decide as E; [|by apply copies_alloc].
    split_and!; [by apply grows_refl|done|apply fresh_in_nil].
  - split_and!; [by apply grows_refl|done|apply fresh_in_nil].
Qed.

Lemma copies_header : copies header_strings.
Proof.
  intros h [l|] vs Hok Hv; cbn in *.
  - apply spec_bind. eapply spec_read; [by rewrite Hv|]. by apply copies_alloc.
  - split_and!; [by apply grows_refl|done|apply fresh_in_nil].
Qed.

Lemma dict_set_spec a b h l m k v vs :
  heap_ok h -> dict_in a b h (Some l) m -> slice_is h v vs -> fresh_in b (next h) (option_list v) ->
  (b <= next h)%positive ->
  spec (dict_set (Some l) k v) h (fun h' _ => grows a h h' /\ next h' = next h /\
    dict_in a (next h) h' (Some l) (<[k:=vs]> m)).
Proof.
  intros Hok [(d & Hd & Hm) Hf] Hv Hfv Hb. cbn in Hf. rewrite Hd in Hf.
  assert (a <= l < b)%positive as Hl by (destruct Hf as [_ F]; by inversion F).
  cbn. apply spec_bind. eapply spec_read; [by rewrite Hd|].
  apply (spec_write a); [done|lia|]. intros h' Hg Hn Hc Ho.
  assert (forall w ws, (forall x, w = Some x -> x <> l) -> slice_is h w ws -> slice_is h' w ws) as Hs.
  { intros [x|] ws Hx; cbn; [|done]. rewrite Ho; [done|by apply Hx]. }
  split_and!; [done..|]. split.
  - eexists. split; [done|]. apply map_Forall2_insert_2.
    + apply Hs; [|done]. intros x ->. destruct Hfv as [_ F]. inversion F; subst. lia.
    + intros k'. specialize (Hm k'). inversion Hm as [w ws Hw E1 E2|]; constructor.
      apply Hs; [|done]. intros x -> ->. destruct Hf as [N _]. apply NoDup_cons in N as [N _].
      apply N, elem_of_slice_locs. by exists k'.
  - cbn. rewrite Hc. eapply fresh_in_insert; [done..|]. lia.
Qed.

Abbreviation put_all := (foldl (fun (m : gmap string (list string)) km => <[km.1:=km.2]> m)).

Lemma put_all_union ms m :
  NoDup ms.*1 -> put_all m ms = list_to_map ms ∪ m.
Proof.
  revert m. induction ms as [|[k vs] ms IH]; intros m; cbn; [intros _; by rewrite (left_id_L ∅ (∪))|].
  intros [Hk Hn]%NoDup_cons. rewrite IH by done.
  rewrite <-insert_union_r, insert_union_l; [done|].
  by apply not_elem_of_list_to_map_1.
Qed.

Lemma put_all_entries (d : gmap string ptr) (m : gmap string (list string)) R :
  map_Forall2 R d m -> exists ms, put_all ∅ ms = m /\
    Forall2 (fun kv km => kv.1 = km.1 /\ R kv.1 kv.2 km.2) (map_to_list d) ms.
Proof.
  intros Hm. exists ((fun kv => (kv.1, default [] (m !! kv.1))) <$> map_to_list d).
  assert (forall k v, d !! k = Some v -> exists vs, m !! k = Some vs /\ R k v vs) as Hk.
  { intros k v E. specialize (Hm k). rewrite E in Hm. inversion Hm as [? vs Hr E1 E2|]. eauto. }
  split.
  - rewrite put_all_union, (right_id_L ∅ (∪)).
    2:{ rewrite <-list_fmap_compose. apply NoDup_fst_map_to_list. }
    apply map_eq. intros k. destruct (d !! k) as [v|] eqn:E.
    + destruct (Hk _ _ E) as (vs & Em & _). rewrite Em. apply elem_of_list_to_map_1.
      { rewrite <-list_fmap_compose. apply NoDup_fst_map_to_list. }
      apply list_elem_of_fmap. exists (k, v). split; [|by apply elem_of_map_to_list].
      cbn. by rewrite Em.
    + assert (m !! k = None) as -> by (specialize (Hm k); rewrite E in Hm; by inversion Hm).
      apply not_elem_of_list_to_map_1. rewrite <-list_fmap_compose. intros Hin.
      apply list_elem_of_fmap in Hin as ([k' v] & -> & Hin%elem_of_map_to_list). cbn in *. congruence.
  - apply Forall2_fmap_r, Forall_Forall2_diag, Forall_forall. intros [k v] Hin%elem_of_map_to_list.
    destruct (Hk _ _ Hin) as (vs & E & Hr). cbn. by rewrite E.
Qed.

Lemma copy_entries_spec copy items ms h a l m :
  copies copy -> heap_ok h -> (a <= next h)%positive -> dict_in a (next h) h (Some l) m ->
  Forall2 (fun kv km => kv.1 = km.1 /\ slice_is h kv.2 km.2 /\
    Forall (fun x => (x < a)%positive) (option_list kv.2)) items ms ->
  spec (copy_entries copy (Some l) items) h (fun h' _ =>
    grows a h h' /\ dict_in a (next h') h' (Some l) (put_all m ms)).
Proof.
  intros Hc Hok Ha Hd Hms. revert h m Hok Ha Hd Hms.
  induction items as [|[k v] items IH] in ms |- *; intros h m Hok Ha Hd Hms;
    inversion Hms as [|? [k' vs] ? ms' (Hk & Hv & _) Hms' E1 E2]; subst; cbn in *.
  { split; [by apply grows_refl|done]. }
  subst k'. apply spec_bind. eapply spec_mono; [by apply Hc|]. intros h1 v' (Hg1 & Hv' & Hf).
  apply spec_bind. eapply spec_mono.
  { apply (dict_set_spec a (next h)); [apply Hg1| |exact Hv'|exact Hf|apply Hg1].
    apply (dict_in_grows a (next h) (next h) h h1); [exact Hd|exact Hg1|reflexivity]. }
  intros h2 _ (Hg2 & Hn & Hd2). rewrite <-Hn in Hd2.
  assert (grows a h h2) as Hg by (eapply grows_trans; [by eapply grows_weaken|exact Hg2|lia]).
  eapply spec_mono; [eapply (IH ms' h2)|].
  - apply Hg.
  - destruct Hg. lia.
  - exact Hd2.
  - eapply Forall2_impl; [exact Hms'|]. intros kv km (? & Hs & Hb). split_and!; [done| |done].
    destruct (kv.2) as [x|]; [|done]. cbn in *. rewrite (g_below _ _ _ Hg); [done|]. by inversion Hb.
  - intros h3 _ [Hg3 Hd3]. split; [|done]. eapply grows_trans; [exact Hg|exact Hg3|lia].
Qed.

Lemma copy_dict_spec copy d h m :
  copies copy -> heap_ok h -> map_Forall2 (fun _ => slice_is h) d m ->
  spec (copy_dict copy d) h (fun h' v => exists l, v = Some l /\
    grows (next h) h h' /\ dict_in (next h) (next h') h' v m).
Proof.
  intros Hc Hok Hm. destruct (put_all_entries _ _ _ Hm) as (ms & <- & Hms).
  unfold copy_dict. apply spec_bind, spec_alloc; [done|]. intros h1 Hg1 Hn1 Hl.
  apply spec_bind. eapply spec_mono.
  - apply (copy_entries_spec _ _ ms h1 (next h) _ ∅); [done|apply Hg1|lia| |].
    + split; [exists ∅; split; [done|apply map_Forall2_empty]|]. cbn. rewrite Hl.
      unfold slice_locs. rewrite map_to_list_empty. apply fresh_in_one. lia.
    + eapply Forall2_impl; [exact Hms|]. intros [k v] [k' vs] [? Hs]. cbn in *.
      pose proof (slice_below _ _ _ Hok Hs) as Hb. split_and!; [done| |done].
      destruct v as [x|]; [|done]. cbn in *. rewrite (g_below _ _ _ Hg1); [done|]. by inversion Hb.
  - intros h2 _ [Hg2 Hd]. eexists. split_and!; [done| |exact Hd].
    eapply grows_trans; [exact Hg1|exact Hg2|lia].
Qed.

(** What a copy of a dictionary does; a copy of nil may be nil. *)
Definition copies_dict (copy : ptr -> M ptr) : Prop :=
  forall h v m, heap_ok h -> dict_is h v m ->
    spec (copy v) h (fun h' v' => grows (next h) h h' /\ dict_in (next h) (next h') h' v' m /\
      (is_Some v -> is_Some v')).

Lemma copies_dict_nil h v : heap_ok h -> grows (next h) h h /\ dict_in (next h) (next h) h None ∅ /\
  (is_Some (None : ptr) -> is_Some (v : ptr)).
Proof. intros Hok. split_and!; [by apply grows_refl|by split; [|apply fresh_in_nil]|by intros []]. Qed.

Lemma copies_dict_some copy l h m (f : ptr -> M ptr) :
  copies copy -> heap_ok h -> dict_is h (Some l) m ->
  (forall h, f (Some l) h = bind (read as_dict l) (copy_dict copy) h) ->
  spec (f (Some l)) h (fun h' v' => grows (next h) h h' /\ dict_in (next h) (next h') h' v' m /\
    (is_Some (Some l) -> is_Some v')).
Proof.
  intros Hc Hok (d & Hd & Hm) Hf. unfold spec at 1. rewrite Hf. apply spec_bind.
  eapply spec_read; [by rewrite Hd|]. eapply spec_mono; [by eapply copy_dict_spec|].
  intros h' v' (l' & -> & Hg & Hi). split_and!; [done..|]. eauto.
Qed.

Lemma copies_context : copies_dict cloneIAMContext.
Proof.
  intros h [l|] m Hok Hm; [by eapply (copies_dict_some append_strings); [apply copies_append|..]|].
  cbn in Hm. subst. by apply copies_dict_nil.
Qed.

Lemma copies_headers : copies_dict Header_Clone.
Proof.
  intros h [l|] m Hok Hm; [by eapply (copies_dict_some header_strings); [apply copies_header|..]|].
  cbn in Hm. subst. by apply copies_dict_nil.
Qed.

Lemma copies_values : copies_dict cloneURLValues.
Proof.
  intros h [l|] m Hok Hm; [by eapply (copies_dict_some append_strings); [apply copies_append|..]|].
  cbn in Hm. subst. eapply spec_mono; [apply (copy_dict_spec _ _ _ ∅ copies_append Hok), map_Forall2_empty|].
  intros h' v' (l' & -> & Hg & Hi). split_and!; [done..|]. by intros [].
Qed.

(** ** Plans: what a later write cannot change *)

(** Cells that are neither plans nor arrays of checks stay. *)
Definition keeps (h h' : heap) : Prop :=
  forall x c, cells h !! x = Some c -> as_plan c = None -> as_checks c = None -> cells h' !! x = Some c.

Lemma keeps_trans h1 h2 h3 : keeps h1 h2 -> keeps h2 h3 -> keeps h1 h3.
Proof. intros H1 H2 x c ? ? ?. apply H2; [by apply H1|done..]. Qed.

Lemma grows_cell b h h' x c :
  heap_ok h -> grows b h h' -> (next h <= b)%positive -> cells h !! x = Some c -> cells h' !! x = Some c.
Proof. intros Hok Hg Hb Hx. rewrite (g_below _ _ _ Hg); [done|]. apply Hok in Hx. lia. Qed.

(** A heap that only got larger. *)
Definition extends (h h' : heap) : Prop := forall x c, cells h !! x = Some c -> cells h' !! x = Some c.

Lemma extends_trans h1 h2 h3 : extends h1 h2 -> extends h2 h3 -> extends h1 h3.
Proof. intros H1 H2 x c ?. by apply H2, H1. Qed.

Lemma extends_keeps h h' : extends h h' -> keeps h h'.
Proof. intros He x c ? _ _. by apply He. Qed.

Lemma grows_extends b h h' : heap_ok h -> grows b h h' -> (next h <= b)%positive -> extends h h'.
Proof. intros ? ? ? x c Hx. by eapply grows_cell. Qed.

Lemma grows_keeps b h h' : heap_ok h -> grows b h h' -> (next h <= b)%positive -> keeps h h'.
Proof. intros ? ? ? x c Hx _ _. by eapply grows_cell. Qed.

Lemma write_keeps h h' l c :
  cells h !! l = Some c -> as_plan c <> None \/ as_checks c <> None ->
  (forall x, x <> l -> cells h' !! x = cells h !! x) -> keeps h h'.
Proof.
  intros Hl Hc Hs x c' Hx H1 H2. destruct (decide (x = l)) as [->|]; [|by rewrite Hs].
  assert (c' = c) as -> by congruence. by destruct Hc.
Qed.

Lemma slice_keeps h h' v vs : keeps h h' -> slice_is h v vs -> slice_is h' v vs.
Proof. intros Hk. destruct v as [l|]; cbn; [|done]. intros Hl. by eapply Hk. Qed.

Lemma dict_keeps h h' v m : keeps h h' -> dict_is h v m -> dict_is h' v m.
Proof.
  intros Hk. destruct v as [l|]; cbn; [|done]. intros (d & Hd & Hm). exists d. split; [by eapply Hk|].
  intros k. specialize (Hm k). inversion Hm; constructor. by eapply slice_keeps.
Qed.

Lemma dict_locs_keeps h h' v m : keeps h h' -> dict_is h v m -> dict_locs h' v = dict_locs h v.
Proof.
  intros Hk. destruct v as [l|]; cbn; [|done]. intros (d & Hd & _). by rewrite (Hk _ _ Hd), Hd.
Qed.

Lemma bytes_keeps h h' v b : keeps h h' -> bytes_is h v b -> bytes_is h' v b.
Proof. intros Hk. destruct v as [l|]; cbn; [|done]. intros Hl. by eapply Hk. Qed.

Lemma source_keeps h h' v s : keeps h h' -> source_is h v s -> source_is h' v s.
Proof.
  intros Hk. destruct v as [l|]; cbn; [|done]. intros (s' & -> & Hl). exists s'. split; [done|by eapply Hk].
Qed.

Lemma check_keeps h h' hr r : keeps h h' -> check_is h hr r -> check_is h' hr r.
Proof. intros Hk (? & ? & ?). split_and!; [done..|]. by eapply dict_keeps. Qed.

Lemma checks_keeps h h' v rs :
  keeps h h' -> (forall l, v = Some l -> cells h' !! l = cells h !! l) ->
  checks_is h v rs -> checks_is h' v rs.
Proof.
  intros Hk Hl. destruct v as [l|]; cbn; [|done]. intros (cs & Hc & Hrs). exists cs.
  rewrite (Hl l eq_refl). split; [done|]. eapply Forall2_impl; [exact Hrs|]. intros. by eapply check_keeps.
Qed.

(** Fields survive a heap that grows, and a write to the plan itself. *)
Lemma fields_keeps h h' hp p :
  keeps h h' -> (forall l, hp_iamChecks hp = Some l -> cells h' !! l = cells h !! l) ->
  fields_are h hp p -> fields_are h' hp p.
Proof.
  intros Hk Hl [? ? ? ? ? ? ?]. split; [done|by eapply checks_keeps|by eapply source_keeps|
    by eapply bytes_keeps|by eapply dict_keeps..].
Qed.

Lemma checks_cell h v rs l : checks_is h v rs -> v = Some l -> exists cs, cells h !! l = Some (CChecks cs).
Proof. intros Hv ->. destruct Hv as (cs & ? & _). by exists cs. Qed.

Lemma fields_grow b h h' hp p :
  heap_ok h -> grows b h h' -> (next h <= b)%positive -> fields_are h hp p -> fields_are h' hp p.
Proof.
  intros Hok Hg Hb Hf. apply (fields_keeps h); [by eapply grows_keeps| |done]. intros l Hl.
  destruct (checks_cell _ _ _ _ (fa_checks _ _ _ Hf) Hl) as [cs Hc]. rewrite Hc. by eapply grows_cell.
Qed.

Lemma update_spec a f l hp h :
  heap_ok h -> cells h !! l = Some (CPlan hp) -> (a <= l)%positive ->
  spec (update f l) h (fun h' _ => grows a h h' /\ next h' = next h /\
    cells h' !! l = Some (CPlan (f hp)) /\ keeps h h' /\
    (forall x, x <> l -> cells h' !! x = cells h !! x)).
Proof.
  intros Hok Hl Ha. unfold update. apply spec_bind. eapply spec_read; [by rewrite Hl|].
  apply (spec_write a); [done|split; [done|by eapply Hok]|]. intros h' Hg Hn Hc Hs.
  split_and!; [done..| |done]. eapply write_keeps; [done|by left|done].
Qed.

(** ** [clone] *)

Lemma append_checks_spec h v rs :
  heap_ok h -> checks_is h v rs ->
  spec (append_checks v) h (fun h' v' => grows (next h) h h' /\ checks_is h' v' rs /\
    fresh_in (next h) (next h') (option_list v')).
Proof.
  intros Hok. destruct v as [l|]; cbn.
  - intros (cs & Hc & Hrs). apply spec_bind. eapply spec_read; [by rewrite Hc|]. case_decide as E.
    { subst. inversion Hrs. split_and!; [by apply grows_refl|done|apply fresh_in_nil]. }
    apply spec_bind, spec_alloc; [done|]. intros h' Hg Hn Hl. split_and!; [done| |apply fresh_in_one; lia].
    exists cs. split; [done|]. eapply Forall2_impl; [exact Hrs|]. intros. eapply check_keeps; [|done].
    by eapply grows_keeps.
  - intros ->. split_and!; [by apply grows_refl|done|apply fresh_in_nil].
Qed.

Lemma new_bytes_spec h b :
  heap_ok h ->
  spec (new_bytes b) h (fun h' v' => grows (next h) h h' /\ bytes_is h' v' b /\
    fresh_in (next h) (next h') (option_list v')).
Proof.
  intros Hok. unfold new_bytes. destruct (String.eqb_spec b "") as [->|].
  - split_and!; [by apply grows_refl|done|apply fresh_in_nil].
  - apply spec_bind, spec_alloc; [done|]. intros h' Hg Hn Hl. split_and!; [done..|apply fresh_in_one; lia].
Qed.

Lemma append_bytes_spec h v b :
  heap_ok h -> bytes_is h v b ->
  spec (append_bytes v) h (fun h' v' => grows (next h) h h' /\ bytes_is h' v' b /\
    fresh_in (next h) (next h') (option_list v')).
Proof.
  intros Hok. destruct v as [l|]; cbn.
  - intros Hl. apply spec_bind. eapply spec_read; [by rewrite Hl|]. by apply new_bytes_spec.
  - intros ->. split_and!; [by apply grows_refl|done|apply fresh_in_nil].
Qed.

Lemma copy_source_spec h v s :
  heap_ok h -> source_is h v s ->
  spec (copy_source v) h (fun h' v' => grows (next h) h h' /\ source_is h' v' s /\
    fresh_in (next h) (next h') (option_list v')).
Proof.
  intros Hok. destruct v as [l|]; cbn.
  - intros (s' & -> & Hl). apply spec_bind. eapply spec_read; [by rewrite Hl|].
    apply spec_bind, spec_alloc; [done|]. intros h' Hg Hn Hc. split_and!; [done|by exists s'|apply fresh_in_one; lia].
  - intros ->. split_and!; [by apply grows_refl|done|apply fresh_in_nil].
Qed.

(** The cells a plan's own fields point to, the contexts of its checks left out *)
Definition own_locs (h : heap) (hp : hPlan) : list loc :=
  option_list (hp_iamChecks hp) ++ dict_locs h (hp_forwardHeaders hp) ++ dict_locs h (hp_query hp)
  ++ option_list (hp_controlBody hp) ++ dict_locs h (hp_iamContext hp)
  ++ option_list (hp_copySource hp).

Lemma fresh_in_cat a b c l1 l2 :
  fresh_in a b l1 -> fresh_in b c l2 -> (a <= b)%positive -> (b <= c)%positive -> fresh_in a c (l1 ++ l2).
Proof. intros H1 H2 ? ?. by apply (fresh_in_app a b b c); [..|lia|lia|]. Qed.

(** Growing step by step from [h0], one copy after the other *)
Lemma chain_step h0 h h' :
  heap_ok h0 -> grows (next h0) h0 h -> grows (next h) h h' ->
  grows (next h0) h0 h' /\ extends h h' /\ keeps h0 h'.
Proof.
  intros Hok Hg Hg'. assert (grows (next h0) h0 h') as Hg0.
  { eapply grows_trans; [exact Hg|exact Hg'|apply Hg]. }
  split_and!; [done| |].
  - eapply grows_extends; [apply Hg|exact Hg'|reflexivity].
  - eapply grows_keeps; [done|exact Hg0|reflexivity].
Qed.

Lemma clone_spec h l p :
  heap_ok h -> plan_is h l p ->
  spec (clone l) h (fun h' l' => grows (next h) h h' /\ exists hp hp',
    cells h !! l = Some (CPlan hp) /\ cells h' !! l' = Some (CPlan hp') /\ fields_are h' hp' p /\
    fresh_in (next h) l' (own_locs h' hp') /\ (next h <= l' < next h')%positive /\
    (is_Some (hp_iamContext hp) -> is_Some (hp_iamContext hp'))).
Proof.
  intros Hok (hp & Hl & [Hsc Hch Hso Hbo Hhe Hqu Hco]). unfold clone. apply spec_bind.
  eapply spec_read; [by rewrite Hl|].
  apply spec_bind. eapply spec_mono; [by apply append_checks_spec|]. intros h1 v1 (G1 & I1 & F1).
  pose proof (grows_keeps _ _ _ Hok G1 ltac:(reflexivity)) as K1.
  apply spec_bind. eapply spec_mono; [apply copies_headers; [apply G1|by eapply dict_keeps]|].
  intros h2 v2 (g2 & [I2 F2] & _). destruct (chain_step _ _ _ Hok G1 g2) as (G2 & k2 & K2).
  apply spec_bind. eapply spec_mono; [apply copies_values; [apply G2|by eapply dict_keeps]|].
  intros h3 v3 (g3 & [I3 F3] & _). destruct (chain_step _ _ _ Hok G2 g3) as (G3 & k3 & K3).
  apply spec_bind. eapply spec_mono; [apply append_bytes_spec; [apply G3|by eapply bytes_keeps]|].
  intros h4 v4 (g4 & I4 & F4). destruct (chain_step _ _ _ Hok G3 g4) as (G4 & k4 & K4).
  apply spec_bind. eapply spec_mono; [apply copies_context; [apply G4|by eapply dict_keeps]|].
  intros h5 v5 (g5 & [I5 F5] & S5). destruct (chain_step _ _ _ Hok G4 g5) as (G5 & k5 & K5).
  apply spec_bind. eapply spec_mono; [apply copy_source_spec; [apply G5|by eapply source_keeps]|].
  intros h6 v6 (g6 & I6 & F6). destruct (chain_step _ _ _ Hok G5 g6) as (G6 & k6 & K6).
  apply spec_alloc; [apply G6|]. intros h7 g7 Hn Hc.
  destruct (chain_step _ _ _ Hok G6 g7) as (G7 & k7 & K7). split; [done|].
  exists hp, (with_parts v1 v6 v4 v2 v3 v5 hp).
  pose proof (extends_trans _ _ _ k6 k7) as k57. pose proof (extends_trans _ _ _ k5 k57) as k47.
  pose proof (extends_trans _ _ _ k4 k47) as k37. pose proof (extends_trans _ _ _ k3 k37) as k27.
  pose proof (extends_trans _ _ _ k2 k27) as k17.
  pose proof (g_next _ _ _ G1). pose proof (g_next _ _ _ g2). pose proof (g_next _ _ _ g3).
  pose proof (g_next _ _ _ g4). pose proof (g_next _ _ _ g5). pose proof (g_next _ _ _ g6).
  split_and!; [done|done| | |lia|lia|exact S5].
  - split; cbn; [exact Hsc|..].
    + eapply checks_keeps; [apply extends_keeps, k17| |exact I1]. intros x ->.
      destruct (checks_cell _ _ _ _ I1 eq_refl) as [cs Hx]. rewrite Hx. by apply k17.
    + eapply source_keeps; [apply extends_keeps, k7|done].
    + eapply bytes_keeps; [apply extends_keeps, k47|done].
    + eapply dict_keeps; [apply extends_keeps, k27|done].
    + eapply dict_keeps; [apply extends_keeps, k37|done].
    + eapply dict_keeps; [apply extends_keeps, k57|done].
  - unfold own_locs. cbn.
    rewrite (dict_locs_keeps _ _ _ _ (extends_keeps _ _ k27) I2),
      (dict_locs_keeps _ _ _ _ (extends_keeps _ _ k37) I3),
      (dict_locs_keeps _ _ _ _ (extends_keeps _ _ k57) I5).
    apply (fresh_in_cat _ (next h1)); [done| |lia..]. apply (fresh_in_cat _ (next h2)); [done| |lia..].
    apply (fresh_in_cat _ (next h3)); [done| |lia..]. apply (fresh_in_cat _ (next h4)); [done| |lia..].
    by apply (fresh_in_cat _ (next h5)); [..|lia|lia].
Qed.

(** ** Sealing *)

Lemma ctx_set_spec a h l m k v :
  heap_ok h -> (a <= next h)%positive -> dict_in a (next h) h (Some l) m ->
  spec (ctx_set (Some l) k v) h (fun h' _ =>
    grows a h h' /\ (a <= next h')%positive /\ dict_in a (next h') h' (Some l) (<[k:=[v]]> m)).
Proof.
  intros Hok Ha Hd. unfold ctx_set. apply spec_bind, spec_alloc; [done|]. intros h1 Hg1 Hn Hc.
  eapply spec_mono.
  { apply (dict_set_spec a (next h)); [apply Hg1| |exact Hc|apply fresh_in_one; lia|lia].
    apply (dict_in_grows _ _ (next h) h); [exact Hd|exact Hg1|reflexivity]. }
  intros h2 _ (Hg2 & Hn2 & Hd2). rewrite <-Hn2 in Hd2. split_and!; [|lia|exact Hd2].
  eapply grows_trans; [by eapply grows_weaken|exact Hg2|lia].
Qed.

Lemma fill_context_spec a h l m loc signedAt now :
  heap_ok h -> (a <= next h)%positive -> dict_in a (next h) h (Some l) m ->
  spec (fill_context loc signedAt now (Some l)) h (fun h' _ =>
    grows a h h' /\ (a <= next h')%positive /\
    dict_in a (next h') h' (Some l) (authorization_context loc signedAt now m)).
Proof.
  intros Hok Ha Hd. unfold fill_context, authorization_context, age_values.
  apply spec_bind. eapply spec_mono; [by apply ctx_set_spec|]. intros h1 _ (G1 & A1 & D1).
  apply spec_bind. eapply spec_mono; [apply ctx_set_spec; [apply G1|done..]|]. intros h2 _ (g2 & A2 & D2).
  assert (grows a h h2) as G2 by (eapply grows_trans; [done..|reflexivity]).
  apply spec_bind. eapply (spec_mono _ _ (fun h' _ => grows a h h' /\ (a <= next h')%positive /\
    dict_in a (next h') h' (Some l) (if negb (String.eqb loc "")
      then <["s3:locationconstraint":=[loc]]> (<["aws:epochtime":=[FormatInt (unix_of now)]]>
        (<["aws:currenttime":=[FormatRFC3339 now]]> m))
      else <["aws:epochtime":=[FormatInt (unix_of now)]]>
        (<["aws:currenttime":=[FormatRFC3339 now]]> m)))).
  { destruct (negb _); [|done]. eapply spec_mono; [apply ctx_set_spec; [apply G2|done..]|].
    intros h3 _ (g3 & A3 & D3). split_and!; [|done..]. eapply grows_trans; [done..|reflexivity]. }
  intros h3 _ (G3 & A3 & D3). destruct (ParseAmzDate signedAt) as [t|]; [|done].
  eapply spec_mono; [apply ctx_set_spec; [apply G3|done..]|]. intros h4 _ (g4 & A4 & D4).
  split_and!; [|done..]. eapply grows_trans; [done..|reflexivity].
Qed.

Definition ctx_locs (h : heap) (cs : list hRequest) : list loc := cs ≫= (fun c => dict_locs h (hr_Context c)).

(** A check with another context *)
Definition recontext (c : hRequest) (m : gmap string (list string)) : Request :=
  mkRequest (hr_Action c) (hr_Resource c) m.

(** Giving the checks from the [k]-th on a copy of a context each: only the array of the
    checks is written to, and every copy has cells of its own. *)
Lemma set_contexts_spec h l pre todo vs ms :
  heap_ok h -> cells h !! l = Some (CChecks (pre ++ todo)) -> length todo = length vs ->
  Forall2 (dict_is h) vs ms ->
  spec (set_contexts (Some l) (zip (seq (length pre) (length todo)) vs)) h (fun h' _ =>
    heap_ok h' /\ (next h <= next h')%positive /\ keeps h h' /\
    (forall x, (x < next h)%positive -> x <> l -> cells h' !! x = cells h !! x) /\
    exists todo', cells h' !! l = Some (CChecks (pre ++ todo')) /\
      Forall2 (check_is h') todo' (zip_with recontext todo ms) /\
      fresh_in (next h) (next h') (ctx_locs h' todo')).
Proof.
  intros Hok Hl Hlen Hms. revert h pre vs ms Hok Hl Hlen Hms.
  induction todo as [|c todo IH]; intros h pre vs ms Hok Hl Hlen Hms; cbn.
  { split_and!; [done|lia|by intros x ? ? _ _|done|]. exists []. split_and!; [done|constructor|apply fresh_in_nil]. }
  destruct vs as [|v vs]; [done|]. inversion Hms as [|? m ? ms' Hm Hms' E1 E2]; subst. cbn in *.
  apply spec_bind. eapply spec_mono; [by apply copies_context|]. intros h1 c1 (g1 & D1 & _).
  pose proof (grows_extends _ _ _ Hok g1 ltac:(reflexivity)) as e1.
  apply spec_bind. apply spec_bind. eapply spec_read; [by rewrite (e1 _ _ Hl)|].
  rewrite list_lookup_middle by done. apply (spec_write l); [apply g1| |].
  { apply Hok in Hl. pose proof (g_next _ _ _ g1). lia. }
  intros h2 g2 Hn2 Hl2 Hs2.
  rewrite insert_app_r_alt, Nat.sub_diag in Hl2 by done. cbn in Hl2.
  set (c' := mkHRequest (hr_Action c) (hr_Resource c) c1) in *.
  assert (keeps h1 h2) as k2 by (eapply write_keeps; [by apply e1|by right|done]).
  assert (keeps h h2) as K2 by (eapply keeps_trans; [by apply extends_keeps|done]).
  specialize (IH h2 (pre ++ [c']) vs ms'). rewrite <-app_assoc, length_app, Nat.add_1_r in IH.
  eapply spec_mono; [apply IH; [apply g2|exact Hl2|lia|]|].
  { eapply Forall2_impl; [exact Hms'|]. intros. by eapply dict_keeps. }
  intros h3 _ (Hok3 & Hn3 & k3 & Hs3 & todo' & Hl3 & Hc3 & Hf3).
  pose proof (g_next _ _ _ g1) as Hn1. destruct D1 as [D1 F1].
  assert (keeps h1 h3) as k13 by by eapply keeps_trans.
  split_and!; [done|lia|by eapply keeps_trans| |].
  - intros x Hx Hne. rewrite Hs3, Hs2 by (done || lia). by apply g1.
  - exists (c' :: todo'). rewrite <-app_assoc in Hl3. split_and!; [done| |].
    + constructor; [|done]. split_and!; [done..|]. by eapply dict_keeps.
    + cbn. rewrite (dict_locs_keeps _ _ _ _ k13 D1). rewrite Hn2 in *.
      by apply (fresh_in_cat _ (next h1)).
Qed.

Lemma seal_checks_spec h v ctx rs m :
  heap_ok h -> checks_is h v rs -> dict_is h ctx m ->
  spec (seal_checks v ctx) h (fun h' _ =>
    heap_ok h' /\ (next h <= next h')%positive /\ keeps h h' /\
    (forall x, (x < next h)%positive -> Some x <> v -> cells h' !! x = cells h !! x) /\
    checks_is h' v ((fun r => mkRequest (rq_action r) (rq_resource r) m) <$> rs) /\
    exists copies, check_locs h' v = option_list v ++ copies /\ fresh_in (next h) (next h') copies).
Proof.
  intros Hok Hv Hm. unfold seal_checks. destruct v as [l|]; cbn in Hv |- *.
  2:{ subst. split_and!; [done|cbn; lia|by intros x ? ? _ _|done|done|]. exists []. split; [done|apply fresh_in_nil]. }
  destruct Hv as (cs & Hl & Hrs). apply spec_bind. eapply spec_read; [by rewrite Hl|].
  assert ((fun i => (i, ctx)) <$> seq 0 (length cs)
          = zip (seq (length (@nil hRequest)) (length cs)) (replicate (length cs) ctx)) as ->.
  { cbn. generalize 0%nat. clear. induction (length cs) as [|n IH]; intros k; [done|]. cbn. by rewrite IH. }
  eapply spec_mono; [apply (set_contexts_spec h l [] cs _ (replicate (length cs) m))|].
  - done.
  - exact Hl.
  - by rewrite length_replicate.
  - clear -Hm. induction (length cs); constructor; done.
  - intros h' _ (Hok' & Hn & Hk & Hs & cs' & Hl' & Hc & Hf). cbn in Hl'.
    split_and!; [done..| | |].
    + intros x Hx Hne. apply Hs; [done|congruence].
    + exists cs'. split; [done|]. clear -Hc Hrs. revert cs' Hc.
      induction Hrs as [|c r cs rs (Ha & Hr & _) Hrs IH]; intros cs' Hc; cbn in *; [by inversion Hc|].
      inversion Hc as [|c' ? cs1 ? Hc1 Hc2]; subst. constructor; [|by apply IH].
      unfold recontext in Hc1. by rewrite Ha, Hr in Hc1.
    + exists (ctx_locs h' cs'). by rewrite Hl'.
Qed.

Lemma fresh_in_drop a b l1 l2 l3 : fresh_in a b (l1 ++ l2 ++ l3) -> fresh_in a b (l1 ++ l3).
Proof.
  intros Hf. assert (fresh_in a b (l2 ++ l1 ++ l3)) as [N F].
  { eapply fresh_in_perm; [|exact Hf]. by rewrite !(assoc (++)), (comm (++) l1 l2). }
  apply NoDup_app in N as (_ & _ & N). apply Forall_app in F as [_ F]. by split.
Qed.

(** The plan's cells in the order they were allocated *)
Lemma plan_locs_order h l hp copies :
  cells h !! l = Some (CPlan hp) -> check_locs h (hp_iamChecks hp) = option_list (hp_iamChecks hp) ++ copies ->
  plan_locs h l ≡ₚ
    (option_list (hp_iamChecks hp) ++ dict_locs h (hp_forwardHeaders hp) ++ dict_locs h (hp_query hp)
     ++ option_list (hp_controlBody hp) ++ option_list (hp_copySource hp))
    ++ [l] ++ dict_locs h (hp_iamContext hp) ++ copies.
Proof. intros Hl Hc. unfold plan_locs. rewrite Hl, Hc. solve_Permutation. Qed.

(** [hp] with another context and other values in its fields *)
Definition same_parts (hp hp' : hPlan) : Prop :=
  hp_iamChecks hp' = hp_iamChecks hp /\ hp_copySource hp' = hp_copySource hp /\
  hp_controlBody hp' = hp_controlBody hp /\ hp_forwardHeaders hp' = hp_forwardHeaders hp /\
  hp_query hp' = hp_query hp.

Lemma own_locs_fresh h h' a b c hp hp' p copies l :
  keeps h h' -> fields_are h hp p -> fresh_in a l (own_locs h hp) -> (a <= l < b)%positive ->
  cells h' !! l = Some (CPlan hp') -> same_parts hp hp' ->
  check_locs h' (hp_iamChecks hp) = option_list (hp_iamChecks hp) ++ copies ->
  fresh_in b c (dict_locs h' (hp_iamContext hp') ++ copies) -> (b <= c)%positive ->
  fresh_in a c (plan_locs h' l).
Proof.
  intros Hk [_ _ _ _ H1 H2 H3] Ho Hr Hl (E1 & E2 & E3 & E4 & E5) Hc Hf Hb. rewrite <-E1 in Hc.
  eapply fresh_in_perm; [symmetry; apply plan_locs_order; [exact Hl|exact Hc]|].
  rewrite E1, E2, E3, E4, E5.
  rewrite (dict_locs_keeps _ _ _ _ Hk H1), (dict_locs_keeps _ _ _ _ Hk H2).
  apply (fresh_in_cat _ l); [| |lia..].
  - unfold own_locs in Ho. rewrite !(assoc (++)) in Ho. rewrite <-(assoc (++)) in Ho.
    apply fresh_in_drop in Ho. by rewrite <-!(assoc (++)) in Ho.
  - apply (fresh_in_app l b b c); [apply fresh_in_one; lia|done|lia..].
Qed.

Lemma check_locs_keeps h h' v rs :
  keeps h h' -> (forall l, v = Some l -> cells h' !! l = cells h !! l) -> checks_is h v rs ->
  check_locs h' v = check_locs h v.
Proof.
  intros Hk Hl. destruct v as [l|]; cbn; [|done]. rewrite (Hl l eq_refl).
  intros (cs & -> & Hrs). f_equal. induction Hrs as [|c r cs rs (_ & _ & Hd)]; cbn; [done|].
  f_equal; [by eapply dict_locs_keeps|done].
Qed.

Lemma checks_cell_keeps h h' v rs l hp :
  keeps h h' -> checks_is h v rs -> cells h !! l = Some (CPlan hp) ->
  (forall x, x <> l -> cells h' !! x = cells h !! x) -> checks_is h' v rs.
Proof.
  intros Hk Hv Hl Hs. eapply checks_keeps; [done| |done]. intros x ->. apply Hs. intros ->.
  destruct Hv as (cs & Hc & _). congruence.
Qed.

(** Updating a plan leaves its fields' cells alone. *)
Lemma update_fields a f l hc hp p h :
  heap_ok h -> cells h !! l = Some (CPlan hc) -> (a <= l)%positive -> fields_are h hp p ->
  spec (update f l) h (fun h' _ => grows a h h' /\ next h' = next h /\
    cells h' !! l = Some (CPlan (f hc)) /\ keeps h h' /\ fields_are h' hp p).
Proof.
  intros Hok Hl Ha Hf. eapply spec_mono; [by eapply update_spec|].
  intros h' _ (Hg & Hn & Hl' & Hk & Hs). split_and!; [done..|]. apply (fields_keeps h); [done| |done].
  intros x Hx. apply Hs. intros ->. destruct (checks_cell _ _ _ _ (fa_checks _ _ _ Hf) Hx). congruence.
Qed.

(** The three copies of the context: one is filled, one sealed. *)
Lemma build_contexts_spec loc signedAt now h v m :
  heap_ok h -> dict_is h v m -> is_Some v ->
  spec (build_contexts loc signedAt now v) h
    (fun h' r => grows (next h) h h' /\
      dict_is h' r.1 (authorization_context loc signedAt now m) /\
      dict_in (next h) (next h') h' r.2 (authorization_context loc signedAt now m)).
Proof.
  intros Hok Hm Hv. apply spec_bind. eapply spec_mono; [by apply copies_context|].
  intros h1 v1 (g1 & D1 & S1). apply S1 in Hv as [l1 ->].
  apply spec_bind. eapply spec_mono; [apply fill_context_spec; [apply g1|apply g1|exact D1]|].
  intros h2 _ (g2 & N2 & [D2 _]). apply spec_bind.
  eapply spec_mono; [apply copies_context; [apply g2|exact D2]|]. intros h3 v3 (g3 & [D3 F3] & _).
  pose proof (grows_keeps _ _ _ (g_ok _ _ _ g2) g3 ltac:(reflexivity)) as k3. split; [|split; [|split]].
  - eapply grows_trans; [eapply grows_trans; [exact g1|exact g2|reflexivity]|exact g3|done].
  - by eapply dict_keeps.
  - exact D3.
  - eapply fresh_in_weaken; [exact F3|done|reflexivity].
Qed.

Lemma withAuthorizationContext_spec h l p loc now :
  heap_ok h -> plan_is h l p ->
  (exists hp, cells h !! l = Some (CPlan hp) /\ is_Some (hp_iamContext hp)) ->
  spec (withAuthorizationContext loc now l) h (fun h' l' => grows (next h) h h' /\
    plan_is h' l' (S3Authz.withAuthorizationContext loc now p) /\
    fresh_in (next h) (next h') (plan_locs h' l')).
Proof.
  intros Hok Hp (hp & Hl & Hctx). unfold withAuthorizationContext.
  apply spec_bind. eapply spec_mono; [by apply clone_spec|].
  intros h1 l1 (g1 & hp0 & hp1 & Hl0 & Hl1 & Hf1 & Ho1 & Hr1 & Hc1).
  assert (hp0 = hp) as -> by congruence. apply Hc1 in Hctx.
  apply spec_bind. eapply spec_read; [by rewrite Hl1|].
  apply spec_bind. eapply spec_mono; [eapply (update_fields (next h)); [apply g1|exact Hl1|apply Hr1|exact Hf1]|].
  intros h2 _ (g2 & Hn2 & Hl2 & k2 & Hf2).
  apply spec_bind. eapply spec_mono;
    [apply build_contexts_spec; [apply g2|exact (fa_context _ _ _ Hf2)|done]|].
  intros h3 [ctx sealed] (g3 & D3 & S3 & F3). cbn [fst snd] in *.
  pose proof (grows_keeps _ _ _ (g_ok _ _ _ g2) g3 ltac:(reflexivity)) as k3.
  pose proof (grows_cell _ _ _ _ _ (g_ok _ _ _ g2) g3 ltac:(reflexivity) Hl2) as Hl3.
  pose proof (fields_grow _ _ _ _ _ (g_ok _ _ _ g2) g3 ltac:(reflexivity) Hf2) as Hf3.
  apply spec_bind. eapply spec_mono; [eapply (update_fields (next h)); [apply g3|exact Hl3|apply Hr1|exact Hf3]|].
  intros h4 _ (g4 & Hn4 & Hl4 & k4 & Hf4).
  apply spec_bind. eapply spec_mono;
    [apply seal_checks_spec; [apply g4|exact (fa_checks _ _ _ Hf4)|by eapply dict_keeps]|].
  intros h5 _ (Hok5 & Hn5 & k5 & Hs5 & Hc5 & copies & Hcl5 & F5).
  assert (keeps h1 h5) as k15.
  { do 3 (eapply keeps_trans; [eassumption|]). done. }
  assert (cells h5 !! l1 = cells h4 !! l1) as Hl5.
  { apply Hs5; [destruct Hr1; pose proof (g_next _ _ _ g3); lia|]. intros E.
    destruct (checks_cell _ _ _ _ (fa_checks _ _ _ Hf4) (eq_sym E)). congruence. }
  apply spec_bind. eapply spec_mono; [eapply (update_spec (next h)); [exact Hok5|by rewrite Hl5|apply Hr1]|].
  intros h6 _ (g6 & Hn6 & Hl6 & k6 & Hs6).
  pose proof (keeps_trans _ _ _ k15 k6) as k16. pose proof (keeps_trans _ _ _ k5 k6) as k46.
  assert (forall x, hp_iamChecks hp1 = Some x -> cells h6 !! x = cells h5 !! x) as Hlc.
  { intros x E. apply Hs6. intros ->. destruct (checks_cell _ _ _ _ (fa_checks _ _ _ Hf4) E). congruence. }
  split; [|split].
  - pose proof (g_next _ _ _ g1). pose proof (g_next _ _ _ g3).
    split; [apply g6|lia|]. intros x Hx. rewrite (g_below _ _ _ g6), Hs5.
    + rewrite (g_below _ _ _ g4), (g_below _ _ _ g3), (g_below _ _ _ g2) by lia. by apply g1.
    + lia.
    + intros E. destruct Ho1 as [_ F]. unfold own_locs in F. rewrite <-E in F. inversion F. lia.
    + lia.
  - destruct Hf1 as [Hsc _ Hso Hbo Hhe Hqu _]. eexists. split; [exact Hl6|].
    assert (hp_signedAt hp1 = p_signedAt p) as Es by apply Hsc. rewrite Es in *. split; cbn.
    + clear -Hsc. unfold scalars_are in *. cbn. intuition.
    + eapply checks_keeps; [exact k6|exact Hlc|exact Hc5].
    + exact (source_keeps _ _ _ _ k16 Hso).
    + exact (bytes_keeps _ _ _ _ k16 Hbo).
    + exact (dict_keeps _ _ _ _ k16 Hhe).
    + exact (dict_keeps _ _ _ _ k16 Hqu).
    + exact (dict_keeps _ _ _ _ (keeps_trans _ _ _ k4 k46) S3).
  - eapply (own_locs_fresh h1 h6 _ (next h2)); [exact k16|exact Hf1|exact Ho1|lia|exact Hl6|done| | |].
    + erewrite check_locs_keeps; [exact Hcl5|exact k6|exact Hlc|exact Hc5].
    + cbn. pose proof (g_next _ _ _ g3). apply (fresh_in_app (next h2) (next h3) (next h4) (next h6)).
      * by rewrite (dict_locs_keeps _ _ _ _ (keeps_trans _ _ _ k4 k46) S3).
      * by rewrite Hn6.
      * lia.
      * lia.
      * lia.
    + pose proof (g_next _ _ _ g3). lia.
Qed.
