(* ===== verification/SharingSpec.v ===== *)
(** * SharingSpec: the middleware's plan shares nothing

    The statements of [S3Auth] that refine a plan, run on the heap of [Sharing]. *)
From S2P Require Import Prelude GoStrings GoTime GoUrl GoHttp Iam CopySource Operation S3Authz.
From S2P Require Import PlanSpec Mapping Xml Middleware Sharing.

#[local] Notation "'let*' x ':=' c 'in' k" := (Sharing.bind c (fun x => k))
  (at level 10, x name, c at level 100, k at level 200).

(** From [plan.withRequestMetadata(isVHost, "")] to [plan.withAuthorizationContext]: [body] is
    that of a multipart completion, [constraint] that of a bucket creation. *)
Definition refine_plan (isVHost : bool) (body constraint : option string) (now : Time) (l : loc)
    : M loc :=
  let* l := Sharing.withRequestMetadata isVHost "" l in
  let* l := match body with Some data => install_body data l | None => Sharing.ret l end in
  let* l := match constraint with
            | Some c => Sharing.withRequestMetadata isVHost c l
            | None => Sharing.ret l
            end in
  Sharing.withAuthorizationContext (default "" constraint) now l.

(** The same on values *)
Definition refined (isVHost : bool) (body constraint : option string) (now : Time)
    (p : S3OperationPlan) : S3OperationPlan :=
  let p := S3Authz.withRequestMetadata isVHost "" p in
  let p := match body with Some data => with_control_body data p | None => p end in
  let p := match constraint with Some c => S3Authz.withRequestMetadata isVHost c p | None => p end in
  S3Authz.withAuthorizationContext (default "" constraint) now p.

(** ** Reading a context *)

Lemma load_entries_spec h items ms :
  Forall2 (fun (kv : string * ptr) (km : string * list string) => kv.1 = km.1 /\ slice_is h kv.2 km.2) items ms ->
  load_entries items h = Some (h, list_to_map ms).
Proof.
  induction 1 as [|[k v] [k' vs] items ms [Hk Hv] _ IH]; [done|]. cbn in *. subst k'.
  unfold Sharing.bind, load_strings, Sharing.ret. destruct v as [l|]; cbn in Hv.
  - unfold read. rewrite Hv. cbn. by rewrite IH.
  - subst. by rewrite IH.
Qed.

Lemma load_dict_spec h v m : dict_is h v m -> load_dict v h = Some (h, m).
Proof.
  destruct v as [l|]; cbn; [|by intros ->]. intros (d & Hd & Hm).
  destruct (put_all_entries _ _ _ Hm) as (ms & <- & Hms).
  unfold Sharing.bind, read. rewrite Hd. cbn. rewrite put_all_union, (right_id_L ∅ (∪)).
  - apply load_entries_spec. exact Hms.
  - assert ((map_to_list d).*1 = ms.*1) as <-; [|apply NoDup_fst_map_to_list].
    clear -Hms. induction Hms as [|? ? ? ? [? _]]; cbn; congruence.
Qed.

Lemma authorize_checks_spec policy cs rs h :
  Forall2 (check_is h) cs rs ->
  authorize_checks policy cs h =
    Some (h, res_iter (fun check => res_map_err AuthzDenied (Authorize policy check)) rs).
Proof.
  induction 1 as [|c r cs rs (Ha & Hr & Hd) _ IH]; [done|]. cbn. unfold Sharing.bind at 1.
  rewrite (load_dict_spec _ _ _ Hd), Ha, Hr. destruct r as [a s m]. cbn.
  by destruct (Authorize policy _).
Qed.

Lemma AuthorizeS3Plan_heap policy h l p :
  heap_ok h -> plan_is h l p ->
  spec (Sharing.AuthorizeS3Plan policy (Some l)) h (fun h' r =>
    grows (next h) h h' /\ r = S3Authz.AuthorizeS3Plan policy (Some p)).
Proof.
  intros Hok (hp & Hl & Hf). cbn. apply spec_bind. eapply spec_read; [by rewrite Hl|].
  assert (hp_authorizationReady hp = p_authorizationReady p) as -> by apply Hf.
  destruct (p_authorizationReady p) eqn:Er; cbn; [|split; [by apply grows_refl|done]].
  assert (spec (check_list (hp_iamChecks hp)) h (fun h' cs => h' = h /\
    Forall2 (check_is h) cs (p_iamChecks p))) as Hcs.
  { pose proof (fa_checks _ _ _ Hf) as Hc. destruct (hp_iamChecks hp) as [lc|]; cbn in Hc |- *.
    - destruct Hc as (cs & Hc & Hrs). by eapply spec_read; [rewrite Hc|].
    - rewrite Hc. by split. }
  apply spec_bind. unfold buildS3IAMRequestsFromPlan. apply spec_bind.
  eapply spec_mono; [exact Hcs|]. intros h' cs [-> Hrs]. apply spec_bind, spec_alloc; [done|].
  intros h1 g1 Hn Hl1. pose proof (grows_keeps _ _ _ Hok g1 ltac:(reflexivity)) as k1.
  apply spec_bind. eapply spec_mono.
  { apply (set_contexts_spec h1 (next h) [] cs (hr_Context <$> cs) (rq_context <$> p_iamChecks p));
      [apply g1|exact Hl1|by rewrite length_fmap|].
    apply Forall2_fmap. eapply Forall2_impl; [exact Hrs|]. intros c r (_ & _ & Hd). by eapply dict_keeps. }
  intros h2 _ (Hok2 & Hn2 & k2 & Hs2 & cs' & Hl2 & Hcs' & _). cbn. apply spec_bind.
  eapply spec_read; [by rewrite Hl2|]. cbn.
  assert (zip_with recontext cs (rq_context <$> p_iamChecks p) = p_iamChecks p) as E.
  { clear -Hrs. induction Hrs as [|c r cs rs (Ha & Hr & _) _ IH]; cbn; [done|].
    rewrite IH. unfold recontext. rewrite Ha, Hr. by destruct r. }
  rewrite E in Hcs'. unfold spec. rewrite (authorize_checks_spec _ _ _ _ Hcs'). cbn. split; [|done].
  split; [done|lia|]. intros x Hx. rewrite Hs2 by lia. by apply g1.
Qed.

(** ** What a plan denotes depends on its own cells *)

Lemma plan_frame h h' l p :
  plan_is h l p -> same_on (plan_locs h l) h h' -> plan_is h' l p.
Proof.
  intros (hp & Hl & [Hsc Hch Hso Hbo Hhe Hqu Hco]) Hs. unfold plan_locs in Hs. rewrite Hl in Hs.
  exists hp. split; [by rewrite Hs by left|]. change (?l :: ?k) with ([l] ++ k) in Hs.
  apply same_on_app in Hs as [_ Hs]. apply same_on_app in Hs as [S1 Hs].
  apply same_on_app in Hs as [S2 Hs]. apply same_on_app in Hs as [S3 Hs].
  apply same_on_app in Hs as [S4 Hs]. apply same_on_app in Hs as [S5 S6].
  split; [done| | | |by eapply dict_frame..].
  - destruct (hp_iamChecks hp) as [lc|]; [|done]. destruct Hch as (cs & Hc & Hrs). cbn in S1.
    rewrite Hc in S1. exists cs. split; [by rewrite S1 by left|].
    assert (same_on (ctx_locs h cs) h h') as S by (intros x Hx; apply S1; by right).
    clear -Hrs S. induction Hrs as [|c r cs rs (? & ? & Hd) _ IH]; constructor.
    + apply same_on_app in S as [S _]. split_and!; [done..|]. by eapply dict_frame.
    + apply IH. by apply same_on_app in S as [_ S].
  - destruct (hp_copySource hp) as [x|]; [|done]. destruct Hso as (s & -> & Hx). exists s.
    split; [done|]. by rewrite S2 by left.
  - destruct (hp_controlBody hp) as [x|]; [|done]. cbn in *. by rewrite S3 by left.
Qed.

(** ** The copies before sealing *)

(** A copy denotes [p], and its context is there. *)
Definition copied (p : S3OperationPlan) (h h' : heap) (l : loc) : Prop :=
  grows (next h) h h' /\ plan_is h' l p.

Lemma withRequestMetadata_spec isVHost c h l p :
  heap_ok h -> plan_is h l p ->
  spec (Sharing.withRequestMetadata isVHost c l) h (copied (S3Authz.withRequestMetadata isVHost c p) h).
Proof.
  intros Hok Hp. unfold Sharing.withRequestMetadata. apply spec_bind.
  eapply spec_mono; [by apply clone_spec|].
  intros h1 l1 (g1 & _ & hp & _ & Hl1 & Hf & _ & Hr & _). apply spec_bind.
  eapply spec_mono; [eapply (update_fields (next h)); [apply g1|exact Hl1|apply Hr|exact Hf]|].
  intros h2 _ (g2 & _ & Hl2 & _ & [Hsc ? ? ? ? ? ?]). split.
  - eapply grows_trans; [exact g1|exact g2|reflexivity].
  - eexists. split; [exact Hl2|]. split; [|done..]. unfold scalars_are in *. cbn. intuition.
Qed.

Lemma install_body_spec data h l p :
  heap_ok h -> plan_is h l p ->
  spec (install_body data l) h (copied (with_control_body data p) h).
Proof.
  intros Hok Hp. unfold install_body. apply spec_bind. eapply spec_mono; [by apply clone_spec|].
  intros h1 l1 (g1 & _ & hp & _ & Hl1 & Hf & _ & Hr & _). apply spec_bind.
  eapply spec_mono; [apply new_bytes_spec, g1|]. intros h2 body (g2 & Hb & _).
  pose proof (fields_grow _ _ _ _ _ (g_ok _ _ _ g1) g2 ltac:(reflexivity) Hf) as Hf2.
  pose proof (grows_cell _ _ _ _ _ (g_ok _ _ _ g1) g2 ltac:(reflexivity) Hl1) as Hl2.
  apply spec_bind.
  eapply spec_mono; [eapply (update_fields (next h)); [apply g2|exact Hl2|apply Hr|exact Hf2]|].
  intros h3 _ (g3 & _ & Hl3 & k3 & [Hsc ? ? ? ? ? ?]). split.
  - eapply grows_trans; [|exact g3|reflexivity]. eapply grows_trans; [exact g1|exact g2|apply g1].
  - eexists. split; [exact Hl3|]. split; cbn; [|done|done|by eapply (bytes_keeps h2)|done..].
    unfold scalars_are in *. cbn. intuition.
Qed.

Lemma planned_context r bucket objectKey p :
  planS3Operation r bucket objectKey = Ok p -> p_iamContext p <> ∅.
Proof.
  intros (query & sh & _ & Hf)%planS3Operation_Ok. apply finish_plan_Ok in Hf as (_ & _ & _ & ->).
  cbn [p_iamContext]. rewrite buildS3IAMWireContext_fold.
  match goal with |- foldl (header_condition ?hs) (wire_base ?kd ?qs ?tls) _ <> _ =>
    assert (foldl (header_condition hs) (wire_base kd qs tls) s3HeaderConditionKeys
            !! "aws:securetransport" = Some [if tls then "true" else "false"]) as E end.
  { rewrite header_conditions_other by in_list. apply wire_base_lookups. }
  intros E'. rewrite E', lookup_empty in E. done.
Qed.

(** What the middleware computes with values is what [refined] does. *)
Lemma plan_of_refined `{XmlLexer} r body bucket objectKey isVHost pl :
  plan_of r body bucket objectKey isVHost = Ok pl ->
  exists p data, planS3Operation r bucket objectKey = Ok p /\ forall now,
    S3Authz.withAuthorizationContext "" now pl = refined isVHost data None now p /\
    (forall c, S3Authz.withAuthorizationContext c now (S3Authz.withRequestMetadata isVHost c pl)
               = refined isVHost data (Some c) now p).
Proof.
  unfold plan_of. destruct (negb (String.eqb bucket "") && _); [done|].
  destruct (planS3Operation r bucket objectKey) as [p|e]; cbn [res_map_err]; [|done].
  case_bool_decide as Hk.
  - unfold withCompleteMultipartBody. rewrite bool_decide_true by done. cbn [negb].
    destruct body as [body|]; [|done]. destruct (read_limited _ _) as [data|]; [|done].
    destruct (_ <? _); [done|]. destruct (_ =? 0); [done|].
    destruct (Unmarshal _ _ _) as [[name ?]|]; [|done]. destruct (negb _); [done|].
    cbn [res_map_err]. intros [= <-]. exists p, (Some data). by split.
  - intros [= <-]. exists p, None. by split.
Qed.

(** ** The refined plan *)

Lemma copied_trans p q h h1 h2 l1 l2 :
  copied p h h1 l1 -> copied q h1 h2 l2 -> copied q h h2 l2.
Proof.
  intros [g1 _] [g2 Hq]. split; [|done]. eapply grows_trans; [exact g1|exact g2|apply g1].
Qed.

Lemma refine_plan_spec isVHost body constraint now h l p :
  heap_ok h -> plan_is h l p -> p_iamContext p <> ∅ ->
  spec (refine_plan isVHost body constraint now l) h (fun h' l' => grows (next h) h h' /\
    plan_is h' l' (refined isVHost body constraint now p) /\
    NoDup (plan_locs h' l') /\ Forall (fun x => (next h <= x)%positive) (plan_locs h' l')).
Proof.
  intros Hok Hp Hne. unfold refine_plan, refined. apply spec_bind.
  eapply spec_mono; [by apply withRequestMetadata_spec|]. intros h1 l1 C1.
  set (p1 := S3Authz.withRequestMetadata isVHost "" p) in *. apply spec_bind.
  apply (spec_mono _ _ (copied (match body with Some d => with_control_body d p1 | None => p1 end) h)).
  { destruct body as [d|]; [|done]. eapply spec_mono; [apply install_body_spec; apply C1|].
    intros h2 l2 C2. by eapply copied_trans. }
  intros h2 l2 C2. set (p2 := match body with Some d => _ | None => _ end) in *. apply spec_bind.
  apply (spec_mono _ _ (copied (match constraint with
    | Some c => S3Authz.withRequestMetadata isVHost c p2 | None => p2 end) h)).
  { destruct constraint as [c|]; [|done]. eapply spec_mono; [apply withRequestMetadata_spec; apply C2|].
    intros h3 l3 C3. by eapply copied_trans. }
  intros h3 l3 [g3 P3]. set (p3 := match constraint with Some c => _ | None => _ end) in *.
  assert (p_iamContext p3 <> ∅) as Hne3 by (unfold p3, p2, p1; by destruct constraint, body).
  eapply spec_mono; [apply withAuthorizationContext_spec; [apply g3|exact P3|]|].
  - destruct P3 as (hp & Hl & Hf). exists hp. split; [done|].
    pose proof (fa_context _ _ _ Hf) as Hc. destruct (hp_iamContext hp); [by eexists|by destruct Hne3].
  - intros h4 l4 (g4 & P4 & [N4 F4]). pose proof (g_next _ _ _ g3). split_and!; [|done|done|].
    + eapply grows_trans; [exact g3|exact g4|done].
    + eapply Forall_impl; [exact F4|]. cbn. lia.
Qed.

(** C11. The plan the middleware authorizes and dispatches shares no memory with anything
    else.  On a heap where [l] points to the plan [planS3Operation] returned, aliased in
    any way, the methods that refine it do not panic, leave every existing cell as it was,
    and return a plan that denotes the one computed with values; its maps, slices and
    arrays are all new and no two of them are the same, so no later write through another
    pointer changes it; and [AuthorizeS3Plan] on it writes to no existing cell and decides
    as it does on values. *)
Theorem sealed_plan_unshared (r : HttpRequest) (bucket objectKey : string) (p : S3OperationPlan)
    (isVHost : bool) (body constraint : option string) (now : Time) (policy : option Policy)
    (h : heap) (l : loc)
    (Hplan : planS3Operation r bucket objectKey = Ok p) (Hok : heap_ok h) (Hl : plan_is h l p) :
  let q := refined isVHost body constraint now p in
  exists h' l', refine_plan isVHost body constraint now l h = Some (h', l') /\
    extends h h' /\ plan_is h' l' q /\
    NoDup (plan_locs h' l') /\ (forall x, x ∈ plan_locs h' l' -> cells h !! x = None) /\
    (forall g, same_on (plan_locs h' l') h' g -> plan_is g l' q) /\
    exists h'', Sharing.AuthorizeS3Plan policy (Some l') h'
                = Some (h'', S3Authz.AuthorizeS3Plan policy (Some q)) /\ extends h' h''.
Proof.
  intros q. pose proof (refine_plan_spec isVHost body constraint now h l p Hok Hl
    (planned_context _ _ _ _ Hplan)) as Hs. fold q in Hs.
  unfold spec in Hs. destruct (refine_plan _ _ _ _ l h) as [[h' l']|] eqn:E; [|done].
  destruct Hs as (Hg & Hq & Hn & Hf). exists h', l'. split_and!; [done| |done|done| | |].
  - eapply grows_extends; [exact Hok|exact Hg|reflexivity].
  - intros x Hx. rewrite Forall_forall in Hf. destruct (cells h !! x) eqn:Ex; [|done].
    apply Hok in Ex. specialize (Hf x Hx). lia.
  - intros g. by apply plan_frame.
  - pose proof (AuthorizeS3Plan_heap policy h' l' q (g_ok _ _ _ Hg) Hq) as Ha. unfold spec in Ha.
    destruct (Sharing.AuthorizeS3Plan policy (Some l') h') as [[h'' res]|]; [|done].
    destruct Ha as [Ha ->]. exists h''. split; [done|].
    eapply grows_extends; [apply Hg|exact Ha|reflexivity].
Qed.

(** ** A plan on an empty heap *)

Module SharingExample.
Import PlanExample.

(** A map with the entries [items], for maps a program builds key by key. *)
Fixpoint store_entries (to : ptr) (items : list (string * list string)) : M unit :=
  match items with
  | [] => Sharing.ret tt
  | (key, values) :: items =>
      let* l := alloc (CStrings values) in
      let* _ := dict_set to key (Some l) in
      store_entries to items
  end.

Definition store_dict (m : gmap string (list string)) : M ptr :=
  let* l := alloc (CDict ∅) in
  let* _ := store_entries (Some l) (map_to_list m) in
  Sharing.ret (Some l).

Lemma store_entries_spec a h l m items :
  heap_ok h -> (a <= next h)%positive -> dict_in a (next h) h (Some l) m ->
  spec (store_entries (Some l) items) h (fun h' _ =>
    grows a h h' /\ dict_is h' (Some l) (put_all m items)).
Proof.
  revert h m. induction items as [|[k vs] items IH]; intros h m Hok Ha Hd.
  { split; [by apply grows_refl|apply Hd]. }
  cbn [store_entries]. apply spec_bind, spec_alloc; [done|]. intros h1 g1 Hn Hc. apply spec_bind.
  eapply spec_mono.
  { apply (dict_set_spec a (next h)); [apply g1| |exact Hc|apply fresh_in_one; lia|lia].
    apply (dict_in_grows _ _ (next h) h); [exact Hd|exact g1|reflexivity]. }
  intros h2 _ (g2 & Hn2 & Hd2). rewrite <-Hn2 in Hd2.
  assert (grows a h h2) as g02 by (eapply grows_trans; [by eapply grows_weaken|exact g2|reflexivity]).
  eapply spec_mono; [apply IH; [apply g2|lia|exact Hd2]|]. intros h3 _ [g3 Hd3].
  split; [|exact Hd3]. eapply grows_trans; [exact g02|exact g3|reflexivity].
Qed.

Lemma store_dict_spec h m :
  heap_ok h -> spec (store_dict m) h (fun h' v => grows (next h) h h' /\ dict_is h' v m).
Proof.
  intros Hok. unfold store_dict. apply spec_bind, spec_alloc; [done|]. intros h1 g1 Hn Hl.
  apply spec_bind. eapply spec_mono.
  - apply (store_entries_spec (next h) h1 (next h) ∅ (map_to_list m)); [apply g1|lia|].
    split; [exists ∅; split; [done|apply map_Forall2_empty]|]. cbn. rewrite Hl.
    unfold slice_locs. rewrite map_to_list_empty. apply fresh_in_one. lia.
  - intros h2 _ [g2 Hd]. split; [eapply grows_trans; [exact g1|exact g2|reflexivity]|].
    by rewrite put_all_union, (right_id_L ∅ (∪)), list_to_map_to_list in Hd by apply NoDup_fst_map_to_list.
Qed.

(** The list plan; its checks have one empty context between them. *)
Definition store_list_plan : M loc :=
  let* ctx := store_dict (p_iamContext list_plan) in
  let* none := store_dict ∅ in
  let* headers := store_dict (p_forwardHeaders list_plan) in
  let* query := store_dict (p_query list_plan) in
  let* checks := alloc (CChecks ((fun c => mkHRequest (rq_action c) (rq_resource c) none)
                                   <$> p_iamChecks list_plan)) in
  alloc (CPlan (mkHPlan (p_kind list_plan) (p_bucket list_plan) (p_objectKey list_plan)
    (p_rawQuery list_plan) (p_responseProfile list_plan) (Some checks) None (p_isVHost list_plan)
    (p_locationConstraint list_plan) (p_bodyKind list_plan) None (p_method list_plan)
    (p_contentLength list_plan) headers query (p_secureTransport list_plan)
    (p_signedAt list_plan) ctx (p_authorizationReady list_plan))).

Definition empty_heap : heap := mkHeap 1 ∅.

Lemma list_plan_stored : spec store_list_plan empty_heap (fun h l => heap_ok h /\ plan_is h l list_plan).
Proof.
  assert (heap_ok empty_heap) as Hok by (intros x c; unfold empty_heap; cbn [cells]; by rewrite lookup_empty).
  apply spec_bind. eapply spec_mono; [by apply store_dict_spec|]. intros h1 ctx (g1 & D1).
  apply spec_bind. eapply spec_mono; [apply store_dict_spec, g1|]. intros h2 none (g2 & D2).
  apply spec_bind. eapply spec_mono; [apply store_dict_spec, g2|]. intros h3 headers (g3 & D3).
  apply spec_bind. eapply spec_mono; [apply store_dict_spec, g3|]. intros h4 query (g4 & D4).
  apply spec_bind, spec_alloc; [apply g4|]. intros h5 g5 _ Hl5.
  apply spec_alloc; [apply g5|]. intros h6 g6 _ Hl6. split; [apply g6|].
  pose proof (grows_extends _ _ _ (g_ok _ _ _ g5) g6 ltac:(reflexivity)) as e5.
  pose proof (extends_trans _ _ _ (grows_extends _ _ _ (g_ok _ _ _ g4) g5 ltac:(reflexivity)) e5) as e4.
  pose proof (extends_trans _ _ _ (grows_extends _ _ _ (g_ok _ _ _ g3) g4 ltac:(reflexivity)) e4) as e3.
  pose proof (extends_trans _ _ _ (grows_extends _ _ _ (g_ok _ _ _ g2) g3 ltac:(reflexivity)) e3) as e2.
  pose proof (extends_trans _ _ _ (grows_extends _ _ _ (g_ok _ _ _ g1) g2 ltac:(reflexivity)) e2) as e1.
  eexists. split; [exact Hl6|].
  split; cbn [hp_iamChecks hp_copySource hp_controlBody hp_forwardHeaders hp_query hp_iamContext].
  - by repeat split.
  - eexists. split; [by apply e5|]. apply Forall2_fmap_l, Forall_Forall2_diag, Forall_forall.
    intros c Hc. split_and!; [done..|]. cbn [hr_Context].
    assert (rq_context c = ∅) as ->.
    { assert (p_iamChecks list_plan = [newIAMRequest "s3:ListBucket" "arn:aws:s3:::photos"]) as E
        by (vm_compute; reflexivity).
      rewrite E in Hc. by apply list_elem_of_singleton in Hc as ->. }
    exact (dict_keeps _ _ _ _ (extends_keeps _ _ e2) D2).
  - vm_compute. reflexivity.
  - vm_compute. reflexivity.
  - exact (dict_keeps _ _ _ _ (extends_keeps _ _ e3) D3).
  - exact (dict_keeps _ _ _ _ (extends_keeps _ _ e4) D4).
  - exact (dict_keeps _ _ _ _ (extends_keeps _ _ e1) D1).
Qed.

Lemma sealed_plan_unshared_witness :
  exists h l h' l' h'', refine_plan false None None (Unix 1767323045) l h = Some (h', l') /\
    extends h h' /\ NoDup (plan_locs h' l') /\
    Sharing.AuthorizeS3Plan (Some list_policy) (Some l') h' = Some (h'', Ok tt).
Proof.
  pose proof list_plan_stored as Hs. unfold spec in Hs.
  destruct (store_list_plan empty_heap) as [[h l]|]; [|done]. destruct Hs as [Hok Hl].
  destruct (sealed_plan_unshared list_request "photos" "" list_plan false None None (Unix 1767323045)
    (Some list_policy) h l list_planned Hok Hl)
    as (h' & l' & Hr & He & _ & Hn & _ & _ & h'' & Ha & _).
  exists h, l, h', l', h''. split_and!; [exact Hr|exact He|exact Hn|]. rewrite Ha.
  assert (S3Authz.AuthorizeS3Plan (Some list_policy)
            (Some (refined false None None (Unix 1767323045) list_plan)) = Ok tt) as ->
    by (vm_compute; reflexivity).
  reflexivity.
Defined.
End SharingExample.
