(* ===== verification/MiddlewareSpec.v ===== *)
(** * MiddlewareSpec: what a dispatched request was checked against

    [S3Auth] under any interleaving with the watch, with other requests and with the
    loads they share: the credentials, the policy, the host registry and the mapping that
    decided a dispatched request all belong to one revision of the control plane. *)
From S2P Require Import Prelude GoStrings GoTime GoNet GoUrl GoHttp Json Iam Errors Cache Client.
From S2P Require Import Names CopySource Operation S3Authz Crypto Base64 Token ListRewrite Auth.
From S2P Require Import ClientInv ClientHistory ClientCoherence.
From S2P Require Import CanonicalRequest SignVerify.
From S2P Require Import GoURLs Flight Mapping Lookup LookupSpec Xml Middleware.

(** What decided a request. *)
Record decision (Registry : Type) := mkDecision {
  de_revision : Z;
  de_creds : VirtualCredentials;
  de_registry : Registry;
  de_verified : Time;
  de_authorized : Time;
  de_bucket : string;
  de_objectKey : string;
  de_isVHost : bool;
  de_plan : S3OperationPlan
}.

Section spec.
Context `{XmlLexer} `{Platform} `{Timestamps} `{GrpcStatus} {CC VC : Type}
  `{TimedStoreLaws CC string (cached VirtualCredentials)}
  `{TimedStoreLaws VC string (cached VBucketConfig)}.

Abbreviation Sys := (Sys (CC:=CC) (VC:=VC)).
Abbreviation prog := (prog (CC:=CC) (VC:=VC)).
Abbreviation decision := (decision (Client (CC:=CC) (VC:=VC))).

Context (srv_cred : Z -> string -> option VirtualCredentials)
        (srv_conf : Z -> string -> option VBucketConfig).
Context (maxSkew : Z) (r : HttpRequest) (body : option stream).

(** The mapping, the constraint and the plan found at a revision. *)
Definition located (rev : Z) (accessKeyID bucket : string) (isVHost : bool)
    (plan : S3OperationPlan) (found : option VBucketConfig * string * S3OperationPlan) : Prop :=
  match p_kind plan with
  | operationListBuckets => found = (None, "", plan)
  | operationCreateBucket => exists constraint,
      parseCreateBucketLocationConstraint body = Ok constraint /\
      found = (None, constraint, withRequestMetadata isVHost constraint plan)
  | _ => found = (srv_conf rev (vbucketCacheKey accessKeyID bucket), "", plan)
  end.

(** The context holds what was found, its plan sealed at the time of the decision. *)
Definition routed (d : decision) (cx : s3_context) : Prop :=
  exists constraint plan,
    located (de_revision _ d) (AccessKeyID (cx_authInfo cx)) (de_bucket _ d) (de_isVHost _ d)
      (de_plan _ d) (cx_vbConfig cx, constraint, plan) /\
    cx_plan cx = withAuthorizationContext constraint (de_authorized _ d) plan.

(** The decision that let [cx] through, with the clock in [clock] and every state of the
    client it used in [visited]. *)
Record justified (clock : Time -> Prop) (visited : Sys -> Prop) (d : decision) (cx : s3_context)
    : Prop := {
  ju_header : authorization_of r = Ok (cx_authInfo cx);
  ju_creds : srv_cred (de_revision _ d) (AccessKeyID (cx_authInfo cx)) = Some (de_creds _ d);
  ju_verified : clock (de_verified _ d);
  ju_signature : verifySignatureAtTime r (Some (cx_authInfo cx)) (SecretKey (de_creds _ d))
                   (de_verified _ d) maxSkew = Ok tt;
  ju_visited : exists s, visited s /\ client s = de_registry _ d;
  ju_registry : revision (de_registry _ d) = de_revision _ d;
  ju_hosts : exists baseHost found,
    LookupBaseHost (resolve_host r) (de_registry _ d) = Ok (baseHost, found) /\
    resolve_path (resolve_host r) baseHost found r =
      (de_bucket _ d, de_objectKey _ d, de_isVHost _ d);
  ju_plan : plan_of r body (de_bucket _ d) (de_objectKey _ d) (de_isVHost _ d)
            = Ok (de_plan _ d);
  ju_authorized : clock (de_authorized _ d);
  ju_policy : AuthorizeS3Plan (IAMPolicy (de_creds _ d)) (Some (cx_plan cx)) = Ok tt;
  ju_routed : routed d cx
}.

(** A dispatch is justified at a revision the client had between [s] and [s']. *)
Definition dispatch_ok (clock : Time -> Prop) (visited : Sys -> Prop) (s s' : Sys)
    (res : result s3_error s3_context) : Prop :=
  forall cx, res = Ok cx -> exists d, justified clock visited d cx /\
    revision (client s) <= de_revision _ d <= revision (client s').

Section logic.
Context (clock : Time -> Prop) (visited : Sys -> Prop).

Definition clock_answers (A : Type) (q : query A) : A -> Prop :=
  match q with QNow => clock | _ => fun _ => True end.

Abbreviation wp := (wp srv_cred srv_conf clock_answers visited).
Abbreviation evolves := (evolves srv_cred srv_conf).
Abbreviation good := (good srv_cred srv_conf).

Lemma dispatch_ok_stable s : stable srv_cred srv_conf (dispatch_ok clock visited s).
Proof.
  intros s1 s2 res He Hd cx Hcx. destruct (Hd cx Hcx) as (d & Hj & Hr). exists d. split; [done|].
  pose proof (ev_revision _ _ _ _ He). lia.
Qed.

Lemma dispatch_ok_err s s' e : dispatch_ok clock visited s s' (Err e).
Proof. by intros cx. Qed.

Lemma wp_or_answer {A B E} (to_error : E -> s3_error) (c : prog (result E A))
    (k : A -> prog (result s3_error B)) s (Q : Sys -> result s3_error B -> Prop) :
  (forall s' e, Q s' (Err e)) ->
  wp c s (fun s' res => forall a, res = Ok a -> wp (k a) s' Q) ->
  wp (or_answer to_error c k) s Q.
Proof.
  intros He Hc. unfold or_answer. apply wp_bind. eapply wp_mono; [|exact Hc].
  intros s' [a|e] Ha; [by apply Ha|apply He].
Qed.

Lemma wp_or_ret {A B E} (to_error : E -> s3_error) (res : result E A)
    (k : A -> prog (result s3_error B)) s (Q : Sys -> result s3_error B -> Prop) :
  (forall s' e, Q s' (Err e)) -> (forall a, res = Ok a -> wp (k a) s Q) ->
  wp (or_answer to_error (ret res) k) s Q.
Proof. intros He Hk. by apply wp_or_answer. Qed.

Lemma wp_or_observe {A B E} (to_error : E -> s3_error) (f : Client -> result E A)
    (k : A -> prog (result s3_error B)) s (Q : Sys -> result s3_error B -> Prop) :
  (forall s' e, Q s' (Err e)) ->
  (forall s1 a, evolves s s1 -> visited s1 -> f (client s1) = Ok a -> wp (k a) s1 Q) ->
  wp (or_answer to_error (observe f) k) s Q.
Proof.
  intros He Hk. apply wp_or_answer; [done|]. apply wp_observe. intros s1 He1 Hv a Ha. by apply Hk.
Qed.

Lemma wp_resolveBucket s :
  wp (resolveBucket r) s (fun s' res => forall bko, res = Ok bko ->
    evolves s s' /\ visited s' /\ exists baseHost found,
      LookupBaseHost (resolve_host r) (client s') = Ok (baseHost, found) /\
      resolve_path (resolve_host r) baseHost found r = bko).
Proof.
  unfold resolveBucket. apply wp_bind, wp_observe. intros s1 He Hv.
  destruct (LookupBaseHost _ _) as [[baseHost found]|] eqn:E; [|done].
  intros bko [= <-]. eauto 10.
Qed.

Lemma BeginResolution_Ok (c : Client (CC:=CC) (VC:=VC)) stamp :
  BeginResolution c = Ok stamp -> revision c = stamp.1.
Proof. unfold BeginResolution, lookupSnapshot. repeat case_match; intros; by simplify_eq. Qed.

Lemma wp_lookup_or {A} (look : prog (result error (option A))) srv key s :
  good s -> wp look s (value_between srv key s) ->
  wp look s (fun s' res => forall o, res = Ok o -> evolves s s' /\ exists rev,
    revision (client s) <= rev <= revision (client s') /\ srv rev key = o).
Proof.
  intros Hg Hw. eapply wp_mono; [|by apply wp_frame, Hw]. cbv beta.
  intros s' res [He Hv] o Ho. split; [done|by apply Hv].
Qed.

Lemma wp_locate authInfo bucket isVHost plan s :
  good s ->
  wp (locate authInfo body bucket isVHost plan) s (fun s' res => forall found, res = Ok found ->
    evolves s s' /\ exists rev, revision (client s) <= rev <= revision (client s') /\
      located rev (AccessKeyID authInfo) bucket isVHost plan found).
Proof.
  intros Hg. unfold locate, located.
  assert (forall found, located (revision (client s)) (AccessKeyID authInfo) bucket isVHost plan found ->
    evolves s s /\ exists rev, revision (client s) <= rev <= revision (client s) /\
      located rev (AccessKeyID authInfo) bucket isVHost plan found) as Hhere.
  { intros found Hf. split; [by apply evolves_refl|]. exists (revision (client s)). split; [lia|done]. }
  unfold located in Hhere.
  assert (wp (or_answer (resolver_error false) (LookupVBucket (AccessKeyID authInfo) bucket)
      (fun vbConfig => ret (Ok (vbConfig, "", plan)))) s
    (fun s' res => forall found, res = Ok found ->
      evolves s s' /\ exists rev, revision (client s) <= rev <= revision (client s') /\
        found = (srv_conf rev (vbucketCacheKey (AccessKeyID authInfo) bucket), "", plan))) as Hlook.
  { apply wp_or_answer; [done|]. eapply wp_mono; [|eapply wp_lookup_or; [done|]].
    2: { apply wp_LookupVBucket. done. }
    cbv beta. intros s' res Hres o Ho found [= <-].
    destruct (Hres o Ho) as (He & rev & Hr & Hs). split; [done|]. exists rev. by rewrite Hs. }
  destruct (p_kind plan); try exact Hlook.
  - intros found [= <-]. by apply Hhere.
  - destruct (parseCreateBucketLocationConstraint body) as [constraint|]; [|done].
    intros found [= <-]. apply Hhere. eauto.
Qed.
Lemma wp_S3Auth s :
  good s -> wp (S3Auth maxSkew r body) s (dispatch_ok clock visited s).
Proof.
  intros Hg. pose proof (dispatch_ok_err s) as Herr. unfold S3Auth.
  apply wp_or_ret; [done|]. intros authInfo Hauth.
  apply wp_or_observe; [done|]. intros s1 stamp He1 _ Hstamp%BeginResolution_Ok.
  apply wp_or_answer; [done|].
  eapply wp_mono; [|eapply wp_lookup_or; [apply He1|by apply wp_LookupCredentials, He1]].
  cbv beta. intros s2 found Hfound found' Hf. destruct (Hfound found' Hf) as (He2 & rev2 & Hr2 & Hc).
  apply wp_or_ret; [done|]. intros creds Hcreds.
  apply wp_bind, wp_ask. intros s3 verified He3 Hclock3.
  apply wp_or_ret; [done|]. intros [] Hsig.
  apply wp_or_answer; [done|]. eapply wp_mono; [|apply wp_resolveBucket].
  cbv beta. intros s4 res Hres [[bucket objectKey] isVHost] ->.
  destruct (Hres _ eq_refl) as (He4 & Hv4 & baseHost & base_found & Hbase & Hpath).
  apply wp_or_ret; [done|]. intros plan Hplan.
  apply wp_or_answer; [done|]. eapply wp_mono; [|apply wp_locate, He4].
  cbv beta. intros s5 res' Hres' [[vbConfig constraint] plan'] ->.
  destruct (Hres' _ eq_refl) as (He5 & rev5 & Hr5 & Hloc).
  apply wp_bind, wp_ask. intros s6 authorized He6 Hclock6. cbv zeta.
  apply wp_or_ret; [done|]. intros [] Hpolicy.
  apply wp_or_observe; [done|]. intros s7 [] He7 _ (_ & Hvalid & _)%ValidateResolution_Ok.
  intros cx [= <-].
  pose proof (ev_revision _ _ _ _ He1). pose proof (ev_revision _ _ _ _ He2).
  pose proof (ev_revision _ _ _ _ He3). pose proof (ev_revision _ _ _ _ He4).
  pose proof (ev_revision _ _ _ _ He5). pose proof (ev_revision _ _ _ _ He6).
  pose proof (ev_revision _ _ _ _ He7).
  assert (rev2 = stamp.1) as -> by lia. assert (rev5 = stamp.1) as -> by lia.
  exists (mkDecision _ stamp.1 creds (client s4) verified authorized bucket objectKey isVHost plan).
  split; [|cbn; lia]. unfold found_credentials in Hcreds. destruct found' as [c|]; [|done].
  apply Ok_inj in Hcreds as ->.
  destruct (AuthorizeS3Plan _ _) as [[]|] eqn:Eauth; [|done].
  split; try done; [by exists s4|cbn; lia|by exists baseHost, base_found|by exists constraint, plan'].
Qed.
End logic.

(** C2. Complete mediation: however the request is interleaved with the watch, with other
    requests and with the loads they share, a request that is dispatched carries a
    signature made with the secret its access key had, is allowed by the policy of that
    key, and goes to the mapping its bucket had, all three at one and the same revision
    of the control plane, which the client held while the request was being decided;
    the clock read for the signature and for the policy is one of the request's own
    readings, and the host registry that named the bucket is the client's at that
    revision. *)
Theorem dispatched_request_justified (now0 m : Z) (cc0 : CC) (vc0 : VC) (ca va : missAdmission)
    (cc0_empty : forall k v, ~ store_holds cc0 k v) (vc0_empty : forall k v, ~ store_holds vc0 k v)
    (ca_idle : inflight ca = 0) (va_idle : inflight va = 0)
    (clock : Time -> Prop) (before moves : list move) (s' : Sys) (cx : s3_context)
    (Hfaithful : Forall (faithful_move srv_cred srv_conf) (before ++ moves))
    (Hclock : Forall (fun mv => match mv with Turn _ o => clock (o Time QNow) | _ => True end) moves) :
  let s := system now0 m cc0 vc0 ca va before in
  play moves s (S3Auth maxSkew r body) = (s', Ret _ (Ok cx)) ->
  exists d, justified clock (fun s1 => s1 ∈ trace moves s (S3Auth maxSkew r body)) d cx /\
    revision (client s) <= de_revision _ d <= revision (client s').
Proof.
  intros s Hp. apply Forall_app in Hfaithful as [Hb Hm].
  assert (good srv_cred srv_conf s) as Hg by by apply good_system.
  set (visited := fun s1 => s1 ∈ trace moves s (S3Auth maxSkew r body)).
  destruct (wp_play srv_cred srv_conf (clock_answers clock) visited moves (S3Auth maxSkew r body) s s'
              (Ok cx) (dispatch_ok clock visited s)) as [_ Hd]; try done.
  - eapply Forall_impl; [exact Hclock|]. intros [now e|now o]; [done|]. intros Hc A q. by destruct q.
  - apply dispatch_ok_stable.
  - by apply wp_S3Auth.
  - by apply Hd.
Qed.
End spec.

Section running.
Context `{XmlLexer} `{Platform} `{Timestamps} `{GrpcStatus} {CC VC : Type}
  `{TimedStore CC string (cached VirtualCredentials)}
  `{TimedStore VC string (cached VBucketConfig)}.

Abbreviation prog := (prog (CC:=CC) (VC:=VC)).

(** The run of a part of a call that returns at the last of its moves. *)
Fixpoint runs {A} (moves : list move) (s : Sys (CC:=CC) (VC:=VC)) (c : prog A)
    : option (Sys (CC:=CC) (VC:=VC) * A) :=
  match moves, c with
  | [], Ret _ a => Some (s, a)
  | [], _ => None
  | Turn _ _ :: _, Ret _ _ => None
  | mv :: moves, _ => runs moves (play_move (s, c) mv).1 (play_move (s, c) mv).2
  end.

Lemma runs_app_bind {A B} s' a m1 m2 s (c : prog A) (k : A -> prog B) res :
  runs m1 s c = Some (s', a) -> runs m2 s' (k a) = res -> runs (m1 ++ m2) s (bind c k) = res.
Proof.
  intros Hr Hk. revert s c Hr. induction m1 as [|mv m1 IH]; intros s c; cbn.
  - destruct c; intros; by simplify_eq.
  - destruct mv as [now e|now o], c as [x|X f g|X f g|X q g]; cbn; try done; intros Hr.
    + specialize (IH (sys_step now e s) (Ret A x) Hr). cbn in IH.
      destruct (k x); exact IH.
    + apply (IH (sys_step now e s) (Act A X f g) Hr).
    + apply (IH (sys_step now e s) (Await A X f g) Hr).
    + apply (IH (sys_step now e s) (Ask A X q g) Hr).
    + destruct (f now s) as [s1 x]. apply (IH s1 (g x) Hr).
    + destruct (f s) as [x|]; [apply (IH s (g x) Hr)|apply (IH s (Await A X f g) Hr)].
    + apply (IH s (g (o X q)) Hr).
Qed.

Lemma runs_play {A} moves s (c : prog A) s' a :
  runs moves s c = Some (s', a) -> play moves s c = (s', Ret A a).
Proof.
  revert s c. induction moves as [|mv moves IH]; intros s c; cbn.
  - destruct c; intros; by simplify_eq.
  - destruct mv as [now e|now o], c as [x|X f g|X f g|X q g]; cbn; try done; intros Hr.
    + apply (IH (sys_step now e s) (Ret A x) Hr).
    + apply (IH (sys_step now e s) (Act A X f g) Hr).
    + apply (IH (sys_step now e s) (Await A X f g) Hr).
    + apply (IH (sys_step now e s) (Ask A X q g) Hr).
    + destruct (f now s) as [s1 x]. apply (IH s1 (g x) Hr).
    + destruct (f s) as [x|]; [apply (IH s (g x) Hr)|apply (IH s (Await A X f g) Hr)].
    + apply (IH s (g (o X q)) Hr).
Qed.

Lemma runs_ask {A B} now (o : oracle) s (q : query A) (f : A -> B) :
  runs [Turn now o] s (bind (ask q) (fun x => ret (f x))) = Some (s, f (o A q)).
Proof. reflexivity. Qed.

Lemma or_answer_Ok {A B E} (to_error : E -> s3_error) (a : A)
    (k : A -> prog (result s3_error B)) :
  or_answer to_error (ret (Ok a)) k = k a.
Proof. reflexivity. Qed.

Lemma runs_or_answer {A B E} s' a (to_error : E -> s3_error) (k : A -> prog (result s3_error B))
    (c : prog (result E A)) m1 m2 s res :
  runs m1 s c = Some (s', Ok a) -> runs m2 s' (k a) = res ->
  runs (m1 ++ m2) s (or_answer to_error c k) = res.
Proof. intros Hr Hk. unfold or_answer. by eapply runs_app_bind. Qed.

Lemma BeginResolution_valid (c : Client (CC:=CC) (VC:=VC)) stamp :
  BeginResolution c = Ok stamp -> ValidateResolution stamp c = Ok tt.
Proof.
  unfold BeginResolution, lookupSnapshot, ValidateResolution, stillCurrent.
  destruct (bool_decide _); [|done]. destruct (connected c); [|done].
  intros <-%Ok_inj. cbn. by rewrite !Z.eqb_refl.
Qed.

(** A call that is dispatched, with nothing said of the schedules of its lookups. *)
Lemma S3Auth_runs maxSkew r body authInfo stamp creds baseHost found bucket objectKey isVHost plan
    vbConfig constraint plan' (now1 now2 : Z) (o1 o2 : oracle) lookup locating s s' s'' :
  authorization_of r = Ok authInfo ->
  BeginResolution (client s) = Ok stamp ->
  runs lookup s (LookupCredentials (AccessKeyID authInfo)) = Some (s', Ok (Some creds)) ->
  verifySignatureAtTime r (Some authInfo) (SecretKey creds) (o1 Time QNow) maxSkew = Ok tt ->
  LookupBaseHost (resolve_host r) (client s') = Ok (baseHost, found) ->
  resolve_path (resolve_host r) baseHost found r = (bucket, objectKey, isVHost) ->
  plan_of r body bucket objectKey isVHost = Ok plan ->
  runs locating s' (locate authInfo body bucket isVHost plan)
    = Some (s'', Ok (vbConfig, constraint, plan')) ->
  AuthorizeS3Plan (IAMPolicy creds)
    (Some (withAuthorizationContext constraint (o2 Time QNow) plan')) = Ok tt ->
  ValidateResolution stamp (client s'') = Ok tt ->
  runs ([Turn now1 o1] ++ lookup ++ [Turn now1 o1] ++ [Turn now1 o1] ++ locating
          ++ [Turn now2 o2] ++ [Turn now2 o2])
    s (S3Auth maxSkew r body) =
  Some (s'', Ok (mkContext vbConfig authInfo
                   (withAuthorizationContext constraint (o2 Time QNow) plan'))).
Proof.
  intros Ha Hb Hl Hs Hh Hp Hplan Hloc Hauth Hv. unfold S3Auth. rewrite Ha, or_answer_Ok.
  apply (runs_or_answer s stamp); [cbn; by rewrite Hb|].
  apply (runs_or_answer s' (Some creds)); [done|]. cbn [found_credentials]. rewrite or_answer_Ok.
  apply (runs_app_bind s' (o1 Time QNow)); [done|]. rewrite Hs, or_answer_Ok.
  apply (runs_or_answer s' (bucket, objectKey, isVHost)).
  { unfold resolveBucket. cbn -[LookupBaseHost resolve_path]. by rewrite Hh, <-Hp. }
  rewrite Hplan, or_answer_Ok. apply (runs_or_answer s'' (vbConfig, constraint, plan')); [done|].
  apply (runs_app_bind s'' (o2 Time QNow)); [done|]. cbv zeta. rewrite Hauth. cbn [res_map_err].
  rewrite or_answer_Ok.
  rewrite <-(app_nil_r [Turn now2 o2]). apply (runs_or_answer s'' tt); [cbn; by rewrite Hv|done].
Qed.
End running.

(** ** A dispatched request *)

Module MiddlewareExample.
Import LookupExample.

(** No document is read. *)
#[export] Instance no_xml : XmlLexer := {| lex := fun _ => ([], false) |}.

Definition policy : string := with_quotes
  "{'Version': '2012-10-17', 'Statement': {'Effect': 'Allow', 'Action': 's3:ListAllMyBuckets',
     'Resource': '*'}}".

Definition noon : Time := Unix 1767323045.

Definition unsigned (method path : string) : HttpRequest :=
  mkHttpRequest method path "" "" {["Accept" := ["*/*"]]} "s3.example.com" "" 0 [] ∅ true.

Definition request (method path : string) : HttpRequest :=
  signRequest (unsigned method path) "AKIA" "secret" "us-east-1" noon.
Definition info (method path : string) : AuthInfo :=
  signed_info (unsigned method path) "AKIA" "secret" "us-east-1" noon.

Lemma request_accepted method path :
  authorization_of (request method path) = Ok (info method path) /\
  verifySignatureAtTime (request method path) (Some (info method path)) "secret" noon 900000000000
  = Ok tt.
Proof.
  destruct (signed_accepted (unsigned method path) "AKIA" "secret" "us-east-1" noon 900000000000)
    as (Hh & Hp & Hv).
  - intros n vs Hn. unfold unsigned in Hn. cbn [r_Header] in Hn.
    rewrite lookup_singleton in Hn. case_decide as E; [subst n|done].
    split_and!; [by vm_compute|done|by vm_compute|set_solver].
  - reflexivity.
  - vm_compute. reflexivity.
  - vm_compute. reflexivity.
  - vm_compute. repeat split; discriminate.
  - vm_compute. repeat split; discriminate.
  - right. vm_compute. discriminate.
  - split; [|exact Hv]. unfold authorization_of, request. rewrite Hh. fold (info method path) in Hp.
    rewrite Hp.
    destruct (String.eqb_spec (auth_text (unsigned method path) "AKIA" "secret" "us-east-1" noon) "")
      as [E|_]; [|reflexivity]. unfold auth_text in E. discriminate E.
Qed.

(** The request with its signature abstracted. *)
Definition with_signature (method path text : string) : HttpRequest :=
  with_header (Header_Set (dated (unsigned method path) noon) "Authorization" text)
    (unsigned method path).

Lemma request_eq method path :
  request method path =
  with_signature method path (auth_text (unsigned method path) "AKIA" "secret" "us-east-1" noon).
Proof. apply signRequest_eq. Qed.

(** A signed request, of which only the signature is not known. *)
Lemma signed_request_exists method path :
  exists text info,
    authorization_of (with_signature method path text) = Ok info /\ AccessKeyID info = "AKIA" /\
    verifySignatureAtTime (with_signature method path text) (Some info) "secret" noon 900000000000
    = Ok tt.
Proof.
  destruct (request_accepted method path) as [Ha Hv]. rewrite request_eq in Ha, Hv.
  eexists _, (info method path). split; [exact Ha|]. split; [reflexivity|exact Hv].
Qed.

Definition no_plan : S3OperationPlan :=
  mkPlan operationHeadBucket "" "" "" responseSafeHeaders [] None false "" bodyEmpty "" "" 0 ∅ ∅
    false "" ∅ false.

Definition listing_plan (text : string) : S3OperationPlan :=
  match plan_of (with_signature "GET" "/" text) None "" "" false with Ok p => p | Err _ => no_plan end.

Lemma listing_planned text :
  plan_of (with_signature "GET" "/" text) None "" "" false = Ok (listing_plan text) /\
  p_kind (listing_plan text) = operationListBuckets /\
  AuthorizeS3Plan (creds policy ≫= IAMPolicy)
    (Some (withAuthorizationContext "" noon (listing_plan text))) = Ok tt.
Proof. split_and!; vm_compute; reflexivity. Qed.

(** A signed listing of the buckets of "AKIA". *)
Lemma signed_listing :
  exists r info plan,
    authorization_of r = Ok info /\ AccessKeyID info = "AKIA" /\
    verifySignatureAtTime r (Some info) "secret" noon 900000000000 = Ok tt /\
    resolve_host r = "s3.example.com" /\
    resolve_path "s3.example.com" "s3.example.com" true r = ("", "", false) /\
    plan_of r None "" "" false = Ok plan /\ p_kind plan = operationListBuckets /\
    AuthorizeS3Plan (creds policy ≫= IAMPolicy)
      (Some (withAuthorizationContext "" noon plan)) = Ok tt.
Proof.
  destruct (signed_request_exists "GET" "/") as (text & info & Ha & Hk & Hv).
  destruct (listing_planned text) as (Hp & Hkind & Hz).
  exists (with_signature "GET" "/" text), info, (listing_plan text).
  split_and!; [exact Ha|exact Hk|exact Hv|reflexivity|reflexivity|exact Hp|exact Hkind|exact Hz].
Qed.

Lemma looked_up :
  exists s', runs (cold policy) (start connect) (LookupCredentials "AKIA")
             = Some (s', Ok (creds policy)) /\
    BeginResolution (client (start connect)) = BeginResolution (client s') /\
    LookupBaseHost "s3.example.com" (client s') = Ok ("s3.example.com", true) /\
    exists stamp, BeginResolution (client s') = Ok stamp /\
      ValidateResolution stamp (client s') = Ok tt.
Proof.
  assert ((fun sa => (sa.2, BeginResolution (client sa.1),
                      LookupBaseHost "s3.example.com" (client sa.1)))
          <$> runs (cold policy) (start connect) (LookupCredentials "AKIA")
          = Some (Ok (creds policy), BeginResolution (client (start connect)),
                  Ok ("s3.example.com", true))) as E by (vm_compute; reflexivity).
  assert (exists stamp, BeginResolution (client (start connect)) = Ok stamp) as [stamp Hs]
    by (eexists; vm_compute; reflexivity).
  apply fmap_Some_1 in E as ([s' a] & Hr & E). cbn [fst snd] in E.
  apply pair_eq in E as [E Hh]. apply pair_eq in E as [Ea Hb]. rewrite Hr, <-Ea.
  exists s'. split; [reflexivity|]. split; [exact Hb|]. split; [symmetry; exact Hh|].
  exists stamp. split; [congruence|]. apply BeginResolution_valid. congruence.
Qed.

(** The request, its credential lookup cold. *)
Definition moves : list move :=
  [Turn 5 quiet_oracle] ++ cold policy ++ [Turn 5 quiet_oracle] ++ [Turn 5 quiet_oracle] ++ [] ++
  [Turn 30 quiet_oracle] ++ [Turn 30 quiet_oracle].

Lemma moves_clock :
  Forall (fun mv => match mv with Turn _ o => noon = o Time QNow | _ => True end) moves.
Proof.
  unfold moves, cold. cbn [app]. repeat apply Forall_cons_2; try apply Forall_nil_2;
    try exact I; reflexivity.
Qed.

Lemma moves_faithful :
  Forall (faithful_move (srv_cred policy) (fun _ _ => None)) (connect ++ moves).
Proof.
  apply Forall_app. split; [apply (connect_faithful _ (fun _ => None))|]. apply Forall_app. split; [repeat constructor|].
  apply Forall_app. split; [apply (cold_faithful _ (fun _ => None)); vm_compute; eauto|repeat constructor].
Qed.

Lemma policy_creds : exists c, creds policy = Some c /\ SecretKey c = "secret".
Proof. eexists. split; vm_compute; reflexivity. Qed.

Lemma dispatched_request_justified_witness :
  exists r s' cx,
    play moves (start connect) (S3Auth 900000000000 r None) = (s', Ret _ (Ok cx)) /\
    exists d : decision (Client (CC:=cred_store) (VC:=conf_store)),
      srv_cred policy (de_revision _ d) (AccessKeyID (cx_authInfo cx)) = Some (de_creds _ d) /\
      AuthorizeS3Plan (IAMPolicy (de_creds _ d)) (Some (cx_plan cx)) = Ok tt /\
      de_verified _ d = noon.
Proof.
  destruct signed_listing as (r & info & plan & Ha & Hak & Hv & Hhost & Hpath & Hp & Hk & Hz).
  destruct looked_up as (s' & Hr & Hb & Hh & stamp & Hs & Hval).
  destruct policy_creds as (c & Hc & Hsec).
  rewrite Hc in Hr, Hz. cbn [mbind option_bind] in Hz. rewrite <-Hsec in Hv.
  rewrite <-Hak in Hr. rewrite <-Hhost in Hh at 1. rewrite <-Hhost in Hpath at 1.
  assert (runs [] s' (locate info None "" false plan) = Some (s', Ok (None, "", plan))) as Hloc
    by (unfold locate; by rewrite Hk).
  pose proof (runs_play _ _ _ _ _ (S3Auth_runs 900000000000 r None info stamp c "s3.example.com" true
    "" "" false plan None "" plan 5 30 quiet_oracle quiet_oracle (cold policy) [] (start connect) s' s'
    Ha (eq_trans Hb Hs) Hr Hv Hh Hpath Hp Hloc Hz Hval)) as Hrun.
  exists r, s'. eexists. split; [exact Hrun|].
  destruct (dispatched_request_justified (srv_cred policy) (fun _ _ => None) 900000000000 r None
    0 4 no_creds no_confs adm adm no_creds_empty no_confs_empty eq_refl eq_refl (eq noon)
    connect moves s' _ moves_faithful moves_clock Hrun) as (d & Hd & _).
  exists d. split; [exact (ju_creds _ _ _ _ _ _ _ _ _ Hd)|].
  split; [exact (ju_policy _ _ _ _ _ _ _ _ _ Hd)|].
  symmetry. exact (ju_verified _ _ _ _ _ _ _ _ _ Hd).
Defined.
End MiddlewareExample.
