(* ===== verification/Proxy.v ===== *)
(** * Proxy: the handlers behind the middleware ([http_server/s3_proxy.go])

    Bucket creation and listing go to the control plane; everything else becomes one
    request to the backend of the mapping, whose response is virtualized.  The backend is
    an argument ([upstream]), as is the clock; logging is not kept.  The XML documents
    the handlers write themselves are kept as their fields. *)
From S2P Require Import Prelude GoStrings GoTime GoNet GoUrl GoHttp Json Iam Errors Cache Client.
From S2P Require Import Names CopySource Operation S3Authz Outbound Crypto Base64 Token ListRewrite.
From S2P Require Import Auth GoURLs Flight Mapping Lookup Xml Response Middleware.

(** ** The outbound request *)

(** A request given to [http.Client.Do]: its URL's scheme, and the rest of it; the body
    is the client's or the buffered document. *)
Record Outgoing := mkOutgoing {
  og_scheme : string;
  og_request : HttpRequest;
  og_body : option stream
}.

(** An error answered to the client, or a nil dereference, which aborts the handler. *)
Inductive proxy_error := Answered (e : s3_error) | NilDereference.

Definition internal_error (status : Z) (message : string) : proxy_error :=
  Answered (mkS3Error status "InternalError" message).

Definition invalid_argument (message : string) : proxy_error :=
  Answered (mkS3Error 400 "InvalidArgument" message).

Definition set_host_path (host path query : string) (u : URL) : URL :=
  mkURL (u_Scheme u) (u_Opaque u) (u_User u) host path (u_RawPath u) (u_OmitHost u)
    (u_ForceQuery u) query (u_Fragment u) (u_RawFragment u).

Definition buildOutboundURL (cfg : VBucketConfig) (objectKey rawQuery : string) : option string :=
  match parseEndpoint (RealEndpoint cfg) with
  | None => None
  | Some u =>
      let (host, path) :=
        if RealUsePathStyle cfg then
          (u_Host u, "/" +:+ RealBucket cfg
                     +:+ (if negb (String.eqb objectKey "") then "/" +:+ objectKey else ""))
        else
          (RealBucket cfg +:+ "." +:+ u_Host u,
           "/" +:+ (if negb (String.eqb objectKey "") then objectKey else "")) in
      Some (URL_String (set_host_path host path rawQuery u))
  end.

(** [http.NewRequestWithContext]: the method must be a token, the URL must parse, and an
    empty port is dropped. *)
Definition NewRequest (method url : string) (body : option stream) : option Outgoing :=
  let method := if String.eqb method "" then "GET" else method in
  if negb (str_forallb validHeaderFieldByte method) then None
  else
    match Parse url with
    | None => None
    | Some u =>
        let host := TrimSuffix (u_Host u) ":" in
        Some (mkOutgoing (u_Scheme u)
                (mkHttpRequest method (u_Path u) (u_RawPath u) (u_RawQuery u) ∅ host host 0 []
                   ∅ false) body)
    end.

Definition with_target (h : Header) (host : string) (contentLength : Z) (r : HttpRequest)
    : HttpRequest :=
  mkHttpRequest (r_Method r) (r_Path r) (r_RawPath r) (r_RawQuery r) h host (r_URLHost r)
    contentLength (r_TransferEncoding r) (r_Trailer r) (r_TLS r).

(** The copy source header of a copy, its version opened. *)
Definition outbound_copy_source (p : S3OperationPlan) (cfg : VBucketConfig) (prefix : string)
    (h : Header) : result proxy_error Header :=
  match p_kind p with
  | operationCopyObject =>
      match p_copySource p with
      | None => Err NilDereference
      | Some source =>
          let? versionID :=
            if negb (String.eqb (cs_VersionID source) "") then
              res_map_err (fun _ => invalid_argument "Invalid source version token")
                (decodeOpaqueToken (Some cfg) "version" (cs_VersionID source))
            else Ok (cs_VersionID source) in
          Ok (Header_Set h copySourceHeader
                (buildCopySource (RealBucket cfg) (prefix +:+ cs_Key source) versionID))
      end
  | _ => Ok h
  end.

(** [proxyS3Request] up to the signed request. *)
Definition outbound_request (p : S3OperationPlan) (vbConfig : option VBucketConfig)
    (body : option stream) (now : Time) : result proxy_error (VBucketConfig * Outgoing) :=
  let? cfg := res_map_err (fun _ => internal_error 502 "Invalid upstream S3 mapping")
                (NormalizeVBucketConfig vbConfig) in
  let requestTransform := classifyS3RequestTransform (p_kind p) in
  let normalizedPrefix := normalizedPathPrefix (PathPrefix cfg) in
  let objectKey :=
    if negb (String.eqb normalizedPrefix "")
       && bool_decide (requestTransform = requestTransformObjectPath)
    then normalizedPrefix +:+ p_objectKey p else p_objectKey p in
  let? rawQuery :=
    res_map_err (fun _ => invalid_argument "Invalid continuation token")
      (rewriteOutboundQuery (p_kind p) (p_rawQuery p) normalizedPrefix
         (bool_decide (requestTransform = requestTransformListQuery)) (Some cfg)) in
  match buildOutboundURL cfg objectKey rawQuery with
  | None => Err NilDereference
  | Some outboundURL =>
      let body := if bool_decide (p_bodyKind p = bodyCompleteMultipartXML)
                  then Some (mkStream (p_controlBody p) true) else body in
      match NewRequest (p_method p) outboundURL body with
      | None => Err (internal_error 500 "Failed to construct upstream request")
      | Some out =>
          let h := copyOutboundRequestHeaders (p_forwardHeaders p) (r_Header (og_request out))
                     (p_kind p) in
          let? h := outbound_copy_source p cfg normalizedPrefix h in
          match parseEndpoint (RealEndpoint cfg) with
          | None => Err NilDereference
          | Some u =>
              let host := if RealUsePathStyle cfg then u_Host u
                          else RealBucket cfg +:+ "." +:+ u_Host u in
              let h := Header_Del (Header_Del (Header_Del h "Authorization") "X-Amz-Date")
                         "x-amz-content-sha256" in
              let r := with_target h host (p_contentLength p) (og_request out) in
              Ok (cfg, mkOutgoing (og_scheme out)
                         (signRequest r (RealAccessKey cfg) (RealSecretKey cfg) (RealRegion cfg) now)
                         (og_body out))
          end
      end
  end.

(** ** The handlers *)

(** What a handler writes: the response of the proxy, or a document of its own. *)
Inductive handled :=
| Proxied (r : Response)
| Created (location : string)
| Listed (owner : string) (buckets : list (string * string))
| Failed (e : s3_error)
| Aborted.

Definition missing_plan : handled :=
  Failed (mkS3Error 500 "InternalError" "Missing validated S3 operation plan").

(** [Do] fails with [None]. *)
Definition proxyS3Request `{XmlLexer} (upstream : Outgoing -> option UpstreamResponse)
    (ctx : option s3_context) (method : string) (body : option stream) (now : Time) : handled :=
  let vbConfig := getVBucketConfig ctx in
  match getS3OperationPlan ctx with
  | None => missing_plan
  | Some plan =>
      match outbound_request plan vbConfig body now with
      | Err (Answered e) => Failed e
      | Err NilDereference => Aborted
      | Ok (cfg, out) =>
          match upstream out with
          | None => Failed (mkS3Error 502 "InternalError" "Failed to contact upstream S3")
          | Some resp =>
              Proxied (writeVirtualizedUpstreamResponse ∅ method resp plan cfg
                         (normalizedPathPrefix (PathPrefix cfg)))
          end
      end
  end.

Definition writeCreateVBucketError (err : error) : s3_error :=
  if Is err ErrVBucketAlreadyOwnedByYou then
    mkS3Error 409 "BucketAlreadyOwnedByYou"
      "Your previous request to create the named bucket succeeded and you already own it."
  else if Is err ErrVBucketAlreadyExists then
    mkS3Error 409 "BucketAlreadyExists" "The requested bucket name is not available."
  else if Is err ErrInvalidVBucketName then
    mkS3Error 400 "InvalidBucketName" "The specified bucket is not valid."
  else if Is err ErrInvalidVBucketArgument then
    mkS3Error 400 "InvalidArgument" "Invalid bucket creation argument."
  else if Is err ErrVBucketAccessDenied then mkS3Error 403 "AccessDenied" "Access Denied"
  else writeResolverError err false.

Definition writeListVBucketsError (err : error) : s3_error := writeResolverError err false.

Definition IsZero (t : Time) : bool := (t_sec t =? 0) && (t_nsec t =? 0).

Definition formatS3CreationDate (t : Time) : string :=
  let t := if IsZero t then Unix 0 else t in FormatRFC3339 t.

(** The entries of a bucket listing; [seen] are the names already written. *)
Fixpoint listing_entries (seen : gset string) (buckets : list ListedVBucket)
    : result s3_error (list (string * string)) :=
  let invalid := mkS3Error 502 "InternalError" "Invalid control-plane bucket listing" in
  match buckets with
  | [] => Ok []
  | bucket :: buckets =>
      reject negb (isValidBucketName (lv_Name bucket)) with invalid ;;
      reject IsZero (lv_CreationDate bucket) with invalid ;;
      reject bool_decide (lv_Name bucket ∈ seen) with invalid ;;
      let? entries := listing_entries ({[lv_Name bucket]} ∪ seen) buckets in
      Ok ((lv_Name bucket, formatS3CreationDate (lv_CreationDate bucket)) :: entries)
  end.

Section handlers.
Context `{XmlLexer} `{Platform} `{Timestamps} `{GrpcStatus} {CC VC : Type}
  `{TimedStore CC string (cached VirtualCredentials)}
  `{TimedStore VC string (cached VBucketConfig)}.
Context (upstream : Outgoing -> option UpstreamResponse).

Abbreviation prog := (prog (CC:=CC) (VC:=VC)).

(** A handler that reads the access key of a request without credentials dereferences nil. *)
Definition handleCreateVBucket (ctx : option s3_context) : prog handled :=
  match getAuthInfo ctx with
  | None => ret Aborted
  | Some authInfo =>
      let bucket := getBucketName ctx in
      let locationConstraint := getCreateLocationConstraint ctx in
      let! err := CreateVBucket (AccessKeyID authInfo) bucket locationConstraint in
      ret (match err with
           | Some err => Failed (writeCreateVBucketError err)
           | None => Created ("/" +:+ bucket)
           end)
  end.

Definition handleListVBuckets (ctx : option s3_context) : prog handled :=
  match getAuthInfo ctx with
  | None => ret Aborted
  | Some authInfo =>
      let owner := AccessKeyID authInfo in
      let! buckets := ListVBuckets owner in
      ret (match buckets with
           | Err err => Failed (writeListVBucketsError err)
           | Ok buckets =>
               match listing_entries ∅ buckets with
               | Err e => Failed e
               | Ok entries => Listed owner entries
               end
           end)
  end.

(** The proxy's clock is read when the request is signed. *)
Definition handleS3Request (r : HttpRequest) (body : option stream) (ctx : option s3_context)
    : prog handled :=
  match getS3OperationPlan ctx with
  | None => ret missing_plan
  | Some plan =>
      match p_kind plan with
      | operationCreateBucket => handleCreateVBucket ctx
      | operationListBuckets => handleListVBuckets ctx
      | _ =>
          let! now := ask QNow in
          ret (proxyS3Request upstream ctx (r_Method r) body now)
      end
  end.

(** [RegisterS3Routes]: the handler behind the middleware. *)
Definition serve (maxSkew : Z) (r : HttpRequest) (body : option stream) : prog handled :=
  let! answer := S3Auth maxSkew r body in
  match answer with
  | Err e => ret (Failed e)
  | Ok cx => handleS3Request r body (Some cx)
  end.
End handlers.
