(* ===== verification/ProxySpec.v ===== *)
(** * ProxySpec: where a proxied request goes

    The URL the proxy builds is printed and parsed again on the way to the transport; the
    request that leaves is nevertheless exactly the mapping's backend, bucket and prefix.
    Its header and, for a copy, its copy source are read off the request really sent. *)
From S2P Require Import Prelude GoStrings GoTime GoNet GoUrl GoHttp Json Iam Errors Cache Client.
From S2P Require Import Names CopySource Operation S3Authz OperationSpec PlanSpec Outbound Crypto.
From S2P Require Import Base64 Token ListRewrite Auth GoURLs GoURLLaws Flight Mapping Lookup Xml.
From S2P Require Import CanonicalRequest SignVerify Response Middleware Proxy.

(** ** Queries on the wire *)

Lemma QueryEscape_query_bytes s : str_forallb query_byte (QueryEscape s) = true.
Proof.
  induction s as [|c s IH]; [done|]. cbn [QueryEscape]. rewrite str_forallb_app, IH, andb_true_r.
  destruct c as [[] [] [] [] [] [] [] []]; vm_compute; reflexivity.
Qed.

Lemma Encode_query_bytes q : str_forallb query_byte (Encode q) = true.
Proof.
  unfold Encode. apply str_forallb_Join; [|done]. apply Forall_forall.
  intros x (kv & Hx & _)%list_elem_of_bind. apply list_elem_of_fmap in Hx as (v & -> & _).
  by rewrite !str_forallb_app, !QueryEscape_query_bytes.
Qed.

(** ** Hosts *)

Lemma cut_last_app_free sep a t :
  str_forallb (fun c => negb (Ascii.eqb c sep)) t = true ->
  cut_last sep (a +:+ t) =
  match cut_last sep a with Some (x, y) => Some (x, y +:+ t) | None => None end.
Proof.
  intros Ht. induction a as [|c a IH].
  - rewrite app_nil_l_str. cbn [cut_last]. by apply cut_last_none.
  - rewrite app_cons_str. cbn [cut_last]. rewrite IH. destruct (cut_last sep a) as [[x y]|]; [done|].
    by destruct (Ascii.eqb c sep).
Qed.

Lemma digits_free (c : ascii) s :
  all_digits s = true -> in_range 48 57 (byte_val c) = false ->
  str_forallb (fun d => negb (Ascii.eqb d c)) s = true.
Proof.
  intros Hs Hc. eapply str_forallb_impl; [|exact Hs]. intros d Hd. apply negb_true_iff.
  apply Ascii.eqb_neq. intros ->. congruence.
Qed.

(** The port of a host that ends in a bracket is empty. *)
Lemma splitHostPort_bracket s :
  splitHostPort (s +:+ "]") =
  (if HasPrefix (s +:+ "]") "[" && HasSuffix (s +:+ "]") "]"
   then TrimSuffix (TrimPrefix (s +:+ "]") "[") "]" else s +:+ "]", "").
Proof.
  unfold splitHostPort. destruct (cut_last ":" (s +:+ "]")) as [[a b]|] eqn:E; [|done].
  destruct (all_digits b) eqn:Ed; [|done]. exfalso. apply cut_last_Some in E as [E _].
  assert (cut_last "]" (s +:+ "]") = Some (s, "")) as H1 by by apply (cut_last_app "]" s "").
  rewrite E, cut_last_app_free in H1.
  - destruct (cut_last "]" a) as [[x y]|]; [|done]. injection H1 as _ Hy. by destruct y.
  - cbn [str_forallb]. by rewrite digits_free.
Qed.

Lemma literal_is_ip h : literal_host h -> is_ip (splitHostPort h).1 = true.
Proof.
  intros (name & port & -> & Hf & H6 & Hp).
  assert (is_ip name = true) as Hip.
  { unfold is_ip. rewrite Hf, H6, andb_true_r. apply negb_true_iff.
    eapply (Contains_byte_forallb ip6_byte); [by apply is_ipv6_bytes|done]. }
  assert (TrimSuffix (TrimPrefix ("[" +:+ name +:+ "]") "[") "]" = name) as Ht
    by by rewrite TrimPrefix_app, TrimSuffix_app.
  assert (HasPrefix ("[" +:+ name +:+ "]") "[" && HasSuffix ("[" +:+ name +:+ "]") "]" = true) as Hb.
  { rewrite HasPrefix_app, <-app_assoc_str. by rewrite HasSuffix_app. }
  destruct port as [|c digits].
  - rewrite app_nil_r_str.
    pose proof (splitHostPort_bracket ("[" +:+ name)) as Hs. rewrite app_assoc_str in Hs.
    rewrite Hs, Hb. cbn [fst]. by rewrite Ht.
  - cbn [validOptionalPort] in Hp. apply andb_true_iff in Hp as [->%Ascii.eqb_eq Hd].
    unfold splitHostPort.
    replace ("[" +:+ name +:+ "]" +:+ String ":" digits)
      with (("[" +:+ name +:+ "]") +:+ String ":" digits) by by rewrite !app_assoc_str.
    rewrite cut_last_app by by apply digits_free. rewrite Hd, Hb. cbn [fst]. by rewrite Ht.
Qed.

(** A host whose port is acceptable does not end in a colon. *)
Lemma port_ok_colon scheme host :
  is_ok (port_ok (http_url scheme host "" "")) = true -> HasSuffix host ":" = false.
Proof.
  unfold port_ok, Port. cbn [u_Host http_url]. destruct (HasSuffix host ":") eqn:E; [|done].
  apply HasSuffix_true in E as [t ->].
  assert ((splitHostPort (t +:+ ":")).2 = "") as ->.
  { unfold splitHostPort. by rewrite (cut_last_app ":" t ""). }
  done.
Qed.

Lemma TrimSuffix_none s p : HasSuffix s p = false -> TrimSuffix s p = s.
Proof. unfold TrimSuffix. by intros ->. Qed.

Lemma bucket_host_plain bucket host :
  isValidBucketName bucket = true -> plain_host host -> plain_host (bucket +:+ "." +:+ host).
Proof.
  intros [_ Hb]%isValidBucketName_bytes [Hh Hc].
  assert (str_forallb (fun c => host_byte c && negb (Ascii.eqb c ":")) (bucket +:+ ".") = true) as Hpre.
  { rewrite str_forallb_app. apply andb_true_iff; split; [|done].
    eapply str_forallb_impl; [|exact Hb]. intros c.
    destruct c as [[] [] [] [] [] [] [] []]; vm_compute; congruence. }
  rewrite <-app_assoc_str. revert Hpre. generalize (bucket +:+ "."). intros pre Hpre. split.
  - rewrite str_forallb_app, Hh, andb_true_r. eapply str_forallb_impl; [|exact Hpre].
    by intros c [? _]%andb_true_iff.
  - intros a p Hcut. apply (Hc (str_drop (String.length pre) a)).
    revert a Hcut. induction pre as [|c pre IH]; intros a; [done|].
    cbn [str_forallb] in Hpre. apply andb_true_iff in Hpre as [[_ Hcc%negb_true_iff]%andb_true_iff Hpre].
    rewrite app_cons_str, Cut_byte_cons. rewrite Hcc.
    destruct (Cut (pre +:+ host) ":") as [[a' p']|]; [|done]. intros [= <- <-]. cbn. by apply IH.
Qed.

(** ** The backend's address *)

(** An endpoint without an escaped percent sign, in its two parts. *)
Record origin (n : VBucketConfig) (scheme host : string) : Prop := {
  or_endpoint : RealEndpoint n = scheme +:+ "://" +:+ escape_host host;
  or_scheme : is_http scheme;
  or_nonempty : host <> "";
  or_stable : stable_host host;
  or_vhost : RealUsePathStyle n = false -> plain_host host;
  or_port : HasSuffix host ":" = false;
  or_bucket : isValidBucketName (RealBucket n) = true
}.

Lemma Contains_app_r s t p : Contains t p = true -> Contains (s +:+ t) p = true.
Proof.
  intros Ht. induction s as [|c s IH]; [by rewrite app_nil_l_str|].
  rewrite app_cons_str. cbn [Contains]. by rewrite IH, orb_true_r.
Qed.

Lemma normalized_origin c n :
  NormalizeVBucketConfig (Some c) = Ok n -> Contains (RealEndpoint n) "%25" = false ->
  exists scheme host, origin n scheme host.
Proof.
  intros Hn Hz. destruct (NormalizeVBucketConfig_Ok c n Hn)
    as (Hk & He & Hb & Hbv & Ha & Hav & Hs & Hsv & Hr & Hrv & Hp & Hps & Hkey & Hcodec).
  apply normalize_endpoint_canonical in He as (scheme & host & (Hend & Hh & Hne & (raw & Hraw) & Hip) & Hport & _).
  assert (no_percent host = true) as Hnp.
  { destruct (no_percent host) eqn:E; [done|]. apply escape_host_percent in E.
    rewrite Hend, Contains_app_r in Hz; [done|]. by apply (Contains_app_r "://"). }
  pose proof (parseHost_stable raw host Hraw Hnp) as Hst. exists scheme, host. split; try done.
  - intros Hv. destruct Hst as [?|Hl]; [done|]. apply literal_is_ip in Hl.
    rewrite Hps in Hv. rewrite Hip in Hl by done. done.
  - by eapply port_ok_colon.
Qed.

Lemma origin_parses n scheme host :
  origin n scheme host -> parseEndpoint (RealEndpoint n) = Some (http_url scheme host "" "").
Proof.
  intros [He Hs Hne Hst _ _ _]. unfold parseEndpoint. rewrite He.
  assert (Contains (scheme +:+ "://" +:+ escape_host host) "://" = true) as ->.
  { apply Contains_app_r. by destruct (escape_host host). }
  cbn [negb]. rewrite <-(Parse_http_url scheme host "" ""); try done; [|by left]. f_equal.
  rewrite http_url_String; [|by destruct Hs as [->| ->]|done|by left].
  cbn. by rewrite !app_nil_r_str.
Qed.

Definition backend_host (n : VBucketConfig) (host : string) : string :=
  if RealUsePathStyle n then host else RealBucket n +:+ "." +:+ host.

Definition backend_path (n : VBucketConfig) (key : string) : string :=
  if RealUsePathStyle n then
    "/" +:+ RealBucket n +:+ (if String.eqb key "" then "" else "/" +:+ key)
  else "/" +:+ key.

Lemma HasSuffix_colon s : HasSuffix s ":" = true <-> exists t, cut_last ":" s = Some (t, "").
Proof.
  rewrite HasSuffix_true. split; intros [t Ht]; exists t.
  - rewrite Ht. by apply (cut_last_app ":" t "").
  - by apply cut_last_Some in Ht as [? _].
Qed.

Lemma bucket_host_port bucket host :
  isValidBucketName bucket = true -> HasSuffix host ":" = false ->
  HasSuffix (bucket +:+ "." +:+ host) ":" = false.
Proof.
  intros [_ Hb]%isValidBucketName_bytes Hh. apply not_true_iff_false in Hh. apply not_true_iff_false.
  intros H. apply Hh, HasSuffix_colon. apply HasSuffix_true in H as [t Ht]. revert Ht.
  rewrite <-app_assoc_str. intros E.
  pose proof (cut_last_app ":" t "" eq_refl) as H1. change (String ":" "") with ":" in H1.
  rewrite <-E in H1. destruct (cut_last ":" host) as [[a b]|] eqn:Ec.
  - apply cut_last_Some in Ec as [-> Hb']. rewrite <-app_assoc_str, cut_last_app in H1 by done.
    injection H1 as _ ->. by exists a.
  - exfalso. rewrite (proj1 (cut_last_none _ _)) in H1; [done|].
    rewrite !str_forallb_app, (proj2 (cut_last_none _ _) Ec), andb_true_r.
    apply andb_true_iff; split; [|done]. eapply str_forallb_impl; [|exact Hb].
    intros c. destruct c as [[] [] [] [] [] [] [] []]; vm_compute; congruence.
Qed.

(** The URL the proxy prints reads back as the backend's address. *)
Lemma outbound_url n scheme host key query :
  origin n scheme host -> str_forallb query_byte query = true ->
  exists text, buildOutboundURL n key query = Some text /\
    Parse text = Some (http_url scheme (backend_host n host) (backend_path n key) query) /\
    HasSuffix (backend_host n host) ":" = false.
Proof.
  intros Ho Hq. unfold buildOutboundURL. rewrite (origin_parses n scheme host Ho).
  destruct Ho as [He Hs Hne Hst Hv Hport Hb]. cbn [u_Host http_url].
  assert (rooted (backend_path n key)) as Hroot.
  { right. unfold backend_path. by destruct (RealUsePathStyle n). }
  assert (backend_host n host <> "" /\ stable_host (backend_host n host) /\
          HasSuffix (backend_host n host) ":" = false) as (Hne' & Hst' & Hport').
  { unfold backend_host. destruct (RealUsePathStyle n); [done|]. split_and!.
    - by destruct (RealBucket n).
    - left. apply bucket_host_plain; [done|]. by apply Hv.
    - by apply bucket_host_port. }
  exists (URL_String (http_url scheme (backend_host n host) (backend_path n key) query)).
  split; [|split; [by apply Parse_http_url|done]].
  unfold backend_host, backend_path, set_host_path, http_url.
  destruct (RealUsePathStyle n); cbn [u_Scheme u_Opaque u_User u_RawPath u_OmitHost u_ForceQuery
    u_Fragment u_RawFragment]; by destruct (String.eqb_spec key "") as [->|]; cbn [negb].
Qed.

(** ** Planned requests *)

Lemma plan_of_Ok `{XmlLexer} r body bucket objectKey isVHost plan :
  plan_of r body bucket objectKey isVHost = Ok plan ->
  exists p0, planS3Operation r bucket objectKey = Ok p0 /\
    p_kind plan = p_kind p0 /\ p_bucket plan = p_bucket p0 /\ p_objectKey plan = p_objectKey p0 /\
    p_rawQuery plan = p_rawQuery p0 /\ p_method plan = p_method p0 /\
    p_copySource plan = p_copySource p0 /\ p_forwardHeaders plan = p_forwardHeaders p0 /\
    p_query plan = p_query p0.
Proof.
  unfold plan_of. destruct (negb _ && _); [done|].
  destruct (planS3Operation r bucket objectKey) as [p0|] eqn:E; [|done]. cbn [res_map_err]. cbv zeta.
  intros Hp. exists p0. split; [done|]. revert Hp. case_bool_decide; [|by intros <-%Ok_inj].
  unfold withCompleteMultipartBody. repeat case_match; try done;
    by intros <-%Ok_inj.
Qed.

(** The method, the key and the copy source of a planned request. *)
Lemma planned_target r bucket objectKey p :
  planS3Operation r bucket objectKey = Ok p ->
  p_bucket p = bucket /\ p_objectKey p = objectKey /\ p_method p = r_Method r /\
  str_forallb validHeaderFieldByte (p_method p) && negb (String.eqb (p_method p) "") = true /\
  (classifyS3RequestTransform (p_kind p) <> requestTransformObjectPath -> p_objectKey p = "") /\
  (p_kind p = operationCopyObject -> p_copySource p <> None).
Proof.
  intros Hp. destruct (planS3Operation_Ok _ _ _ _ Hp) as (query & sh & Hacc & Hf).
  destruct (plan_shape_sound _ _ _ _ _ (acc_shape _ _ _ _ _ Hacc)) as ((Hlevel & Hmethod & _) & _ & _ & Hs).
  destruct (finish_plan_Ok _ _ _ _ _ _ Hf) as (_ & _ & _ & ->).
  cbn [p_kind p_bucket p_objectKey p_method p_copySource].
  split_and!; try done.
  - rewrite <-Hmethod. by destruct (sh_kind sh).
  - intros Ht. unfold level_of in Hlevel. destruct (String.eqb_spec objectKey "") as [->|]; [done|].
    rewrite andb_false_r in Hlevel. by destruct (sh_kind sh).
  - intros Hk. rewrite Hk in Hs. cbn in Hs. by destruct (sh_copySource sh).
Qed.

(** ** The request that leaves *)

(** The key at the backend: under the tenant's prefix for an object, none otherwise. *)
Definition backend_key (n : VBucketConfig) (p : S3OperationPlan) : string :=
  match classifyS3RequestTransform (p_kind p) with
  | requestTransformObjectPath => normalizedPathPrefix (PathPrefix n) +:+ p_objectKey p
  | _ => ""
  end.

(** The request for [p] at the backend of [n], before it is signed. *)
Definition backend_request (n : VBucketConfig) (p : S3OperationPlan) (host query : string)
    (h : Header) : HttpRequest :=
  mkHttpRequest (p_method p) (backend_path n (backend_key n p)) "" query
    (Header_Del (Header_Del (Header_Del h "Authorization") "X-Amz-Date") "x-amz-content-sha256")
    (backend_host n host) (backend_host n host) (p_contentLength p) [] ∅ false.

(** What [proxyS3Request] sends for [p] under the mapping [n], or answers. *)
Definition sent (n : VBucketConfig) (p : S3OperationPlan) (scheme host : string) (now : Time)
    (res : result proxy_error (VBucketConfig * Outgoing)) : Prop :=
  let prefix := normalizedPathPrefix (PathPrefix n) in
  let rewritten :=
    rewriteOutboundQuery (p_kind p) (p_rawQuery p) prefix
      (bool_decide (classifyS3RequestTransform (p_kind p) = requestTransformListQuery)) (Some n) in
  let headed :=
    outbound_copy_source p n prefix
      (copyOutboundRequestHeaders (p_forwardHeaders p) ∅ (p_kind p)) in
  match res with
  | Err e =>
      (e = invalid_argument "Invalid continuation token" /\ is_ok rewritten = false) \/
      (e = invalid_argument "Invalid source version token" /\ is_ok headed = false)
  | Ok (cfg, out) =>
      cfg = n /\ og_scheme out = scheme /\
      exists query h, rewritten = Ok query /\ headed = Ok h /\
        og_request out = signRequest (backend_request n p host query h) (RealAccessKey n)
                           (RealSecretKey n) (RealRegion n) now
  end.

Lemma outbound_key n p :
  (classifyS3RequestTransform (p_kind p) <> requestTransformObjectPath -> p_objectKey p = "") ->
  (if negb (String.eqb (normalizedPathPrefix (PathPrefix n)) "")
      && bool_decide (classifyS3RequestTransform (p_kind p) = requestTransformObjectPath)
   then normalizedPathPrefix (PathPrefix n) +:+ p_objectKey p else p_objectKey p) = backend_key n p.
Proof.
  intros Hk. unfold backend_key. case_bool_decide as Ht; rewrite ?andb_false_r, ?andb_true_r.
  - rewrite Ht. by destruct (String.eqb_spec (normalizedPathPrefix (PathPrefix n)) "") as [->|].
  - rewrite Hk by done. by destruct (classifyS3RequestTransform (p_kind p)).
Qed.

Lemma rewritten_query_bytes kind raw prefix b cfg q :
  rewriteOutboundQuery kind raw prefix b cfg = Ok q -> str_forallb query_byte q = true.
Proof.
  unfold rewriteOutboundQuery. cbv zeta.
  match goal with |- match ?c with Ok _ => _ | Err _ => _ end = _ -> _ => destruct c; [|done] end.
  intros <-%Ok_inj. apply Encode_query_bytes.
Qed.

Lemma outbound_request_sent c n p scheme host body now :
  NormalizeVBucketConfig (Some c) = Ok n -> origin n scheme host ->
  str_forallb validHeaderFieldByte (p_method p) && negb (String.eqb (p_method p) "") = true ->
  (classifyS3RequestTransform (p_kind p) <> requestTransformObjectPath -> p_objectKey p = "") ->
  (p_kind p = operationCopyObject -> p_copySource p <> None) ->
  sent n p scheme host now (outbound_request p (Some c) body now).
Proof.
  intros Hn Ho [Hm Hm0%negb_true_iff]%andb_true_iff Hkey Hcopy. unfold outbound_request. rewrite Hn.
  cbn [res_map_err]. unfold sent. cbv zeta. rewrite (outbound_key n p Hkey).
  destruct (rewriteOutboundQuery _ _ _ _ _) as [query|] eqn:Eq; [|by left]. cbn [res_map_err].
  destruct (outbound_url n scheme host (backend_key n p) query Ho) as (text & -> & Hp & Hport);
    [by eapply rewritten_query_bytes|].
  unfold NewRequest. rewrite Hm0, Hm, Hp. cbn [negb http_url u_Host u_Scheme u_Path u_RawPath u_RawQuery].
  rewrite (TrimSuffix_none _ _ Hport). cbn [og_request r_Header og_scheme].
  destruct (outbound_copy_source _ _ _ _) as [h|e] eqn:Ec.
  - rewrite (origin_parses n scheme host Ho). cbn [http_url u_Host]. split; [done|].
    split; [done|]. exists query, h. done.
  - right. split; [|done]. unfold outbound_copy_source in Ec.
    destruct (p_kind p); try done. destruct (p_copySource p) as [source|]; [|by destruct Hcopy].
    destruct (negb _); [|done]. destruct (decodeOpaqueToken _ _ _); [done|]. cbn in Ec. congruence.
Qed.

Lemma outbound_planned `{XmlLexer} (r : HttpRequest) (body : option stream)
    (bucket objectKey : string) (isVHost : bool) (plan : S3OperationPlan) (c n : VBucketConfig)
    (constraint : string) (authorized now : Time)
    (Hplan : plan_of r body bucket objectKey isVHost = Ok plan)
    (Hn : NormalizeVBucketConfig (Some c) = Ok n)
    (Hz : Contains (RealEndpoint n) "%25" = false) :
  exists scheme host, origin n scheme host /\
    sent n (withAuthorizationContext constraint authorized plan) scheme host now
      (outbound_request (withAuthorizationContext constraint authorized plan) (Some c) body now).
Proof.
  destruct (normalized_origin c n Hn Hz) as (scheme & host & Ho). exists scheme, host.
  split; [done|]. destruct (plan_of_Ok _ _ _ _ _ _ Hplan)
    as (p0 & Hp0 & Hk & _ & Hkey & _ & Hm & Hcs & _).
  destruct (planned_target _ _ _ _ Hp0) as (_ & _ & _ & Hmethod & Hroot & Hcopy).
  apply (outbound_request_sent c n); cbn [withAuthorizationContext p_kind p_method p_objectKey
    p_copySource]; rewrite ?Hk, ?Hkey, ?Hm, ?Hcs; done.
Qed.

(** C5. Confinement at the backend: whatever key, query or headers a client sends, a
    planned request leaves for the scheme and host of its mapping's endpoint, addresses
    the mapping's bucket, and carries the tenant's prefix in front of the key; printing
    the URL and parsing it again in the HTTP client does not change that.  It is signed
    with the mapping's own credentials, over a header from which the client's
    Authorization and date were removed.  The only other outcomes are the two rejections
    of a token that does not open under the mapping: the handler neither panics nor fails
    to build its request. *)
Theorem outbound_target `{XmlLexer} (r : HttpRequest) (body : option stream)
    (bucket objectKey : string) (isVHost : bool) (plan : S3OperationPlan) (c n : VBucketConfig)
    (constraint : string) (authorized now : Time)
    (Hplan : plan_of r body bucket objectKey isVHost = Ok plan)
    (Hn : NormalizeVBucketConfig (Some c) = Ok n)
    (Hz : Contains (RealEndpoint n) "%25" = false) :
  exists scheme host, origin n scheme host /\
    sent n (withAuthorizationContext constraint authorized plan) scheme host now
      (outbound_request (withAuthorizationContext constraint authorized plan) (Some c) body now).
Proof. by eapply outbound_planned. Qed.

(** ** The header that leaves *)

(** The source of a planned copy is that of the request's only copy-source field. *)
Lemma planned_source r bucket objectKey p :
  planS3Operation r bucket objectKey = Ok p -> p_kind p = operationCopyObject ->
  exists asked source, Header_Values (r_Header r) "x-amz-copy-source" = [asked] /\
    parseCopySource asked bucket = Ok source /\ p_copySource p = Some source.
Proof.
  intros Hp Hk. destruct (planS3Operation_Ok _ _ _ _ Hp) as (query & sh & Hacc & Hf).
  destruct (plan_shape_sound _ _ _ _ _ (acc_shape _ _ _ _ _ Hacc)) as (_ & _ & _ & Hs).
  destruct (finish_plan_Ok _ _ _ _ _ _ Hf) as (_ & _ & _ & ->). cbn [p_kind p_copySource] in *.
  unfold source_ok in Hs. destruct (sh_copySource sh) as [source|]; [|done].
  destruct Hs as [_ Hs]. unfold singleHeaderValue in Hs.
  destruct (Header_Values (r_Header r) copySourceHeader) as [|asked [|]] eqn:E; [done| |done].
  by exists asked, source.
Qed.

(** What a request that leaves is made of. *)
Lemma outbound_request_Ok p c body now cfg out :
  outbound_request p (Some c) body now = Ok (cfg, out) ->
  NormalizeVBucketConfig (Some c) = Ok cfg /\
  exists h r,
    outbound_copy_source p cfg (normalizedPathPrefix (PathPrefix cfg))
      (copyOutboundRequestHeaders (p_forwardHeaders p) ∅ (p_kind p)) = Ok h /\
    r_Header r = Header_Del (Header_Del (Header_Del h "Authorization") "X-Amz-Date")
                   "x-amz-content-sha256" /\
    og_request out = signRequest r (RealAccessKey cfg) (RealSecretKey cfg) (RealRegion cfg) now.
Proof.
  unfold outbound_request. destruct (NormalizeVBucketConfig (Some c)) as [n|]; [|done].
  cbn [res_map_err]. destruct (rewriteOutboundQuery _ _ _ _ _) as [query|]; [|done]. cbn [res_map_err].
  destruct (buildOutboundURL _ _ _) as [url|]; [|done].
  destruct (NewRequest _ _ _) as [out0|] eqn:En; [|done].
  assert (r_Header (og_request out0) = ∅) as ->.
  { revert En. unfold NewRequest. destruct (negb _); [done|]. destruct (Parse url); [|done].
    by intros [= <-]. }
  destruct (outbound_copy_source _ _ _ _) as [h|] eqn:Eh; [|done].
  destruct (parseEndpoint _) as [u|]; [|done]. intros [= <- <-]. split; [done|].
  exists h. eexists. split; [done|]. split; [|reflexivity]. reflexivity.
Qed.

(** The three fields the signer sets; the rest of the header is kept. *)
Lemma signRequest_header r accessKey secretKey region now :
  let h := r_Header (signRequest r accessKey secretKey region now) in
  h !! "X-Amz-Date" = Some [FormatAmzDate now] /\
  h !! "X-Amz-Content-Sha256" = Some [unsignedPayload] /\
  (exists text, h !! "Authorization" = Some [text] /\
     HasPrefix text ("AWS4-HMAC-SHA256 Credential=" +:+ accessKey +:+ "/") = true) /\
  forall name, name ∉ ["Authorization"; "X-Amz-Date"; "X-Amz-Content-Sha256"] ->
    h !! name = r_Header r !! name.
Proof.
  cbv zeta. rewrite signRequest_eq, dated_eq. unfold Header_Set. cbn [r_Header with_header].
  change (CanonicalHeaderKey "Authorization") with "Authorization".
  split; [by rewrite !lookup_insert_ne, lookup_insert_eq by done|].
  split; [by rewrite lookup_insert_ne, lookup_insert_eq by done|]. split.
  - eexists. split; [by rewrite lookup_insert_eq|]. unfold auth_text.
    apply HasPrefix_true. eexists. by rewrite !app_assoc_str.
  - intros name Hn. rewrite !lookup_insert_ne; set_solver.
Qed.

Lemma Header_Del_ne h name other :
  CanonicalHeaderKey other <> name -> Header_Del h other !! name = h !! name.
Proof. intros Hne. unfold Header_Del. by rewrite lookup_delete_ne. Qed.

(** The fields the proxy writes itself. *)
Definition proxy_field (kind : S3OperationKind) (name : string) : Prop :=
  name ∈ ["Authorization"; "X-Amz-Date"; "X-Amz-Content-Sha256"] \/
  (kind = operationCopyObject /\ name = "X-Amz-Copy-Source").

Lemma outbound_copy_source_lookup p cfg prefix h h' name :
  outbound_copy_source p cfg prefix h = Ok h' ->
  ~ (p_kind p = operationCopyObject /\ name = "X-Amz-Copy-Source") -> h' !! name = h !! name.
Proof.
  unfold outbound_copy_source. destruct (p_kind p); try (by intros <-%Ok_inj).
  destruct (p_copySource p) as [source|]; [|done].
  match goal with |- match ?v with Ok _ => _ | Err _ => _ end = _ -> _ => destruct v as [version|]; [|done] end.
  intros <-%Ok_inj Hn. unfold Header_Set. rewrite lookup_insert_ne; [done|].
  intros E. apply Hn. by split.
Qed.

(** C37. The header of the request really sent, for a client's header whose names are
    canonical, as net/http reads them. Of the names the proxy does not write itself
    (those of the signer and, for a copy, the copy source), the request carries exactly
    the client's fields that the operation may carry to the backend, each with all its
    values in order; the date is the signing moment's, the payload hash is the unsigned
    one, and the Authorization field is one value, of the mapping's own access key:
    nothing the client put in those three fields survives. *)
Theorem sent_headers_exact `{XmlLexer} (r : HttpRequest) (body : option stream)
    (bucket objectKey : string) (isVHost : bool) (plan : S3OperationPlan) (c cfg : VBucketConfig)
    (constraint : string) (authorized now : Time) (out : Outgoing)
    (Hc : canonical_names (r_Header r))
    (Hplan : plan_of r body bucket objectKey isVHost = Ok plan)
    (Hout : outbound_request (withAuthorizationContext constraint authorized plan) (Some c) body now
            = Ok (cfg, out)) :
  let h := r_Header (og_request out) in
  h !! "X-Amz-Date" = Some [FormatAmzDate now] /\
  h !! "X-Amz-Content-Sha256" = Some [unsignedPayload] /\
  (exists text, h !! "Authorization" = Some [text] /\
     HasPrefix text ("AWS4-HMAC-SHA256 Credential=" +:+ RealAccessKey cfg +:+ "/") = true) /\
  forall name values, ~ proxy_field (p_kind plan) name ->
    h !! name = Some values <->
    r_Header r !! name = Some values /\ values <> [] /\ forwardable (p_kind plan) name.
Proof.
  destruct (plan_of_Ok _ _ _ _ _ _ Hplan) as (p0 & Hp0 & Hk & _ & _ & _ & _ & _ & Hf & _).
  destruct (outbound_request_Ok _ _ _ _ _ _ Hout) as (_ & h & r0 & Hh & Hr0 & ->). cbv zeta.
  destruct (signRequest_header r0 (RealAccessKey cfg) (RealSecretKey cfg) (RealRegion cfg) now)
    as (Hd & Hp & Ha & Ho).
  split; [exact Hd|]. split; [exact Hp|]. split; [exact Ha|]. intros name values Hn.
  assert (name ∉ ["Authorization"; "X-Amz-Date"; "X-Amz-Content-Sha256"]) as Hno
    by (intros Hin; apply Hn; by left).
  assert ("Authorization" <> name /\ "X-Amz-Date" <> name /\ "X-Amz-Content-Sha256" <> name)
    as (N1 & N2 & N3) by (split_and!; intros <-; apply Hno; by repeat constructor).
  rewrite Ho by exact Hno. rewrite Hr0, !Header_Del_ne by done.
  rewrite (outbound_copy_source_lookup _ _ _ _ _ name Hh) by (intros Hcp; apply Hn; by right).
  cbn [withAuthorizationContext p_forwardHeaders p_kind]. rewrite Hf, Hk.
  by apply (outbound_headers_exact r bucket objectKey).
Qed.

(** C38. Copy sources keep their meaning. A copy that leaves the proxy came with exactly one
    copy-source field, which names, in the syntax of that header, an acceptable key and
    perhaps a version of the virtual bucket it was addressed to; the request that leaves
    has exactly one, and it names the mapping's bucket, that key under the tenant's
    prefix, and the version that the client's version token opens to (or none). *)
Theorem copy_source_translated `{XmlLexer} (r : HttpRequest) (body : option stream)
    (bucket objectKey : string) (isVHost : bool) (plan : S3OperationPlan) (c cfg : VBucketConfig)
    (constraint : string) (authorized now : Time) (out : Outgoing)
    (Hplan : plan_of r body bucket objectKey isVHost = Ok plan)
    (Hkind : p_kind plan = operationCopyObject)
    (Hout : outbound_request (withAuthorizationContext constraint authorized plan) (Some c) body now
            = Ok (cfg, out)) :
  exists asked answer key version opened,
    Header_Values (r_Header r) "x-amz-copy-source" = [asked] /\
    names_source (TrimSpace asked) bucket key version /\
    key <> "" /\ validateVirtualObjectKey key = Ok tt /\
    Header_Values (r_Header (og_request out)) "x-amz-copy-source" = [answer] /\
    names_source answer (RealBucket cfg) (normalizedPathPrefix (PathPrefix cfg) +:+ key) opened /\
    (version = "" /\ opened = "" \/
     version <> "" /\ decodeOpaqueToken (Some cfg) "version" version = Ok opened).
Proof.
  destruct (plan_of_Ok _ _ _ _ _ _ Hplan) as (p0 & Hp0 & Hk & _ & _ & _ & _ & Hs & _).
  destruct (planned_source _ _ _ _ Hp0) as (asked & source & Hasked & Hp & Hsrc); [congruence|].
  destruct (outbound_request_Ok _ _ _ _ _ _ Hout) as (Hn & h & r0 & Hh & Hr0 & ->).
  destruct (parseCopySource_Ok _ _ _ Hp) as (_ & Hne & Hv).
  unfold outbound_copy_source in Hh. cbn [withAuthorizationContext p_kind p_copySource] in Hh.
  rewrite Hkind, Hs, Hsrc in Hh.
  match type of Hh with match ?v with Ok _ => _ | Err _ => _ end = _ => destruct v as [opened|] eqn:Eo; [|done] end.
  apply Ok_inj in Hh as <-.
  exists asked, (buildCopySource (RealBucket cfg) (normalizedPathPrefix (PathPrefix cfg) +:+ cs_Key source) opened),
    (cs_Key source), (cs_VersionID source), opened.
  split; [exact Hasked|]. split; [by apply parseCopySource_names|]. split; [exact Hne|].
  split; [exact Hv|]. split; [|split].
  - unfold Header_Values. change (CanonicalHeaderKey "x-amz-copy-source") with "X-Amz-Copy-Source".
    destruct (signRequest_header r0 (RealAccessKey cfg) (RealSecretKey cfg) (RealRegion cfg) now)
      as (_ & _ & _ & ->); [|by apply (bool_decide_unpack _)].
    rewrite Hr0, !Header_Del_ne by (vm_compute; discriminate). unfold Header_Set.
    by rewrite lookup_insert_eq.
  - apply names_buildCopySource. by destruct (NormalizeVBucketConfig_Ok _ _ Hn) as (_ & _ & _ & ? & _).
  - destruct (String.eqb_spec (cs_VersionID source) "") as [E|E]; cbn [negb] in Eo.
    + left. split; [done|]. apply Ok_inj in Eo. congruence.
    + right. split; [done|]. by apply res_map_err_Ok in Eo.
Qed.

(** ** A concrete request *)

Module ProxyExample.
#[export] Instance no_xml : XmlLexer := {| lex := fun _ => ([], false) |}.

Definition get_request : HttpRequest :=
  mkHttpRequest "GET" "/photos/a b/c" "" "" {["X-Amz-Date" := ["20260102T030405Z"]]}
    "s3.example.com" "" 0 [] ∅ true.

Lemma outbound_target_witness :
  exists plan n scheme host, plan_of get_request None "photos" "a b/c" false = Ok plan /\
    NormalizeVBucketConfig (Some MappingExample.submitted) = Ok n /\ origin n scheme host /\
    sent n (withAuthorizationContext "" (Unix 0) plan) scheme host (Unix 0)
      (outbound_request (withAuthorizationContext "" (Unix 0) plan)
         (Some MappingExample.submitted) None (Unix 0)).
Proof.
  assert (exists plan, plan_of get_request None "photos" "a b/c" false = Ok plan) as [plan Hp]
    by (eexists; vm_compute; reflexivity).
  destruct (NormalizeVBucketConfig (Some MappingExample.submitted)) as [n|e] eqn:Hn;
    [|exfalso; revert Hn; vm_compute; discriminate].
  assert (Contains (RealEndpoint n) "%25" = false) as Hz.
  { pose proof (NormalizeVBucketConfig_Ok _ _ Hn) as (_ & He & _).
    assert (RealEndpoint n = "https://S3.example.com:9000") as ->; [|vm_compute; reflexivity].
    symmetry. apply (Ok_inj (E:=string)). rewrite <-He. vm_compute. reflexivity. }
  destruct (outbound_target get_request None "photos" "a b/c" false plan MappingExample.submitted
              n "" (Unix 0) (Unix 0) Hp Hn Hz) as (scheme & host & Ho & Hs).
  exists plan, n, scheme, host. split; [exact Hp|]. split; [reflexivity|]. split; [exact Ho|exact Hs].
Defined.
(** A copy of a version that the proxy named with a token. *)
Definition version_token : string :=
  match (let? n := res_map_err (fun _ => "") (NormalizeVBucketConfig (Some MappingExample.submitted)) in
         encodeOpaqueToken (Some n) "version" "v1") with
  | Ok token => token
  | Err _ => ""
  end.

Definition copy_request : HttpRequest :=
  mkHttpRequest "PUT" "/photos/new" "" ""
    {["X-Amz-Date" := ["20260102T030405Z"]; "X-Amz-Copy-Source" := ["/photos/a%20b?versionId=" +:+ version_token];
      "Authorization" := ["AWS4-HMAC-SHA256 Credential=AKIA/x"]; "User-Agent" := ["cli"; "1"]]}
    "s3.example.com" "" 0 [] ∅ true.

Lemma copy_leaves :
  exists plan cfg out, plan_of copy_request None "photos" "new" false = Ok plan /\
    p_kind plan = operationCopyObject /\
    outbound_request (withAuthorizationContext "" (Unix 0) plan) (Some MappingExample.submitted)
      None (Unix 0) = Ok (cfg, out).
Proof.
  assert ((let? plan := plan_of copy_request None "photos" "new" false in
           Ok (p_kind plan, is_ok (outbound_request (withAuthorizationContext "" (Unix 0) plan)
                                     (Some MappingExample.submitted) None (Unix 0))))
          = Ok (operationCopyObject, true)) as E by (vm_compute; reflexivity).
  destruct (plan_of copy_request None "photos" "new" false) as [plan|]; [|discriminate E].
  apply Ok_inj in E. apply pair_eq in E as [Hk E]. exists plan.
  destruct (outbound_request (withAuthorizationContext "" (Unix 0) plan) _ _ _) as [[cfg out]|];
    [|discriminate E].
  exists cfg, out. split; [reflexivity|]. split; [exact Hk|reflexivity].
Qed.

Lemma sent_headers_exact_witness :
  exists cfg out,
    r_Header (og_request out) !! "User-Agent" = Some ["cli"; "1"] /\
    exists text, r_Header (og_request out) !! "Authorization" = Some [text] /\
      HasPrefix text ("AWS4-HMAC-SHA256 Credential=" +:+ RealAccessKey cfg +:+ "/") = true.
Proof.
  destruct copy_leaves as (plan & cfg & out & Hp & Hk & Ho).
  assert (canonical_names (r_Header copy_request)) as Hc
    by (apply canonical_names_check; vm_compute; reflexivity).
  destruct (sent_headers_exact copy_request None "photos" "new" false plan MappingExample.submitted
              cfg "" (Unix 0) (Unix 0) out Hc Hp Ho) as (_ & _ & Ha & Hf).
  exists cfg, out. split; [|exact Ha]. apply Hf.
  - unfold proxy_field. intros [Hin|[_ ?]]; [|discriminate].
    revert Hin. apply (bool_decide_unpack _). vm_compute. exact I.
  - split; [vm_compute; reflexivity|]. split; [discriminate|]. rewrite Hk. right; left.
    apply list_elem_of_further, list_elem_of_here.
Defined.

Lemma copy_source_translated_witness :
  exists cfg out answer key opened,
    Header_Values (r_Header (og_request out)) "x-amz-copy-source" = [answer] /\
    names_source answer (RealBucket cfg) (normalizedPathPrefix (PathPrefix cfg) +:+ key) opened.
Proof.
  destruct copy_leaves as (plan & cfg & out & Hp & Hk & Ho).
  destruct (copy_source_translated copy_request None "photos" "new" false plan
              MappingExample.submitted cfg "" (Unix 0) (Unix 0) out Hp Hk Ho)
    as (asked & answer & key & version & opened & _ & _ & _ & _ & Ha & Hn & _).
  exists cfg, out, answer, key, opened. split; [exact Ha|exact Hn].
Defined.
End ProxyExample.
