(* ===== verification/ServeSpec.v ===== *)
(** * ServeSpec: a request from the socket to the backend and back

    The composition of the middleware and the handlers ([RegisterS3Routes]): what a
    client may receive of a backend, on any schedule. *)
From S2P Require Import Prelude GoStrings GoTime GoNet GoUrl GoHttp Json Iam Errors Cache Client.
From S2P Require Import Names CopySource Operation S3Authz Outbound Crypto Base64 Token ListRewrite.
From S2P Require Import ClientInv ClientHistory ClientCoherence.
From S2P Require Import Auth GoURLs Flight Mapping Lookup LookupSpec Xml Response Middleware.
From S2P Require Import CanonicalRequest SignVerify MiddlewareSpec Proxy ProxySpec.

Section spec.
Context `{XmlLexer} `{Platform} `{Timestamps} `{GrpcStatus} {CC VC : Type}
  `{TimedStoreLaws CC string (cached VirtualCredentials)}
  `{TimedStoreLaws VC string (cached VBucketConfig)}.

Abbreviation Sys := (Sys (CC:=CC) (VC:=VC)).
Abbreviation prog := (prog (CC:=CC) (VC:=VC)).
Abbreviation decision := (decision (Client (CC:=CC) (VC:=VC))).

Context (srv_cred : Z -> string -> option VirtualCredentials)
        (srv_conf : Z -> string -> option VBucketConfig).
Context (upstream : Outgoing -> option UpstreamResponse) (maxSkew : Z) (r : HttpRequest)
        (body : option stream).

(** [resp] is the virtualized answer of the backend to the one request made for [cx]. *)
Definition proxied (clock : Time -> Prop) (cx : s3_context) (resp : Response) : Prop :=
  exists now cfg out answer, clock now /\
    outbound_request (cx_plan cx) (cx_vbConfig cx) body now = Ok (cfg, out) /\
    upstream out = Some answer /\
    resp = writeVirtualizedUpstreamResponse ∅ (r_Method r) answer (cx_plan cx) cfg
             (normalizedPathPrefix (PathPrefix cfg)).

Definition served (clock : Time -> Prop) (visited : Sys -> Prop) (s s' : Sys) (h : handled) : Prop :=
  forall resp, h = Proxied resp -> exists cx d,
    justified srv_cred srv_conf maxSkew r body clock visited d cx /\
    revision (client s) <= de_revision _ d <= revision (client s') /\
    proxied clock cx resp.

Section logic.
Context (clock : Time -> Prop) (visited : Sys -> Prop).

Abbreviation wp := (wp srv_cred srv_conf (clock_answers clock) visited).
Abbreviation evolves := (evolves srv_cred srv_conf).
Abbreviation good := (good srv_cred srv_conf).

Lemma served_stable s : stable srv_cred srv_conf (served clock visited s).
Proof.
  intros s1 s2 h He Hs resp Hresp. destruct (Hs resp Hresp) as (cx & d & Hj & Hr & Hp).
  exists cx, d. pose proof (ev_revision _ _ _ _ He). split_and!; try done; lia.
Qed.

(** A section of the client that is an event of its own. *)
Lemma wp_client_event {A} (e : event (Cred:=VirtualCredentials) (Conf:=VBucketConfig))
    (f : Z -> Sys -> Sys * A) s (Q : Sys -> A -> Prop) :
  (forall now s1, (f now s1).1 = set_client (step (now, e) (client s1)) s1) ->
  event_ok (0, e) -> faithful srv_cred srv_conf (0, e) ->
  (forall s1 a, evolves s s1 -> Q s1 a) -> wp (act f) s Q.
Proof.
  intros Hf Ho He HQ. apply wp_act. intros s1 now He1.
  assert (evolves s1 (f now s1).1) as He2.
  { rewrite Hf. destruct He1 as [Hg _ _ _]. apply evolves_client; [done|].
    apply client_step_event; [apply Hg|apply Hg|done|done]. }
  split; [done|]. apply HQ. by eapply evolves_trans.
Qed.

Lemma wp_CreateVBucket accessKeyID bucketName constraint s (Q : Sys -> option error -> Prop) :
  (forall s1 a, Q s1 a) -> wp (CreateVBucket accessKeyID bucketName constraint) s Q.
Proof.
  intros HQ. unfold CreateVBucket. apply wp_bind, wp_observe. intros s1 He1 _.
  destruct (lookupSnapshot _) as [[rev ep]|]; [|apply HQ].
  apply wp_bind, wp_ask. intros s2 [reply|] He2 _; [|apply HQ].
  apply wp_bind. apply (wp_client_event (EvCreateReply rev reply)); [|done|done|].
  - intros now s3. cbn. by destruct (createReply now rev reply (client s3)).
  - intros s3 err He3. apply HQ.
Qed.

Lemma wp_ListVBuckets accessKeyID s (Q : Sys -> result error (list ListedVBucket) -> Prop) :
  (forall s1 a, Q s1 a) -> wp (ListVBuckets accessKeyID) s Q.
Proof.
  intros HQ. unfold ListVBuckets, listVBuckets.
  apply wp_bind, wp_bind, wp_observe. intros s1 He1 _.
  destruct (lookupSnapshot _) as [[rev ep]|]; [|apply HQ].
  apply wp_bind, wp_ask. intros s2 [[resp|]|] He2 _; [| |apply HQ].
  - apply wp_bind. apply (wp_client_event (EvUnaryRevision (lr_Revision resp) rev)); [|done|done|].
    { intros now s3. cbn. by destruct (checkUnaryRevision now _ rev (client s3)). }
    intros s3 [err|] He3; [apply HQ|]. apply wp_bind, wp_observe. intros s4 He4 _.
    destruct (stillCurrent _ _ _); cbn [negb]; [|apply HQ].
    destruct (res_mapM _ _); [|apply HQ]. apply wp_bind, wp_observe. intros s5 He5 _.
    destruct (stillCurrent _ _ _); apply HQ.
  - apply wp_bind. apply (wp_client_event EvResync); [done|done|done|].
    intros s3 [] He3. apply HQ.
Qed.

Lemma wp_handle cx s s0 d :
  justified srv_cred srv_conf maxSkew r body clock visited d cx ->
  revision (client s0) <= de_revision _ d <= revision (client s) ->
  wp (handleS3Request upstream r body (Some cx)) s (served clock visited s0).
Proof.
  intros Hj Hr.
  assert (wp (let! now := ask QNow in ret (proxyS3Request upstream (Some cx) (r_Method r) body now)) s
            (served clock visited s0)) as Hproxy.
  { apply wp_bind, wp_ask. intros s1 now He1 Hnow resp. unfold proxyS3Request. at_context.
    destruct (outbound_request _ _ _ _) as [[cfg out]|[]] eqn:Eo; [|done..].
    destruct (upstream out) as [answer|] eqn:Eu; [|done]. intros [= <-].
    exists cx, d. pose proof (ev_revision _ _ _ _ He1). split_and!; [done|lia|lia|].
    by exists now, cfg, out, answer. }
  unfold handleS3Request. at_context. destruct (p_kind (cx_plan cx)); try exact Hproxy.
  - unfold handleListVBuckets. at_context. apply wp_bind, wp_ListVBuckets. intros s1 [buckets|] resp; [|done].
    by destruct (listing_entries _ _).
  - unfold handleCreateVBucket. at_context. apply wp_bind, wp_CreateVBucket. by intros s1 [err|] resp.
Qed.

Lemma wp_serve s : good s -> wp (serve upstream maxSkew r body) s (served clock visited s).
Proof.
  intros Hg. unfold serve. apply wp_bind. eapply wp_mono; [|by apply wp_S3Auth].
  intros s1 [cx|e] Hd; [|by intros resp]. destruct (Hd cx eq_refl) as (d & Hj & Hr).
  by eapply wp_handle.
Qed.
End logic.

(** C1. End to end: on every schedule, a backend's answer reaches a client only for a
    request whose signature, policy and mapping were those of one revision of the control
    plane the client held during the request; it is the virtualized form of the answer to
    the one signed request made from the authorized plan and that mapping. *)
Theorem served_response_justified (now0 m : Z) (cc0 : CC) (vc0 : VC) (ca va : missAdmission)
    (cc0_empty : forall k v, ~ store_holds cc0 k v) (vc0_empty : forall k v, ~ store_holds vc0 k v)
    (ca_idle : inflight ca = 0) (va_idle : inflight va = 0)
    (clock : Time -> Prop) (before moves : list move) (s' : Sys) (resp : Response)
    (Hfaithful : Forall (faithful_move srv_cred srv_conf) (before ++ moves))
    (Hclock : Forall (fun mv => match mv with Turn _ o => clock (o Time QNow) | _ => True end) moves) :
  let s := system now0 m cc0 vc0 ca va before in
  play moves s (serve upstream maxSkew r body) = (s', Ret _ (Proxied resp)) ->
  exists cx d,
    justified srv_cred srv_conf maxSkew r body clock
      (fun s1 => s1 ∈ trace moves s (serve upstream maxSkew r body)) d cx /\
    revision (client s) <= de_revision _ d <= revision (client s') /\ proxied clock cx resp.
Proof.
  intros s Hp. apply Forall_app in Hfaithful as [Hb Hm].
  assert (good srv_cred srv_conf s) as Hg by by apply good_system.
  set (visited := fun s1 => s1 ∈ trace moves s (serve upstream maxSkew r body)).
  destruct (wp_play srv_cred srv_conf (clock_answers clock) visited moves
              (serve upstream maxSkew r body) s s' (Proxied resp) (served clock visited s))
    as [_ Hd]; try done.
  - eapply Forall_impl; [exact Hclock|]. intros [now e|now o]; [done|]. intros Hc A q. by destruct q.
  - apply served_stable.
  - by apply wp_serve.
  - by apply Hd.
Qed.
End spec.

(** ** A request that reaches its backend *)

Module ServeExample.
Import LookupExample MiddlewareExample.

(** The bucket "photos" of "AKIA" is mapped. *)
Definition mapping_response : LookupVBucketResponse :=
  let c := MappingExample.submitted in
  mkVBucketResponse 5 true (RealEndpoint c) (RealBucket c) (RealAccessKey c) (RealSecretKey c)
    (RealRegion c) (PathPrefix c) (RealUsePathStyle c) (RoutingTokenKey c) (Some 100) None.

Definition mapping : option VBucketConfig :=
  match vbucketResponseEntry (Some mapping_response) with Ok e => ce_value e | Err _ => None end.

Definition photos_key : string := vbucketCacheKey "AKIA" "photos".

Definition conf (key : string) : option VBucketConfig :=
  if String.eqb key photos_key then mapping else None.

Definition conf_reply (accessKeyID bucketName : string) (rev : Z)
    : result error (option LookupVBucketResponse) :=
  if String.eqb (vbucketCacheKey accessKeyID bucketName) photos_key
  then Ok (Some mapping_response) else Err (Status codeUnavailable).

(** A cold mapping lookup. *)
Definition conf_cold : list move :=
  [Turn 40 quiet_oracle; Turn 41 quiet_oracle; Turn 42 quiet_oracle; Env 43 (SysConfReply 0 conf_reply);
   Env 44 (SysConfLoad (FlightReturn 0)); Turn 45 quiet_oracle; Env 46 (SysConfLoad (FlightForget 0));
   Env 47 (SysConfLoad (FlightClose 0)); Turn 48 quiet_oracle; Turn 49 quiet_oracle].

(** Both lookups find what the control plane has, and the client stays at its revision. *)
Lemma lookups_run :
  exists s' s'',
    runs (cold allow_list) (start connect) (LookupCredentials "AKIA")
      = Some (s', Ok (creds allow_list)) /\
    runs conf_cold s' (LookupVBucket "AKIA" "photos") = Some (s'', Ok mapping) /\
    LookupBaseHost "s3.example.com" (client s') = Ok ("s3.example.com", true) /\
    exists stamp, BeginResolution (client (start connect)) = Ok stamp /\
      ValidateResolution stamp (client s'') = Ok tt.
Proof.
  assert (('(s', a) ← runs (cold allow_list) (start connect) (LookupCredentials "AKIA");
           '(s'', b) ← runs conf_cold s' (LookupVBucket "AKIA" "photos");
           Some (a, b, LookupBaseHost "s3.example.com" (client s'), BeginResolution (client s'')))
          = Some (Ok (creds allow_list), Ok mapping, Ok ("s3.example.com", true),
                  BeginResolution (client (start connect)))) as E by (vm_compute; reflexivity).
  assert (exists stamp, BeginResolution (client (start connect)) = Ok stamp) as [stamp Hs]
    by (eexists; vm_compute; reflexivity).
  apply bind_Some in E as ([s' a] & Hr & E). apply bind_Some in E as ([s'' b] & Hr' & E).
  apply (inj Some) in E. apply pair_eq in E as [E Hb]. apply pair_eq in E as [E Hh].
  apply pair_eq in E as [-> ->]. exists s', s''. split; [exact Hr|]. split; [exact Hr'|].
  split; [exact Hh|]. exists stamp. split; [exact Hs|]. apply BeginResolution_valid.
  exact (eq_trans Hb Hs).
Qed.

Definition head_plan (text : string) : S3OperationPlan :=
  match plan_of (with_signature "HEAD" "/photos" text) None "photos" "" false with
  | Ok p => p
  | Err _ => no_plan
  end.

Lemma head_planned text :
  plan_of (with_signature "HEAD" "/photos" text) None "photos" "" false = Ok (head_plan text) /\
  p_kind (head_plan text) = operationHeadBucket /\ p_rawQuery (head_plan text) = "" /\
  AuthorizeS3Plan (creds allow_list ≫= IAMPolicy)
    (Some (withAuthorizationContext "" noon (head_plan text))) = Ok tt.
Proof. split_and!; vm_compute; reflexivity. Qed.

(** The backend answers every request. *)
Definition backend (out : Outgoing) : option UpstreamResponse :=
  Some (mkUpstream 200 ∅ (mkStream "" true)).

Definition moves : list move :=
  ([Turn 5 quiet_oracle] ++ cold allow_list ++ [Turn 5 quiet_oracle] ++ [Turn 5 quiet_oracle]
   ++ (conf_cold ++ []) ++ [Turn 50 quiet_oracle] ++ [Turn 50 quiet_oracle]) ++ [Turn 51 quiet_oracle].

Lemma serve_moves_clock :
  Forall (fun mv => match mv with Turn _ o => noon = o Time QNow | _ => True end) moves.
Proof.
  unfold moves, cold, conf_cold. cbn [app]. repeat apply Forall_cons_2; try apply Forall_nil_2;
    try exact I; reflexivity.
Qed.

Lemma mapping_entry :
  exists c ttl, NormalizeVBucketConfig (Some MappingExample.submitted) = Ok c /\
    vbucketResponseEntry (Some mapping_response) = Ok (mkCached (Some c) true 5 ttl).
Proof.
  assert (vbucketResponseEntry (Some mapping_response) =
    let? ttl := cacheTTL "LookupVBucket response" (Some 100) in
    let? cfg := res_map_err (fun _ => Errorf "invalid LookupVBucket mapping" [])
                  (NormalizeVBucketConfig (Some MappingExample.submitted)) in
    Ok (mkCached (Some cfg) true 5 ttl)) as -> by reflexivity.
  destruct (NormalizeVBucketConfig (Some MappingExample.submitted)) as [n|e] eqn:Hn;
    [|exfalso; revert Hn; vm_compute; discriminate].
  eexists n, _. split; reflexivity.
Qed.

Lemma serve_moves_faithful :
  Forall (faithful_move (srv_cred allow_list) (fun _ k => conf k)) (connect ++ moves).
Proof.
  apply Forall_app. split; [apply connect_faithful|]. unfold moves. rewrite app_nil_r.
  repeat (apply Forall_app; split); try (repeat constructor; fail).
  - apply cold_faithful. vm_compute. eauto.
  - unfold conf_cold. repeat apply Forall_cons_2; try apply Forall_nil_2; try exact I.
    intros ak b rev resp. unfold conf_reply, faithful_reply.
    destruct (String.eqb (vbucketCacheKey ak b) photos_key) eqn:E; [|done]. intros [= <-].
    unfold conf, mapping. rewrite E. destruct mapping_entry as (c & ttl & _ & ->). done.
Qed.

Lemma head_sent text c :
  NormalizeVBucketConfig (Some MappingExample.submitted) = Ok c ->
  exists cfg out, outbound_request (withAuthorizationContext "" noon (head_plan text)) (Some c) None
                    noon = Ok (cfg, out).
Proof.
  intros Hc. destruct (head_planned text) as (Hplan & Hk & Hq & _).
  assert (RealEndpoint c = "https://S3.example.com:9000") as He.
  { pose proof (NormalizeVBucketConfig_Ok _ _ Hc) as (_ & He & _).
    symmetry. apply (Ok_inj (E:=string)). rewrite <-He. vm_compute. reflexivity. }
  assert (Contains (RealEndpoint c) "%25" = false) as Hz by (rewrite He; vm_compute; reflexivity).
  destruct (outbound_planned _ None "photos" "" false (head_plan text) c c "" noon noon Hplan
              (normalize_again _ _ Hc Hz) Hz) as (scheme & host & _ & Hs).
  unfold sent in Hs. cbv zeta in Hs.
  destruct (outbound_request _ _ _ _) as [[cfg out]|e]; [by exists cfg, out|].
  exfalso. cbn [withAuthorizationContext p_kind p_rawQuery] in Hs. rewrite Hk, Hq in Hs.
  destruct Hs as [[_ Hf]|[_ Hf]].
  - revert Hf. generalize (normalizedPathPrefix (PathPrefix c)). intros prefix. vm_compute. discriminate.
  - unfold outbound_copy_source in Hf. cbn [withAuthorizationContext p_kind] in Hf. by rewrite Hk in Hf.
Qed.

Lemma served_response_justified_witness :
  exists r s' resp, play moves (start connect) (serve backend 900000000000 r None)
                    = (s', Ret _ (Proxied resp)) /\
    exists cx (d : decision (Client (CC:=cred_store) (VC:=conf_store))),
      AuthorizeS3Plan (IAMPolicy (de_creds _ d)) (Some (cx_plan cx)) = Ok tt /\
      proxied backend r None (eq noon) cx resp.
Proof.
  destruct (signed_request_exists "HEAD" "/photos") as (text & info & Ha & Hak & Hv).
  destruct (head_planned text) as (Hp & Hk & _ & Hz).
  destruct lookups_run as (s' & s'' & Hr & Hr' & Hh & stamp & Hs & Hval).
  assert (exists c, creds allow_list = Some c /\ SecretKey c = "secret") as (c & Hc & Hsec)
    by (eexists; split; vm_compute; reflexivity).
  destruct mapping_entry as (n & ttl & Hn & Hentry).
  assert (mapping = Some n) as Hmap by (unfold mapping; by rewrite Hentry).
  destruct (head_sent text n Hn) as (cfg & out & Hout).
  rewrite Hc in Hr, Hz. cbn [mbind option_bind] in Hz. rewrite <-Hsec in Hv. rewrite Hmap in Hr'.
  rewrite <-Hak in Hr, Hr'.
  set (r := with_signature "HEAD" "/photos" text) in *.
  assert (runs (conf_cold ++ []) s' (locate info None "photos" false (head_plan text))
          = Some (s'', Ok (Some n, "", head_plan text))) as Hloc.
  { unfold locate. rewrite Hk. by apply (runs_or_answer s'' (Some n)). }
  pose proof (S3Auth_runs 900000000000 r None info stamp c "s3.example.com" true "photos" "" false
    (head_plan text) (Some n) "" (head_plan text) 5 50 quiet_oracle quiet_oracle (cold allow_list)
    (conf_cold ++ []) (start connect) s' s'' Ha Hs Hr Hv Hh eq_refl Hp Hloc Hz Hval) as Hauth.
  assert (exists resp, play moves (start connect) (serve backend 900000000000 r None)
                       = (s'', Ret _ (Proxied resp))) as [resp Hrun].
  { eexists. apply runs_play. unfold serve. eapply runs_app_bind; [exact Hauth|].
    unfold handleS3Request. at_context. cbn [withAuthorizationContext p_kind]. rewrite Hk.
    rewrite runs_ask. change (quiet_oracle Time QNow) with noon. unfold proxyS3Request.
    at_context. rewrite Hout. reflexivity. }
  exists r, s'', resp. split; [exact Hrun|].
  destruct (served_response_justified (srv_cred allow_list) (fun _ k => conf k) backend 900000000000 r
    None 0 4 no_creds no_confs adm adm no_creds_empty no_confs_empty eq_refl eq_refl (eq noon)
    connect moves s'' resp serve_moves_faithful serve_moves_clock Hrun) as (cx & d & Hj & _ & Hprox).
  exists cx, d. split; [exact (ju_policy _ _ _ _ _ _ _ _ _ Hj)|exact Hprox].
Defined.
End ServeExample.
