(* ===== verification/AvailabilitySpec.v ===== *)
(** * AvailabilitySpec: admissible requests are served

    The converse of [ServeSpec]: when the client is ready and holds what a request needs,
    and nothing else happens meanwhile, a request that is authentic, addressed, well
    formed and allowed reaches its backend and the client gets its answer.  A total
    correctness logic for programs that run alone counts their steps. *)
From S2P Require Import Prelude GoStrings GoTime GoNet GoUrl GoHttp Json Iam Errors Cache Client.
From S2P Require Import Names CopySource Operation S3Authz Outbound Crypto Base64 Token ListRewrite.
From S2P Require Import OperationSpec PlanSpec.
From S2P Require Import Auth AuthSpec GoURLs Flight Mapping Lookup Xml Response Middleware.
From S2P Require Import ClientInv ClientHistory ClientCoherence LookupSpec.
From S2P Require Import CanonicalRequest SignVerify MiddlewareSpec Proxy ProxySpec ServeSpec.

Section solo.
Context `{Platform} `{Timestamps} `{GrpcStatus} {CC VC : Type}
  `{TimedStore CC string (cached VirtualCredentials)}
  `{TimedStore VC string (cached VBucketConfig)}.

Abbreviation Sys := (Sys (CC:=CC) (VC:=VC)).
Abbreviation prog := (prog (CC:=CC) (VC:=VC)).

(** The readings of the monotonic clock, and the answers to questions. *)
Context (time : Z -> Prop) (answers : forall A, query A -> A -> Prop).

(** Alone, [p] ends within [n] of its own steps, in [Q]. *)
Fixpoint solo {R} (n : nat) (p : prog R) (s : Sys) (Q : Sys -> R -> Prop) : Prop :=
  match p, n with
  | Ret _ r, _ => Q s r
  | _, O => False
  | Act _ A f k, S n => forall now, time now -> solo n (k (f now s).2) (f now s).1 Q
  | Await _ A f k, S n => exists a, f s = Some a /\ solo n (k a) s Q
  | Ask _ A q k, S n => forall a, answers A q a -> solo n (k a) s Q
  end.

Lemma solo_le {R} n n' (p : prog R) s (Q : Sys -> R -> Prop) :
  (n <= n')%nat -> solo n p s Q -> solo n' p s Q.
Proof.
  revert n' p s. induction n as [|n IH]; intros [|n'] p s Hle; destruct p; cbn; try done; try lia;
    intros Hs; try (intros a Ha; apply IH; [lia|auto]).
  destruct Hs as (a & Ha & Hs). exists a. split; [done|]. apply IH; [lia|done].
Qed.

Lemma solo_bind {A B} m n (p : prog A) (f : A -> prog B) s (Q : Sys -> B -> Prop) :
  solo m p s (fun s' a => solo n (f a) s' Q) -> solo (m + n) (bind p f) s Q.
Proof.
  revert p s. induction m as [|m IH]; intros p s; destruct p as [r|X g k|X g k|X q k]; try done.
  - intros Hs. exact (solo_le n (S m + n) (f r) s Q ltac:(lia) Hs).
  - cbn. intros Hs now Hn. by apply IH, Hs.
  - cbn. intros (a & Ha & Hs). exists a. split; [done|by apply IH].
  - cbn. intros Hs a Ha. by apply IH, Hs.
Qed.

Lemma solo_mono {R} n (p : prog R) s (Q Q' : Sys -> R -> Prop) :
  (forall s r, Q s r -> Q' s r) -> solo n p s Q -> solo n p s Q'.
Proof.
  intros HQ. revert p s. induction n as [|n IH]; intros p s; destruct p; cbn; eauto.
  intros (a & ? & ?). eauto.
Qed.

(** A move of the program itself, at a good time and with good answers. *)
Definition own (mv : move) : Prop :=
  match mv with
  | Turn now o => time now /\ forall A q, answers A q (o A q)
  | Env _ _ => False
  end.

Lemma play_Ret {R} moves s (r : R) : Forall own moves -> play moves s (Ret R r) = (s, Ret R r).
Proof.
  induction 1 as [|[now e|now o] moves Hmv _ IH]; [done|by destruct Hmv|exact IH].
Qed.

Lemma solo_play {R} n moves s (p : prog R) (Q : Sys -> R -> Prop) :
  Forall own moves -> (n <= length moves)%nat -> solo n p s Q ->
  exists s' r, play moves s p = (s', Ret R r) /\ Q s' r.
Proof.
  intros Hm. revert n s p. induction Hm as [|[now e|now o] moves Hmv Hm IH]; intros n s p Hn Hs.
  - assert (n = 0%nat) as -> by (cbn in Hn; lia). destruct p; try done. by exists s, r.
  - by destruct Hmv.
  - destruct Hmv as [Ht Ha], p as [r|A f k|A f k|A q k].
    + exists s, r. split; [by apply (play_Ret (Turn now o :: moves)), Forall_cons|by destruct n].
    + destruct n as [|n]; [done|]. cbn in Hs, Hn. specialize (Hs now Ht).
      destruct (IH n (f now s).1 (k (f now s).2)) as (s' & r & Hp & HQ); [lia|done|].
      exists s', r. split; [|done]. unfold play in *. cbn. by destruct (f now s).
    + destruct n as [|n]; [done|]. cbn in Hs, Hn. destruct Hs as (a & Ha' & Hs).
      destruct (IH n s (k a)) as (s' & r & Hp & HQ); [lia|done|].
      exists s', r. split; [|done]. unfold play in *. cbn. by rewrite Ha'.
    + destruct n as [|n]; [done|]. cbn in Hs, Hn.
      destruct (IH n s (k (o A q))) as (s' & r & Hp & HQ); [lia|by apply Hs, Ha|].
      by exists s', r.
Qed.

Lemma solo_observe {A} (f : Client (CC:=CC) (VC:=VC) -> A) s (Q : Sys -> A -> Prop) :
  Q s (f (client s)) -> solo 1 (observe f) s Q.
Proof. by intros HQ now _. Qed.

Lemma solo_act {A} (f : Z -> Sys -> Sys * A) s (Q : Sys -> A -> Prop) :
  (forall now, time now -> Q (f now s).1 (f now s).2) -> solo 1 (act f) s Q.
Proof. intros HQ now Hn. by apply HQ. Qed.

Lemma solo_ask {A} (q : query A) s (Q : Sys -> A -> Prop) :
  (forall a, answers A q a -> Q s a) -> solo 1 (ask q) s Q.
Proof. intros HQ a Ha. by apply HQ. Qed.

(** ** Warm lookups *)

(** The client's state with other entries in its caches. *)
Definition same_sync (c c' : Client (CC:=CC) (VC:=VC)) : Prop :=
  state c' = state c /\ revision c' = revision c /\ epoch c' = epoch c /\
  connected c' = connected c /\ baseHosts c' = baseHosts c.

Definition serving (c : Client (CC:=CC) (VC:=VC)) : Prop :=
  state c = StateReady /\ connected c = true.

Lemma serving_same c c' : same_sync c c' -> serving c -> serving c'.
Proof. intros (Hs & _ & _ & Hc & _) [? ?]. split; congruence. Qed.

Lemma lookupSnapshot_serving c : serving c -> lookupSnapshot c = Ok (revision c, epoch c).
Proof. intros [Hs Hc]. unfold lookupSnapshot. by rewrite bool_decide_true, Hc. Qed.

Lemma stillCurrent_serving c : serving c -> stillCurrent (revision c) (epoch c) c = true.
Proof. intros [Hs _]. unfold stillCurrent. by rewrite bool_decide_true, !Z.eqb_refl. Qed.

(** A lookup whose entry is cached takes three steps. *)
Lemma solo_lookup {A} (ops : lookup_ops A) s (Q : Sys -> result error (option A) -> Prop) :
  serving (client s) ->
  (forall now, time now -> exists v, (lo_read A ops now s).2 = Some v /\
     ce_Revision v <= revision (client s) /\ same_sync (client s) (client (lo_read A ops now s).1) /\
     Q (lo_read A ops now s).1 (entry_value v)) ->
  solo 3 (lookup ops) s Q.
Proof.
  intros Hs Hr. unfold lookup, lookup_pass at 1.
  apply (solo_bind 1 2), solo_observe. rewrite lookupSnapshot_serving by done.
  apply (solo_bind 1 1), solo_act. intros now Hn. destruct (Hr now Hn) as (v & -> & Hv & Hsame & HQ).
  rewrite (proj2 (Z.leb_le _ _) Hv). apply (solo_bind 1 0), solo_observe.
  pose proof (serving_same _ _ Hsame Hs) as Hs'. destruct Hsame as (_ & <- & <- & _).
  by rewrite stillCurrent_serving.
Qed.

Definition warm_credentials (key : string) (creds : VirtualCredentials) (s : Sys) : Prop :=
  forall now, time now -> exists v, (readCredentials now key (client s)).2 = Some v /\
    ce_Found v = true /\ ce_value v = Some creds /\ ce_Revision v <= revision (client s).

Definition warm_mapping (key : string) (cfg : VBucketConfig) (s : Sys) : Prop :=
  forall now, time now -> exists v, (readVBucket now key (client s)).2 = Some v /\
    ce_Found v = true /\ ce_value v = Some cfg /\ ce_Revision v <= revision (client s).

Lemma solo_LookupCredentials key creds s (Q : Sys -> result error (option VirtualCredentials) -> Prop) :
  serving (client s) -> warm_credentials key creds s ->
  (forall s', same_sync (client s) (client s') -> vbuckets (client s') = vbuckets (client s) ->
     Q s' (Ok (Some creds))) ->
  solo 3 (LookupCredentials key) s Q.
Proof.
  intros Hs Hw HQ. unfold LookupCredentials. apply (solo_bind 3 0), solo_lookup; [done|].
  intros now Hn. destruct (Hw now Hn) as (v & Hr & Hf & Hv & Hrev). exists v.
  cbn [lo_read cred_ops]. unfold readCredentials in *.
  destruct (store_get now key (credentials (client s))) as [cc o]. cbn in *. subst o.
  split_and!; [done..|]. unfold entry_value. rewrite Hf, Hv. by apply HQ.
Qed.

Lemma solo_LookupVBucket accessKeyID bucket cfg s (Q : Sys -> result error (option VBucketConfig) -> Prop) :
  serving (client s) -> warm_mapping (vbucketCacheKey accessKeyID bucket) cfg s ->
  (forall s', same_sync (client s) (client s') -> Q s' (Ok (Some cfg))) ->
  solo 3 (LookupVBucket accessKeyID bucket) s Q.
Proof.
  intros Hs Hw HQ. unfold LookupVBucket. apply (solo_bind 3 0), solo_lookup; [done|].
  intros now Hn. destruct (Hw now Hn) as (v & Hr & Hf & Hv & Hrev). exists v.
  cbn [lo_read conf_ops]. unfold readVBucket in *.
  destruct (store_get now _ (vbuckets (client s))) as [vc o]. cbn in *. subst o.
  split_and!; [done..|]. unfold entry_value. rewrite Hf, Hv. by apply HQ.
Qed.

Lemma warm_mapping_same key cfg s s' :
  warm_mapping key cfg s -> same_sync (client s) (client s') ->
  vbuckets (client s') = vbuckets (client s) -> warm_mapping key cfg s'.
Proof.
  intros Hw (_ & Hr & _) Hv now Hn. destruct (Hw now Hn) as (v & Hg & ? & ? & ?). exists v.
  rewrite Hr. split_and!; try done. unfold readVBucket in *. rewrite Hv.
  by destruct (store_get now key (vbuckets (client s))).
Qed.
End solo.

Section availability.
Context `{XmlLexer} `{Platform} `{Timestamps} `{GrpcStatus} {CC VC : Type}
  `{TimedStore CC string (cached VirtualCredentials)}
  `{TimedStore VC string (cached VBucketConfig)}.

Abbreviation Sys := (Sys (CC:=CC) (VC:=VC)).
Abbreviation prog := (prog (CC:=CC) (VC:=VC)).

Context (time : Z -> Prop) (clock : Time -> Prop).
Context (upstream : Outgoing -> option UpstreamResponse) (maxSkew : Z) (r : HttpRequest)
        (body : option stream).

Abbreviation solo := (solo time (clock_answers clock)).

(** What a request for an object or a bucket of a mapping needs to be served. *)
Record admissible (s : Sys) (info : AuthInfo) (creds : VirtualCredentials) (cfg : VBucketConfig)
    (bucket objectKey : string) (isVHost : bool) (plan : S3OperationPlan) : Prop := {
  ad_serving : serving (client s);
  ad_header : authorization_of r = Ok info;
  ad_credentials : warm_credentials time (AccessKeyID info) creds s;
  ad_signature now : clock now -> authenticated r info (SecretKey creds) now maxSkew;
  ad_address : exists baseHost found,
    LookupBaseHost (resolve_host r) (client s) = Ok (baseHost, found) /\
    resolve_path (resolve_host r) baseHost found r = (bucket, objectKey, isVHost);
  ad_plan : plan_of r body bucket objectKey isVHost = Ok plan;
  ad_kind : p_kind plan <> operationListBuckets /\ p_kind plan <> operationCreateBucket;
  ad_policy : exists pol, IAMPolicy creds = Some pol /\
    forall now check, clock now -> check ∈ p_iamChecks plan ->
      let req := mkRequest (rq_action check) (rq_resource check)
                   (authorization_context "" (p_signedAt plan) now (p_iamContext plan)) in
      matching pol req effectAllow /\ ~ matching pol req effectDeny;
  ad_mapping : warm_mapping time (vbucketCacheKey (AccessKeyID info) bucket) cfg s;
  ad_canonical : NormalizeVBucketConfig (Some cfg) = Ok cfg;
  ad_zone : Contains (RealEndpoint cfg) "%25" = false;
  ad_query : is_ok (rewriteOutboundQuery (p_kind plan) (p_rawQuery plan)
      (normalizedPathPrefix (PathPrefix cfg))
      (bool_decide (classifyS3RequestTransform (p_kind plan) = requestTransformListQuery))
      (Some cfg)) = true;
  ad_source now : is_ok (outbound_copy_source (withAuthorizationContext "" now plan) cfg
      (normalizedPathPrefix (PathPrefix cfg))
      (copyOutboundRequestHeaders (p_forwardHeaders plan) ∅ (p_kind plan))) = true
}.

Lemma solo_or_ok {A B E} n (to_error : E -> s3_error) (a : A) (k : A -> prog (result s3_error B)) s
    (Q : Sys -> result s3_error B -> Prop) :
  solo n (k a) s Q -> solo n (or_answer to_error (ret (Ok a)) k) s Q.
Proof. done. Qed.

Lemma solo_or_answer {A B E} m n (to_error : E -> s3_error) (c : prog (result E A))
    (k : A -> prog (result s3_error B)) s (Q : Sys -> result s3_error B -> Prop) :
  solo m c s (fun s' res => exists a, res = Ok a /\ solo n (k a) s' Q) ->
  solo (m + n) (or_answer to_error c k) s Q.
Proof.
  intros Hc. apply solo_bind. eapply solo_mono; [|exact Hc]. by intros s' res (a & -> & Hk).
Qed.

Lemma LookupBaseHost_same host (c c' : Client (CC:=CC) (VC:=VC)) :
  same_sync c c' -> LookupBaseHost host c' = LookupBaseHost host c.
Proof. intros (Hs & _ & _ & _ & Hb). unfold LookupBaseHost. by rewrite Hs, Hb. Qed.

Lemma same_sync_trans (c1 c2 c3 : Client (CC:=CC) (VC:=VC)) :
  same_sync c1 c2 -> same_sync c2 c3 -> same_sync c1 c3.
Proof. unfold same_sync. intuition congruence. Qed.

Lemma policy_allows policy pol now plan :
  policy = Some pol ->
  (forall check, check ∈ p_iamChecks plan ->
     let req := mkRequest (rq_action check) (rq_resource check)
                  (authorization_context "" (p_signedAt plan) now (p_iamContext plan)) in
     matching pol req effectAllow /\ ~ matching pol req effectDeny) ->
  AuthorizeS3Plan policy (Some (withAuthorizationContext "" now plan)) = Ok tt.
Proof.
  intros -> Hc. apply AuthorizeS3Plan_sealed. intros check Hin. apply Authorize_Ok.
  exists pol. split; [done|by apply Hc].
Qed.

(** The middleware lets an admissible request through in eleven steps. *)
Lemma solo_S3Auth s info creds cfg bucket objectKey isVHost plan :
  admissible s info creds cfg bucket objectKey isVHost plan ->
  solo 11 (S3Auth maxSkew r body) s (fun s' res => exists now, clock now /\
    res = Ok (mkContext (Some cfg) info (withAuthorizationContext "" now plan))).
Proof.
  intros Had. destruct Had as [Hserve Hh Hcr Hsig (baseHost & found & Hbase & Hpath) Hplan
    [Hnl Hnc] (pol & Hpol & Hallow) Hmap _ _ _ _].
  unfold S3Auth. rewrite Hh. apply solo_or_ok.
  apply (solo_or_answer 1 10), solo_observe. exists (revision (client s), epoch (client s)).
  split; [by apply lookupSnapshot_serving|].
  apply (solo_or_answer 3 7), (solo_LookupCredentials _ _ _ creds); [done..|]. intros s1 Hs1 Hv1.
  exists (Some creds). split; [done|]. apply solo_or_ok.
  apply (solo_bind _ _ 1 6), solo_ask. intros verified Hverified.
  rewrite (verify_complete _ _ _ _ _ (Hsig verified Hverified)). apply solo_or_ok.
  apply (solo_or_answer 1 5). unfold resolveBucket. apply (solo_bind _ _ 1 0), solo_observe.
  rewrite (LookupBaseHost_same _ (client s)), Hbase by done.
  exists (bucket, objectKey, isVHost). split; [by f_equal|]. rewrite Hplan. apply solo_or_ok.
  apply (solo_or_answer 3 2).
  assert (forall Q, (forall s2, same_sync (client s1) (client s2) -> Q s2 (Ok (Some cfg, "", plan))) ->
    solo 3 (locate info body bucket isVHost plan) s1 Q) as Hlocate.
  { intros Q HQ. unfold locate. assert (solo 3 (or_answer (resolver_error false)
      (LookupVBucket (AccessKeyID info) bucket) (fun vbConfig => ret (Ok (vbConfig, "", plan)))) s1 Q) as Hl.
    { apply (solo_or_answer 3 0), (solo_LookupVBucket _ _ _ _ cfg).
      - by apply (serving_same (client s)).
      - by apply (warm_mapping_same _ _ _ s).
      - intros s2 Hs2. exists (Some cfg). split; [done|by apply HQ]. }
    by destruct (p_kind plan). }
  apply Hlocate. intros s2 Hs2. eexists. split; [done|].
  apply (solo_bind _ _ 1 1), solo_ask. intros now Hnow. cbv zeta.
  rewrite (policy_allows _ pol now plan); [|done|by intros; apply Hallow].
  cbn [res_map_err]. apply solo_or_ok.
  apply (solo_or_answer 1 0), solo_observe. exists tt. split; [|by exists now].
  pose proof (same_sync_trans _ _ _ Hs1 Hs2) as Hs. unfold ValidateResolution.
  pose proof (stillCurrent_serving _ (serving_same _ _ Hs Hserve)) as Hcur.
  destruct Hs as (_ & Hrev & Hep & _). rewrite Hrev, Hep in Hcur. cbn. by rewrite Hcur.
Qed.

(** The answer to an admissible request: the virtualized response of its backend to the
    one request that is sent for it, or the failure to reach the backend. *)
Definition answered (cfg : VBucketConfig) (plan : S3OperationPlan) (h : handled) : Prop :=
  exists authorized now scheme host out,
    clock authorized /\ clock now /\ origin cfg scheme host /\
    let sealed := withAuthorizationContext "" authorized plan in
    sent cfg sealed scheme host now (Ok (cfg, out)) /\
    h = match upstream out with
        | Some answer => Proxied (writeVirtualizedUpstreamResponse ∅ (r_Method r) answer sealed cfg
                                    (normalizedPathPrefix (PathPrefix cfg)))
        | None => Failed (mkS3Error 502 "InternalError" "Failed to contact upstream S3")
        end.

Lemma solo_handle (s s1 : Sys) info creds cfg bucket objectKey isVHost plan authorized :
  admissible s info creds cfg bucket objectKey isVHost plan -> clock authorized ->
  solo 1 (handleS3Request upstream r body
            (Some (mkContext (Some cfg) info (withAuthorizationContext "" authorized plan)))) s1
    (fun _ h => answered cfg plan h).
Proof.
  intros Had Hauth.
  destruct (ad_kind _ _ _ _ _ _ _ _ Had) as [Hnl Hnc].
  assert (solo 1 (let! now := ask QNow in ret (proxyS3Request upstream
    (Some (mkContext (Some cfg) info (withAuthorizationContext "" authorized plan))) (r_Method r) body now)) s1
    (fun _ h => answered cfg plan h)) as Hproxy.
  { apply (solo_bind _ _ 1 0), solo_ask. intros now Hnow.
    destruct (outbound_planned r body bucket objectKey isVHost plan cfg cfg "" authorized now
      (ad_plan _ _ _ _ _ _ _ _ Had) (ad_canonical _ _ _ _ _ _ _ _ Had) (ad_zone _ _ _ _ _ _ _ _ Had))
      as (scheme & host & Ho & Hs).
    enough (answered cfg plan (proxyS3Request upstream (Some (mkContext (Some cfg) info
      (withAuthorizationContext "" authorized plan))) (r_Method r) body now)) as Ha by exact Ha.
    unfold proxyS3Request. at_context.
    destruct (outbound_request _ _ _ _) as [[c out]|e].
    - pose proof Hs as [-> _]. by exists authorized, now, scheme, host, out.
    - exfalso. destruct Hs as [[_ Hf]|[_ Hf]].
      + cbn [withAuthorizationContext p_kind p_rawQuery] in Hf.
        by rewrite (ad_query _ _ _ _ _ _ _ _ Had) in Hf.
      + cbn [withAuthorizationContext p_kind p_forwardHeaders] in Hf.
        by rewrite (ad_source _ _ _ _ _ _ _ _ Had) in Hf. }
  unfold handleS3Request. at_context. cbn [withAuthorizationContext p_kind].
  by destruct (p_kind plan).
Qed.

(** C3. Availability of a request that runs alone, in warm caches. Suppose the client is
    ready and its caches hold the credentials and the mapping of the request; the request
    is not a bucket listing or creation; it is authentic at every clock reading it may
    get, addressed, plannable and allowed by its policy; its opaque tokens open; and its
    mapping is canonical, with an endpoint that has no [%25]. Then, if no other request
    and no watch takes a step meanwhile (a revision change in between is answered 503),
    it is answered within twelve steps of its own: with the virtualized response of the
    mapping's backend to the one request sent for it, or with 502, the failure to contact
    the backend, when that does not respond. None of the proxy's own checks turns it
    away, and no handler panics. *)
Theorem admissible_request_served (s : Sys) (info : AuthInfo) (creds : VirtualCredentials)
    (cfg : VBucketConfig) (bucket objectKey : string) (isVHost : bool) (plan : S3OperationPlan)
    (moves : list move)
    (Hadmissible : admissible s info creds cfg bucket objectKey isVHost plan)
    (Halone : Forall (own time (clock_answers clock)) moves) (Hlong : (12 <= length moves)%nat) :
  exists s' h, play moves s (serve upstream maxSkew r body) = (s', Ret _ h) /\ answered cfg plan h.
Proof.
  apply (solo_play time (clock_answers clock) 12 moves s _ (fun _ h => answered cfg plan h)); [done..|].
  unfold serve. apply (solo_bind _ _ 11 1). eapply solo_mono; [|by eapply solo_S3Auth].
  intros s1 res (authorized & Hauth & ->). by eapply solo_handle.
Qed.
End availability.

(** ** A request that is served from warm caches *)

Module AvailabilityExample.
Import LookupExample MiddlewareExample ServeExample.

(** What both caches say at time 60, after the two cold lookups. *)
Definition entry {A} (o : option (cached A)) : option (bool * option A * Z) :=
  (fun v => (ce_Found v, ce_value v, ce_Revision v)) <$> o.

Lemma entry_Some {A} (o : option (cached A)) f x rev :
  entry o = Some (f, x, rev) ->
  exists v, o = Some v /\ ce_Found v = f /\ ce_value v = x /\ ce_Revision v = rev.
Proof. unfold entry. intros (v & -> & [=])%fmap_Some. by exists v. Qed.

Lemma warmed :
  exists s, serving (client s) /\ revision (client s) = 5 /\
    entry (readCredentials 60 "AKIA" (client s)).2 = Some (true, creds allow_list, 5) /\
    entry (readVBucket 60 photos_key (client s)).2 = Some (true, mapping, 5) /\
    LookupBaseHost "s3.example.com" (client s) = Ok ("s3.example.com", true).
Proof.
  assert (('(s', _) ← runs (cold allow_list) (start connect) (LookupCredentials "AKIA");
           '(s, _) ← runs conf_cold s' (LookupVBucket "AKIA" "photos");
           Some (state (client s), connected (client s), revision (client s),
                 entry (readCredentials 60 "AKIA" (client s)).2,
                 entry (readVBucket 60 photos_key (client s)).2,
                 LookupBaseHost "s3.example.com" (client s)))
          = Some (StateReady, true, 5, Some (true, creds allow_list, 5), Some (true, mapping, 5),
                  Ok ("s3.example.com", true))) as E by (vm_compute; reflexivity).
  apply bind_Some in E as ([s' a] & _ & E). apply bind_Some in E as ([s b] & _ & E).
  apply (inj Some) in E. apply pair_eq in E as [E Hh]. apply pair_eq in E as [E Hm].
  apply pair_eq in E as [E Hc]. apply pair_eq in E as [E Hr]. apply pair_eq in E as [Hs Hk].
  exists s. split; [by split|]. split; [exact Hr|]. split; [exact Hc|]. split; [exact Hm|exact Hh].
Qed.

Lemma head_admissible :
  exists r s info creds cfg plan,
    admissible (eq 60) (eq noon) 900000000000 r None s info creds cfg "photos" "" false plan.
Proof.
  destruct (signed_request_exists "HEAD" "/photos") as (text & info & Ha & Hak & Hv).
  destruct (head_planned text) as (Hp & Hk & Hq & Hz).
  assert (length (p_iamChecks (head_plan text)) = 1%nat) as Hlen by (vm_compute; reflexivity).
  revert Hp Hk Hq Hz Hlen. generalize (head_plan text). intros plan Hp Hk Hq Hz Hlen.
  destruct warmed as (s & Hs & Hrev & Hwc & Hwm & Hh).
  assert (exists c, creds allow_list = Some c /\ SecretKey c = "secret") as (c & Hc & Hsec)
    by (eexists; split; vm_compute; reflexivity).
  destruct mapping_entry as (n & ttl & Hn & Hentry).
  assert (mapping = Some n) as Hmap by (unfold mapping; by rewrite Hentry).
  assert (RealEndpoint n = "https://S3.example.com:9000") as He.
  { pose proof (NormalizeVBucketConfig_Ok _ _ Hn) as (_ & He & _).
    symmetry. apply (Ok_inj (E:=string)). rewrite <-He. vm_compute. reflexivity. }
  assert (Contains (RealEndpoint n) "%25" = false) as Hzone by (rewrite He; vm_compute; reflexivity).
  rewrite Hc in Hwc, Hz. rewrite Hmap in Hwm. cbn [mbind option_bind] in Hz.
  apply entry_Some in Hwc as (vc & Hc1 & Hc2 & Hc3 & Hc4).
  apply entry_Some in Hwm as (vm & Hm1 & Hm2 & Hm3 & Hm4).
  exists (with_signature "HEAD" "/photos" text), s, info, c, n, plan. split.
  - exact Hs.
  - exact Ha.
  - intros now <-. exists vc. rewrite Hak, Hrev, Hc4. split; [exact Hc1|]. split; [exact Hc2|].
    split; [exact Hc3|lia].
  - intros now <-. apply verify_sound; [done|]. by rewrite Hsec.
  - exists "s3.example.com", true. split; [exact Hh|reflexivity].
  - exact Hp.
  - split; rewrite Hk; discriminate.
  - destruct (IAMPolicy c) as [pol|] eqn:Hpol.
    + exists pol. split; [reflexivity|]. intros now check <- Hin.
      destruct (proj1 (Authorize_Ok _ _) (proj1 (AuthorizeS3Plan_sealed _ _ _ _) Hz check Hin))
        as (? & [= <-] & Hmatch). exact Hmatch.
    + destruct (p_iamChecks plan) as [|check checks] eqn:Hchecks; [discriminate Hlen|].
      assert (check ∈ p_iamChecks plan) as Hin by (rewrite Hchecks; constructor).
      destruct (proj1 (Authorize_Ok _ _) (proj1 (AuthorizeS3Plan_sealed _ _ _ _) Hz check Hin))
        as (? & [=] & _).
  - intros now <-. exists vm. rewrite Hak, Hrev, Hm4. split; [exact Hm1|]. split; [exact Hm2|].
    split; [exact Hm3|lia].
  - exact (normalize_again _ _ Hn Hzone).
  - exact Hzone.
  - rewrite Hk, Hq. generalize (normalizedPathPrefix (PathPrefix n)). intros prefix. vm_compute. reflexivity.
  - intros now. unfold outbound_copy_source. cbn [withAuthorizationContext p_kind]. by rewrite Hk.
Qed.

Lemma admissible_request_served_witness :
  exists r s s' h cfg plan,
    play (replicate 12 (Turn 60 quiet_oracle)) s (serve backend 900000000000 r None) = (s', Ret _ h) /\
    answered (eq noon) backend r cfg plan h.
Proof.
  destruct head_admissible as (r & s & info & c & cfg & plan & Had).
  destruct (admissible_request_served (eq 60) (eq noon) backend 900000000000 r None s info c cfg
    "photos" "" false plan (replicate 12 (Turn 60 quiet_oracle)) Had) as (s' & h & Hp & Ha).
  - apply Forall_replicate. split; [reflexivity|]. intros A q. by destruct q.
  - rewrite length_replicate. apply le_n.
  - exists r, s, s', h, cfg, plan. split; [exact Hp|exact Ha].
Defined.
End AvailabilityExample.
